(* ===== verification/_CoqProject ===== *)
-Q . S2P
Prelude.v
PyStr.v
Floats.v
Errors.v
Json.v
Metadata.v
Policy.v
SqlGuard.v
Numbers.v
DataSources.v
Executor.v
SafeQuery.v
QuestionGuard.v
StructuredLLM.v
NL2SQL.v
AgentState.v
AgentGraph.v
AgentService.v
Observability.v
Parsing.v
Embeddings.v
KnowledgeRepository.v
RetrievalService.v
Providers.v
JsonText.v
Utf8.v
GraphModels.v
GraphStore.v
GraphService.v
GraphImport.v
Neo4jStore.v
PyText.v
Decimal.v
Answering.v
NorthwindActions.v
Base64.v
KnowledgeApi.v
FloatText.v
PostgresKnowledge.v
Introspector.v
McpServer.v
Settings.v
SettingsCache.v
Rounding.v
Evaluation.v
EvaluationRunner.v
Workflow.v
AgentDemo.v
Application.v
Production.v
RetrievalEvaluation.v
GraphEvaluation.v
Commands.v
Operators.v
Evidence.v
