(* ===== verification/Prelude.v ===== *)
(** * Enterprise Data Copilot, agent service: verification development

    The program is the Python agent service under
    [src/agent-service/app], with the evidence script of [src/scripts]: it
    answers business questions over a PostgreSQL warehouse.  A question passes a text guard, a language model selects
    tables and drafts SQL, a SQL guard checks the draft against a policy made
    from the catalog, a planner estimate decides whether an administrator has
    to approve it, a read-only bounded executor runs it, and every outcome is
    audited.  Around that core stand the durable workflow (a graph with an
    approval pause), the metric knowledge base (documents, chunks, hybrid
    retrieval) and the knowledge graph.

    ** How the model is built

    Everything is a shallow embedding.  A Python call is a [result] (a value
    or an exception of [Errors.exn]); a handler that talks to collaborators is
    an [eff]: it runs over their combined state [W], leaves the list of the
    calls it made, and ends in a [result].  Collaborators that are not part
    of the repository (sqlglot, psycopg, httpx, LangGraph, pypdf, Neo4j,
    pydantic's JSON-schema validators, hashes, Unicode tables) are classes;
    their laws, where a theorem needs some, are class fields or hypotheses
    and have an instance among the demos that the witnesses use.  This file
    holds those monads, their program logic ([sat], [yields], [hoare]), list
    lemmas, sorting, and the automation.

    ** Files and the code they model

    - [PyStr], [Floats], [Numbers], [Json], [JsonText], [Utf8], [Base64],
      [PyText], [Decimal], [FloatText], [Rounding]: the parts of Python the
      code computes with.  Strings as UTF-8 with their code points, binary64
      floats (SpecFloat) with the compensated [sum], [float()]/[int()],
      [json.dumps] in its three layouts and [json.loads], which reads any
      layout of a value back, [str()] and [repr()] of row values, decimal arithmetic in its context, shortest and fixed float
      texts, correctly rounded quotients and [round].
    - [Errors]: every [errors.py], and [agent/error_policy.py].
    - [Metadata], [Introspector]: [metadata/].
    - [Policy], [SqlGuard], [Executor], [SafeQuery]: [query_safety/].
    - [DataSources], [Settings], [SettingsCache]: [data_sources/],
      [settings.py], the factories that build services from it, and the
      getters that keep what they read first.
    - [QuestionGuard], [NL2SQL]: [nl2sql/].
    - [StructuredLLM]: [llm/].
    - [AgentState], [AgentGraph], [NorthwindActions], [Answering],
      [AgentService]: [agent/], from the nodes and their production actions to
      the two endpoints.  [Workflow] puts the service, the graph and threads
      that are saved after every step together and takes any sequence of
      requests; [AgentDemo] is the offline demonstration on top of it.
    - [Observability]: [observability.py]; [Application]: [main.py], the
      agent's factory, and the HTTP sinks of [agent/steps.py]; [Production]:
      what the factory puts together, the endpoints with the graph, its
      production actions, the introspector, the estimator and the executor in
      one world, whose database keeps a log of the calls it gets.
    - [Parsing], [Embeddings], [KnowledgeRepository], [PostgresKnowledge],
      [RetrievalService], [Providers], [RetrievalEvaluation]: [retrieval/].
    - [GraphModels], [GraphStore], [Neo4jStore], [GraphService],
      [GraphImport], [GraphEvaluation]: [knowledge_graph/];
      [KnowledgeApi]: its endpoints and those of [retrieval/api.py].
    - [McpServer]: [mcp_server.py].
    - [Evaluation], [EvaluationRunner], [Commands]: [evaluation/],
      [nl2sql/evaluation.py] and [retrieval/cli.py]; [Operators]: the other
      commands, [metadata/cli.py], [knowledge_graph/cli.py], [main] of
      [retrieval/benchmark.py], and [query_safety/fixed.py]; [Evidence]:
      [scripts/verify-portfolio-evidence.py] and the report it reads.

    Each file names the functions it models where it defines them; a
    definition keeps the source's name where Rocq allows it.

    ** What the theorems show

    End to end: whatever the endpoints are asked and whatever the model, the
    database and the platform do, the business database sees nothing but
    catalog reads, EXPLAINs of guarded queries and bounded read-only runs of
    queries that were guarded and cleared
    ([Production.database_sees_guarded_queries]).

    Query safety: the executor runs only what the guard passed and the planner
    or an approval cleared ([SafeQuery.executor_gated],
    [AgentGraph.workflow_executes_only_cleared]), and with the production
    actions only SQL that the guard of the policy inspected
    ([NorthwindActions.northwind_executes_guarded]); the guard decides exactly
    the specification [SqlGuard.safe_statement] and fails closed; results stay
    within the policy's bounds and each session is one read-only transaction
    with balanced resources; every run is audited.

    Workflow: one run of the graph terminates within LangGraph's recursion
    limit, starting is idempotent, only a waiting run of the same tenant is
    resumed; over any sequence of requests a run's SQL is executed at most
    [max_repairs + 1] times and a run that has ended stays as it is
    ([Workflow]).

    Model calls: attempts, repairs and back-offs are bounded; prompts contain
    exactly the schema the policy allows; an answer about rows states the
    extreme values that are in them, and a change between periods reads back
    as the exact difference ([Answering]).

    Retrieval: chunk windows cover a section, versions and revisions grow
    together, searches stay within a tenant, the fused ranking is the weighted
    reciprocal rank sum, the HTTP providers retry within their bounds; the
    PostgreSQL store replaces a document in one transaction, its statements
    are fixed texts with the tenant as a parameter, and an embedding written
    as a literal reads back to ten digits ([PostgresKnowledge]).

    Knowledge graph: what is stored is quoted from its source; the in-memory
    path is a shortest one; an answer cites only evidence that was gathered;
    the Neo4j store replaces a source in one transaction and scopes every
    statement; the endpoints call nothing before they have authorized the
    caller; the triples read off a stored graph are those of its extraction
    ([GraphEvaluation]).

    Around the core: valid settings build their services ([Settings]), the
    application closes what it opened in reverse order whatever fails, the
    platform is told nothing but allowlisted fields ([Application]), the
    catalog is read in one closed session ([Introspector]), an MCP request
    makes at most one call in the caller's tenant ([McpServer]), and the
    evaluation always ends with a report whose metrics are in range
    ([Evaluation], [EvaluationRunner]); the plan experiment is rolled back,
    the smoke test sends one fixed list of requests, and no external model is
    used without permission ([Commands]); settings are read once
    ([SettingsCache]); a printed snapshot passes its own check and no other's,
    an import closes its driver ([Operators]), and the report of a replay is
    the evidence that the script accepts ([Evidence]).

    ** Bounds and fuel

    Fuel is an argument only where the code loops on a bound of its own:
    [AgentGraph.run_graph] and [Workflow.run_saved] have LangGraph's limit of
    25 supersteps and [workflow_terminates] shows that at most 20 are used;
    [post_loop], [attempt_loop], [answer_loop] and [Neo4jStore]'s write
    retries count down the configured attempts; [NorthwindActions]'
    [select_loop] has the one retry of the code; the breadth-first path
    search of [GraphStore] takes the size of the tree of paths up to its
    depth; the digit loops of [FloatText] and [Decimal] take the number of
    digits; the JSON parser, the chunk windows and the batches use the length
    of their input, which every turn shortens.  The nearest rank of
    [Evaluation.metrics_sound] is checked up to ten thousand cases, because
    the code computes it in floating point.

    ** Not modelled

    The argument parsers of the command lines and the report files that some
    of them write.  What SQL
    and Cypher compute, what the model answers, and the registration of routes
    and tools are not code of the repository: they are parameters. *)

From stdpp Require Export base list gmap strings pretty sorting.
From Stdlib Require Export ZArith Lia.

#[global] Set Default Proof Using "Type".

Declare Scope copilot_scope.
Delimit Scope copilot_scope with copilot.
#[global] Open Scope copilot_scope.

(** ** Results: a Python call returns a value or raises an exception. *)

Inductive result (E A : Type) : Type :=
| Ok (a : A)
| Err (e : E).
Arguments Ok {E A} a.
Arguments Err {E A} e.

#[export] Instance result_ret {E} : MRet (result E) := λ A a, Ok a.
#[export] Instance result_bind {E} : MBind (result E) := λ A B f m,
  match m with Ok a => f a | Err e => Err e end.
#[export] Instance result_fmap {E} : FMap (result E) := λ A B f m,
  match m with Ok a => Ok (f a) | Err e => Err e end.

Definition is_ok {E A} (r : result E A) : bool :=
  match r with Ok _ => true | Err _ => false end.

(** [ensure b e] is the statement [if not b: raise e]. *)
Definition ensure {E} (b : bool) (e : E) : result E unit :=
  if b then Ok tt else Err e.

Lemma result_bind_Ok {E A B} (f : A → result E B) (m : result E A) b :
  (m ≫= f) = Ok b ↔ ∃ a, m = Ok a ∧ f a = Ok b.
Proof. destruct m; cbn; naive_solver. Qed.

Lemma result_bind_Err {E A B} (f : A → result E B) (m : result E A) e :
  (m ≫= f) = Err e ↔ m = Err e ∨ ∃ a, m = Ok a ∧ f a = Err e.
Proof. destruct m; cbn; naive_solver. Qed.

Lemma ensure_Ok {E} b (e : E) u : ensure b e = Ok u ↔ b = true.
Proof. destruct b, u; cbn; naive_solver. Qed.

Lemma ensure_Err {E} b (e e' : E) : ensure b e = Err e' ↔ b = false ∧ e' = e.
Proof. destruct b; cbn; naive_solver. Qed.

(** [for x in l: f(x)] where the body may raise: the first error wins. *)
Fixpoint for_each {E A} (f : A → result E unit) (l : list A) : result E unit :=
  match l with
  | [] => Ok tt
  | x :: l => _ ← f x; for_each f l
  end.

Lemma for_each_cons {E A} (f : A → result E unit) x l :
  for_each f (x :: l) = (f x ≫= λ _, for_each f l).
Proof. done. Qed.

Lemma for_each_Ok {E A} (f : A → result E unit) l u :
  for_each f l = Ok u ↔ Forall (λ x, f x = Ok tt) l.
Proof.
  destruct u. induction l as [|x l IH].
  - split; [constructor|done].
  - rewrite for_each_cons, result_bind_Ok, Forall_cons, <-IH. split.
    + intros ([] & ? & ?); done.
    + intros [? ?]; eexists; eauto.
Qed.

Lemma for_each_Err {E A} (f : A → result E unit) l e :
  for_each f l = Err e → ∃ x, x ∈ l ∧ f x = Err e.
Proof.
  induction l as [|x l IH]; [done|].
  rewrite for_each_cons, result_bind_Err. intros [?|([] & _ & [y [??]]%IH)].
  - exists x. split; [by left|done].
  - exists y. split; [by right|done].
Qed.

(** [[f(x) for x in l]] where [f] may raise. *)
Fixpoint map_result {E A B} (f : A → result E B) (l : list A) : result E (list B) :=
  match l with
  | [] => Ok []
  | x :: l => y ← f x; ys ← map_result f l; Ok (y :: ys)
  end.

Lemma map_result_cons {E A B} (f : A → result E B) x l :
  map_result f (x :: l) = (f x ≫= λ y, map_result f l ≫= λ ys, Ok (y :: ys)).
Proof. done. Qed.

Lemma map_result_Ok {E A B} (f : A → result E B) l ys :
  map_result f l = Ok ys ↔ Forall2 (λ x y, f x = Ok y) l ys.
Proof.
  revert ys. induction l as [|x l IH]; intros ys.
  - split; [intros [= <-]; constructor | by inversion 1].
  - rewrite map_result_cons, result_bind_Ok. split.
    + intros (y & Hy & (zs & Hzs & [= <-])%result_bind_Ok).
      constructor; [done|]. by apply IH.
    + inversion 1 as [|? y ? zs Hy Hzs]; subst. exists y. split; [done|].
      apply result_bind_Ok. exists zs. split; [by apply IH|done].
Qed.

Lemma Forall2_in_l {A B} (R : A → B → Prop) l k x :
  Forall2 R l k → x ∈ l → ∃ y, y ∈ k ∧ R x y.
Proof.
  induction 1 as [|a b l k HR _ IH]; [by intros ?%elem_of_nil|].
  intros [->|Hx]%elem_of_cons; [exists b; split; [by left|done]|].
  destruct (IH Hx) as (y & ? & ?). exists y. split; [by right|done].
Qed.

Lemma elem_of_map_result {E A B} (f : A → result E B) l ys y :
  map_result f l = Ok ys → y ∈ ys ↔ ∃ x, x ∈ l ∧ f x = Ok y.
Proof.
  intros HF%map_result_Ok. split.
  - intros Hy. apply Forall2_flip in HF.
    destruct (Forall2_in_l _ _ _ _ HF Hy) as (x & ? & ?). eauto.
  - intros (x & Hx & Hf). destruct (Forall2_in_l _ _ _ _ HF Hx) as (y' & ? & ?). congruence.
Qed.

Lemma map_result_total {E A B} (f : A → result E B) l :
  (∀ x, x ∈ l → ∃ y, f x = Ok y) → ∃ ys, map_result f l = Ok ys.
Proof.
  induction l as [|x l IH]; intros Hl; [by exists []|].
  destruct (Hl x ltac:(by left)) as [y Hy].
  destruct IH as [ys Hys]; [intros z Hz; apply Hl; by right|].
  exists (y :: ys). by rewrite map_result_cons, Hy; cbn; rewrite Hys.
Qed.

Lemma map_result_Err {E A B} (f : A → result E B) l e :
  map_result f l = Err e → ∃ x, x ∈ l ∧ f x = Err e.
Proof.
  induction l as [|x l IH]; [done|]. rewrite map_result_cons, result_bind_Err.
  intros [?|(y & Hy & Hr)]; [exists x; split; [by left|done]|].
  apply result_bind_Err in Hr as [(z & ? & ?)%IH|(? & _ & ?)]; [|done].
  exists z. split; [by right|done].
Qed.

Lemma map_result_length {E A B} (f : A → result E B) l ys :
  map_result f l = Ok ys → length ys = length l.
Proof. intros H%map_result_Ok. by apply Forall2_length in H. Qed.

(** ** Effects

    A handler that talks to collaborators (a database, a model provider, an
    audit sink) runs over their combined state [W], leaves the list of the
    calls it made (oldest first) and ends in a value or an exception. *)

Definition eff (W C E A : Type) : Type := W → W * list C * result E A.

#[export] Instance eff_ret {W C E} : MRet (eff W C E) := λ A a w, (w, [], Ok a).
#[export] Instance eff_bind {W C E} : MBind (eff W C E) := λ A B f m w,
  match m w with
  | (w1, t1, Ok a) => let '(w2, t2, r) := f a w1 in (w2, t1 ++ t2, r)
  | (w1, t1, Err e) => (w1, t1, Err e)
  end.

#[export] Instance eff_fmap {W C E} : FMap (eff W C E) := λ A B f m, m ≫= λ a, mret (f a).

Definition raise {W C E A} (e : E) : eff W C E A := λ w, (w, [], Err e).
Definition log_call {W C E} (c : C) : eff W C E unit := λ w, (w, [c], Ok tt).
Definition lift_result {W C E A} (r : result E A) : eff W C E A := λ w, (w, [], r).

(** A collaborator's operation, and the call of it that the handler makes. *)
Definition op (W E A : Type) : Type := W → W * result E A.
Definition invoke {W C E A} (c : C) (o : op W E A) : eff W C E A := λ w,
  let '(w', r) := o w in (w', [c], r).

(** A call that is kept together with its reply. *)
Definition observe {W C E A} (c : result E A → C) (o : op W E A) : eff W C E A := λ w,
  let '(w', r) := o w in (w', [c r], r).

(** A read of the clock or of a random source: it cannot fail and is not logged. *)
Definition silent {W C E A} (o : W → W * A) : eff W C E A := λ w,
  let '(w', a) := o w in (w', [], Ok a).

(** An effectful handler seen from outside: its state and its outcome. *)
Definition as_op {W C E A} (m : eff W C E A) : op W E A := λ w, let '(w', _, r) := m w in (w', r).

(** [try: m / except e: h e]; [h] re-raises what it does not handle. *)
Definition try_except {W C E A} (m : eff W C E A) (h : E → eff W C E A) : eff W C E A := λ w,
  match m w with
  | (w1, t1, Ok a) => (w1, t1, Ok a)
  | (w1, t1, Err e) => let '(w2, t2, r) := h e w1 in (w2, t1 ++ t2, r)
  end.

(** The exit of a [with] block: [f] runs on both outcomes of [m] and learns
    whether [m] ended normally; an exception of [f] replaces the outcome. *)
Definition finally {W C E A} (m : eff W C E A) (f : bool → eff W C E unit) : eff W C E A := λ w,
  let '(w1, t1, r1) := m w in
  let '(w2, t2, r2) := f (is_ok r1) w1 in
  (w2, t1 ++ t2, match r2 with Ok _ => r1 | Err e => Err e end).

Definition trace {W C E A} (m : eff W C E A) (w : W) : list C := (m w).1.2.
Definition outcome {W C E A} (m : eff W C E A) (w : W) : result E A := (m w).2.
Definition world {W C E A} (m : eff W C E A) (w : W) : W := (m w).1.1.

(** [sat m Q]: from every world, the calls and the outcome of [m] satisfy [Q]. *)
Definition sat {W C E A} (m : eff W C E A) (Q : list C → result E A → Prop) : Prop :=
  ∀ w, Q (trace m w) (outcome m w).

Section Sat.
Context {W C E : Type}.

Lemma sat_conseq {A} (m : eff W C E A) (Q R : list C → result E A → Prop) :
  sat m Q → (∀ t r, Q t r → R t r) → sat m R.
Proof. intros Hm HQ w. apply HQ, Hm. Qed.

Lemma sat_and {A} (m : eff W C E A) (Q R : list C → result E A → Prop) :
  sat m Q → sat m R → sat m (λ t r, Q t r ∧ R t r).
Proof. intros HQ HR w. by split. Qed.

Lemma sat_ret {A} (a : A) (Q : list C → result E A → Prop) :
  Q [] (Ok a) → sat (mret a : eff W C E A) Q.
Proof. intros H w. exact H. Qed.

Lemma sat_raise {A} (e : E) (Q : list C → result E A → Prop) :
  Q [] (Err e) → sat (raise e : eff W C E A) Q.
Proof. intros H w. exact H. Qed.

Lemma sat_lift {A} (r : result E A) (Q : list C → result E A → Prop) :
  Q [] r → sat (lift_result r : eff W C E A) Q.
Proof. intros H w. exact H. Qed.

Lemma sat_log (c : C) (Q : list C → result E unit → Prop) :
  Q [c] (Ok tt) → sat (log_call c : eff W C E unit) Q.
Proof. intros H w. exact H. Qed.

Lemma sat_invoke {A} (c : C) (o : op W E A) (Q : list C → result E A → Prop) :
  (∀ r, Q [c] r) → sat (invoke c o) Q.
Proof. intros H w. unfold trace, outcome, invoke. destruct (o w). apply H. Qed.

Lemma sat_invoke_op {A} (c : C) (o : op W E A) (Q : list C → result E A → Prop) :
  (∀ w w' r, o w = (w', r) → Q [c] r) → sat (invoke c o) Q.
Proof. intros H w. unfold trace, outcome, invoke. destruct (o w) eqn:E1. by eapply H. Qed.

Lemma sat_observe {A} (c : result E A → C) (o : op W E A) (Q : list C → result E A → Prop) :
  (∀ w w' r, o w = (w', r) → Q [c r] r) → sat (observe c o) Q.
Proof. intros H w. unfold trace, outcome, observe. destruct (o w) eqn:E1. by eapply H. Qed.

Lemma sat_silent_op {A} (o : W → W * A) (Q : list C → result E A → Prop) :
  (∀ a, Q [] (Ok a)) → sat (silent o) Q.
Proof. intros H w. unfold trace, outcome, silent. destruct (o w). apply H. Qed.

Lemma sat_bind {A B} (m : eff W C E A) (f : A → eff W C E B)
    (R : list C → result E B → Prop) :
  sat m (λ t r, match r with
                | Ok a => sat (f a) (λ t', R (t ++ t'))
                | Err e => R t (Err e)
                end) →
  sat (m ≫= f) R.
Proof.
  intros Hm w. specialize (Hm w). unfold trace, outcome, mbind, eff_bind in *.
  destruct (m w) as [[w1 t1] [a|e]]; cbn in *; [|exact Hm].
  specialize (Hm w1). unfold trace, outcome in Hm.
  destruct (f a w1) as [[w2 t2] r]; exact Hm.
Qed.

(** A check before the rest of a handler: its error ends the handler without
    a call. *)
Lemma sat_guard {A B} (r : result E A) (f : A → eff W C E B) (R : list C → result E B → Prop) :
  (∀ a, r = Ok a → sat (f a) R) → (∀ e, r = Err e → R [] (Err e)) → sat (lift_result r ≫= f) R.
Proof. intros Hf He. apply sat_bind, sat_lift. destruct r as [a|e]; [by apply Hf|by apply He]. Qed.

Lemma sat_try {A} (m : eff W C E A) (h : E → eff W C E A)
    (R : list C → result E A → Prop) :
  sat m (λ t r, match r with
                | Ok a => R t (Ok a)
                | Err e => sat (h e) (λ t', R (t ++ t'))
                end) →
  sat (try_except m h) R.
Proof.
  intros Hm w. specialize (Hm w). unfold trace, outcome, try_except in *.
  destruct (m w) as [[w1 t1] [a|e]]; cbn in *; [exact Hm|].
  specialize (Hm w1). unfold trace, outcome in Hm.
  destruct (h e w1) as [[w2 t2] r]; exact Hm.
Qed.

Lemma sat_finally {A} (m : eff W C E A) (f : bool → eff W C E unit)
    (R : list C → result E A → Prop) :
  sat m (λ t r, sat (f (is_ok r)) (λ t' r', R (t ++ t')
                  match r' with Ok _ => r | Err e => Err e end)) →
  sat (finally m f) R.
Proof.
  intros Hm w. specialize (Hm w). unfold trace, outcome, finally in *.
  destruct (m w) as [[w1 t1] r1]; cbn in *.
  specialize (Hm w1). unfold trace, outcome in Hm.
  destruct (f (is_ok r1) w1) as [[w2 t2] r2]; exact Hm.
Qed.
End Sat.

(** [yields P H m]: [m] returns a value in [P] or raises an error in [H]. *)
Definition yields {W C E A} (P : A → Prop) (H : E → Prop) (m : eff W C E A) : Prop :=
  sat m (λ _ r, match r with Ok a => P a | Err e => H e end).

Section Yields.
Context {W C E : Type} (H : E → Prop).

Lemma yields_ret {A} (a : A) (P : A → Prop) : P a → yields P H (mret a : eff W C E A).
Proof. intros Hp w. exact Hp. Qed.

Lemma yields_raise {A} e (P : A → Prop) : H e → yields P H (raise e : eff W C E A).
Proof. intros He w. exact He. Qed.

Lemma yields_bind {A B} (m : eff W C E A) (f : A → eff W C E B) P Q :
  yields P H m → (∀ a, P a → yields Q H (f a)) → yields Q H (m ≫= f).
Proof.
  intros Hm Hf. apply sat_bind. refine (sat_conseq _ _ _ Hm _). intros t [a|e] Ha; [|done].
  by apply Hf.
Qed.

Lemma yields_finally {A} (m : eff W C E A) f P :
  yields P H m → (∀ ok, yields (λ _, True) H (f ok)) → yields P H (finally m f).
Proof.
  intros Hm Hf. apply sat_finally. refine (sat_conseq _ _ _ Hm _). intros t r Hr.
  refine (sat_conseq _ _ _ (Hf _) _). intros t' [u|e]; done.
Qed.

Lemma yields_try {A} (H' : E → Prop) (m : eff W C E A) h P :
  yields P H' m → (∀ e, H' e → yields P H (h e)) → yields P H (try_except m h).
Proof.
  intros Hm Hh. apply sat_try. refine (sat_conseq _ _ _ Hm _). intros t [a|e] Ha; [done|].
  by apply Hh.
Qed.
End Yields.

(** [calls P m]: every call that [m] makes satisfies [P]. *)
Definition calls {W C E A} (P : C → Prop) (m : eff W C E A) : Prop := sat m (λ t _, Forall P t).

Section Calls.
Context {W C E : Type} (P : C → Prop).

Lemma calls_ret {A} (a : A) : calls P (mret a : eff W C E A).
Proof. apply sat_ret. constructor. Qed.

Lemma calls_raise {A} (e : E) : calls P (raise e : eff W C E A).
Proof. apply sat_raise. constructor. Qed.

Lemma calls_lift {A} (r : result E A) : calls P (lift_result r : eff W C E A).
Proof. apply sat_lift. constructor. Qed.

Lemma calls_silent {A} (o : W → W * A) : calls P (silent o : eff W C E A).
Proof. apply sat_silent_op. constructor. Qed.

Lemma calls_invoke {A} c (o : op W E A) : P c → calls P (invoke c o).
Proof. intros Hc. apply sat_invoke. intros r. by apply Forall_singleton. Qed.

Lemma calls_observe {A} (c : result E A → C) (o : op W E A) : (∀ r, P (c r)) → calls P (observe c o).
Proof. intros Hc. apply sat_observe. intros w w' r _. by apply Forall_singleton. Qed.

Lemma calls_bind {A B} (m : eff W C E A) (f : A → eff W C E B) :
  calls P m → (∀ a, calls P (f a)) → calls P (m ≫= f).
Proof.
  intros Hm Hf. apply sat_bind. refine (sat_conseq _ _ _ Hm _). intros t [a|e] Ht; [|done].
  refine (sat_conseq _ _ _ (Hf a) _). intros t' r Ht'. by apply Forall_app.
Qed.

Lemma calls_try {A} (m : eff W C E A) h :
  calls P m → (∀ e, calls P (h e)) → calls P (try_except m h).
Proof.
  intros Hm Hh. apply sat_try. refine (sat_conseq _ _ _ Hm _). intros t [a|e] Ht; [done|].
  refine (sat_conseq _ _ _ (Hh e) _). intros t' r Ht'. by apply Forall_app.
Qed.

Lemma calls_finally {A} (m : eff W C E A) f :
  calls P m → (∀ ok, calls P (f ok)) → calls P (finally m f).
Proof.
  intros Hm Hf. apply sat_finally. refine (sat_conseq _ _ _ Hm _). intros t r Ht.
  refine (sat_conseq _ _ _ (Hf _) _). intros t' r' Ht'. by apply Forall_app.
Qed.
End Calls.

(** Splits a [calls] goal along the structure of the handler; the calls are
    left as goals. *)
Ltac calls_step :=
  lazymatch goal with
  | |- calls _ (mbind _ _) => apply calls_bind; [|intros ?]
  | |- calls _ (mret _) => apply calls_ret
  | |- calls _ (raise _) => apply calls_raise
  | |- calls _ (lift_result _) => apply calls_lift
  | |- calls _ (silent _) => apply calls_silent
  | |- calls _ (invoke _ _) => apply calls_invoke
  | |- calls _ (observe _ _) => apply calls_observe; intros ?
  | |- calls _ (try_except _ _) => apply calls_try; [|intros ?]
  | |- calls _ (finally _ _) => apply calls_finally; [|intros ?]
  | |- calls _ (if ?b then _ else _) => destruct b
  | |- calls _ (match ?x with _ => _ end) => destruct x
  end.

(** [hoare P m Q]: from every world in [P], the final world, the calls and the
    outcome of [m] satisfy [Q]. *)
Definition hoare {W C E A} (P : W → Prop) (m : eff W C E A)
    (Q : W → list C → result E A → Prop) : Prop :=
  ∀ w, P w → Q (world m w) (trace m w) (outcome m w).

Section Hoare.
Context {W C E : Type}.

Lemma hoare_conseq {A} (P P' : W → Prop) (m : eff W C E A) Q Q' :
  hoare P' m Q' → (∀ w, P w → P' w) → (∀ w t r, Q' w t r → Q w t r) → hoare P m Q.
Proof. intros Hm HP HQ w Hw. apply HQ, Hm, HP, Hw. Qed.

Lemma hoare_ret {A} (P : W → Prop) (a : A) Q :
  (∀ w, P w → Q w [] (Ok a)) → hoare P (mret a : eff W C E A) Q.
Proof. intros HQ w. exact (HQ w). Qed.

Lemma hoare_raise {A} (P : W → Prop) (e : E) Q :
  (∀ w, P w → Q w [] (Err e)) → hoare P (raise e : eff W C E A) Q.
Proof. intros HQ w. exact (HQ w). Qed.

Lemma hoare_lift {A} (P : W → Prop) (r : result E A) Q :
  (∀ w, P w → Q w [] r) → hoare P (lift_result r : eff W C E A) Q.
Proof. intros HQ w. exact (HQ w). Qed.

Lemma hoare_invoke {A} (P : W → Prop) (c : C) (o : op W E A) Q :
  (∀ w w' r, P w → o w = (w', r) → Q w' [c] r) → hoare P (invoke c o) Q.
Proof.
  intros HQ w Hw. unfold trace, outcome, world, invoke.
  destruct (o w) as [w' r] eqn:Ho. by apply (HQ w).
Qed.

Lemma hoare_observe {A} (P : W → Prop) (c : result E A → C) (o : op W E A) Q :
  (∀ w w' r, P w → o w = (w', r) → Q w' [c r] r) → hoare P (observe c o) Q.
Proof.
  intros HQ w Hw. unfold trace, outcome, world, observe.
  destruct (o w) as [w' r] eqn:Ho. by apply (HQ w).
Qed.

Lemma hoare_silent {A} (P : W → Prop) (o : W → W * A) Q :
  (∀ w w' a, P w → o w = (w', a) → Q w' [] (Ok a)) → hoare P (silent o : eff W C E A) Q.
Proof.
  intros HQ w Hw. unfold trace, outcome, world, silent.
  destruct (o w) as [w' a] eqn:Ho. by apply (HQ w).
Qed.

Lemma hoare_bind {A B} (P : W → Prop) (m : eff W C E A) (f : A → eff W C E B) Q :
  hoare P m (λ w t r, match r with
                      | Ok a => hoare (eq w) (f a) (λ w' t', Q w' (t ++ t'))
                      | Err e => Q w t (Err e)
                      end) →
  hoare P (m ≫= f) Q.
Proof.
  intros Hm w Hw. specialize (Hm w Hw). unfold trace, outcome, world, mbind, eff_bind in *.
  destruct (m w) as [[w1 t1] [a|e]]; cbn in *; [|exact Hm].
  specialize (Hm w1 eq_refl). unfold trace, outcome, world in Hm.
  destruct (f a w1) as [[w2 t2] r]; exact Hm.
Qed.
End Hoare.

(** [run_from w m Q]: run in the world [w], [m] ends in a world, with calls and an
    outcome in [Q]; it ties each reply to the operation that gave it. *)
Definition run_from {W C E A} (w : W) (m : eff W C E A) (Q : W → list C → result E A → Prop) : Prop :=
  Q (world m w) (trace m w) (outcome m w).

Section From.
Context {W C E : Type}.
Implicit Types w : W.

Lemma from_conseq {A} w (m : eff W C E A) (Q R : W → list C → result E A → Prop) :
  run_from w m Q → (∀ w' t r, Q w' t r → R w' t r) → run_from w m R.
Proof. intros Hm HQ. apply HQ, Hm. Qed.

Lemma from_sat {A} w (m : eff W C E A) (Q : list C → result E A → Prop) :
  sat m Q → run_from w m (λ _, Q).
Proof. intros Hm. apply Hm. Qed.

Lemma from_ret {A} w (a : A) Q : Q w [] (Ok a) → run_from w (mret a : eff W C E A) Q.
Proof. done. Qed.

Lemma from_raise {A} w (e : E) Q : Q w [] (Err e) → run_from w (raise e : eff W C E A) Q.
Proof. done. Qed.

Lemma from_lift {A} w (r : result E A) Q : Q w [] r → run_from w (lift_result r : eff W C E A) Q.
Proof. done. Qed.

Lemma from_invoke {A} w (c : C) (o : op W E A) Q :
  (∀ w' r, o w = (w', r) → Q w' [c] r) → run_from w (invoke c o) Q.
Proof.
  intros HQ. unfold run_from, trace, outcome, world, invoke. destruct (o w) as [w' r] eqn:Ho. by apply HQ.
Qed.

Lemma from_silent {A} w (o : W → W * A) Q :
  (∀ w' a, o w = (w', a) → Q w' [] (Ok a)) → run_from w (silent o : eff W C E A) Q.
Proof.
  intros HQ. unfold run_from, trace, outcome, world, silent. destruct (o w) as [w' a] eqn:Ho. by apply HQ.
Qed.

Lemma from_bind {A B} w (m : eff W C E A) (f : A → eff W C E B) Q :
  run_from w m (λ w' t r, match r with
                      | Ok a => run_from w' (f a) (λ w'' t', Q w'' (t ++ t'))
                      | Err e => Q w' t (Err e)
                      end) →
  run_from w (m ≫= f) Q.
Proof.
  intros Hm. unfold run_from, trace, outcome, world, mbind, eff_bind in *.
  destruct (m w) as [[w1 t1] [a|e]]; cbn in *; [|exact Hm].
  by destruct (f a w1) as [[w2 t2] r].
Qed.

Lemma from_guard {A B} w (r : result E A) (f : A → eff W C E B) Q :
  (∀ a, r = Ok a → run_from w (f a) Q) → (∀ e, r = Err e → Q w [] (Err e)) →
  run_from w (lift_result r ≫= f) Q.
Proof. intros Hf He. apply from_bind, from_lift. destruct r as [a|e]; [by apply Hf|by apply He]. Qed.

Lemma from_try {A} w (m : eff W C E A) (h : E → eff W C E A) Q :
  run_from w m (λ w' t r, match r with
                      | Ok a => Q w' t (Ok a)
                      | Err e => run_from w' (h e) (λ w'' t', Q w'' (t ++ t'))
                      end) →
  run_from w (try_except m h) Q.
Proof.
  intros Hm. unfold run_from, trace, outcome, world, try_except in *.
  destruct (m w) as [[w1 t1] [a|e]]; cbn in *; [exact Hm|].
  by destruct (h e w1) as [[w2 t2] r].
Qed.

Lemma from_finally {A} w (m : eff W C E A) (f : bool → eff W C E unit) Q :
  run_from w m (λ w' t r, run_from w' (f (is_ok r)) (λ w'' t' r', Q w'' (t ++ t')
                        match r' with Ok _ => r | Err e => Err e end)) →
  run_from w (finally m f) Q.
Proof.
  intros Hm. unfold run_from, trace, outcome, world, finally in *.
  destruct (m w) as [[w1 t1] r1]; cbn in *. by destruct (f (is_ok r1) w1) as [[w2 t2] r2].
Qed.
End From.

(** Splits a [sat] goal along the structure of the handler. *)
Ltac sat_step :=
  lazymatch goal with
  | |- sat (mbind _ _) _ => apply sat_bind
  | |- sat (mret _) _ => apply sat_ret
  | |- sat (raise _) _ => apply sat_raise
  | |- sat (lift_result _) _ => apply sat_lift
  | |- sat (log_call _) _ => apply sat_log
  | |- sat (invoke _ _) _ => apply sat_invoke; let r := fresh "r" in intros r
  | |- sat (try_except _ _) _ => apply sat_try
  | |- sat (finally _ _) _ => apply sat_finally
  | |- sat (match ?x with _ => _ end) _ => destruct x eqn:?
  | |- match ?x with _ => _ end => destruct x eqn:?
  end; cbn [app].
Ltac sat_auto := repeat sat_step.

(** ** Lists *)

Lemma filter_length_le {A} (P : A → Prop) `{!∀ x, Decision (P x)} (l : list A) :
  length (filter P l) ≤ length l.
Proof. apply length_filter. Qed.

Lemma take_sublist {A} n (l : list A) : sublist (take n l) l.
Proof. apply sublist_take. Qed.

Lemma list_forallb_spec {A} (f : A → bool) (l : list A) :
  forallb f l = true ↔ ∀ x, x ∈ l → f x = true.
Proof. rewrite forallb_forall. setoid_rewrite list_elem_of_In. done. Qed.

Lemma list_existsb_spec {A} (f : A → bool) (l : list A) :
  existsb f l = true ↔ ∃ x, x ∈ l ∧ f x = true.
Proof. rewrite existsb_exists. setoid_rewrite list_elem_of_In. done. Qed.

Lemma list_existsb_false {A} (f : A → bool) (l : list A) :
  existsb f l = false ↔ ∀ x, x ∈ l → f x = false.
Proof.
  rewrite <-not_true_iff_false, list_existsb_spec. split.
  - intros H x Hx. apply not_true_iff_false. eauto.
  - intros H (x & Hx & Hf). rewrite (H _ Hx) in Hf. done.
Qed.

Lemma elem_of_map {A B} (f : A → B) (l : list A) y : y ∈ map f l ↔ ∃ x, y = f x ∧ x ∈ l.
Proof. rewrite list_elem_of_In, in_map_iff. setoid_rewrite list_elem_of_In. naive_solver. Qed.

#[export] Instance set_unfold_map {A B} (f : A → B) l P y :
  (∀ x, SetUnfoldElemOf x l (P x)) → SetUnfoldElemOf y (map f l) (∃ x, y = f x ∧ P x).
Proof.
  intros HP. constructor. rewrite elem_of_map.
  split; intros (x & -> & Hx); exists x; (split; [done|]); by apply (set_unfold_elem_of x l _).
Qed.

(** [x in xs] on a tuple or a list. *)
Definition mem {A} `{EqDecision A} (x : A) (l : list A) : bool := bool_decide (x ∈ l).

Lemma mem_spec {A} `{EqDecision A} (x : A) l : mem x l = true ↔ x ∈ l.
Proof. unfold mem. by rewrite bool_decide_eq_true. Qed.

(** [len(set(l)) == len(l)]. *)
Definition all_distinct {A} `{EqDecision A} (l : list A) : bool := bool_decide (NoDup l).

Lemma all_distinct_spec {A} `{EqDecision A} (l : list A) : all_distinct l = true ↔ NoDup l.
Proof. unfold all_distinct. by rewrite bool_decide_eq_true. Qed.

(** A filter by a boolean test, by the predicate it decides. *)
Lemma List_filter_filter {A} (P : A → Prop) `{∀ x, Decision (P x)} p l :
  (∀ x, p x = true ↔ P x) → List.filter p l = filter P l.
Proof.
  intros Hp. induction l as [|x l IH]; [done|]. cbn [List.filter]. rewrite filter_cons, IH.
  destruct (p x) eqn:E; [by rewrite decide_True by by apply Hp|].
  rewrite decide_False; [done|]. intros Hx%Hp. congruence.
Qed.

(** [list(dict.fromkeys(l))]: first occurrences, in order. *)
Fixpoint dedup_from {A} `{EqDecision A} (seen l : list A) : list A :=
  match l with
  | [] => []
  | x :: l => if decide (x ∈ seen) then dedup_from seen l else x :: dedup_from (x :: seen) l
  end.
Definition fromkeys {A} `{EqDecision A} (l : list A) : list A := dedup_from [] l.

Lemma elem_of_dedup_from {A} `{EqDecision A} (seen l : list A) x :
  x ∈ dedup_from seen l ↔ x ∈ l ∧ x ∉ seen.
Proof.
  revert seen. induction l as [|y l IH]; intros seen; cbn.
  - set_solver.
  - case_decide; [|rewrite elem_of_cons]; rewrite IH; [set_solver|].
    destruct (decide (x = y)) as [->|]; set_solver.
Qed.

Lemma NoDup_dedup_from {A} `{EqDecision A} (seen l : list A) : NoDup (dedup_from seen l).
Proof.
  revert seen. induction l as [|y l IH]; intros seen; cbn; [constructor|].
  case_decide; [apply IH|]. constructor; [|apply IH].
  rewrite elem_of_dedup_from. set_solver.
Qed.

Lemma elem_of_fromkeys {A} `{EqDecision A} (l : list A) x : x ∈ fromkeys l ↔ x ∈ l.
Proof. unfold fromkeys. rewrite elem_of_dedup_from. set_solver. Qed.

Lemma NoDup_fromkeys {A} `{EqDecision A} (l : list A) : NoDup (fromkeys l).
Proof. apply NoDup_dedup_from. Qed.

(** [l[:n]]; a negative bound counts from the end. *)
Definition slice_to {A} (n : Z) (l : list A) : list A :=
  take (Z.to_nat (if (n <? 0)%Z then Z.of_nat (length l) + n else n)%Z) l.

Lemma slice_to_nonneg {A} n (l : list A) : (0 ≤ n)%Z → slice_to n l = take (Z.to_nat n) l.
Proof. intros Hn. unfold slice_to. by rewrite (proj2 (Z.ltb_ge n 0) Hn). Qed.

(** [l.sort(key=...)], for keys compared by [lt]: a stable insertion sort. *)
Fixpoint insert_by {A} (lt : A → A → bool) (x : A) (l : list A) : list A :=
  match l with
  | [] => [x]
  | y :: l' => if lt y x then y :: insert_by lt x l' else x :: l
  end.
Definition sort_by {A} (lt : A → A → bool) (l : list A) : list A := foldr (insert_by lt) [] l.

Lemma insert_by_perm {A} (lt : A → A → bool) x l : insert_by lt x l ≡ₚ x :: l.
Proof.
  induction l as [|y l IH]; cbn; [done|]. destruct (lt y x); [|done].
  rewrite IH. apply Permutation_swap.
Qed.

Lemma sort_by_perm {A} (lt : A → A → bool) l : sort_by lt l ≡ₚ l.
Proof. induction l as [|x l IH]; cbn; [done|]. by rewrite insert_by_perm, IH. Qed.

(** No element of the sorted list is before its predecessor. *)
Lemma sort_by_sorted {A} (lt : A → A → bool) l :
  (∀ x y, lt x y = true → lt y x = false) → Sorted (λ x y, lt y x = false) (sort_by lt l).
Proof.
  intros Hasym. induction l as [|x l IH]; cbn; [constructor|].
  fold (sort_by lt l). revert IH. generalize (sort_by lt l). intros k IH.
  induction IH as [|y l' Hl IHl Hhd]; cbn; [by repeat constructor|].
  destruct (lt y x) eqn:E; [|by repeat constructor].
  apply Hasym in E. constructor; [done|]. destruct Hhd as [|z l'' Hz]; cbn.
  - by constructor.
  - destruct (lt z x); by constructor.
Qed.

Lemma Sorted_mono {A} (R R' : A → A → Prop) l :
  (∀ x y, R x y → R' x y) → Sorted R l → Sorted R' l.
Proof.
  intros HR. induction 1 as [|x l _ IH Hhd]; constructor; [done|]. destruct Hhd; constructor; auto.
Qed.

Lemma Sorted_take {A} (R : A → A → Prop) n l : Sorted R l → Sorted R (take n l).
Proof.
  intros Hl. revert n. induction Hl as [|x l Hl IH Hhd]; intros [|n]; cbn; try constructor; [done|].
  destruct Hhd; destruct n; cbn; by constructor.
Qed.

(** ** Shared automation *)

Create HintDb copilot.
Create Rewrite HintDb copilot.
#[export] Hint Resolve NoDup_fromkeys take_sublist filter_length_le : copilot.
#[export] Hint Rewrite @result_bind_Ok @ensure_Ok @for_each_Ok @mem_spec @all_distinct_spec
  : copilot.

(** Destructs the scrutinee of a match in a hypothesis or in the goal. *)
Ltac case_split :=
  match goal with
  | H : context [match ?x with _ => _ end] |- _ => destruct x eqn:?; simplify_eq/=
  | |- context [match ?x with _ => _ end] => destruct x eqn:?; simplify_eq/=
  end.

(** Inverts [m ≫= f = Ok b] hypotheses repeatedly. *)
Ltac inv_ok :=
  repeat match goal with
  | H : (_ ≫= _) = Ok _ |- _ => apply result_bind_Ok in H as (? & ? & ?)
  | H : ensure _ _ = Ok _ |- _ => apply ensure_Ok in H
  | H : Ok _ = Ok _ |- _ => injection H as H; subst
  | H : Err _ = Ok _ |- _ => discriminate H
  | H : Ok _ = Err _ |- _ => discriminate H
  | H : Err _ = Err _ |- _ => injection H as H; subst
  end.

Ltac split_bools :=
  repeat match goal with
  | H : _ && _ = true |- _ => apply andb_true_iff in H as [??]
  | H : _ || _ = false |- _ => apply orb_false_iff in H as [??]
  | H : negb _ = true |- _ => apply negb_true_iff in H
  | H : negb _ = false |- _ => apply negb_false_iff in H
  | H : bool_decide _ = true |- _ => apply bool_decide_eq_true in H
  | H : bool_decide _ = false |- _ => apply bool_decide_eq_false in H
  end.
