(* ===== verification/PyStr.v ===== *)
(** * Python strings

    A Python [str] is a Rocq [string] that holds its UTF-8 encoding; [cps]
    gives its code points, which is what Python counts, slices and
    classifies.  Splitting at an ASCII character, concatenation, equality and
    the order of strings are the same on both views.  The parts of the
    Unicode character database that the code uses through [str] methods on
    non-ASCII letters are the fields of [PyUnicode]. *)

From S2P Require Import Prelude.
From Stdlib Require Import Ascii String.
From Stdlib Require DecimalString DecimalFacts DecimalPos DecimalZ.

#[global] Open Scope string_scope.
#[global] Open Scope list_scope.
#[global] Open Scope nat_scope.

(** ** UTF-8 *)

Definition cont_bits (a : ascii) : N := (N_of_ascii a) mod 64.

(** Code points of a UTF-8 string; a byte that does not start a complete
    sequence stands for itself. *)
Fixpoint cps (s : string) : list N :=
  match s with
  | EmptyString => []
  | String a s1 =>
      let b := N_of_ascii a in
      if (b <? 192)%N then b :: cps s1 else
      match s1 with
      | EmptyString => [b]
      | String a1 s2 =>
          if (b <? 224)%N then ((b - 192) * 64 + cont_bits a1)%N :: cps s2 else
          match s2 with
          | EmptyString => [b]
          | String a2 s3 =>
              if (b <? 240)%N
              then ((b - 224) * 4096 + cont_bits a1 * 64 + cont_bits a2)%N :: cps s3 else
              match s3 with
              | EmptyString => [b]
              | String a3 s4 =>
                  ((b - 240) * 262144 + cont_bits a1 * 4096 + cont_bits a2 * 64
                   + cont_bits a3)%N :: cps s4
              end
          end
      end
  end.

Definition byte (n : N) : ascii := ascii_of_N n.

(** The bytes of one code point. *)
Definition encode_cp (c : N) (rest : string) : string :=
  if (c <? 128)%N then String (byte c) rest
  else if (c <? 2048)%N then
    String (byte (192 + c / 64)) (String (byte (128 + c mod 64)) rest)
  else if (c <? 65536)%N then
    String (byte (224 + c / 4096)) (String (byte (128 + (c / 64) mod 64))
      (String (byte (128 + c mod 64)) rest))
  else
    String (byte (240 + c / 262144)) (String (byte (128 + (c / 4096) mod 64))
      (String (byte (128 + (c / 64) mod 64)) (String (byte (128 + c mod 64)) rest))).

Definition encode (l : list N) : string := foldr encode_cp EmptyString l.

Definition valid_cp (c : N) : Prop := (c < 1114112)%N.

Lemma N_of_byte n : (n < 256)%N → N_of_ascii (byte n) = n.
Proof. apply N_ascii_embedding. Qed.

Lemma cont_bits_byte n : (n < 64)%N → cont_bits (byte (128 + n)) = n.
Proof.
  intros H. unfold cont_bits. rewrite N_of_byte by lia.
  replace (128 + n)%N with (n + 2 * 64)%N by lia.
  rewrite N.Div0.mod_add. by apply N.mod_small.
Qed.

Ltac byte_bounds :=
  repeat match goal with
  | |- context [N.ltb ?a ?b] => destruct (N.ltb_spec a b); try lia
  end.

Lemma cps_encode_cp c rest : valid_cp c → cps (encode_cp c rest) = c :: cps rest.
Proof.
  unfold valid_cp, encode_cp. intros Hc.
  pose proof (N.mod_upper_bound c 64 ltac:(done)).
  pose proof (N.mod_upper_bound (c / 64) 64 ltac:(done)).
  pose proof (N.mod_upper_bound (c / 4096) 64 ltac:(done)).
  pose proof (N.Div0.div_mod c 64) as D1.
  pose proof (N.Div0.div_mod (c / 64) 64) as D2.
  pose proof (N.Div0.div_mod (c / 4096) 64) as D3.
  rewrite N.Div0.div_div in D2. rewrite N.Div0.div_div in D3.
  change (64 * 64)%N with 4096%N in D2. change (4096 * 64)%N with 262144%N in D3.
  revert D1 D2 D3.
  generalize dependent (c mod 64)%N. generalize dependent ((c / 64) mod 64)%N.
  generalize dependent ((c / 4096) mod 64)%N. generalize (c / 64)%N (c / 4096)%N (c / 262144)%N.
  intros q1 q2 q3 r3 ? r2 ? r1 ? D1 D2 D3.
  destruct (N.ltb_spec c 128); [|destruct (N.ltb_spec c 2048);
    [|destruct (N.ltb_spec c 65536)]]; cbn [cps];
    rewrite !N_of_byte by lia; rewrite ?cont_bits_byte by lia; byte_bounds; f_equal; lia.
Qed.

Lemma cps_encode l : Forall valid_cp l → cps (encode l) = l.
Proof.
  induction 1 as [|c l Hc _ IH]; [done|].
  cbn [encode foldr]. rewrite cps_encode_cp by done. by f_equal.
Qed.

Lemma encode_inj l1 l2 :
  Forall valid_cp l1 → Forall valid_cp l2 → encode l1 = encode l2 → l1 = l2.
Proof. intros H1 H2 Heq. by rewrite <-(cps_encode l1), Heq, cps_encode. Qed.

(** [len(s)]: code points; [len(s.encode())]: bytes. *)
Definition py_len (s : string) : nat := List.length (cps s).
Definition byte_len (s : string) : nat := String.length s.

Lemma str_app_nil t : EmptyString +:+ t = t.
Proof. done. Qed.
Lemma str_app_cons a s t : String a s +:+ t = String a (s +:+ t).
Proof. done. Qed.
Lemma str_app_assoc s t r : (s +:+ t) +:+ r = s +:+ (t +:+ r).
Proof. induction s as [|a s IH]; [done|]. by rewrite !str_app_cons, IH. Qed.
Lemma str_app_nil_r s : s +:+ EmptyString = s.
Proof. induction s as [|a s IH]; [done|]. by rewrite str_app_cons, IH. Qed.
#[export] Hint Rewrite str_app_nil str_app_cons str_app_assoc : copilot.

Lemma byte_len_app s t : byte_len (s +:+ t) = byte_len s + byte_len t.
Proof.
  induction s as [|a s IH]; [done|].
  rewrite str_app_cons. unfold byte_len in *. cbn. by f_equal.
Qed.

(** ** Classification *)

(** [str.isspace] on one code point (all of Unicode). *)
Definition is_space (c : N) : bool :=
  ((9 <=? c) && (c <=? 13) || (28 <=? c) && (c <=? 32) || (c =? 133) || (c =? 160)
   || (c =? 5760) || (8192 <=? c) && (c <=? 8202) || (c =? 8232) || (c =? 8233)
   || (c =? 8239) || (c =? 8287) || (c =? 12288))%N.

Definition is_digit (c : N) : bool := ((48 <=? c) && (c <=? 57))%N.
Definition is_lower_latin (c : N) : bool := ((97 <=? c) && (c <=? 122))%N.
Definition is_upper_latin (c : N) : bool := ((65 <=? c) && (c <=? 90))%N.

(** The CJK block [\u4e00-\u9fff]. *)
Definition is_cjk (c : N) : bool := ((19968 <=? c) && (c <=? 40959))%N.

Definition ascii_lower (c : N) : N := if is_upper_latin c then (c + 32)%N else c.
Definition ascii_raise (c : N) : N := if is_lower_latin c then (c - 32)%N else c.

(** What the code uses of Unicode data beyond ASCII: [str.isalnum] of one
    code point, [str.lower], [str.upper] and [str.casefold]. *)
Class PyUnicode := {
  isalnum_cp : N → bool;
  lower : string → string;
  upper : string → string;
  casefold : string → string;
  isalnum_ascii : ∀ c, (c < 128)%N →
    isalnum_cp c = is_digit c || is_lower_latin c || is_upper_latin c;
  isalnum_cjk : ∀ c, is_cjk c = true → isalnum_cp c = true;
  lower_ascii : ∀ s, Forall (λ c, (c < 128)%N) (cps s) →
    lower s = encode (ascii_lower <$> cps s);
  upper_of_ascii : ∀ s, Forall (λ c, (c < 128)%N) (cps s) →
    upper s = encode (ascii_raise <$> cps s);
  casefold_ascii : ∀ s, Forall (λ c, (c < 128)%N) (cps s) →
    casefold s = encode (ascii_lower <$> cps s)
}.

(** An instance that knows ASCII and the CJK block, for the witnesses. *)
#[export] Program Instance demo_unicode : PyUnicode := {|
  isalnum_cp c := is_digit c || is_lower_latin c || is_upper_latin c || is_cjk c;
  lower s := encode (ascii_lower <$> cps s);
  upper s := encode (ascii_raise <$> cps s);
  casefold s := encode (ascii_lower <$> cps s)
|}.
Next Obligation.
  intros c Hc. cbn. unfold is_cjk. destruct (N.leb_spec 19968 c); [lia|].
  cbn. by rewrite orb_false_r.
Qed.
Next Obligation. intros c Hc. cbn. rewrite Hc. by rewrite orb_true_r. Qed.
Next Obligation. done. Qed.
Next Obligation. done. Qed.
Next Obligation. done. Qed.

(** [\w] of the [re] module: alphanumeric or underscore. *)
Definition is_word `{PyUnicode} (c : N) : bool := isalnum_cp c || (c =? 95)%N.

(** ** Whitespace *)

Fixpoint drop_while (p : N → bool) (l : list N) : list N :=
  match l with
  | [] => []
  | c :: l' => if p c then drop_while p l' else l
  end.

(** [l.strip()]. *)
Definition strip_cps (l : list N) : list N :=
  rev (drop_while is_space (rev (drop_while is_space l))).
Definition strip (s : string) : string := encode (strip_cps (cps s)).

(** [not s.strip()]. *)
Definition is_blank (s : string) : bool := forallb is_space (cps s).

(** [l.split()]: maximal runs of non-space code points. *)
Fixpoint split_ws_from (word : list N) (l : list N) : list (list N) :=
  match l with
  | [] => match word with [] => [] | _ => [rev word] end
  | c :: l =>
      if is_space c
      then match word with [] => split_ws_from [] l | _ => rev word :: split_ws_from [] l end
      else split_ws_from (c :: word) l
  end.
Definition split_ws (l : list N) : list (list N) := split_ws_from [] l.

Fixpoint join_cps (sep : list N) (ls : list (list N)) : list N :=
  match ls with
  | [] => []
  | [l] => l
  | l :: ls => l ++ sep ++ join_cps sep ls
  end.

(** [" ".join(s.split())]. *)
Definition normalize_cps (l : list N) : list N := join_cps [32%N] (split_ws l).
Definition normalize_ws (s : string) : string := encode (normalize_cps (cps s)).

(** ** Splitting and joining at ASCII text *)

(** [s.split(c)] for one ASCII character. *)
Fixpoint split_on (c : ascii) (s : string) : list string :=
  match s with
  | EmptyString => [EmptyString]
  | String a s =>
      if Ascii.eqb a c then EmptyString :: split_on c s
      else match split_on c s with
           | [] => [String a EmptyString]
           | w :: ws => String a w :: ws
           end
  end.

Fixpoint join (sep : string) (l : list string) : string :=
  match l with
  | [] => EmptyString
  | [s] => s
  | s :: l => s +:+ sep +:+ join sep l
  end.

Fixpoint char_in (c : ascii) (s : string) : bool :=
  match s with
  | EmptyString => false
  | String a s => Ascii.eqb a c || char_in c s
  end.

(** [s.rstrip("/")]. *)
Fixpoint rstrip_slash (s : string) : string :=
  match s with
  | EmptyString => EmptyString
  | String a t => match rstrip_slash t with
                  | EmptyString => if Ascii.eqb a (byte 47) then EmptyString else String a EmptyString
                  | t' => String a t'
                  end
  end.

(** [t in s] for strings. *)
Fixpoint contains (t s : string) : bool :=
  String.prefix t s ||
  match s with
  | EmptyString => false
  | String _ s => contains t s
  end.

Lemma split_on_not_nil c s : split_on c s ≠ [].
Proof. destruct s; cbn; repeat case_match; done. Qed.

Lemma split_on_join c s : join (String c EmptyString) (split_on c s) = s.
Proof.
  induction s as [|a s IH]; [done|]. cbn [split_on].
  pose proof (split_on_not_nil c s).
  destruct (Ascii.eqb_spec a c) as [->|Hne], (split_on c s) as [|w ws]; try done.
  - cbn [join] in *. by rewrite IH.
  - destruct ws; cbn [join] in *; [|rewrite (str_app_cons a)]; by rewrite IH.
Qed.

Lemma split_on_no_sep c s : Forall (λ w, char_in c w = false) (split_on c s).
Proof.
  induction s as [|a s IH]; cbn; [by repeat constructor|].
  destruct (Ascii.eqb a c) eqn:Hac; [by constructor|].
  destruct (split_on c s) as [|w ws]; inversion IH; subst.
  - repeat constructor. cbn. by rewrite Hac.
  - constructor; [|done]. cbn. by rewrite Hac.
Qed.

Lemma split_on_absent c s : char_in c s = false → split_on c s = [s].
Proof.
  induction s as [|a s IH]; cbn; [done|].
  intros [Ha Hs]%orb_false_iff. rewrite Ha. by rewrite IH.
Qed.

Lemma split_on_app c s t :
  char_in c s = false → split_on c (s +:+ String c t) = s :: split_on c t.
Proof.
  induction s as [|a s IH]; rewrite ?str_app_nil, ?str_app_cons; cbn.
  - intros _. by rewrite Ascii.eqb_refl.
  - intros [Ha Hs]%orb_false_iff. rewrite Ha, IH by done. done.
Qed.

(** [sorted(strings)]: the order of the UTF-8 bytes is Python's order of
    the code points. *)
Fixpoint str_leb (s t : string) : bool :=
  match s, t with
  | EmptyString, _ => true
  | String _ _, EmptyString => false
  | String a s, String b t =>
      (N_of_ascii a <? N_of_ascii b)%N
      || (N_of_ascii a =? N_of_ascii b)%N && str_leb s t
  end.
Definition str_le (s t : string) : Prop := str_leb s t = true.
#[export] Instance str_le_dec s t : Decision (str_le s t).
Proof. unfold str_le. apply _. Defined.

#[export] Instance str_le_trans : Transitive str_le.
Proof.
  intros s. induction s as [|a s IH]; intros [|b t] [|c v]; unfold str_le in *; cbn; try done.
  rewrite !orb_true_iff, !andb_true_iff, !N.ltb_lt, !N.eqb_eq.
  intros [?|[??]] [?|[??]]; try (left; lia). right. split; [congruence|eauto].
Qed.

#[export] Instance str_le_total : Total str_le.
Proof.
  intros s. induction s as [|a s IH]; intros [|b t]; unfold str_le in *; cbn; auto.
  rewrite !orb_true_iff, !andb_true_iff, !N.ltb_lt, !N.eqb_eq.
  destruct (N.lt_total (N_of_ascii a) (N_of_ascii b)) as [?|[?|?]]; auto.
  destruct (IH t); auto.
Qed.

#[export] Instance str_le_antisymm : AntiSymm (=) str_le.
Proof.
  intros s. induction s as [|a s IH]; intros [|b t]; unfold str_le in *; cbn; try done.
  rewrite !orb_true_iff, !andb_true_iff, !N.ltb_lt, !N.eqb_eq. intros [?|[Ha Hs]] [?|[? Ht]]; try lia.
  f_equal; [|by apply IH].
  by rewrite <-(Ascii.ascii_N_embedding a), <-(Ascii.ascii_N_embedding b), Ha.
Qed.

Lemma str_ltb_spec s t : negb (str_leb t s) = true ↔ str_le s t ∧ s ≠ t.
Proof.
  rewrite negb_true_iff. split.
  - intros Hn. destruct (str_le_total s t) as [Hle|Hle]; [|unfold str_le in Hle; congruence].
    split; [done|]. intros ->. unfold str_le in Hle. congruence.
  - intros [Hle Hne]. apply not_true_iff_false. intros Hge. by apply Hne, (anti_symm str_le).
Qed.

Definition sort_strings (l : list string) : list string := merge_sort str_le l.

Lemma sort_strings_perm l : sort_strings l ≡ₚ l.
Proof. apply merge_sort_Permutation. Qed.
Lemma sort_strings_sorted l : Sorted str_le (sort_strings l).
Proof. apply Sorted_merge_sort, _. Qed.
Lemma elem_of_sort_strings x l : x ∈ sort_strings l ↔ x ∈ l.
Proof. by rewrite sort_strings_perm. Qed.
Lemma sort_strings_of l l' :
  Sorted str_le l → NoDup l → NoDup l' → (∀ x, x ∈ l ↔ x ∈ l') → sort_strings l' = l.
Proof.
  intros Hs Hl Hl' Hiff. apply (Sorted_unique str_le); [apply sort_strings_sorted|done|].
  rewrite sort_strings_perm. apply NoDup_Permutation; [done|done|]. by intros x.
Qed.
#[export] Hint Resolve sort_strings_perm sort_strings_sorted : copilot.
#[export] Hint Rewrite elem_of_sort_strings : copilot.

(** Decimal text of an integer, as [str] and f-strings print it. *)
Definition str_of_Z (z : Z) : string := DecimalString.NilZero.string_of_int (Z.to_int z).
Definition str_of_nat (n : nat) : string := str_of_Z (Z.of_nat n).

Lemma str_of_Z_parse z : DecimalString.NilZero.int_of_string (str_of_Z z) = Some (Z.to_int z).
Proof.
  unfold str_of_Z. apply DecimalString.NilZero.isi.
  - destruct z; cbn; [done| |done]. intros [= H%(f_equal N.of_uint)].
    cbn in H; pose proof (DecimalPos.Unsigned.of_to p); unfold N.of_uint in H; congruence.
  - destruct z; cbn; [done|done|]. intros [= H%(f_equal N.of_uint)].
    cbn in H; pose proof (DecimalPos.Unsigned.of_to p); unfold N.of_uint in H; congruence.
Qed.

#[export] Instance str_of_Z_inj : Inj (=) (=) str_of_Z.
Proof.
  intros x y H. pose proof (str_of_Z_parse x) as Hx. rewrite H, str_of_Z_parse in Hx.
  injection Hx as Hx. by apply DecimalZ.to_int_inj.
Qed.

(** [^[a-z_][a-z0-9_]*$] with [fullmatch]. *)
Definition is_ident_start (c : N) : bool := is_lower_latin c || (c =? 95)%N.
Definition is_ident_part (c : N) : bool := is_lower_latin c || is_digit c || (c =? 95)%N.
Definition simple_identifier (s : string) : bool :=
  match cps s with
  | [] => false
  | c :: l => is_ident_start c && forallb is_ident_part l
  end.
