(* ===== verification/Floats.v ===== *)
(** * Python floats

    A Python [float] is an IEEE 754 binary64 number, computed here with the
    Standard Library's executable specification [SpecFloat] (precision 53,
    exponent bound 1024, round to nearest even).  Decimal literals are the
    correctly rounded quotients of two integers. *)

From S2P Require Import Prelude.
From Stdlib Require Import SpecFloat.

Notation float := spec_float.

Definition f_of_Z (z : Z) : float := binary_normalize 53 1024 z 0 false.
Definition f_of_nat (n : nat) : float := f_of_Z (Z.of_nat n).

Definition fadd (x y : float) : float := SFadd 53 1024 x y.
Definition fsub (x y : float) : float := SFsub 53 1024 x y.
Definition fmul (x y : float) : float := SFmul 53 1024 x y.
Definition fdiv (x y : float) : float := SFdiv 53 1024 x y.
Definition fsqrt (x : float) : float := SFsqrt 53 1024 x.
Definition fneg (x : float) : float := SFopp x.
Definition fltb (x y : float) : bool := SFltb x y.
Definition fleb (x y : float) : bool := SFleb x y.
Definition feqb (x y : float) : bool := SFeqb x y.

(** The literal [n / 10^k]. *)
Definition decimal (n : Z) (k : nat) : float := fdiv (f_of_Z n) (f_of_Z (10 ^ Z.of_nat k)).

Definition fzero : float := f_of_Z 0.

(** [max(0.0, x)] and [min(x, y)]: Python keeps the first operand unless the
    second one compares strictly better. *)
Definition fmax (x y : float) : float := if fltb x y then y else x.
Definition fmin (x y : float) : float := if fltb y x then y else x.

Definition is_nan (x : float) : bool := match x with S754_nan => true | _ => false end.

Definition is_finite (x : float) : bool :=
  match x with S754_nan | S754_infinity _ => false | _ => true end.
Definition fabs (x : float) : float := SFabs x.

(** [sum] of floats (Python 3.12): the running sum with the compensation of
    Kahan, Babuska and Neumaier, which is added at the end. *)
Definition fsum_step (acc : float * float) (x : float) : float * float :=
  let '(f, c) := acc in
  let t := fadd f x in
  (t, fadd c (if fleb (fabs x) (fabs f) then fadd (fsub f t) x else fadd (fsub x t) f)).
Definition fsum (l : list float) : float :=
  let '(f, c) := fold_left fsum_step l (fzero, fzero) in
  if negb (feqb c fzero) && is_finite c then fadd f c else f.

#[export] Instance float_eq_dec : EqDecision float.
Proof. solve_decision. Defined.

Example decimal_exact : fadd (decimal 25 2) (decimal 5 1) = decimal 75 2.
Proof. reflexivity. Qed.

Example fsum_compensates : fsum (repeat (decimal 1 1) 10) = f_of_Z 1.
Proof. reflexivity. Qed.

Lemma sfcompare_antisym (x y : float) c :
  SFcompare x y = Some c → SFcompare y x = Some (CompOpp c).
Proof.
  destruct x as [sx|sx| |sx mx ex], y as [sy|sy| |sy my ey]; cbn; try done;
    repeat match goal with b : bool |- _ => destruct b end; try (by intros [= <-]).
  all: change (Pos.compare_cont Eq mx my) with (Pos.compare mx my);
    change (Pos.compare_cont Eq my mx) with (Pos.compare my mx).
  all: rewrite (Z.compare_antisym ex ey), (Pos.compare_antisym mx my);
    destruct (Z.compare ex ey), (Pos.compare mx my); cbn; by intros [= <-].
Qed.

(** A strict comparison decides the other strict one; with NaN both fail. *)
Lemma fltb_asym x y : fltb x y = true → fltb y x = false.
Proof.
  unfold fltb, SFltb. destruct (SFcompare x y) as [[]|] eqn:E; try done.
  apply sfcompare_antisym in E. by rewrite E.
Qed.

(** [not (x > y)] means [x <= y] when neither side is NaN. *)
Lemma fltb_false_leb x y :
  is_nan x = false → is_nan y = false → fltb y x = false → fleb x y = true.
Proof.
  intros Hx Hy. unfold fltb, fleb, SFltb, SFleb.
  destruct (SFcompare x y) as [c|] eqn:E.
  - apply sfcompare_antisym in E. rewrite E. by destruct c.
  - destruct x as [sx|sx| |sx mx ex], y as [sy|sy| |sy my ey]; cbn in E, Hx, Hy;
      repeat case_match; done.
Qed.

Lemma fmin_le_r x y : is_nan x = false → is_nan y = false → fleb (fmin x y) y = true.
Proof.
  intros Hx Hy. unfold fmin. destruct (fltb y x) eqn:E.
  - by apply fltb_false_leb; [| |destruct (fltb y y) eqn:E2; [pose proof (fltb_asym _ _ E2); congruence|]].
  - by apply fltb_false_leb.
Qed.

Lemma fltb_fneg x y : fltb (fneg x) (fneg y) = fltb y x.
Proof.
  unfold fltb, fneg, SFltb.
  destruct x as [sx|sx| |sx mx ex], y as [sy|sy| |sy my ey]; cbn; try done;
    repeat match goal with b : bool |- _ => destruct b end; cbn; try done.
  all: change (Pos.compare_cont Eq mx my) with (Pos.compare mx my);
    change (Pos.compare_cont Eq my mx) with (Pos.compare my mx).
  all: rewrite (Z.compare_antisym ex ey), (Pos.compare_antisym mx my);
    by destruct (Z.compare ex ey), (Pos.compare mx my).
Qed.

Lemma feqb_fneg x y : feqb (fneg x) (fneg y) = feqb x y.
Proof.
  unfold feqb, fneg, SFeqb.
  destruct x as [sx|sx| |sx mx ex], y as [sy|sy| |sy my ey]; cbn; try done;
    repeat match goal with b : bool |- _ => destruct b end; cbn; try done.
  all: by destruct (Z.compare ex ey), (Pos.compare_cont Eq mx my).
Qed.
