(* ===== verification/Errors.v ===== *)
(** * Exceptions

    One constructor per exception class the agent service raises or tells
    apart, with the class attributes ([code], [retryable], [reason_code]) of
    [query_safety/errors.py], [nl2sql/errors.py], [llm/errors.py],
    [retrieval/errors.py], [data_sources/errors.py] and [agent/service.py],
    and the [isinstance] tests of the handlers. *)

From S2P Require Import Prelude PyStr Floats.

Inductive exn : Type :=
(* query_safety/errors.py *)
| SQLPolicyViolationError (reason_code : string)
| QueryTimeoutError
| QueryPermissionError
| QueryExecutionError
| QueryResultLimitError
| QueryAuditError
| QueryApprovalRequiredError (reason_code : string) (estimated_total_cost : float)
    (estimated_plan_rows : Z)
(* nl2sql/errors.py *)
| NL2SQLPolicyError (reason_code : string)
| SchemaSelectionError
| NL2SQLRepairExhaustedError (last_error_code : string)
(* llm/errors.py *)
| LLMConfigurationError
| LLMAuthenticationError
| LLMRequestRejectedError
| LLMRateLimitError
| LLMTimeoutError
| LLMUnavailableError
| LLMInvalidResponseError (validation_issues : list string)
(* retrieval/errors.py, retrieval/providers.py *)
| DocumentParseError
| DocumentLimitError
| RetrievalStoreError
| EmbeddingProfileError
| RetrievalProviderError
(* data_sources/errors.py *)
| DataSourceUnavailableError
| DataSourcePermissionError
(* agent/service.py *)
| WorkflowConflictError
| WorkflowIdentityError
(* langgraph: the pause raised by interrupt() *)
| GraphInterrupt
(* psycopg: two classes the code names, the rest of OperationalError, the rest of Error *)
| PsycopgQueryCanceled
| PsycopgInsufficientPrivilege
| PsycopgOperationalError
| PsycopgError
(* httpx *)
| HttpxTimeoutException
| HttpxNetworkError
| HttpxTransportError
| HttpxStatusError (status_code : Z)
| HttpxOtherError
(* neo4j.exceptions: the two classes the code names, subclasses included *)
| Neo4jError
| Neo4jServiceUnavailable
(* fastapi *)
| HTTPException (status_code : Z)
(* builtins; pydantic's ValidationError and json's error are ValueErrors *)
| ValueError
| ValidationError
| TypeError
| KeyError
| IndexError
| OverflowError
| AssertionError
| RuntimeError
| OSError
| TimeoutError
(* any other Exception class, by its name; it carries no attribute the code reads *)
| OtherException (class_name : string).

(** ** Class membership *)

Definition is_query_safety_error (e : exn) : bool :=
  match e with
  | SQLPolicyViolationError _ | QueryTimeoutError | QueryPermissionError
  | QueryExecutionError | QueryResultLimitError | QueryAuditError
  | QueryApprovalRequiredError _ _ _ => true
  | _ => false
  end.

Definition is_nl2sql_error (e : exn) : bool :=
  match e with
  | NL2SQLPolicyError _ | SchemaSelectionError | NL2SQLRepairExhaustedError _ => true
  | _ => false
  end.

Definition is_llm_error (e : exn) : bool :=
  match e with
  | LLMConfigurationError | LLMAuthenticationError | LLMRequestRejectedError
  | LLMRateLimitError | LLMTimeoutError | LLMUnavailableError
  | LLMInvalidResponseError _ => true
  | _ => false
  end.

Definition is_retrieval_error (e : exn) : bool :=
  match e with
  | DocumentParseError | DocumentLimitError | RetrievalStoreError
  | EmbeddingProfileError | RetrievalProviderError => true
  | _ => false
  end.

Definition is_data_source_error (e : exn) : bool :=
  match e with
  | DataSourceUnavailableError | DataSourcePermissionError => true
  | _ => false
  end.

Definition is_psycopg_error (e : exn) : bool :=
  match e with
  | PsycopgQueryCanceled | PsycopgInsufficientPrivilege
  | PsycopgOperationalError | PsycopgError => true
  | _ => false
  end.

(** [psycopg.OperationalError]; [QueryCanceled] is a subclass of it. *)
Definition is_operational_error (e : exn) : bool :=
  match e with PsycopgQueryCanceled | PsycopgOperationalError => true | _ => false end.

(** [OSError]; [TimeoutError] is a subclass of it. *)
Definition is_os_error (e : exn) : bool :=
  match e with OSError | TimeoutError => true | _ => false end.

Definition is_value_error (e : exn) : bool :=
  match e with ValueError | ValidationError => true | _ => false end.

Definition is_httpx_transport_error (e : exn) : bool :=
  match e with
  | HttpxTimeoutException | HttpxNetworkError | HttpxTransportError => true
  | _ => false
  end.

Definition is_httpx_error (e : exn) : bool :=
  is_httpx_transport_error e ||
  match e with HttpxStatusError _ | HttpxOtherError => true | _ => false end.

Definition is_neo4j_error (e : exn) : bool :=
  match e with Neo4jError | Neo4jServiceUnavailable => true | _ => false end.

(** ** Attributes *)

(** [getattr(error, "code", None)]. *)
Definition code (e : exn) : option string :=
  match e with
  | SQLPolicyViolationError _ => Some "SQL_POLICY_VIOLATION"
  | QueryTimeoutError => Some "QUERY_TIMEOUT"
  | QueryPermissionError => Some "QUERY_PERMISSION_DENIED"
  | QueryExecutionError => Some "QUERY_EXECUTION_FAILED"
  | QueryResultLimitError => Some "QUERY_RESULT_LIMIT_EXCEEDED"
  | QueryAuditError => Some "QUERY_AUDIT_FAILED"
  | QueryApprovalRequiredError _ _ _ => Some "QUERY_APPROVAL_REQUIRED"
  | NL2SQLPolicyError _ => Some "NL2SQL_QUESTION_REJECTED"
  | SchemaSelectionError => Some "NL2SQL_SCHEMA_SELECTION_FAILED"
  | NL2SQLRepairExhaustedError _ => Some "NL2SQL_REPAIR_EXHAUSTED"
  | LLMConfigurationError => Some "LLM_CONFIGURATION_ERROR"
  | LLMAuthenticationError => Some "LLM_AUTHENTICATION_ERROR"
  | LLMRequestRejectedError => Some "LLM_REQUEST_REJECTED"
  | LLMRateLimitError => Some "LLM_RATE_LIMITED"
  | LLMTimeoutError => Some "LLM_TIMEOUT"
  | LLMUnavailableError => Some "LLM_UNAVAILABLE"
  | LLMInvalidResponseError _ => Some "LLM_INVALID_RESPONSE"
  | DocumentParseError => Some "DOCUMENT_INVALID"
  | DocumentLimitError => Some "DOCUMENT_LIMIT_EXCEEDED"
  | RetrievalStoreError => Some "RETRIEVAL_STORE_UNAVAILABLE"
  | EmbeddingProfileError => Some "RAG_REINDEX_REQUIRED"
  | RetrievalProviderError => Some "RETRIEVAL_PROVIDER_FAILED"
  | DataSourceUnavailableError => Some "DATA_SOURCE_UNAVAILABLE"
  | DataSourcePermissionError => Some "DATA_SOURCE_PERMISSION_DENIED"
  | WorkflowConflictError => Some "WORKFLOW_NOT_WAITING_APPROVAL"
  | WorkflowIdentityError => Some "WORKFLOW_IDENTITY_MISMATCH"
  | _ => None
  end.

(** [RetrievalError.public_message]. *)
Definition public_message (e : exn) : string :=
  match e with
  | DocumentParseError => "The metric document is empty, unsupported, or malformed."
  | DocumentLimitError => "The metric document exceeds an ingestion limit."
  | RetrievalStoreError => "The metric knowledge store is unavailable."
  | EmbeddingProfileError =>
      "Embedding configuration changed. Re-ingest all active tenant documents."
  | RetrievalProviderError =>
      "Embedding or reranking provider failed; check configuration and reindex."
  | _ => "Metric knowledge could not be processed."
  end.

(** [getattr(error, "reason_code", None)]. *)
Definition reason_code (e : exn) : option string :=
  match e with
  | SQLPolicyViolationError r | QueryApprovalRequiredError r _ _ | NL2SQLPolicyError r => Some r
  | _ => None
  end.

(** [LLMError.retryable]; a class attribute, [False] unless overridden. *)
Definition retryable (e : exn) : bool :=
  match e with
  | LLMRateLimitError | LLMTimeoutError | LLMUnavailableError
  | LLMInvalidResponseError _ => true
  | _ => false
  end.

(** [error.__class__.__name__]. *)
Definition class_name (e : exn) : string :=
  match e with
  | SQLPolicyViolationError _ => "SQLPolicyViolationError"
  | QueryTimeoutError => "QueryTimeoutError"
  | QueryPermissionError => "QueryPermissionError"
  | QueryExecutionError => "QueryExecutionError"
  | QueryResultLimitError => "QueryResultLimitError"
  | QueryAuditError => "QueryAuditError"
  | QueryApprovalRequiredError _ _ _ => "QueryApprovalRequiredError"
  | NL2SQLPolicyError _ => "NL2SQLPolicyError"
  | SchemaSelectionError => "SchemaSelectionError"
  | NL2SQLRepairExhaustedError _ => "NL2SQLRepairExhaustedError"
  | LLMConfigurationError => "LLMConfigurationError"
  | LLMAuthenticationError => "LLMAuthenticationError"
  | LLMRequestRejectedError => "LLMRequestRejectedError"
  | LLMRateLimitError => "LLMRateLimitError"
  | LLMTimeoutError => "LLMTimeoutError"
  | LLMUnavailableError => "LLMUnavailableError"
  | LLMInvalidResponseError _ => "LLMInvalidResponseError"
  | DocumentParseError => "DocumentParseError"
  | DocumentLimitError => "DocumentLimitError"
  | RetrievalStoreError => "RetrievalStoreError"
  | EmbeddingProfileError => "EmbeddingProfileError"
  | RetrievalProviderError => "RetrievalProviderError"
  | DataSourceUnavailableError => "DataSourceUnavailableError"
  | DataSourcePermissionError => "DataSourcePermissionError"
  | WorkflowConflictError => "WorkflowConflictError"
  | WorkflowIdentityError => "WorkflowIdentityError"
  | GraphInterrupt => "GraphInterrupt"
  | PsycopgQueryCanceled => "QueryCanceled"
  | PsycopgInsufficientPrivilege => "InsufficientPrivilege"
  | PsycopgOperationalError => "OperationalError"
  | PsycopgError => "Error"
  | HttpxTimeoutException => "TimeoutException"
  | HttpxNetworkError => "NetworkError"
  | HttpxTransportError => "TransportError"
  | HttpxStatusError _ => "HTTPStatusError"
  | HttpxOtherError => "HTTPError"
  | Neo4jError => "Neo4jError"
  | Neo4jServiceUnavailable => "ServiceUnavailable"
  | HTTPException _ => "HTTPException"
  | ValueError => "ValueError"
  | ValidationError => "ValidationError"
  | TypeError => "TypeError"
  | KeyError => "KeyError"
  | IndexError => "IndexError"
  | OverflowError => "OverflowError"
  | AssertionError => "AssertionError"
  | RuntimeError => "RuntimeError"
  | OSError => "OSError"
  | TimeoutError => "TimeoutError"
  | OtherException n => n
  end.

Definition ascii_upper (a : Ascii.ascii) : Ascii.ascii :=
  let n := Ascii.N_of_ascii a in if is_lower_latin n then byte (n - 32) else a.
Fixpoint upper_ascii (s : string) : string :=
  match s with
  | EmptyString => EmptyString
  | String a s => String (ascii_upper a) (upper_ascii s)
  end.

(** [getattr(error, "code", error.__class__.__name__.upper())]; class names
    are ASCII. *)
Definition code_or_class (e : exn) : string :=
  match code e with Some c => c | None => upper_ascii (class_name e) end.

(** ** agent/error_policy.py *)

Record classification := { category : string; is_retryable : bool }.

Definition classify_error (e : exn) : classification :=
  if is_llm_error e then {| category := "model"; is_retryable := retryable e |}
  else match e with
  | HttpxTimeoutException | TimeoutError => {| category := "timeout"; is_retryable := true |}
  | _ =>
    if is_httpx_transport_error e then {| category := "transport"; is_retryable := true |}
    else if is_value_error e || match e with TypeError => true | _ => false end
    then {| category := "validation"; is_retryable := false |}
    else
      let c := default "" (code e) in
      if contains "POLICY" c || contains "REJECT" c
      then {| category := "policy"; is_retryable := false |}
      else if contains "STORE" c then {| category := "storage"; is_retryable := false |}
      else {| category := "internal"; is_retryable := false |}
  end.

(** ** Theorems *)

Definition failure_categories : list string :=
  ["model"; "timeout"; "transport"; "validation"; "policy"; "storage"; "internal"].

(** The classification is total, stays in the closed set of categories, and
    offers a retry for exactly the model errors that declare themselves
    retryable and for the timeouts and transport failures. *)
Theorem classify_error_retry_sound : ∀ e,
  category (classify_error e) ∈ failure_categories ∧
  (is_retryable (classify_error e) = true ↔
     (is_llm_error e = true ∧ retryable e = true)
     ∨ e = TimeoutError ∨ is_httpx_transport_error e = true).
Proof.
  intros e; destruct e; vm_compute; (split; [set_solver|naive_solver]).
Qed.

(** No two query-safety classes share a public code. *)
Lemma query_safety_codes_distinct e1 e2 c :
  is_query_safety_error e1 = true → is_query_safety_error e2 = true →
  code e1 = Some c → code e2 = Some c → class_name e1 = class_name e2.
Proof.
  intros H1 H2. destruct e1; try discriminate H1; destruct e2; try discriminate H2; cbn; congruence.
Qed.
