(* ===== verification/Json.v ===== *)
(** * JSON values, [json.dumps] and [json.loads]

    The encoder is [json.dumps(value, ensure_ascii=False,
    separators=(",", ":"), default=str)] on the values a database row or a
    prompt payload holds; the decoder is [json.loads].  Floats are kept as
    the numeral that denotes them. *)

From S2P Require Import Prelude PyStr.
From Stdlib Require Import Ascii String DecimalString.
From Stdlib Require DecimalFacts DecimalPos DecimalN DecimalZ.

(** ** Dictionaries in insertion order *)

Section Dict.
Context {K V : Type} `{EqDecision K}.

Fixpoint dict_get (k : K) (d : list (K * V)) : option V :=
  match d with
  | [] => None
  | (k', v) :: d => if decide (k = k') then Some v else dict_get k d
  end.

(** [d[k] = v]: an existing key keeps its place. *)
Fixpoint dict_set (k : K) (v : V) (d : list (K * V)) : list (K * V) :=
  match d with
  | [] => [(k, v)]
  | (k', v') :: d => if decide (k = k') then (k, v) :: d else (k', v') :: dict_set k v d
  end.

Definition dict_of (l : list (K * V)) : list (K * V) :=
  fold_left (λ d kv, dict_set kv.1 kv.2 d) l [].

Lemma dict_get_set k k' v d :
  dict_get k (dict_set k' v d) = if decide (k = k') then Some v else dict_get k d.
Proof.
  induction d as [|[k1 v1] d IH]; cbn; [done|].
  repeat (case_decide; cbn); subst; try done; by rewrite ?IH, ?decide_True, ?decide_False by done.
Qed.

Lemma dict_set_fresh k v d : k ∉ d.*1 → dict_set k v d = d ++ [(k, v)].
Proof.
  induction d as [|[k1 v1] d IH]; cbn; [done|].
  rewrite not_elem_of_cons. intros [? ?]. rewrite decide_False by done. by rewrite IH.
Qed.

Lemma dict_set_keys k v d x : x ∈ (dict_set k v d).*1 ↔ x = k ∨ x ∈ d.*1.
Proof.
  induction d as [|[k1 v1] d IH]; cbn; [set_solver|].
  case_decide; subst; cbn; rewrite !elem_of_cons, ?IH; naive_solver.
Qed.

Lemma NoDup_dict_set k v d : NoDup d.*1 → NoDup (dict_set k v d).*1.
Proof.
  induction d as [|[k1 v1] d IH]; cbn; [repeat constructor; set_solver|].
  rewrite NoDup_cons. intros [Hk Hd]. case_decide; subst; cbn; constructor; eauto.
  rewrite dict_set_keys. naive_solver.
Qed.

Lemma dict_of_from d l :
  NoDup (d.*1 ++ l.*1) → fold_left (λ d kv, dict_set kv.1 kv.2 d) l d = d ++ l.
Proof.
  revert d. induction l as [|[k v] l IH]; intros d; [by rewrite (right_id_L [] (++))|]; cbn [fold_left fst snd].
  intros Hnd. rewrite dict_set_fresh.
  - rewrite IH; [by rewrite <-(assoc_L (++))|].
    rewrite fmap_app, <-(assoc_L (++)). exact Hnd.
  - apply NoDup_app in Hnd as (_ & Hnd & _). intros Hk. apply (Hnd k Hk). by left.
Qed.

(** A list of pairs without a repeated key is its own dictionary. *)
Lemma dict_of_id l : NoDup l.*1 → dict_of l = l.
Proof. intros H. by apply (dict_of_from []). Qed.

Lemma dict_get_elem k v d : NoDup d.*1 → dict_get k d = Some v ↔ (k, v) ∈ d.
Proof.
  induction d as [|[k1 v1] d IH]; cbn; [set_solver|].
  rewrite NoDup_cons. intros [Hk Hd]. rewrite elem_of_cons. case_decide; subst.
  - split; [intros [= ->]; by left|]. intros [[= ->]|Hin]; [done|].
    destruct Hk. apply list_elem_of_fmap. by exists (k1, v).
  - rewrite IH by done. naive_solver.
Qed.

Lemma dict_get_None k d : dict_get k d = None ↔ k ∉ d.*1.
Proof.
  induction d as [|[k1 v1] d IH]; cbn; [set_solver|]. rewrite not_elem_of_cons.
  case_decide; naive_solver.
Qed.
Lemma dict_of_snoc (l : list (K * V)) k v : dict_of (l ++ [(k, v)]) = dict_set k v (dict_of l).
Proof. unfold dict_of. by rewrite fold_left_app. Qed.

Lemma NoDup_dict_of (l : list (K * V)) : NoDup (dict_of l).*1.
Proof.
  induction l as [|[k v] l IH] using rev_ind; [constructor|].
  rewrite dict_of_snoc. by apply NoDup_dict_set.
Qed.

Lemma dict_of_keys (l : list (K * V)) k : k ∈ (dict_of l).*1 ↔ k ∈ l.*1.
Proof.
  induction l as [|[k' v] l IH] using rev_ind; [done|].
  rewrite dict_of_snoc, dict_set_keys, fmap_app, elem_of_app, IH. set_solver.
Qed.

Lemma dict_set_elem k v (d : list (K * V)) k' v' :
  (k', v') ∈ dict_set k v d → k' = k ∧ v' = v ∨ (k', v') ∈ d.
Proof.
  induction d as [|[k1 v1] d IH]; cbn; [set_solver|].
  case_decide; rewrite !elem_of_cons; [naive_solver|]. intros [?|?%IH]; naive_solver.
Qed.

Lemma dict_of_elem (l : list (K * V)) k v : (k, v) ∈ dict_of l → (k, v) ∈ l.
Proof.
  induction l as [|[k' v'] l IH] using rev_ind; [done|].
  rewrite dict_of_snoc, elem_of_app. intros [[-> ->]|?]%dict_set_elem; [right; by left|auto].
Qed.
End Dict.

(** [{f(a): a for a in l}]. *)
Lemma map_pair_keys {A K} (f : A → K) {V} (g : A → V) l : (map (λ a, (f a, g a)) l).*1 = map f l.
Proof. induction l as [|a l IH]; cbn; [done|]. by f_equal. Qed.

Lemma dict_get_of_map {A K V} `{EqDecision K} (f : A → K) (g : A → V) l a :
  NoDup (map f l) → a ∈ l → dict_get (f a) (dict_of (map (λ a, (f a, g a)) l)) = Some (g a).
Proof.
  intros Hnd Ha. rewrite dict_of_id by (by rewrite map_pair_keys).
  apply dict_get_elem; [by rewrite map_pair_keys|]. apply elem_of_map. by exists a.
Qed.

Lemma dict_by_elem {A K} `{EqDecision K} (f : A → K) l k a :
  (k, a) ∈ dict_of (map (λ a, (f a, a)) l) → k = f a ∧ a ∈ l.
Proof. intros (b & [= -> ->] & Hb)%dict_of_elem%elem_of_map. done. Qed.

(** ** Values *)

Unset Elimination Schemes.
Inductive pyval : Type :=
| PNone
| PBool (b : bool)
| PInt (z : Z)
| PFloat (numeral : string)
| PStr (s : string)
| PList (l : list pyval)
| PDict (d : list (string * pyval))
| POther (text : string).  (* a value json cannot encode; [text] is [str(value)] *)

Set Elimination Schemes.

(** An induction principle with hypotheses for the elements. *)
Section PyvalInd.
Variable P : pyval → Prop.
Hypothesis HNone : P PNone.
Hypothesis HBool : ∀ b, P (PBool b).
Hypothesis HInt : ∀ z, P (PInt z).
Hypothesis HFloat : ∀ n, P (PFloat n).
Hypothesis HStr : ∀ s, P (PStr s).
Hypothesis HList : ∀ l, Forall P l → P (PList l).
Hypothesis HDict : ∀ d, Forall (λ kv, P kv.2) d → P (PDict d).
Hypothesis HOther : ∀ t, P (POther t).

Fixpoint pyval_ind (v : pyval) : P v :=
  match v with
  | PNone => HNone
  | PBool b => HBool b
  | PInt z => HInt z
  | PFloat n => HFloat n
  | PStr s => HStr s
  | PList l => HList l ((fix go l : Forall P l := match l with
      | [] => Forall_nil_2 P
      | x :: l => Forall_cons_2 P x l (pyval_ind x) (go l) end) l)
  | PDict d => HDict d ((fix go d : Forall (λ kv, P kv.2) d := match d with
      | [] => Forall_nil_2 (λ kv, P kv.2)
      | (k, x) :: d => Forall_cons_2 (λ kv, P kv.2) (k, x) d (pyval_ind x) (go d) end) d)
  | POther t => HOther t
  end.
End PyvalInd.

(** ** Encoding *)

Definition dquote : ascii := ascii_of_N 34.
Definition backslash : ascii := ascii_of_N 92.

Definition hex_digit (n : N) : ascii :=
  if (n <? 10)%N then ascii_of_N (48 + n) else ascii_of_N (87 + n).

(** One byte of a string literal: [ESCAPE] of [json.encoder]. *)
Definition escape_byte (a : ascii) (rest : string) : string :=
  let n := N_of_ascii a in
  if (n =? 34)%N || (n =? 92)%N then String backslash (String a rest)
  else if (n =? 8)%N then String backslash (String "b" rest)
  else if (n =? 12)%N then String backslash (String "f" rest)
  else if (n =? 10)%N then String backslash (String "n" rest)
  else if (n =? 13)%N then String backslash (String "r" rest)
  else if (n =? 9)%N then String backslash (String "t" rest)
  else if (n <? 32)%N then
    String backslash (String "u" (String "0" (String "0"
      (String (hex_digit (n / 16)) (String (hex_digit (n mod 16)) rest)))))
  else String a rest.

Fixpoint escape (s rest : string) : string :=
  match s with
  | EmptyString => rest
  | String a s => escape_byte a (escape s rest)
  end.

Definition quote (s : string) : string :=
  String dquote (escape s (String dquote EmptyString)).

(** [json.dumps]. *)
Fixpoint dumps (v : pyval) : string :=
  match v with
  | PNone => "null"
  | PBool true => "true"
  | PBool false => "false"
  | PInt z => str_of_Z z
  | PFloat n => n
  | PStr s | POther s => quote s
  | PList l => "[" +:+ join "," (map dumps l) +:+ "]"
  | PDict d => "{" +:+ join "," (map (λ '(k, x), quote k +:+ ":" +:+ dumps x) d) +:+ "}"
  end.

(** [sort_keys=True], at every level. *)
Definition key_le (x y : string * pyval) : Prop := str_le x.1 y.1.
#[export] Instance key_le_dec x y : Decision (key_le x y).
Proof. unfold key_le. apply _. Defined.

Fixpoint sort_keys (v : pyval) : pyval :=
  match v with
  | PList l => PList (map sort_keys l)
  | PDict d => PDict (merge_sort key_le (map (λ '(k, x), (k, sort_keys x)) d))
  | v => v
  end.

Definition opt_str (o : option string) : pyval :=
  match o with Some s => PStr s | None => PNone end.
Definition str_list (l : list string) : pyval := PList (map PStr l).

(** What [json.loads] gives back for an encoded value. *)
Fixpoint json_view (v : pyval) : pyval :=
  match v with
  | POther t => PStr t
  | PList l => PList (map json_view l)
  | PDict d => PDict (map (λ '(k, x), (k, json_view x)) d)
  | v => v
  end.

(** ** Decoding *)

Definition is_json_space (a : ascii) : bool :=
  let n := N_of_ascii a in ((n =? 32) || (n =? 9) || (n =? 10) || (n =? 13))%N.

Fixpoint skip (s : string) : string :=
  match s with
  | String a s' => if is_json_space a then skip s' else s
  | EmptyString => EmptyString
  end.

Definition hex_value (a : ascii) : option N :=
  let n := N_of_ascii a in
  if is_digit n then Some (n - 48)%N
  else if (97 <=? n)%N && (n <=? 102)%N then Some (n - 87)%N
  else if (65 <=? n)%N && (n <=? 70)%N then Some (n - 55)%N
  else None.

Definition hex4 (a b c d : ascii) : option N :=
  x ← hex_value a; y ← hex_value b; z ← hex_value c; w ← hex_value d;
  Some (x * 4096 + y * 256 + z * 16 + w)%N.

Definition is_high_surrogate (n : N) : bool := ((55296 <=? n) && (n <=? 56319))%N.
Definition is_low_surrogate (n : N) : bool := ((56320 <=? n) && (n <=? 57343))%N.

(** [py_scanstring] after the opening quote: the text and the rest. *)
Fixpoint scan (s : string) : option (string * string) :=
  match s with
  | EmptyString => None
  | String a r =>
      let n := N_of_ascii a in
      if (n =? 34)%N then Some (EmptyString, r)
      else if (n =? 92)%N then
        match r with
        | EmptyString => None
        | String e r2 =>
            let m := N_of_ascii e in
            let simple c := '(t, q) ← scan r2; Some (String (ascii_of_N c) t, q) in
            if (m =? 34)%N || (m =? 92)%N || (m =? 47)%N then simple m
            else if (m =? 98)%N then simple 8%N
            else if (m =? 102)%N then simple 12%N
            else if (m =? 110)%N then simple 10%N
            else if (m =? 114)%N then simple 13%N
            else if (m =? 116)%N then simple 9%N
            else if (m =? 117)%N then
              match r2 with
              | String h1 (String h2 (String h3 (String h4 r6))) =>
                  u ← hex4 h1 h2 h3 h4;
                  let single := '(t, q) ← scan r6; Some (encode_cp u t, q) in
                  if is_high_surrogate u then
                    match r6 with
                    | String b (String e2 (String k1 (String k2 (String k3 (String k4 r12))))) =>
                        if (N_of_ascii b =? 92)%N && (N_of_ascii e2 =? 117)%N then
                          match hex4 k1 k2 k3 k4 with
                          | Some lo =>
                              if is_low_surrogate lo then
                                '(t, q) ← scan r12;
                                Some (encode_cp (65536 + (u - 55296) * 1024 + (lo - 56320))%N t, q)
                              else single
                          | None => single
                          end
                        else single
                    | _ => single
                    end
                  else single
              | _ => None
              end
            else None
        end
      else if (n <? 32)%N then None
      else '(t, q) ← scan r; Some (String a t, q)
  end.

(** The automaton of [NUMBER_RE]: an optional minus sign, an integer without
    leading zeros, an optional fraction, an optional exponent. *)
Inductive num_state := NStart | NMinus | NZero | NInt | NDot | NFrac | NE | NESign | NExp | NBad.

Definition num_step (st : num_state) (a : ascii) : num_state :=
  let n := N_of_ascii a in
  let digit := is_digit n in
  let e := (n =? 101)%N || (n =? 69)%N in
  match st with
  | NStart => if (n =? 45)%N then NMinus else if (n =? 48)%N then NZero
              else if digit then NInt else NBad
  | NMinus => if (n =? 48)%N then NZero else if digit then NInt else NBad
  | NZero => if (n =? 46)%N then NDot else if e then NE else NBad
  | NInt => if digit then NInt else if (n =? 46)%N then NDot else if e then NE else NBad
  | NDot => if digit then NFrac else NBad
  | NFrac => if digit then NFrac else if e then NE else NBad
  | NE => if digit then NExp else if (n =? 43)%N || (n =? 45)%N then NESign else NBad
  | NESign | NExp => if digit then NExp else NBad
  | NBad => NBad
  end.

Fixpoint num_run (st : num_state) (s : string) : num_state :=
  match s with
  | EmptyString => st
  | String a s => num_run (num_step st a) s
  end.

Definition is_num_char (a : ascii) : bool :=
  let n := N_of_ascii a in
  is_digit n || ((n =? 43) || (n =? 45) || (n =? 46) || (n =? 69) || (n =? 101))%N.

Fixpoint span_num (s : string) : string * string :=
  match s with
  | String a s' =>
      if is_num_char a then let '(t, r) := span_num s' in (String a t, r)
      else (EmptyString, s)
  | EmptyString => (EmptyString, EmptyString)
  end.

Definition number_of (t : string) : option pyval :=
  match num_run NStart t with
  | NZero | NInt => d ← NilZero.int_of_string t; Some (PInt (Z.of_int d))
  | NFrac | NExp => Some (PFloat t)
  | _ => None
  end.

Definition constants : list (string * pyval) :=
  [("null", PNone); ("true", PBool true); ("false", PBool false);
   ("NaN", PFloat "NaN"); ("Infinity", PFloat "Infinity"); ("-Infinity", PFloat "-Infinity")].

Fixpoint drop_str (n : nat) (s : string) : string :=
  match n, s with
  | S n, String _ s => drop_str n s
  | _, _ => s
  end.

Fixpoint find_constant (cs : list (string * pyval)) (s : string) : option (pyval * string) :=
  match cs with
  | [] => None
  | (t, v) :: cs =>
      if String.prefix t s then Some (v, drop_str (String.length t) s) else find_constant cs s
  end.

Definition parse_atom (s : string) : option (pyval * string) :=
  match find_constant constants s with
  | Some r => Some r
  | None => let '(t, r) := span_num s in v ← number_of t; Some (v, r)
  end.

Fixpoint parse_value (fuel : nat) (s : string) : option (pyval * string) :=
  match fuel with
  | O => None
  | S f =>
      match s with
      | EmptyString => None
      | String a r =>
          let n := N_of_ascii a in
          if (n =? 34)%N then '(t, q) ← scan r; Some (PStr t, q)
          else if (n =? 91)%N then
            match skip r with
            | String b q => if (N_of_ascii b =? 93)%N then Some (PList [], q)
                            else '(l, q) ← parse_elems f (skip r); Some (PList l, q)
            | EmptyString => None
            end
          else if (n =? 123)%N then
            match skip r with
            | String b q => if (N_of_ascii b =? 125)%N then Some (PDict [], q)
                            else '(d, q) ← parse_members f (skip r); Some (PDict (dict_of d), q)
            | EmptyString => None
            end
          else parse_atom s
      end
  end
with parse_elems (fuel : nat) (s : string) : option (list pyval * string) :=
  match fuel with
  | O => None
  | S f =>
      '(v, r) ← parse_value f s;
      match skip r with
      | String b q =>
          if (N_of_ascii b =? 44)%N then '(l, q) ← parse_elems f (skip q); Some (v :: l, q)
          else if (N_of_ascii b =? 93)%N then Some ([v], q) else None
      | EmptyString => None
      end
  end
with parse_members (fuel : nat) (s : string) : option (list (string * pyval) * string) :=
  match fuel with
  | O => None
  | S f =>
      match s with
      | String a r =>
          if (N_of_ascii a =? 34)%N then
            '(k, r1) ← scan r;
            match skip r1 with
            | String c r2 =>
                if (N_of_ascii c =? 58)%N then
                  '(v, r3) ← parse_value f (skip r2);
                  match skip r3 with
                  | String b q =>
                      if (N_of_ascii b =? 44)%N
                      then '(d, q) ← parse_members f (skip q); Some ((k, v) :: d, q)
                      else if (N_of_ascii b =? 125)%N then Some ([(k, v)], q) else None
                  | EmptyString => None
                  end
                else None
            | EmptyString => None
            end
          else None
      | EmptyString => None
      end
  end.

(** [json.loads]: every nested call consumes a byte, so twice the length is
    enough fuel. *)
Definition loads (s : string) : option pyval :=
  '(v, r) ← parse_value (S (2 * String.length s)) (skip s);
  match skip r with EmptyString => Some v | _ => None end.

(** Encodable values: numerals in the number grammar, keys not repeated. *)
Fixpoint json_ok (v : pyval) : bool :=
  match v with
  | PFloat t =>
      match num_run NStart t with
      | NFrac | NExp => true
      | _ => String.eqb t "NaN" || String.eqb t "Infinity" || String.eqb t "-Infinity"
      end
  | PList l => forallb json_ok l
  | PDict d => all_distinct (map fst d) && forallb (λ '(_, x), json_ok x) d
  | _ => true
  end.

(** ** Round trip *)

(** Text after a value that cannot continue a number. *)
Definition delimited (s : string) : bool :=
  match s with String a _ => negb (is_num_char a) | EmptyString => true end.

Fixpoint all_num (s : string) : bool :=
  match s with String a s => is_num_char a && all_num s | EmptyString => true end.

Lemma span_num_app t r :
  all_num t = true → delimited r = true → span_num (t +:+ r) = (t, r).
Proof.
  induction t as [|a t IH]; rewrite ?str_app_nil, ?str_app_cons; cbn.
  - intros _ Hr. destruct r as [|b r]; [done|]. cbn in *. apply negb_true_iff in Hr. by rewrite Hr.
  - intros [Ha Ht]%andb_true_iff Hr. rewrite Ha, IH by done. done.
Qed.

Lemma num_run_bad t : num_run NBad t = NBad.
Proof. by induction t. Qed.

Lemma num_step_bad st a : is_num_char a = false → num_step st a = NBad.
Proof.
  unfold is_num_char, num_step. cbv zeta. generalize (N_of_ascii a). intros n H.
  assert ((n =? 48)%N = false) as H48 by (by destruct (N.eqb_spec n 48) as [->|]).
  split_bools.
  destruct st; repeat match goal with H : _ = false |- _ => rewrite ?H; clear H end; done.
Qed.

Lemma num_run_all_num st t : num_run st t ≠ NBad → all_num t = true.
Proof.
  revert st. induction t as [|a t IH]; intros st; cbn; [done|].
  destruct (is_num_char a) eqn:Ha; [apply IH|]. by rewrite num_step_bad, num_run_bad.
Qed.

Lemma num_run_uint d : num_run NInt (NilEmpty.string_of_uint d) = NInt.
Proof. induction d; done. Qed.

Lemma num_run_unorm st d :
  st = NStart ∨ st = NMinus →
  let t := NilZero.string_of_uint (Decimal.unorm d) in
  num_run st t = NZero ∨ num_run st t = NInt.
Proof.
  intros Hst. unfold Decimal.unorm.
  pose proof (DecimalFacts.nzhead_nonzero d) as Hnz.
  destruct (Decimal.nzhead d) as [| | | | | | | | | | ] eqn:E; cbn;
    first [by edestruct Hnz | idtac];
    destruct Hst as [-> | ->]; cbn; rewrite ?num_run_uint; auto.
Qed.

Lemma pos_to_uint_norm p : Decimal.unorm (Pos.to_uint p) = Pos.to_uint p.
Proof.
  change (Pos.to_uint p) with (N.to_uint (Npos p)).
  rewrite <-DecimalN.Unsigned.to_of. by rewrite DecimalN.Unsigned.of_to.
Qed.

Lemma num_run_Z z :
  num_run NStart (str_of_Z z) = NZero ∨ num_run NStart (str_of_Z z) = NInt.
Proof.
  unfold str_of_Z. destruct z as [|p|p]; [by left| |]; cbn [Z.to_int NilZero.string_of_int];
    rewrite <-pos_to_uint_norm.
  - apply num_run_unorm. auto.
  - cbn [num_run]. apply num_run_unorm. auto.
Qed.

Lemma scan_escape s r : scan (escape s (String dquote r)) = Some (s, r).
Proof.
  induction s as [|a s IH]; [done|]. cbn [escape].
  generalize dependent (escape s (String dquote r)). intros q IH.
  destruct a as [b0 b1 b2 b3 b4 b5 b6 b7].
  destruct b0, b1, b2, b3, b4, b5, b6, b7;
    match goal with |- scan (escape_byte ?a q) = _ =>
      let e := eval vm_compute in (escape_byte a q) in change (escape_byte a q) with e end;
    simpl scan; rewrite IH; reflexivity.
Qed.

(** The first byte of an encoded value. *)
Definition value_head (a : ascii) : Prop := is_json_space a = false ∧ N_of_ascii a ≠ 93%N.

Definition num_token (t : string) : Prop :=
  match num_run NStart t with NZero | NInt | NFrac | NExp => True | _ => False end.

Lemma num_token_head t :
  num_token t → ∃ a t', t = String a t' ∧ num_step NStart a ≠ NBad ∧
    (num_step NStart a = NMinus → ∃ b t'', t' = String b t'' ∧ num_step NMinus b ≠ NBad).
Proof.
  unfold num_token. destruct t as [|a t]; [done|]. cbn. intros H. exists a, t.
  split; [done|]. split.
  - intros Ha. by rewrite Ha, num_run_bad in H.
  - intros Ha. rewrite Ha in H. destruct t as [|b t]; [done|]. exists b, t. split; [done|].
    intros Hb. cbn in H. by rewrite Hb, num_run_bad in H.
Qed.

Lemma str_prefix_cons a s b t :
  String.prefix (String a s) (String b t) = if ascii_dec a b then String.prefix s t else false.
Proof. done. Qed.

Lemma num_token_no_constant t r : num_token t → find_constant constants (t +:+ r) = None.
Proof.
  intros (a & t' & -> & Ha & Hm)%num_token_head. rewrite str_app_cons.
  unfold constants. cbn [find_constant].
  repeat match goal with
  | |- context [String.prefix (String ?x ?s) (String a ?t)] =>
      rewrite (str_prefix_cons x s a t); destruct (ascii_dec x a) as [<-|];
      [first [by destruct Ha | idtac] | ]
  end; [|done].
  destruct (Hm eq_refl) as (b & t'' & -> & Hb). rewrite str_app_cons, str_prefix_cons.
  destruct (ascii_dec _ b) as [<-|]; [by destruct Hb|done].
Qed.

Lemma num_token_value_head t : num_token t →
  ∃ a t', t = String a t' ∧ value_head a ∧
    N_of_ascii a ≠ 34%N ∧ N_of_ascii a ≠ 91%N ∧ N_of_ascii a ≠ 123%N.
Proof.
  intros (a & t' & -> & Ha & _)%num_token_head. exists a, t'. split; [done|].
  assert (N_of_ascii a = 45 ∨ (48 <= N_of_ascii a <= 57))%N as Hn.
  { unfold num_step in Ha. cbv zeta in Ha.
    destruct (N.eqb_spec (N_of_ascii a) 45); [by left|].
    destruct (N.eqb_spec (N_of_ascii a) 48); [right; lia|].
    destruct (is_digit (N_of_ascii a)) eqn:Hd; [|done].
    apply andb_true_iff in Hd as [H1%N.leb_le H2%N.leb_le]. right; lia. }
  unfold value_head, is_json_space. cbv zeta.
  repeat match goal with |- context [N.eqb ?x ?y] => destruct (N.eqb_spec x y); [lia|] end.
  repeat split; lia.
Qed.

Lemma escape_app s q r : escape s q +:+ r = escape s (q +:+ r).
Proof.
  induction s as [|a s IH]; [done|]. cbn [escape]. rewrite <-IH.
  unfold escape_byte. repeat case_match; by rewrite ?str_app_cons.
Qed.

(** *** Texts of a value

    A text that [json.loads] reads as the value: an encoder chooses how it
    escapes strings and where it puts white space. *)

Fixpoint white (s : string) : bool :=
  match s with String a s => is_json_space a && white s | EmptyString => true end.

(** Values whose text has no choice, and strings with a text after the
    opening quote. *)
Definition is_bare (v : pyval) : bool :=
  match v with PNone | PBool _ | PInt _ | PFloat _ => true | _ => false end.
Definition spells (s q : string) : Prop := ∀ r, scan (q +:+ r) = Some (s, r).

Inductive layout : pyval → string → Prop :=
| layout_bare v : is_bare v = true → json_ok v = true → layout v (dumps v)
| layout_text v s q : v = PStr s ∨ v = POther s → spells s q → layout v (String dquote q)
| layout_nil w : white w = true → layout (PList []) ("[" +:+ w +:+ "]")
| layout_list w l b : white w = true → layout_elems l b → layout (PList l) ("[" +:+ w +:+ b)
| layout_empty w : white w = true → layout (PDict []) ("{" +:+ w +:+ "}")
| layout_dict w d b :
    white w = true → NoDup d.*1 → layout_members d b → layout (PDict d) ("{" +:+ w +:+ b)
with layout_elems : list pyval → string → Prop :=
| elems_last v s w : layout v s → white w = true → layout_elems [v] (s +:+ w +:+ "]")
| elems_more v s w w' l b :
    layout v s → white w = true → white w' = true → layout_elems l b →
    layout_elems (v :: l) (s +:+ w +:+ "," +:+ w' +:+ b)
with layout_members : list (string * pyval) → string → Prop :=
| members_last k q w1 v s w :
    spells k q → white w1 = true → layout v s → white w = true →
    layout_members [(k, v)] (String dquote q +:+ ":" +:+ w1 +:+ s +:+ w +:+ "}")
| members_more k q w1 v s w w' d b :
    spells k q → white w1 = true → layout v s → white w = true → white w' = true →
    layout_members d b →
    layout_members ((k, v) :: d)
      (String dquote q +:+ ":" +:+ w1 +:+ s +:+ w +:+ "," +:+ w' +:+ b).

Scheme layout_mind := Minimality for layout Sort Prop
  with layout_elems_mind := Minimality for layout_elems Sort Prop
  with layout_members_mind := Minimality for layout_members Sort Prop.
Combined Scheme layouts_mind from layout_mind, layout_elems_mind, layout_members_mind.

Lemma skip_head a s : is_json_space a = false → skip (String a s) = String a s.
Proof. cbn. by intros ->. Qed.

Lemma skip_white w r : white w = true → skip (w +:+ r) = skip r.
Proof.
  induction w as [|a w IH]; [done|]. cbn [white]. intros [Ha Hw]%andb_true_iff.
  rewrite str_app_cons. cbn [skip]. by rewrite Ha, IH.
Qed.

Lemma delimited_white w r : white w = true → delimited r = true → delimited (w +:+ r) = true.
Proof.
  destruct w as [|a w]; [done|]. cbn [white]. intros [Ha _]%andb_true_iff _.
  unfold is_json_space in Ha. cbv zeta in Ha. rewrite !orb_true_iff, !N.eqb_eq in Ha.
  rewrite str_app_cons. cbn [delimited]. unfold is_num_char.
  destruct Ha as [[[-> | ->]| ->]| ->]; done.
Qed.

Lemma parse_value_num f t r v :
  num_token t → number_of t = Some v → delimited r = true →
  parse_value (S f) (t +:+ r) = Some (v, r).
Proof.
  intros Ht Hn Hr. destruct (num_token_value_head _ Ht) as (a & t' & -> & _ & H1 & H2 & H3).
  rewrite str_app_cons. cbn [parse_value].
  repeat match goal with
  | |- context [N.eqb (N_of_ascii a) ?y] => destruct (N.eqb_spec (N_of_ascii a) y); [done|]
  end.
  rewrite <-str_app_cons. unfold parse_atom. rewrite num_token_no_constant by done.
  rewrite span_num_app; [by rewrite Hn| |done].
  apply (num_run_all_num NStart). unfold num_token in Ht. intros Hb. by rewrite Hb in Ht.
Qed.

Lemma parse_value_bare f v r :
  is_bare v = true → json_ok v = true → delimited r = true →
  parse_value (S f) (dumps v +:+ r) = Some (json_view v, r).
Proof.
  destruct v as [|[]|z|t|s|l|d|s]; cbn [is_bare]; intros Hat Hok Hr; try done.
  1-3: destruct r; reflexivity.
  - cbn [dumps json_view].
    apply parse_value_num; [| |done]; unfold num_token, number_of;
      destruct (num_run_Z z) as [-> | ->]; try done;
      rewrite str_of_Z_parse; cbn; by rewrite DecimalZ.of_to.
  - cbn [dumps json_view]. cbn in Hok. destruct (num_run NStart t) eqn:E;
      first [apply parse_value_num; [by unfold num_token; rewrite E
                                    |by unfold number_of; rewrite E|done]
            |rewrite !orb_true_iff, !String.eqb_eq in Hok; destruct Hok as [[-> | ->]| ->];
             destruct r; reflexivity].
Qed.

(** A text starts with neither white space nor a closing bracket. *)
Definition headed (s : string) : Prop := ∃ a t, s = String a t ∧ value_head a.

Lemma bare_headed v : is_bare v = true → json_ok v = true → headed (dumps v).
Proof.
  destruct v as [|[]|z|t|s|l|d|s]; intros Hb Hok; try done; cbn [dumps];
    try (eexists _, _; split; [reflexivity|done]).
  - destruct (num_token_value_head (str_of_Z z)) as (a & t & -> & ? & _); [|by eexists _, _].
    unfold num_token. by destruct (num_run_Z z) as [-> | ->].
  - cbn in Hok. destruct (num_run NStart t) eqn:E.
    1-5,7-8,10: rewrite !orb_true_iff, !String.eqb_eq in Hok; destruct Hok as [[-> | ->]| ->];
      (eexists _, _; split; [reflexivity|done]).
    all: destruct (num_token_value_head t) as (a & t' & -> & ? & _);
      [by unfold num_token; rewrite E|by eexists _, _].
Qed.

Lemma layout_headed v s : layout v s → headed s.
Proof. intros []; [by apply bare_headed|..]; by eexists _, _. Qed.
Lemma layout_elems_headed l b : layout_elems l b → headed b.
Proof.
  intros []; match goal with H : layout _ _ |- _ => destruct (layout_headed _ _ H) as (a & t & -> & ?) end;
    by eexists _, _.
Qed.
Lemma layout_members_headed d b : layout_members d b → ∃ t, b = String dquote t.
Proof. intros []; rewrite str_app_cons; eauto. Qed.
Lemma skip_headed s r : headed s → skip (s +:+ r) = s +:+ r.
Proof. intros (a & t & -> & [Ha _]). by rewrite str_app_cons, skip_head. Qed.

Lemma layout_skip v s r : layout v s → skip (s +:+ r) = s +:+ r.
Proof. intros Hs. by eapply skip_headed, layout_headed. Qed.

Lemma length_app_str s t : String.length (s +:+ t) = String.length s + String.length t.
Proof. apply byte_len_app. Qed.

(** One round of each parser on a text of the right shape. *)
Lemma parse_value_open f w b r :
  white w = true → headed b →
  parse_value (S f) (("[" +:+ w +:+ b) +:+ r) = ('(l, q) ← parse_elems f (b +:+ r); Some (PList l, q)).
Proof.
  intros Hw (a & t & -> & [Hs Ha]). rewrite !str_app_assoc, str_app_cons, str_app_nil.
  cbn -[parse_elems skip N_of_ascii]. change (N_of_ascii "[") with 91%N. cbn -[parse_elems skip N_of_ascii].
  rewrite skip_white, str_app_cons, skip_head by done. apply N.eqb_neq in Ha. by rewrite Ha.
Qed.

Lemma parse_value_brace f w b r :
  white w = true → (∃ t, b = String dquote t) →
  parse_value (S f) (("{" +:+ w +:+ b) +:+ r)
    = ('(d, q) ← parse_members f (b +:+ r); Some (PDict (dict_of d), q)).
Proof.
  intros Hw [t ->]. rewrite !str_app_assoc, str_app_cons, str_app_nil.
  cbn -[parse_members skip N_of_ascii]. change (N_of_ascii "{") with 123%N.
  cbn -[parse_members skip N_of_ascii]. by rewrite skip_white, str_app_cons, skip_head.
Qed.

Lemma parse_elems_cons f s :
  parse_elems (S f) s =
    ('(v, r) ← parse_value f s;
     match skip r with
     | String b q =>
         if (N_of_ascii b =? 44)%N then '(l, q) ← parse_elems f (skip q); Some (v :: l, q)
         else if (N_of_ascii b =? 93)%N then Some ([v], q) else None
     | EmptyString => None
     end).
Proof. done. Qed.

Lemma parse_members_cons f k q w s r :
  spells k q → white w = true → headed s →
  parse_members (S f) (String dquote q +:+ ":" +:+ w +:+ s +:+ r) =
    ('(v, r3) ← parse_value f (s +:+ r);
     match skip r3 with
     | String b q =>
         if (N_of_ascii b =? 44)%N
         then '(d, q) ← parse_members f (skip q); Some ((k, v) :: d, q)
         else if (N_of_ascii b =? 125)%N then Some ([(k, v)], q) else None
     | EmptyString => None
     end).
Proof.
  intros Hq Hw Hs. rewrite !str_app_cons, str_app_nil. cbn [parse_members].
  change (N_of_ascii dquote =? 34)%N with true. cbv iota. rewrite Hq. cbn [mbind option_bind].
  rewrite skip_head by done. change (N_of_ascii ":" =? 58)%N with true. cbv iota.
  by rewrite skip_white, skip_headed.
Qed.

(** Every nested value is a byte shorter, so twice the length is enough. *)
Definition parses (v : pyval) (s : string) : Prop := ∀ f r,
  2 * String.length s ≤ S f → delimited r = true → parse_value f (s +:+ r) = Some (json_view v, r).
Definition elems_parse (l : list pyval) (b : string) : Prop := ∀ f r,
  2 * String.length b ≤ f → parse_elems f (b +:+ r) = Some (map json_view l, r).
Definition members_parse (d : list (string * pyval)) (b : string) : Prop := ∀ f r,
  2 * String.length b ≤ f → parse_members f (b +:+ r) = Some (map (λ '(k, x), (k, json_view x)) d, r).

(** A text after a value or a bracket: white space and the mark [m]. *)
Lemma skip_mark w m r : white w = true → is_json_space m = false → skip (w +:+ String m r) = String m r.
Proof. intros Hw Hm. by rewrite skip_white, skip_head. Qed.
Lemma delimited_mark w m r :
  white w = true → is_num_char m = false → delimited (w +:+ String m r) = true.
Proof. intros Hw Hm. apply delimited_white; [done|]. cbn. by rewrite Hm. Qed.

Ltac split_length :=
  repeat match goal with
  | H : context [String.length (_ +:+ _)] |- _ => rewrite length_app_str in H
  | H : context [String.length (String _ _)] |- _ => progress cbn [String.length] in H
  end.

Lemma layout_parses :
  (∀ v s, layout v s → parses v s) ∧ (∀ l b, layout_elems l b → elems_parse l b) ∧
  (∀ d b, layout_members d b → members_parse d b).
Proof.
  apply layouts_mind.
  - intros v Hb Hok f r Hf Hr. destruct (bare_headed v Hb Hok) as (a & t & Ht & _).
    rewrite Ht in Hf. cbn in Hf. destruct f as [|f]; [lia|]. by apply parse_value_bare.
  - intros v s q Hv Hq f r Hf Hr. cbn in Hf. destruct f as [|f]; [lia|].
    rewrite str_app_cons. cbn [parse_value]. cbn -[scan]. rewrite Hq. by destruct Hv as [-> | ->].
  - intros w Hw f r Hf Hr. split_length. destruct f as [|f]; [lia|].
    rewrite !str_app_assoc, !str_app_cons, !str_app_nil. cbn -[skip]. by rewrite skip_mark.
  - intros w l b Hw Hb IH f r Hf Hr. split_length. destruct f as [|f]; [lia|].
    rewrite parse_value_open by (try done; by eapply layout_elems_headed). by rewrite IH by lia.
  - intros w Hw f r Hf Hr. split_length. destruct f as [|f]; [lia|].
    rewrite !str_app_assoc, !str_app_cons, !str_app_nil. cbn -[skip]. by rewrite skip_mark.
  - intros w d b Hw Hnd Hb IH f r Hf Hr. split_length. destruct f as [|f]; [lia|].
    rewrite parse_value_brace by (try done; by eapply layout_members_headed). rewrite IH by lia.
    cbn [mbind option_bind json_view]. rewrite dict_of_id; [done|].
    replace ((map (λ '(k, x), (k, json_view x)) d).*1) with d.*1; [done|].
    clear. induction d as [|[k x] d IH]; cbn; [done|]. by rewrite IH.
  - intros v s w Hs IH Hw f r Hf. split_length. destruct f as [|f]; [lia|].
    rewrite !str_app_assoc, !str_app_cons, !str_app_nil, parse_elems_cons.
    rewrite IH by first [lia|by apply delimited_mark]. cbn [mbind option_bind]. by rewrite skip_mark.
  - intros v s w w' l b Hs IH Hw Hw' Hb IHb f r Hf. split_length. destruct f as [|f]; [lia|].
    rewrite !str_app_assoc, !str_app_cons, !str_app_nil, parse_elems_cons.
    rewrite IH by first [lia|by apply delimited_mark]. cbn [mbind option_bind]. rewrite skip_mark by done.
    change (N_of_ascii "," =? 44)%N with true. cbv iota.
    rewrite skip_white, skip_headed by (try done; by eapply layout_elems_headed). by rewrite IHb by lia.
  - intros k q w1 v s w Hq Hw1 Hs IH Hw f r Hf. split_length. destruct f as [|f]; [lia|].
    rewrite !str_app_assoc, (parse_members_cons f k) by (try done; by eapply layout_headed).
    rewrite !str_app_cons, !str_app_nil, IH by first [lia|by apply delimited_mark].
    cbn [mbind option_bind]. by rewrite skip_mark.
  - intros k q w1 v s w w' d b Hq Hw1 Hs IH Hw Hw' Hb IHb f r Hf. split_length. destruct f as [|f]; [lia|].
    rewrite !str_app_assoc, (parse_members_cons f k) by (try done; by eapply layout_headed).
    rewrite !str_app_cons, !str_app_nil, IH by first [lia|by apply delimited_mark].
    cbn [mbind option_bind]. rewrite skip_mark by done.
    change (N_of_ascii "," =? 44)%N with true. cbv iota.
    destruct (layout_members_headed _ _ Hb) as [t ->].
    rewrite skip_white, !str_app_cons, skip_head by done. rewrite <-str_app_cons. by rewrite IHb by lia.
Qed.

(** [json.loads] reads a text of a value, with white space around it. *)
Lemma loads_layout v s w w' :
  layout v s → white w = true → white w' = true → loads (w +:+ s +:+ w') = Some (json_view v).
Proof.
  intros Hs Hw Hw'. unfold loads. rewrite skip_white, (layout_skip v s) by done.
  pose proof (skip_white w' EmptyString Hw') as Hskip. rewrite str_app_nil_r in Hskip.
  pose proof (delimited_white w' EmptyString Hw' eq_refl) as Hend. rewrite str_app_nil_r in Hend.
  rewrite (proj1 layout_parses v s Hs); [|rewrite !length_app_str; lia|exact Hend].
  cbn [mbind option_bind]. by rewrite Hskip.
Qed.

(** *** Encoders choose a text *)

Lemma elems_join w w' l ss :
  white w = true → white w' = true → Forall2 layout l ss → l ≠ [] →
  layout_elems l (join ("," +:+ w) ss +:+ w' +:+ "]").
Proof.
  intros Hw Hw'. induction 1 as [|v s l ss Hs Hl IH]; intros Hne; [done|].
  destruct Hl as [|v2 s2 l ss Hs2 Hl]; [by constructor|].
  cbn [join] in *. rewrite !str_app_assoc. apply (elems_more v s EmptyString); auto.
Qed.

(** An entry's text, with white space after the colon. *)
Inductive layout_entry : string * pyval → string → Prop :=
| entry_text k q w v s :
    spells k q → white w = true → layout v s →
    layout_entry (k, v) (String dquote q +:+ ":" +:+ w +:+ s).

Lemma members_join w w' d ss :
  white w = true → white w' = true → Forall2 layout_entry d ss → d ≠ [] →
  layout_members d (join ("," +:+ w) ss +:+ w' +:+ "}").
Proof.
  intros Hw Hw'. induction 1 as [|kv s d ss [k q w1 v s' Hq Hw1 Hs] Hd IH]; intros Hne; [done|].
  destruct Hd as [|kv2 s2 d ss Hs2 Hd]; cbn [join] in *; rewrite !str_app_assoc.
  - by apply members_last.
  - apply (members_more k q w1 v s' EmptyString); auto.
Qed.

Lemma spells_escape s : spells s (escape s (String dquote EmptyString)).
Proof. intros r. rewrite escape_app, str_app_cons, str_app_nil. apply scan_escape. Qed.

Lemma forall2_map {A B C} (R : B → C → Prop) (f : A → B) (g : A → C) l :
  Forall (λ x, R (f x) (g x)) l → Forall2 R (map f l) (map g l).
Proof. induction 1; cbn; by constructor. Qed.

Definition dumps_entry (kv : string * pyval) : string := quote kv.1 +:+ ":" +:+ dumps kv.2.
Lemma dumps_dict d : dumps (PDict d) = "{" +:+ join "," (map dumps_entry d) +:+ "}".
Proof. cbn [dumps]. do 3 f_equal. apply map_ext. by intros [k x]. Qed.

Lemma json_ok_dict d :
  json_ok (PDict d) = all_distinct d.*1 && forallb (λ kv, json_ok kv.2) d.
Proof. cbn [json_ok]. f_equal. induction d as [|[k x] d IH]; cbn; [done|]. by rewrite IH. Qed.

(** An encoder lays out every encodable value if it lays out the strings, and
    lists and dictionaries whose parts it lays out. *)
Lemma layout_all (P : pyval → Prop) :
  (∀ v, is_bare v = true → json_ok v = true → P v) → (∀ s, P (PStr s) ∧ P (POther s)) →
  (∀ l, Forall P l → P (PList l)) → (∀ d, NoDup d.*1 → Forall (λ kv, P kv.2) d → P (PDict d)) →
  ∀ v, json_ok v = true → P v.
Proof.
  intros Hb Hs Hl Hd v. induction v as [|b|z|t|s|l IH|d IH|s] using pyval_ind; intros Hok; try by apply Hb.
  - apply Hs.
  - apply Hl. cbn [json_ok] in Hok. rewrite list_forallb_spec in Hok. rewrite Forall_forall in IH |- *. auto.
  - rewrite json_ok_dict in Hok. apply andb_true_iff in Hok as [Hk%all_distinct_spec Hok].
    apply Hd; [done|]. rewrite list_forallb_spec in Hok. rewrite Forall_forall in IH |- *. auto.
  - apply Hs.
Qed.

Lemma dumps_layout v : json_ok v = true → layout v (dumps v).
Proof.
  revert v. apply layout_all.
  - intros v Hb Hok. by constructor.
  - intros s. split; (eapply layout_text; [eauto|]; apply spells_escape).
  - intros l Hl. cbn [dumps]. destruct (decide (l = [])) as [-> |Hne]; [by apply (layout_nil EmptyString)|].
    apply (layout_list EmptyString); [done|]. apply (elems_join EmptyString EmptyString); [done..| |done].
    rewrite <-(map_id l) at 1. by apply forall2_map.
  - intros d Hnd Hd. rewrite dumps_dict.
    destruct (decide (d = [])) as [-> |Hne]; [by apply (layout_empty EmptyString)|].
    apply (layout_dict EmptyString); [done..|]. apply (members_join EmptyString EmptyString); [done..| |done].
    rewrite <-(map_id d) at 1. apply forall2_map. eapply Forall_impl; [exact Hd|]. intros [k v] Hv.
    apply (entry_text k _ EmptyString); [apply spells_escape|done|exact Hv].
Qed.

Lemma loads_dumps_ok v : json_ok v = true → loads (dumps v) = Some (json_view v).
Proof.
  intros Hok%dumps_layout. pose proof (loads_layout v _ EmptyString EmptyString Hok eq_refl eq_refl) as Hl.
  by rewrite str_app_nil, str_app_nil_r in Hl.
Qed.

(** Encoding does not see what decoding replaces. *)
Lemma dumps_json_view v : dumps (json_view v) = dumps v.
Proof.
  induction v as [|b|z|t|s|l IH|d IH|s] using pyval_ind; try done; cbn [json_view dumps].
  - do 3 f_equal. induction IH as [|x l Hx _ IH]; cbn; [done|]. by rewrite Hx, IH.
  - do 3 f_equal. induction IH as [|[k x] d Hx _ IH]; cbn in *; [done|]. by rewrite Hx, IH.
Qed.

(** ** Theorems *)

(** [json.loads] undoes [json.dumps] on every encodable value, values
    json cannot encode coming back as their [str]. *)
Theorem loads_dumps : ∀ v, json_ok v = true → loads (dumps v) = Some (json_view v).
Proof. exact loads_dumps_ok. Qed.

Lemma loads_dumps_witness :
  let v := PDict [("name", PStr "Caf"); ("n", PList [PInt (-12); PFloat "1.5e+16"; PBool true]);
                  ("d", POther "2025-01-01")] in
  json_ok v = true ∧ loads (dumps v) = Some (json_view v).
Proof. split; [reflexivity | apply loads_dumps; reflexivity]. Defined.
