(* ===== verification/Metadata.v ===== *)
(** * Schema metadata: [app/metadata]

    The snapshot models, [build_snapshot] (the grouping of catalog rows into
    tables) and the bounded [SchemaMetadataCache].  The SQL that produces the
    rows is PostgreSQL's. *)

From S2P Require Import Prelude PyStr Floats Errors Json.

(** [hashlib]: the code relies on [hexdigest()] being 64 lowercase hex digits. *)
Definition is_hex_char (c : N) : bool := is_digit c || ((97 <=? c) && (c <=? 102))%N.
Definition is_hex64 (s : string) : bool :=
  forallb is_hex_char (cps s) && (length (cps s) =? 64).

Class Digests := {
  sha256_hex : string → string;
  sha256_hex_ok : ∀ s, is_hex64 (sha256_hex s) = true
}.

(** A constant digest, for the witnesses. *)
#[export] Program Instance demo_digests : Digests := {|
  sha256_hex _ := "0123456789abcdef0123456789abcdef0123456789abcdef0123456789abcdef"
|}.
Next Obligation. done. Qed.

(** ** models.py *)

Record ColumnMetadata := {
  col_name : string;
  ordinal_position : Z;
  data_type : string;
  nullable : bool;
  col_comment : option string
}.

Record PrimaryKeyMetadata := { pk_name : string; pk_columns : list string }.

Record ForeignKeyMetadata := {
  fk_name : string;
  fk_columns : list string;
  referenced_schema : string;
  referenced_table : string;
  referenced_columns : list string
}.

Record TableMetadata := {
  table_name : string;
  table_comment : option string;
  columns : list ColumnMetadata;
  primary_key : option PrimaryKeyMetadata;
  foreign_keys : list ForeignKeyMetadata
}.

Record SchemaSnapshot := {
  format_version : string;
  source_id : string;
  schema_name : string;
  schema_version : string;
  dataset_version : string;
  tables : list TableMetadata
}.

(** [model_dump(mode="json")]. *)
Definition dump_column (c : ColumnMetadata) : pyval :=
  PDict [("name", PStr (col_name c)); ("ordinal_position", PInt (ordinal_position c));
         ("data_type", PStr (data_type c)); ("nullable", PBool (nullable c));
         ("comment", opt_str (col_comment c))].
Definition dump_primary_key (k : PrimaryKeyMetadata) : pyval :=
  PDict [("name", PStr (pk_name k)); ("columns", str_list (pk_columns k))].
Definition dump_foreign_key (k : ForeignKeyMetadata) : pyval :=
  PDict [("name", PStr (fk_name k)); ("columns", str_list (fk_columns k));
         ("referenced_schema", PStr (referenced_schema k));
         ("referenced_table", PStr (referenced_table k));
         ("referenced_columns", str_list (referenced_columns k))].
Definition dump_table (t : TableMetadata) : pyval :=
  PDict [("name", PStr (table_name t)); ("comment", opt_str (table_comment t));
         ("columns", PList (map dump_column (columns t)));
         ("primary_key", match primary_key t with
                         | Some k => dump_primary_key k | None => PNone end);
         ("foreign_keys", PList (map dump_foreign_key (foreign_keys t)))].
Definition dump_snapshot (s : SchemaSnapshot) : pyval :=
  PDict [("format_version", PStr (format_version s)); ("source_id", PStr (source_id s));
         ("schema_name", PStr (schema_name s)); ("schema_version", PStr (schema_version s));
         ("dataset_version", PStr (dataset_version s));
         ("tables", PList (map dump_table (tables s)))].

(** ** introspection.py: the rows of the three catalog queries *)

Record column_row := {
  cr_table : string; cr_table_comment : option string; cr_column : ColumnMetadata
}.
Record pk_row := { pr_table : string; pr_key : PrimaryKeyMetadata }.
Record fk_row := { fr_table : string; fr_key : ForeignKeyMetadata }.

(** [defaultdict(list)]: [d[k].append(v)]. *)
Definition dict_append {V} (k : string) (v : V) (d : list (string * list V)) :
    list (string * list V) :=
  dict_set k (default [] (dict_get k d) ++ [v]) d.

Definition add_column_row (acc : list (string * list ColumnMetadata) * list (string * option string))
    (row : column_row) :=
  (dict_append (cr_table row) (cr_column row) acc.1,
   dict_set (cr_table row) (cr_table_comment row) acc.2).

Section Build.
Context `{Digests}.

Definition build_snapshot (source_id schema_name dataset_version : string)
    (column_rows : list column_row) (primary_key_rows : list pk_row)
    (foreign_key_rows : list fk_row) : SchemaSnapshot :=
  let '(columns_by_table, comments_by_table) := fold_left add_column_row column_rows ([], []) in
  let primary_keys := dict_of (map (λ row, (pr_table row, pr_key row)) primary_key_rows) in
  let foreign_keys :=
    fold_left (λ d row, dict_append (fr_table row) (fr_key row) d) foreign_key_rows [] in
  let tables :=
    map (λ name, {|
      table_name := name;
      table_comment := default None (dict_get name comments_by_table);
      columns := default [] (dict_get name columns_by_table);
      primary_key := dict_get name primary_keys;
      foreign_keys := default [] (dict_get name foreign_keys) |})
      (sort_strings columns_by_table.*1) in
  let version_payload := dumps (sort_keys (PList (map dump_table tables))) in
  {| format_version := "1.0";
     source_id := source_id;
     schema_name := schema_name;
     schema_version := "sha256:" +:+ sha256_hex version_payload;
     dataset_version := dataset_version;
     tables := tables |}.
End Build.

(** ** cache.py *)

Record cache_entry := { snapshot : SchemaSnapshot; expires_at : float }.

Record SchemaMetadataCache := {
  ttl_seconds : Z;
  entries : gmap (string * string) cache_entry
}.

Definition new_cache (ttl : Z) : result exn SchemaMetadataCache :=
  if (ttl <=? 0)%Z then Err ValueError else Ok {| ttl_seconds := ttl; entries := ∅ |}.

(** [get_or_load] when the clock reads [now]; the loader runs on a miss only,
    and an exception of it leaves the cache as it was. *)
Definition get_or_load (now : float) (source_id schema_name : string)
    (loader : unit → result exn SchemaSnapshot) (c : SchemaMetadataCache) :
    result exn SchemaSnapshot * SchemaMetadataCache :=
  let key := (source_id, schema_name) in
  let load :=
    match loader tt with
    | Err e => (Err e, c)
    | Ok s =>
        (Ok s, {| ttl_seconds := ttl_seconds c;
                  entries := <[key := {| snapshot := s;
                                         expires_at := fadd now (f_of_Z (ttl_seconds c)) |}]>
                             (entries c) |})
    end in
  match entries c !! key with
  | Some entry => if fltb now (expires_at entry) then (Ok (snapshot entry), c) else load
  | None => load
  end.

Definition invalidate (source_id schema_name : string) (c : SchemaMetadataCache) :
    SchemaMetadataCache :=
  {| ttl_seconds := ttl_seconds c; entries := delete (source_id, schema_name) (entries c) |}.

(** ** Lemmas *)

Lemma dict_get_append {V} k k' (v : V) d :
  default [] (dict_get k (dict_append k' v d))
    = default [] (dict_get k d) ++ if decide (k = k') then [v] else [].
Proof.
  unfold dict_append. rewrite dict_get_set. case_decide; subst; [done|].
  by rewrite app_nil_r.
Qed.

Lemma dict_append_keys {V} k (v : V) d x : x ∈ (dict_append k v d).*1 ↔ x = k ∨ x ∈ d.*1.
Proof. apply dict_set_keys. Qed.

Definition rows_of (name : string) (rows : list column_row) : list column_row :=
  filter (λ row, cr_table row = name) rows.

(** Grouping collects, for every table, its rows in the order they came. *)
Lemma group_columns name rows d cm :
  default [] (dict_get name (fold_left add_column_row rows (d, cm)).1)
    = default [] (dict_get name d) ++ map cr_column (rows_of name rows).
Proof.
  revert d cm. induction rows as [|row rows IH]; intros d cm; cbn [fold_left].
  - by rewrite app_nil_r.
  - unfold add_column_row at 2. cbn [fst snd]. rewrite IH, dict_get_append.
    unfold rows_of. rewrite filter_cons.
    repeat case_decide; subst; try done; by rewrite <-app_assoc.
Qed.

Lemma group_comments name rows d cm :
  dict_get name (fold_left add_column_row rows (d, cm)).2
    = match last (rows_of name rows) with
      | Some row => Some (cr_table_comment row)
      | None => dict_get name cm
      end.
Proof.
  revert d cm. induction rows as [|row rows IH]; intros d cm; cbn [fold_left]; [done|].
  unfold add_column_row at 2. cbn [fst snd]. rewrite IH, dict_get_set.
  unfold rows_of. rewrite filter_cons.
  repeat case_decide; subst; try done. rewrite last_cons. by destruct (last _).
Qed.

Lemma group_keys rows d cm x :
  x ∈ (fold_left add_column_row rows (d, cm)).1.*1 ↔ x ∈ map cr_table rows ∨ x ∈ d.*1.
Proof.
  revert d cm. induction rows as [|row rows IH]; intros d cm; cbn [fold_left map]; [set_solver|].
  unfold add_column_row at 2. cbn [fst snd]. rewrite IH, dict_append_keys. set_solver.
Qed.

Lemma group_NoDup rows d cm :
  NoDup d.*1 → NoDup (fold_left add_column_row rows (d, cm)).1.*1.
Proof.
  revert d cm. induction rows as [|row rows IH]; intros d cm Hd; cbn [fold_left]; [done|].
  unfold add_column_row at 2. cbn [fst snd]. apply IH. by apply NoDup_dict_set.
Qed.

Lemma group_foreign name rows d :
  default [] (dict_get name (fold_left (λ d row, dict_append (fr_table row) (fr_key row) d) rows d))
    = default [] (dict_get name d) ++ map fr_key (filter (λ row, fr_table row = name) rows).
Proof.
  revert d. induction rows as [|row rows IH]; intros d; cbn [fold_left].
  - by rewrite app_nil_r.
  - rewrite IH, dict_get_append, filter_cons.
    repeat case_decide; subst; try done; by rewrite <-app_assoc.
Qed.

(** ** Theorems *)

Section Theorems.
Context `{Digests}.
Implicit Types (crs : list column_row) (pks : list pk_row) (fks : list fk_row).

(** A snapshot lists each table of the column rows exactly once, sorted
    by name; every table holds its own columns and foreign keys, in row
    order, and the comment of its last row. *)
Theorem build_snapshot_tables : ∀ src schema ver crs pks fks,
  let s := build_snapshot src schema ver crs pks fks in
  NoDup (map table_name (tables s)) ∧
  Sorted str_le (map table_name (tables s)) ∧
  (∀ name, name ∈ map table_name (tables s) ↔ name ∈ map cr_table crs) ∧
  (∀ t, t ∈ tables s →
     columns t = map cr_column (rows_of (table_name t) crs) ∧
     foreign_keys t = map fr_key (filter (λ row, fr_table row = table_name t) fks) ∧
     Some (table_comment t) = cr_table_comment <$> last (rows_of (table_name t) crs)).
Proof.
  intros src schema ver crs pks fks. cbv zeta. unfold build_snapshot.
  destruct (fold_left add_column_row crs ([], [])) as [cols cms] eqn:E.
  assert (cols = (fold_left add_column_row crs ([], [])).1) as Hcols by (by rewrite E).
  assert (cms = (fold_left add_column_row crs ([], [])).2) as Hcms by (by rewrite E).
  cbn [tables]. rewrite map_map. cbn [table_name]. rewrite map_id.
  split_and!.
  - rewrite sort_strings_perm, Hcols. apply group_NoDup. constructor.
  - apply sort_strings_sorted.
  - intros name. rewrite elem_of_sort_strings, Hcols, group_keys. set_solver.
  - intros t (name & -> & Hn)%elem_of_map. cbn [columns foreign_keys table_comment table_name].
    rewrite Hcols, Hcms, group_columns, group_comments, group_foreign. split_and!; [done|done|].
    rewrite elem_of_sort_strings, Hcols, group_keys in Hn.
    destruct Hn as [(row & -> & Hrow)%elem_of_map|Hn]; [|by apply elem_of_nil in Hn].
    destruct (last (rows_of (cr_table row) crs)) eqn:El; [done|].
    apply last_None in El. exfalso. eapply (not_elem_of_nil row). rewrite <-El.
    unfold rows_of. by apply list_elem_of_filter.
Qed.
End Theorems.

(** A load stores the snapshot for its key only; until the clock reaches
    the expiry the stored snapshot is returned whatever the loader would do;
    from then on, and after [invalidate], the loader is asked, and a loader
    that raises leaves the cache as it was. *)
Theorem cache_serves_until_expiry : ∀ now src sch loader c s c',
  entries c !! (src, sch) = None →
  get_or_load now src sch loader c = (Ok s, c') →
  (∀ now' loader',
     get_or_load now' src sch loader' c' =
       if fltb now' (fadd now (f_of_Z (ttl_seconds c))) then (Ok s, c')
       else match loader' tt with
            | Ok s' => (Ok s', (get_or_load now' src sch loader' c).2)
            | Err e => (Err e, c')
            end) ∧
  (∀ key, key ≠ (src, sch) → entries c' !! key = entries c !! key) ∧
  invalidate src sch c' = c.
Proof.
  intros now src sch loader c s c' Hnone Hload. revert Hload. unfold get_or_load at 1.
  rewrite Hnone. destruct (loader tt) as [s0|]; [|done]. intros [= <- <-]. split_and!.
  - intros now' loader'. unfold get_or_load. cbn [entries ttl_seconds].
    rewrite lookup_insert_eq, Hnone. cbn [expires_at snapshot].
    destruct (fltb now' _); [done|]. destruct (loader' tt); [|done].
    by rewrite insert_insert_eq.
  - intros key Hkey. cbn [entries]. by apply lookup_insert_ne.
  - unfold invalidate. cbn [entries ttl_seconds]. rewrite delete_insert_eq, delete_id by done.
    by destruct c.
Qed.

Lemma cache_serves_until_expiry_witness :
  let c := {| ttl_seconds := 300; entries := ∅ |} in
  let s := build_snapshot "demo" "northwind" "1" [] [] [] in
  let c' := (get_or_load fzero "demo" "northwind" (λ _, Ok s) c).2 in
  (get_or_load (f_of_Z 299) "demo" "northwind" (λ _, Err ValueError) c').1 = Ok s.
Proof.
  intros c s c'.
  destruct (cache_serves_until_expiry fzero "demo" "northwind" (λ _, Ok s) c s c'
              eq_refl eq_refl) as [Hhit _].
  rewrite (Hhit (f_of_Z 299) (λ _, Err ValueError)). reflexivity.
Defined.
