(* ===== verification/Policy.v ===== *)
(** * Query policy and records: [app/query_safety/models.py]

    The policy with pydantic's field constraints and validators, its
    construction from a schema snapshot and its restriction to selected
    tables, and the records that flow through guard, planner, executor and
    audit. *)

From S2P Require Import Prelude PyStr Floats Errors Json Metadata.

Record QueryPolicy := {
  allowed_schema : string;
  allowed_tables : gset string;
  allowed_columns : gmap string (gset string);
  max_rows : Z;
  max_columns : Z;
  max_result_bytes : Z;
  max_total_cost : float;
  max_plan_rows : Z
}.

(** The numeric limits a caller may override, with the field defaults. *)
Record limits := {
  l_max_rows : Z; l_max_columns : Z; l_max_result_bytes : Z;
  l_max_total_cost : float; l_max_plan_rows : Z
}.
Definition default_limits : limits := {|
  l_max_rows := 100; l_max_columns := 50; l_max_result_bytes := 1000000;
  l_max_total_cost := f_of_Z 10000; l_max_plan_rows := 100000
|}.

(** [not name or not name.replace("_", "a").isalnum()], negated. *)
Definition simple_name `{PyUnicode} (name : string) : bool :=
  match cps name with
  | [] => false
  | l => forallb isalnum_cp (map (λ c, if (c =? 95)%N then 97%N else c) l)
  end.

Section Policy.
Context `{PyUnicode}.

Definition names_ok (names : gset string) : bool := forallb simple_name (elements names).

Definition column_names_ok (columns_by_table : gmap string (gset string)) : bool :=
  forallb (λ '(table, columns), simple_name table && names_ok columns)
    (map_to_list columns_by_table).

Definition within (lo x hi : Z) : bool := ((lo <=? x) && (x <=? hi))%Z.

(** Pydantic validation of the model: field constraints and validators. *)
Definition policy_valid (p : QueryPolicy) : bool :=
  simple_identifier (allowed_schema p)
  && negb (bool_decide (allowed_tables p = ∅)) && names_ok (allowed_tables p)
  && column_names_ok (allowed_columns p)
  && within 1 (max_rows p) 10000 && within 1 (max_columns p) 500
  && within 64 (max_result_bytes p) 10000000
  && negb (fleb (max_total_cost p) fzero) && (1 <=? max_plan_rows p)%Z.

Definition QueryPolicy_validate (p : QueryPolicy) : result exn QueryPolicy :=
  if policy_valid p then Ok p else Err ValidationError.

Definition snapshot_names (s : SchemaSnapshot) : gset string :=
  list_to_set (map table_name (tables s)).
Definition snapshot_columns (s : SchemaSnapshot) : gmap string (gset string) :=
  fold_left (λ m t, <[table_name t := list_to_set (map col_name (columns t))]> m) (tables s) ∅.

Definition from_snapshot (s : SchemaSnapshot) (l : limits) : result exn QueryPolicy :=
  QueryPolicy_validate {|
    allowed_schema := schema_name s;
    allowed_tables := snapshot_names s;
    allowed_columns := snapshot_columns s;
    max_rows := l_max_rows l; max_columns := l_max_columns l;
    max_result_bytes := l_max_result_bytes l;
    max_total_cost := l_max_total_cost l; max_plan_rows := l_max_plan_rows l
  |}.

Definition restrict_to_tables (p : QueryPolicy) (table_names : gset string) :
    result exn QueryPolicy :=
  if bool_decide (table_names = ∅) || negb (bool_decide (table_names ⊆ allowed_tables p))
  then Err ValueError
  else Ok {|
    allowed_schema := allowed_schema p;
    allowed_tables := table_names;
    allowed_columns := filter (λ kv, kv.1 ∈ table_names) (allowed_columns p);
    max_rows := max_rows p; max_columns := max_columns p;
    max_result_bytes := max_result_bytes p;
    max_total_cost := max_total_cost p; max_plan_rows := max_plan_rows p
  |}.
End Policy.

(** ** Records *)

Record GuardedQuery := {
  normalized_sql : string;
  bounded_sql : string;
  query_fingerprint : string;
  referenced_tables : list string;
  row_fetch_limit : Z
}.

(** [^sha256:[0-9a-f]{64}$]. *)
Definition is_fingerprint (s : string) : bool :=
  String.prefix "sha256:" s && is_hex64 (drop_str 7 s).

Definition GuardedQuery_validate (q : GuardedQuery) : result exn GuardedQuery :=
  if (1 <=? py_len (normalized_sql q)) && (1 <=? py_len (bounded_sql q))
     && is_fingerprint (query_fingerprint q) && (2 <=? row_fetch_limit q)%Z
  then Ok q else Err ValidationError.

Record QueryExecutionResult := {
  result_columns : list string;
  rows : list (list (string * pyval));
  returned_row_count : Z;
  serialized_bytes : Z;
  truncated : bool
}.

Record QueryCostEstimate := { total_cost : float; plan_rows : Z }.

Definition QueryCostEstimate_validate (e : QueryCostEstimate) : result exn QueryCostEstimate :=
  if negb (fltb (total_cost e) fzero) && (0 <=? plan_rows e)%Z then Ok e else Err ValidationError.

Record QueryContext := {
  tenant_id : string; user_id : string; job_id : string;
  data_source_id : string; trace_id : string
}.

Inductive QueryAuditStatus := SUCCEEDED | REJECTED | APPROVAL_REQUIRED | FAILED.
#[export] Instance QueryAuditStatus_eq_dec : EqDecision QueryAuditStatus.
Proof. solve_decision. Defined.

Record QueryAuditEvent := {
  ev_event_id : string;
  ev_occurred_at : Z;
  ev_context : QueryContext;
  ev_status : QueryAuditStatus;
  ev_reason_code : string;
  ev_query_fingerprint : string;
  ev_referenced_tables : list string;
  ev_planner_invoked : bool;
  ev_executor_invoked : bool;
  ev_estimated_total_cost : option float;
  ev_estimated_plan_rows : option Z;
  ev_returned_rows : Z;
  ev_returned_columns : Z;
  ev_serialized_bytes : Z;
  ev_result_truncated : bool;
  ev_duration_ms : Z
}.

Record SafeQueryOutcome := { outcome_result : QueryExecutionResult; audit : QueryAuditEvent }.

(** ** Theorems *)

Section Theorems.
Context `{PyUnicode}.

Lemma names_ok_spec (s : gset string) :
  names_ok s = true ↔ ∀ x, x ∈ s → simple_name x = true.
Proof. unfold names_ok. rewrite list_forallb_spec. by setoid_rewrite elem_of_elements. Qed.

Lemma column_names_ok_spec (m : gmap string (gset string)) :
  column_names_ok m = true ↔
    ∀ t cs, m !! t = Some cs → simple_name t = true ∧ names_ok cs = true.
Proof.
  unfold column_names_ok. rewrite list_forallb_spec. split.
  - intros Hm t cs Ht. apply andb_true_iff. apply (Hm (t, cs)). by apply elem_of_map_to_list.
  - intros Hm [t cs] Ht%elem_of_map_to_list. apply andb_true_iff. eauto.
Qed.

Lemma restrict_valid p names p' :
  policy_valid p = true → restrict_to_tables p names = Ok p' → policy_valid p' = true.
Proof.
  unfold restrict_to_tables. case_match; [done|]. split_bools.
  intros Hv [= <-]. unfold policy_valid in *. cbn.
  rewrite !andb_true_iff in *. destruct Hv as [[[[[[[[? ?] Hn] Hc] ?] ?] ?] ?] ?].
  split_and!; try done.
  - by apply negb_true_iff, bool_decide_eq_false.
  - apply names_ok_spec. rewrite names_ok_spec in Hn. set_solver.
  - apply column_names_ok_spec. rewrite column_names_ok_spec in Hc.
    intros t cs Ht%map_lookup_filter_Some. naive_solver.
Qed.

(** Restricting a policy fails exactly on an empty selection or one
    outside the policy; otherwise the result allows exactly the selected
    tables, each with exactly the columns it had, and is still valid. *)
Theorem restrict_to_tables_narrows : ∀ p names,
  match restrict_to_tables p names with
  | Err e => e = ValueError ∧ (names = ∅ ∨ ¬ names ⊆ allowed_tables p)
  | Ok p' =>
      names ≠ ∅ ∧ allowed_tables p' = names ∧ names ⊆ allowed_tables p ∧
      (∀ t, allowed_columns p' !! t
              = if decide (t ∈ names) then allowed_columns p !! t else None) ∧
      (policy_valid p = true → policy_valid p' = true)
  end.
Proof.
  intros p names. destruct (restrict_to_tables p names) as [p'|e] eqn:E.
  - assert (policy_valid p = true → policy_valid p' = true)
      by eauto using restrict_valid.
    revert E. unfold restrict_to_tables. case_match; [done|]. split_bools.
    intros [= <-]. cbn. split_and!; try done.
    intros t. apply option_eq. intros cs. rewrite map_lookup_filter_Some. cbn.
    case_decide; naive_solver.
  - revert E. unfold restrict_to_tables. case_match eqn:Hc; [|done]. intros [= <-].
    split; [done|]. apply orb_true_iff in Hc as [?|?]; split_bools; [by left|by right].
Qed.

Lemma snapshot_columns_lookup ts t cs (m : gmap string (gset string)) :
  NoDup (map table_name ts) →
  fold_left (λ m t, <[table_name t := list_to_set (map col_name (columns t))]> m) ts m !! t = Some cs ↔
    (∃ tb, tb ∈ ts ∧ table_name tb = t ∧ cs = list_to_set (map col_name (columns tb)))
    ∨ (t ∉ map table_name ts ∧ m !! t = Some cs).
Proof.
  revert m. induction ts as [|tb ts IH]; intros m; cbn [fold_left map]; [set_solver|].
  rewrite NoDup_cons. intros [Hn Hnd]. rewrite IH by done.
  destruct (decide (table_name tb = t)) as [<-|Hne].
  - rewrite lookup_insert_eq. split.
    + intros [(tb' & ? & Ht & ?)|[_ [= <-]]]; [|left; set_solver].
      destruct Hn. rewrite <-Ht. apply elem_of_map. eauto.
    + intros [(tb' & [->|Hin]%elem_of_cons & Ht & ->)|[Hn' _]].
      * right. done.
      * destruct Hn. rewrite <-Ht. apply elem_of_map. eauto.
      * destruct Hn'. by left.
  - rewrite lookup_insert_ne by done. set_solver.
Qed.

(** The policy built from a snapshot with distinct table names allows
    exactly the snapshot's tables and, for each, exactly its columns. *)
Theorem from_snapshot_exact : ∀ s l p,
  NoDup (map table_name (tables s)) →
  from_snapshot s l = Ok p →
  allowed_schema p = schema_name s ∧
  (∀ t, t ∈ allowed_tables p ↔ t ∈ map table_name (tables s)) ∧
  (∀ t c, (∃ cs, allowed_columns p !! t = Some cs ∧ c ∈ cs) ↔
     ∃ tb col, tb ∈ tables s ∧ col ∈ columns tb ∧ table_name tb = t ∧ col_name col = c) ∧
  policy_valid p = true.
Proof.
  intros s l p Hnd. unfold from_snapshot, QueryPolicy_validate.
  case_match eqn:Hv; [|done]. intros [= <-]. split_and!; [done| | |done].
  - intros t. cbn. unfold snapshot_names. by rewrite elem_of_list_to_set.
  - intros t c. cbn. unfold snapshot_columns. setoid_rewrite snapshot_columns_lookup; [|done].
    split.
    + intros (cs & [(tb & ? & ? & ->)|[_ ?]] & Hc); [|by rewrite lookup_empty in *].
      apply elem_of_list_to_set, elem_of_map in Hc as (col & -> & ?). naive_solver.
    + intros (tb & col & ? & ? & <- & <-). eexists. split; [left; eauto|].
      apply elem_of_list_to_set, elem_of_map. eauto.
Qed.
End Theorems.

(** A two-table snapshot, used by the witnesses of several components. *)
Definition demo_column (n : string) : ColumnMetadata := {|
  col_name := n; ordinal_position := 1; data_type := "integer"; nullable := false;
  col_comment := None
|}.
Definition demo_table (n : string) (cols : list string) : TableMetadata := {|
  table_name := n; table_comment := None; columns := map demo_column cols;
  primary_key := None; foreign_keys := []
|}.
Definition demo_snapshot : SchemaSnapshot := {|
  format_version := "1.0"; source_id := "northwind-demo"; schema_name := "northwind";
  schema_version := "sha256:0"; dataset_version := "1";
  tables := [demo_table "customers" ["customer_id"; "contact_name"];
             demo_table "orders" ["order_id"; "customer_id"]]
|}.
Definition demo_policy : QueryPolicy := {|
  allowed_schema := "northwind"; allowed_tables := snapshot_names demo_snapshot;
  allowed_columns := snapshot_columns demo_snapshot;
  max_rows := 100; max_columns := 50; max_result_bytes := 1000000;
  max_total_cost := f_of_Z 10000; max_plan_rows := 100000
|}.

Lemma from_snapshot_exact_witness :
  from_snapshot demo_snapshot default_limits = Ok demo_policy ∧
  policy_valid demo_policy = true.
Proof.
  split; [reflexivity|].
  apply (from_snapshot_exact demo_snapshot default_limits demo_policy); [|reflexivity].
  apply (bool_decide_unpack _). vm_compute. exact I.
Defined.
