(* ===== verification/SqlGuard.v ===== *)
(** * The deterministic SQL guard: [app/query_safety/guard.py]

    sqlglot is a library: its parser, its column qualifier and its printer
    are the operations of the class [SqlGlot].  A parsed statement is seen
    through the attributes the guard reads, as a tree of nodes. *)

From S2P Require Import Prelude PyStr Floats Errors Json Metadata Policy.

(** ** Statements as the guard sees them *)

(** The sqlglot classes the guard tests for; a node lists every one of them
    that it is an instance of. *)
Inductive node_class :=
| Query | DDL | DML | Command | Copy | Into | Lock | Transaction
| Func | Anonymous | Table | CTE | Join | Column.
#[export] Instance node_class_eq_dec : EqDecision node_class.
Proof. solve_decision. Defined.

(** The [on] argument of a join: a boolean literal or another expression. *)
Inductive on_clause := OnBoolean (this : bool) | OnOther.

Record attrs := {
  classes : list node_class;
  name : string;              (* [.name] *)
  alias_or_name : string;     (* [.alias_or_name] *)
  sql_name : string;          (* [Func.sql_name()] *)
  db : string;                (* [Table.db] *)
  catalog : string;           (* [Table.catalog] *)
  column_table : string;      (* [Column.table] *)
  kind : option string;       (* [Join.args.get("kind")] *)
  on_arg : option on_clause;      (* [Join.args.get("on")] *)
  has_using : bool;               (* [Join.args.get("using") is not None] *)
  with_recursive : option bool  (* [args.get("with_")] and its [recursive] *)
}.

Unset Elimination Schemes.
Inductive node := Node { node_attrs : attrs; children : list node }.
Set Elimination Schemes.

Definition isinstance (c : node_class) (n : node) : bool := mem c (classes (node_attrs n)).

Fixpoint height (n : node) : nat :=
  match n with Node _ cs => S (max_list_with height cs) end.

(** [find_all] visits the tree breadth first, the root included. *)
Fixpoint levels (fuel : nat) (level : list node) : list node :=
  match fuel with
  | O => []
  | S f => level ++ levels f (concat (map children level))
  end.
Definition walk (n : node) : list node := levels (height n) [n].
Definition find_all (c : node_class) (n : node) : list node :=
  List.filter (isinstance c) (walk n).
(** [statement.find(node_type) is not None]. *)
Definition has_node (c : node_class) (n : node) : bool := existsb (isinstance c) (walk n).

(** [ParseError] and [TokenError], and [OptimizeError], of [sqlglot.errors]. *)
Definition is_syntax_error (e : exn) : bool :=
  match e with OtherException c => mem c ["ParseError"; "TokenError"] | _ => false end.
Definition is_optimize_error (e : exn) : bool :=
  match e with OtherException c => String.eqb c "OptimizeError" | _ => false end.

(** Each operation may raise: the errors the guard maps, or any other
    exception (sqlglot's [SchemaError], a [RecursionError] on a deeply nested
    statement), but none of the service's own query-safety errors, which
    sqlglot does not know. *)
Class SqlGlot := {
  (* [sqlglot.parse(query, read="postgres")] *)
  parse : string → result exn (list (option node));
  (* [qualify(statement, schema=..., ...)] *)
  qualify : node → string → gmap string (gset string) → result exn node;
  (* [statement.sql(dialect="postgres", pretty=False)] *)
  sql : node → result exn string;
  parse_foreign : ∀ q e, parse q = Err e → is_query_safety_error e = false;
  qualify_foreign : ∀ n s c e, qualify n s c = Err e → is_query_safety_error e = false;
  sql_foreign : ∀ n e, sql n = Err e → is_query_safety_error e = false
}.

Definition forbidden_functions : list string :=
  ["dblink"; "dblink_exec"; "lo_export"; "lo_import"; "nextval"; "pg_ls_dir";
   "pg_read_binary_file"; "pg_read_file"; "pg_sleep"; "set_config"; "setval"].
Definition forbidden_nodes : list node_class :=
  [DDL; DML; Command; Copy; Into; Lock; Transaction].

(** ** SQLGuard *)

Section Guard.
Context `{PyUnicode} `{Digests} `{SqlGlot}.

Definition violation (r : string) : exn := SQLPolicyViolationError r.

Definition fingerprint_query (query : string) : string := "sha256:" +:+ sha256_hex query.

Definition check_function (f : node) : result exn unit :=
  let fname := if isinstance Anonymous f then name (node_attrs f) else sql_name (node_attrs f) in
  if mem (lower fname) forbidden_functions then Err (violation "FORBIDDEN_FUNCTION")
  else if isinstance Anonymous f then Err (violation "FUNCTION_NOT_ALLOWED")
  else Ok tt.
Definition check_functions (statement : node) : result exn unit :=
  for_each check_function (find_all Func statement).

Definition check_join (j : node) : result exn unit :=
  let a := node_attrs j in
  let is_cross := String.eqb (upper (default "" (kind a))) "CROSS" in
  let has_condition := match on_arg a with Some _ => true | None => has_using a end in
  let condition_is_true := match on_arg a with Some (OnBoolean b) => b | _ => false end in
  if is_cross || negb has_condition || condition_is_true
  then Err (violation "CARTESIAN_JOIN_NOT_ALLOWED") else Ok tt.
Definition check_query_shape (statement : node) : result exn unit :=
  match with_recursive (node_attrs statement) with
  | Some true => Err (violation "RECURSIVE_QUERY_NOT_ALLOWED")
  | _ => for_each check_join (find_all Join statement)
  end.

Definition cte_names (statement : node) : list string :=
  map (λ c, lower (alias_or_name (node_attrs c))) (find_all CTE statement).

(** One table of the loop: [None] is [continue]. *)
Definition check_table (ctes : list string) (p : QueryPolicy) (t : node) :
    result exn (option string) :=
  let a := node_attrs t in
  if String.eqb (db a) EmptyString && mem (lower (name a)) ctes then Ok None
  else if negb (String.eqb (catalog a) EmptyString)
          || negb (String.eqb (db a) EmptyString) && negb (String.eqb (db a) (allowed_schema p))
  then Err (violation "CROSS_SCHEMA_REFERENCE")
  else if bool_decide (name a ∈ allowed_tables p)
  then Ok (Some (allowed_schema p +:+ "." +:+ name a))
  else Err (violation "TABLE_NOT_ALLOWED").
Definition check_tables (statement : node) (p : QueryPolicy) : result exn (gset string) :=
  found ← map_result (check_table (cte_names statement) p) (find_all Table statement);
  Ok (list_to_set (omap id found)).

Definition qualify_columns (statement : node) (p : QueryPolicy) : result exn node :=
  if bool_decide (allowed_columns p = ∅) then Ok statement
  else match qualify statement (allowed_schema p) (allowed_columns p) with
       | Err e => Err (if is_optimize_error e then violation "COLUMN_NOT_ALLOWED" else e)
       | Ok qualified =>
           if isinstance Query qualified then Ok qualified
           else Err (violation "NON_READ_ONLY_STATEMENT")
       end.

Definition guarded_query (normalized : string) (tables : gset string) (p : QueryPolicy) :
    GuardedQuery :=
  {| normalized_sql := normalized;
     bounded_sql := "SELECT * FROM (" +:+ normalized +:+ ") AS _copilot_bounded LIMIT "
                    +:+ str_of_Z (max_rows p + 1);
     query_fingerprint := fingerprint_query normalized;
     referenced_tables := sort_strings (elements tables);
     row_fetch_limit := max_rows p + 1 |}.

Definition inspect (query : string) (p : QueryPolicy) : result exn GuardedQuery :=
  if is_blank query then Err (violation "EMPTY_QUERY") else
  match parse query with
  | Err e => Err (if is_syntax_error e then violation "SQL_PARSE_ERROR" else e)
  | Ok [None] => Err (violation "NON_READ_ONLY_STATEMENT")
  | Ok [Some statement] =>
      if negb (isinstance Query statement) then Err (violation "NON_READ_ONLY_STATEMENT")
      else if existsb (λ c, has_node c statement) forbidden_nodes
      then Err (violation "FORBIDDEN_SQL_OPERATION")
      else
        _ ← check_functions statement;
        _ ← check_query_shape statement;
        tables ← check_tables statement p;
        qualified ← qualify_columns statement p;
        normalized ← sql qualified;
        GuardedQuery_validate (guarded_query normalized tables p)
  | Ok _ => Err (violation "MULTIPLE_STATEMENTS")
  end.
End Guard.

(** ** Trees *)

Inductive subnode (n : node) : node → Prop :=
| subnode_refl : subnode n n
| subnode_child m c : c ∈ children m → subnode n c → subnode n m.

Lemma subnode_inv n m : subnode n m ↔ n = m ∨ ∃ c, c ∈ children m ∧ subnode n c.
Proof.
  split.
  - inversion 1; subst; [by left|right; eauto].
  - intros [->|(c & ? & ?)]; econstructor; eauto.
Qed.

Lemma height_child c m : c ∈ children m → height c < height m.
Proof.
  destruct m as [a cs]. cbn. intros Hc.
  induction cs as [|x cs IH]; [by apply elem_of_nil in Hc|]. cbn.
  apply elem_of_cons in Hc as [->|Hc]; [lia|]. specialize (IH Hc). lia.
Qed.

Lemma elem_of_levels f l n :
  (∀ m, m ∈ l → height m ≤ f) → n ∈ levels f l ↔ ∃ m, m ∈ l ∧ subnode n m.
Proof.
  revert l. induction f as [|f IH]; intros l Hl; cbn [levels].
  - split; [by intros ?%elem_of_nil|]. intros (m & Hm & _). specialize (Hl m Hm). destruct m; cbn in Hl; lia.
  - rewrite elem_of_app, IH.
    + setoid_rewrite list_elem_of_In at 2. setoid_rewrite in_concat.
      setoid_rewrite subnode_inv at 2. setoid_rewrite in_map_iff.
      setoid_rewrite <-list_elem_of_In. naive_solver.
    + intros c Hc. apply list_elem_of_In, in_concat in Hc as (cs & (m & <- & Hm)%in_map_iff & Hc).
      apply list_elem_of_In in Hm, Hc. apply height_child in Hc. specialize (Hl m Hm). lia.
Qed.

Lemma elem_of_walk n t : n ∈ walk t ↔ subnode n t.
Proof.
  unfold walk. rewrite elem_of_levels.
  - split; [by intros (m & ->%list_elem_of_singleton & ?)|].
    intros ?. exists t. split; [by apply list_elem_of_singleton|done].
  - intros m ->%list_elem_of_singleton. done.
Qed.

Lemma elem_of_find_all c n t : n ∈ find_all c t ↔ subnode n t ∧ isinstance c n = true.
Proof. unfold find_all. rewrite list_elem_of_In, filter_In, <-list_elem_of_In, elem_of_walk. done. Qed.

Lemma has_node_false c t : has_node c t = false ↔ ∀ n, subnode n t → isinstance c n = false.
Proof. unfold has_node. rewrite list_existsb_false. by setoid_rewrite elem_of_walk. Qed.

(** ** What the guard promises *)

Section Theorems.
Context `{PyUnicode} `{Digests} `{SqlGlot}.
Implicit Types (t n : node) (p : QueryPolicy).

Definition conditional_join (a : attrs) : Prop :=
  upper (default "" (kind a)) ≠ "CROSS" ∧
  (on_arg a = Some OnOther ∨ on_arg a = Some (OnBoolean false)
   ∨ on_arg a = None ∧ has_using a = true).

(** A reference to a common table expression of the statement. *)
Definition cte_reference (t n : node) : Prop :=
  db (node_attrs n) = EmptyString ∧
  ∃ c, subnode c t ∧ isinstance CTE c = true ∧
    lower (name (node_attrs n)) = lower (alias_or_name (node_attrs c)).

Definition policy_table (p : QueryPolicy) (a : attrs) : Prop :=
  catalog a = EmptyString ∧ (db a = EmptyString ∨ db a = allowed_schema p) ∧
  name a ∈ allowed_tables p.

(** The statements the guard lets through, stated on the tree. *)
Record safe_statement (p : QueryPolicy) (t : node) : Prop := {
  safe_query : isinstance Query t = true;
  safe_operations : ∀ n c, subnode n t →
    c ∈ [DDL; DML; Command; Copy; Into; Lock; Transaction] → isinstance c n = false;
  safe_functions : ∀ n, subnode n t → isinstance Func n = true →
    isinstance Anonymous n = false ∧
    lower (sql_name (node_attrs n)) ∉
      ["dblink"; "dblink_exec"; "lo_export"; "lo_import"; "nextval"; "pg_ls_dir";
       "pg_read_binary_file"; "pg_read_file"; "pg_sleep"; "set_config"; "setval"];
  safe_recursion : with_recursive (node_attrs t) ≠ Some true;
  safe_joins : ∀ n, subnode n t → isinstance Join n = true → conditional_join (node_attrs n);
  safe_tables : ∀ n, subnode n t → isinstance Table n = true →
    cte_reference t n ∨ policy_table p (node_attrs n)
}.

Lemma check_functions_Ok t :
  check_functions t = Ok tt ↔ ∀ n, subnode n t → isinstance Func n = true →
    isinstance Anonymous n = false ∧ lower (sql_name (node_attrs n)) ∉ forbidden_functions.
Proof.
  unfold check_functions. rewrite for_each_Ok, Forall_forall.
  setoid_rewrite elem_of_find_all. unfold check_function.
  split; intros Hn n; [intros Hs Hf; specialize (Hn n (conj Hs Hf))
                      |intros [Hs Hf]; specialize (Hn n Hs Hf)].
  - destruct (isinstance Anonymous n), (mem _ _) eqn:Hm; try done.
    split; [done|]. rewrite <-mem_spec. congruence.
  - destruct Hn as [-> Hm]. apply not_true_iff_false in Hm || rewrite <-mem_spec in Hm.
    by destruct (mem _ _).
Qed.

Lemma check_join_Ok n : check_join n = Ok tt ↔ conditional_join (node_attrs n).
Proof.
  unfold check_join, conditional_join.
  destruct (String.eqb_spec (upper (default "" (kind (node_attrs n)))) "CROSS") as [->|Hk];
    cbn; [naive_solver|].
  destruct (on_arg _) as [[[]|]|], (has_using _); cbn; naive_solver.
Qed.

Lemma check_query_shape_Ok t :
  check_query_shape t = Ok tt ↔ with_recursive (node_attrs t) ≠ Some true ∧
    ∀ n, subnode n t → isinstance Join n = true → conditional_join (node_attrs n).
Proof.
  unfold check_query_shape.
  assert (for_each check_join (find_all Join t) = Ok tt ↔
    ∀ n, subnode n t → isinstance Join n = true → conditional_join (node_attrs n)) as Hj.
  { rewrite for_each_Ok, Forall_forall. setoid_rewrite elem_of_find_all.
    setoid_rewrite check_join_Ok. naive_solver. }
  destruct (with_recursive _) as [[]|]; rewrite ?Hj; naive_solver.
Qed.

Lemma mem_cte_names t n :
  String.eqb (db (node_attrs n)) EmptyString && mem (lower (name (node_attrs n))) (cte_names t)
    = true ↔ cte_reference t n.
Proof.
  unfold cte_names, cte_reference. rewrite andb_true_iff, String.eqb_eq, mem_spec, elem_of_map.
  setoid_rewrite elem_of_find_all. naive_solver.
Qed.

(** The outcome of one table of the loop. *)
Lemma check_table_Ok t p n o :
  check_table (cte_names t) p n = Ok o ↔
    (cte_reference t n ∧ o = None) ∨
    (¬ cte_reference t n ∧ policy_table p (node_attrs n) ∧
     o = Some (allowed_schema p +:+ "." +:+ name (node_attrs n))).
Proof.
  rewrite <-mem_cte_names. unfold check_table, policy_table. cbv zeta.
  destruct (_ && mem _ _); [naive_solver|].
  destruct (String.eqb_spec (catalog (node_attrs n)) EmptyString),
    (String.eqb_spec (db (node_attrs n)) EmptyString),
    (String.eqb_spec (db (node_attrs n)) (allowed_schema p)); cbn;
    try case_bool_decide;
    (split; [intros [= <-]; right; split_and!; auto; congruence
            |intros [[? ->]|(? & (? & [?|?] & ?) & ->)]; first [done | congruence]]).
Qed.

(** The tables a safe statement names, with the policy's schema. *)
Definition table_reference (t : node) (p : QueryPolicy) (x : string) : Prop :=
  ∃ n, subnode n t ∧ isinstance Table n = true ∧ ¬ cte_reference t n ∧
    name (node_attrs n) ∈ allowed_tables p ∧
    x = allowed_schema p +:+ "." +:+ name (node_attrs n).

Lemma check_tables_found t p found x :
  map_result (check_table (cte_names t) p) (find_all Table t) = Ok found →
  x ∈ (list_to_set (omap id found) : gset string) ↔ table_reference t p x.
Proof.
  intros HF. rewrite elem_of_list_to_set, list_elem_of_omap. unfold table_reference.
  setoid_rewrite (elem_of_map_result _ _ _ _ HF). setoid_rewrite elem_of_find_all.
  setoid_rewrite check_table_Ok. unfold policy_table. split.
  - intros (o & (n & [? ?] & [[_ ->]|(? & (? & ? & ?) & ->)]) & [= <-]). eauto 10.
  - intros (n & ? & ? & ? & ? & ->).
    destruct (check_table (cte_names t) p n) as [o|e] eqn:E.
    + exists o. apply check_table_Ok in E as Ho. destruct Ho as [[? _]|(_ & Hp & ->)]; [done|].
      split; [|done]. exists n. eauto 10.
    + exfalso. assert (n ∈ find_all Table t) as Hn by (by apply elem_of_find_all).
      apply map_result_Ok in HF. destruct (Forall2_in_l _ _ _ _ HF Hn) as (? & _ & ?). congruence.
Qed.

Lemma check_tables_Ok t p s :
  check_tables t p = Ok s ↔
    (∀ n, subnode n t → isinstance Table n = true →
       cte_reference t n ∨ policy_table p (node_attrs n)) ∧
    (∀ x, x ∈ s ↔ table_reference t p x).
Proof.
  unfold check_tables. rewrite result_bind_Ok. split.
  - intros (found & HF & [= <-]). split; [|intros x; by apply check_tables_found].
    intros n Hn Ht. assert (n ∈ find_all Table t) as Hin by (by apply elem_of_find_all).
    apply map_result_Ok in HF. destruct (Forall2_in_l _ _ _ _ HF Hin) as (o & _ & Ho%check_table_Ok).
    naive_solver.
  - intros [Hall Hs].
    destruct (map_result_total (check_table (cte_names t) p) (find_all Table t)) as [found HF].
    { intros n [Hn Ht]%elem_of_find_all. setoid_rewrite check_table_Ok.
      destruct (String.eqb (db (node_attrs n)) EmptyString
                && mem (lower (name (node_attrs n))) (cte_names t)) eqn:E;
        [apply mem_cte_names in E; eauto|].
      assert (¬ cte_reference t n) by (rewrite <-mem_cte_names; congruence).
      destruct (Hall n Hn Ht); [done|eauto 10]. }
    exists found. split; [done|]. f_equal. apply leibniz_equiv. intros x.
    by rewrite Hs, check_tables_found.
Qed.

Lemma check_functions_unit t u : check_functions t = Ok u → check_functions t = Ok tt.
Proof. by destruct u. Qed.

Lemma cps_nil s : cps s = [] → s = EmptyString.
Proof. destruct s as [|a s]; [done|]. cbn. repeat case_match; done. Qed.

Lemma py_len_pos s : s ≠ EmptyString → (1 <=? py_len s) = true.
Proof.
  intros Hs. unfold py_len. destruct (cps s) eqn:E; [by apply cps_nil in E|done].
Qed.

Lemma fingerprint_ok q : is_fingerprint (fingerprint_query q) = true.
Proof.
  unfold is_fingerprint, fingerprint_query. rewrite !str_app_cons, str_app_nil.
  cbn -[is_hex64]. rewrite sha256_hex_ok. by destruct (sha256_hex q).
Qed.

(** The constraints of [GuardedQuery]: a non-empty rendering and a limit of
    at least two rows. *)
Lemma guarded_query_validates s tables p :
  GuardedQuery_validate (guarded_query s tables p)
    = if negb (String.eqb s EmptyString) && (1 <=? max_rows p)%Z
      then Ok (guarded_query s tables p) else Err ValidationError.
Proof.
  unfold GuardedQuery_validate, guarded_query.
  cbn [normalized_sql bounded_sql query_fingerprint row_fetch_limit].
  rewrite fingerprint_ok, (py_len_pos (_ +:+ _)) by done.
  assert ((2 <=? max_rows p + 1)%Z = (1 <=? max_rows p)%Z) as -> by lia.
  destruct (String.eqb_spec s EmptyString) as [->|Hs]; [done|]. by rewrite py_len_pos by done.
Qed.

Lemma policy_max_rows p : policy_valid p = true → (1 ≤ max_rows p)%Z.
Proof. unfold policy_valid, within. intros Hp. split_bools. lia. Qed.

Lemma forbidden_nodes_spec t :
  existsb (λ c, has_node c t) forbidden_nodes = false ↔
    ∀ n c, subnode n t → c ∈ forbidden_nodes → isinstance c n = false.
Proof. rewrite list_existsb_false. setoid_rewrite has_node_false. naive_solver. Qed.

(** The checks of the handler, together, are the specification. *)
Lemma checks_spec p t tables :
  isinstance Query t = true →
  (existsb (λ c, has_node c t) forbidden_nodes = false ∧ check_functions t = Ok tt ∧
   check_query_shape t = Ok tt ∧ check_tables t p = Ok tables) ↔
  safe_statement p t ∧ (∀ x, x ∈ tables ↔ table_reference t p x).
Proof.
  intros Hq. rewrite forbidden_nodes_spec, check_functions_Ok, check_query_shape_Ok,
    check_tables_Ok. split.
  - intros (? & ? & [? ?] & [? ?]). split; [by constructor|done].
  - intros [[] ?]. done.
Qed.

Definition qualified_as p t t' : Prop :=
  if bool_decide (allowed_columns p = ∅) then t' = t
  else qualify t (allowed_schema p) (allowed_columns p) = Ok t' ∧ isinstance Query t' = true.

Lemma qualify_columns_Ok t p t' : qualify_columns t p = Ok t' ↔ qualified_as p t t'.
Proof.
  unfold qualify_columns, qualified_as. case_bool_decide; [naive_solver|].
  destruct (qualify _ _ _) as [t0|e]; [|naive_solver].
  destruct (isinstance Query t0) eqn:Hq; (split; [intros [= <-]; done|intros [[= <-] ?]; congruence]).
Qed.

(** The checks and the rendering, one after the other. *)
Lemma checked_Ok_iff p t g :
  isinstance Query t = true →
  (if existsb (λ c, has_node c t) forbidden_nodes
   then Err (violation "FORBIDDEN_SQL_OPERATION")
   else _ ← check_functions t; _ ← check_query_shape t; tables ← check_tables t p;
     qualified ← qualify_columns t p; normalized ← sql qualified;
     GuardedQuery_validate (guarded_query normalized tables p)) = Ok g ↔
  ∃ tables t' s, (safe_statement p t ∧ (∀ x, x ∈ tables ↔ table_reference t p x)) ∧
    qualified_as p t t' ∧ sql t' = Ok s ∧ s ≠ EmptyString ∧ (1 ≤ max_rows p)%Z ∧
    g = guarded_query s tables p.
Proof.
  intros Hq. setoid_rewrite <-(checks_spec p t _ Hq). setoid_rewrite <-qualify_columns_Ok.
  assert (∀ s tb, GuardedQuery_validate (guarded_query s tb p) = Ok g ↔
    s ≠ EmptyString ∧ (1 ≤ max_rows p)%Z ∧ g = guarded_query s tb p) as Hv.
  { intros s tb. rewrite guarded_query_validates. destruct (String.eqb_spec s EmptyString); cbn; [naive_solver|].
    destruct (Z.leb_spec 1 (max_rows p)); [naive_solver|]. split; [done|]. intros (_ & ? & _). lia. }
  destruct (existsb _ _); [naive_solver|].
  repeat setoid_rewrite result_bind_Ok. setoid_rewrite Hv. split.
  - intros ([] & ? & [] & ? & tables & ? & t' & ? & s & ? & ?). eauto 15.
  - intros (tables & t' & s & (_ & ? & ? & ?) & ? & ? & ?). eauto 20.
Qed.

Lemma inspect_Ok_iff q p g :
  inspect q p = Ok g ↔
    is_blank q = false ∧
    ∃ t t' s tables,
      parse q = Ok [Some t] ∧ safe_statement p t ∧
      (∀ x, x ∈ tables ↔ table_reference t p x) ∧
      qualified_as p t t' ∧ sql t' = Ok s ∧ s ≠ EmptyString ∧ (1 ≤ max_rows p)%Z ∧
      g = guarded_query s tables p.
Proof.
  unfold inspect. destruct (is_blank q); [naive_solver|].
  destruct (parse q) as [[|[t|] [|]]|]; try naive_solver.
  destruct (isinstance Query t) eqn:Hq; cbn [negb].
  2:{ split; [done|]. intros (_ & t0 & ? & ? & ? & [= <-] & [] & _). congruence. }
  rewrite (checked_Ok_iff p t g Hq). naive_solver.
Qed.

(** C5: the guard lets a query through exactly when it is not blank, parses
    to one statement, the statement is safe (a query without write, DDL,
    command, lock or transaction node, calling only known and not forbidden
    functions, not recursive at its root, without Cartesian joins, naming
    only tables of the policy or its own common table expressions), the
    qualifier accepts its columns against the allowed columns of the policy
    (when it has any) and answers a query, and the policy allows a row.  The
    result then holds the rendering of the qualified statement, the same
    text inside a SELECT limited to one row more than the policy allows, its
    SHA-256 fingerprint, and the referenced tables, each once and in order. *)
Theorem inspect_refines_spec : ∀ q p g,
  inspect q p = Ok g ↔
    is_blank q = false ∧ (1 ≤ max_rows p)%Z ∧
    ∃ t t' s,
      parse q = Ok [Some t] ∧ safe_statement p t ∧
      (allowed_columns p = ∅ ∧ t' = t ∨
       allowed_columns p ≠ ∅ ∧ qualify t (allowed_schema p) (allowed_columns p) = Ok t' ∧
         isinstance Query t' = true) ∧
      sql t' = Ok s ∧ s ≠ EmptyString ∧
      normalized_sql g = s ∧
      bounded_sql g = "SELECT * FROM (" +:+ s +:+ ") AS _copilot_bounded LIMIT "
                      +:+ str_of_Z (max_rows p + 1) ∧
      query_fingerprint g = "sha256:" +:+ sha256_hex s ∧
      row_fetch_limit g = (max_rows p + 1)%Z ∧
      Sorted str_le (referenced_tables g) ∧ NoDup (referenced_tables g) ∧
      (∀ x, x ∈ referenced_tables g ↔ table_reference t p x).
Proof.
  intros q p g. rewrite inspect_Ok_iff.
  assert (∀ t t', qualified_as p t t' ↔ allowed_columns p = ∅ ∧ t' = t ∨
    allowed_columns p ≠ ∅ ∧ qualify t (allowed_schema p) (allowed_columns p) = Ok t' ∧
      isinstance Query t' = true) as Hq.
  { intros t t'. unfold qualified_as. case_bool_decide; naive_solver. }
  setoid_rewrite Hq. split.
  - intros (Hb & t & t' & s & tables & Hp & Hs & Ht & Hqual & Hsql & Hne & Hm & ->).
    split_and!; [done|done|]. exists t, t', s. cbn. split_and!; auto.
    + apply sort_strings_sorted.
    + rewrite sort_strings_perm. apply NoDup_elements.
    + intros x. by rewrite elem_of_sort_strings, elem_of_elements.
  - intros (Hb & Hm & t & t' & s & Hp & Hs & Hqual & Hsql & Hne & Hn & Hbd & Hf & Hl & Hsort & Hnd & Ht).
    split; [done|]. exists t, t', s, (list_to_set (referenced_tables g)).
    split_and!; auto.
    + intros x. by rewrite elem_of_list_to_set.
    + unfold guarded_query. rewrite (sort_strings_of (referenced_tables g)).
      * destruct g; cbn in *; by subst.
      * done.
      * done.
      * apply NoDup_elements.
      * intros x. by rewrite elem_of_elements, elem_of_list_to_set.
Qed.

(** Why a query is refused.  The first constructors follow the handler's
    checks; each names what the statement or the library did. *)
Inductive refusal q p : exn → Prop :=
| refused_empty : is_blank q = true → refusal q p (violation "EMPTY_QUERY")
| refused_syntax e : parse q = Err e →
    e = OtherException "ParseError" ∨ e = OtherException "TokenError" →
    refusal q p (violation "SQL_PARSE_ERROR")
| refused_count l : parse q = Ok l → length l ≠ 1 → refusal q p (violation "MULTIPLE_STATEMENTS")
| refused_kind o : parse q = Ok [o] → (∀ t, o = Some t → isinstance Query t = false) →
    refusal q p (violation "NON_READ_ONLY_STATEMENT")
| refused_operation t n c : parse q = Ok [Some t] → subnode n t → isinstance c n = true →
    c ∈ [DDL; DML; Command; Copy; Into; Lock; Transaction] →
    refusal q p (violation "FORBIDDEN_SQL_OPERATION")
| refused_function t n f : parse q = Ok [Some t] → subnode n t → isinstance Func n = true →
    f = (if isinstance Anonymous n then name (node_attrs n) else sql_name (node_attrs n)) →
    lower f ∈ ["dblink"; "dblink_exec"; "lo_export"; "lo_import"; "nextval"; "pg_ls_dir";
                "pg_read_binary_file"; "pg_read_file"; "pg_sleep"; "set_config"; "setval"] →
    refusal q p (violation "FORBIDDEN_FUNCTION")
| refused_anonymous t n : parse q = Ok [Some t] → subnode n t → isinstance Func n = true →
    isinstance Anonymous n = true → refusal q p (violation "FUNCTION_NOT_ALLOWED")
| refused_recursion t : parse q = Ok [Some t] → with_recursive (node_attrs t) = Some true →
    refusal q p (violation "RECURSIVE_QUERY_NOT_ALLOWED")
| refused_join t n : parse q = Ok [Some t] → subnode n t → isinstance Join n = true →
    ¬ conditional_join (node_attrs n) → refusal q p (violation "CARTESIAN_JOIN_NOT_ALLOWED")
| refused_schema t n : parse q = Ok [Some t] → subnode n t → isinstance Table n = true →
    catalog (node_attrs n) ≠ EmptyString ∨
      db (node_attrs n) ≠ EmptyString ∧ db (node_attrs n) ≠ allowed_schema p →
    refusal q p (violation "CROSS_SCHEMA_REFERENCE")
| refused_table t n : parse q = Ok [Some t] → subnode n t → isinstance Table n = true →
    ¬ cte_reference t n → name (node_attrs n) ∉ allowed_tables p →
    refusal q p (violation "TABLE_NOT_ALLOWED")
| refused_column t : parse q = Ok [Some t] → safe_statement p t → allowed_columns p ≠ ∅ →
    qualify t (allowed_schema p) (allowed_columns p) = Err (OtherException "OptimizeError") →
    refusal q p (violation "COLUMN_NOT_ALLOWED")
| refused_qualified t t' : parse q = Ok [Some t] → safe_statement p t → allowed_columns p ≠ ∅ →
    qualify t (allowed_schema p) (allowed_columns p) = Ok t' → isinstance Query t' = false →
    refusal q p (violation "NON_READ_ONLY_STATEMENT")
| raised_by_parser e : parse q = Err e →
    e ≠ OtherException "ParseError" → e ≠ OtherException "TokenError" → refusal q p e
| raised_by_qualifier t e : parse q = Ok [Some t] → safe_statement p t → allowed_columns p ≠ ∅ →
    qualify t (allowed_schema p) (allowed_columns p) = Err e →
    e ≠ OtherException "OptimizeError" → refusal q p e
| raised_by_printer t t' e : parse q = Ok [Some t] → safe_statement p t → qualified_as p t t' →
    sql t' = Err e → refusal q p e
| raised_by_model t t' s : parse q = Ok [Some t] → safe_statement p t → qualified_as p t t' →
    sql t' = Ok s → s = EmptyString ∨ (max_rows p < 1)%Z → refusal q p ValidationError.
#[local] Hint Constructors refusal : core.

Lemma is_syntax_error_spec e :
  is_syntax_error e = true ↔ e = OtherException "ParseError" ∨ e = OtherException "TokenError".
Proof.
  destruct e; try (split; [done|naive_solver]). unfold is_syntax_error. rewrite mem_spec, !elem_of_cons, elem_of_nil.
  naive_solver.
Qed.
Lemma is_optimize_error_spec e : is_optimize_error e = true ↔ e = OtherException "OptimizeError".
Proof.
  destruct e; try done. unfold is_optimize_error. rewrite String.eqb_eq. naive_solver.
Qed.

Lemma check_function_Err q p t n e :
  parse q = Ok [Some t] → n ∈ find_all Func t → check_function n = Err e → refusal q p e.
Proof.
  unfold check_function. cbv zeta. intros Hp [Hs Hf]%elem_of_find_all.
  destruct (mem _ _) eqn:Hm; [intros [= <-]; apply mem_spec in Hm; by eauto|].
  destruct (isinstance Anonymous n) eqn:?; [intros [= <-]; by eauto|done].
Qed.

Lemma check_shape_Err q p t e :
  parse q = Ok [Some t] → check_query_shape t = Err e → refusal q p e.
Proof.
  unfold check_query_shape. intros Hp.
  assert (for_each check_join (find_all Join t) = Err e → refusal q p e) as Hj.
  { intros (n & [Hs Hn]%elem_of_find_all & He)%for_each_Err.
    assert (¬ conditional_join (node_attrs n)) as Hc by (rewrite <-check_join_Ok; congruence).
    unfold check_join in He. cbv zeta in He. repeat case_split; eauto. }
  destruct (with_recursive _) as [[]|] eqn:?; [intros [= <-]; by eauto|done|done].
Qed.

Lemma check_table_Err q p t n e :
  parse q = Ok [Some t] → n ∈ find_all Table t → check_table (cte_names t) p n = Err e → refusal q p e.
Proof.
  intros Hp [Hs Hn]%elem_of_find_all. unfold check_table. cbv zeta.
  destruct (_ && mem _ _) eqn:Hc; [done|].
  assert (¬ cte_reference t n) by (rewrite <-mem_cte_names; congruence).
  destruct (String.eqb_spec (catalog (node_attrs n)) EmptyString); cbn;
    [|intros [= <-]; by eauto].
  destruct (String.eqb_spec (db (node_attrs n)) EmptyString),
    (String.eqb_spec (db (node_attrs n)) (allowed_schema p)); cbn;
    try case_bool_decide; intros [= <-]; by eauto 10.
Qed.

Lemma qualify_Err q p t e :
  parse q = Ok [Some t] → safe_statement p t → qualify_columns t p = Err e → refusal q p e.
Proof.
  unfold qualify_columns. intros Hp Hs. case_bool_decide; [done|].
  destruct (qualify _ _ _) as [t'|e'] eqn:Hq.
  - destruct (isinstance Query t') eqn:?; [done|]. intros [= <-]. by eauto.
  - destruct (is_optimize_error e') eqn:Ho; intros [= <-].
    + apply is_optimize_error_spec in Ho as ->. by eauto.
    + eapply raised_by_qualifier; [done..|]. rewrite <-is_optimize_error_spec. congruence.
Qed.

Lemma inspect_Err q p e : inspect q p = Err e → refusal q p e.
Proof.
  unfold inspect. destruct (is_blank q) eqn:?; [intros [= <-]; by eauto|].
  destruct (parse q) as [l|e'] eqn:Hp;
    [|destruct (is_syntax_error e') eqn:Hse; intros [= <-];
      [apply is_syntax_error_spec in Hse; by eauto
      |apply raised_by_parser; [done|intros ->; done..]]].
  destruct l as [|[t|] [|]]; try (intros [= <-]; eapply refused_count; [done|by cbn]).
  2:{ intros [= <-]. eapply refused_kind; by eauto. }
  destruct (isinstance Query t) eqn:Hq; cbn [negb].
  2:{ intros [= <-]. eapply refused_kind; [done|]. by intros ? [= <-]. }
  destruct (existsb _ _) eqn:Hops.
  { intros [= <-]. apply existsb_exists in Hops as (c & Hc & (n & Hn & ?)%existsb_exists).
    apply list_elem_of_In in Hc, Hn. apply elem_of_walk in Hn. by eauto. }
  intros [He|([] & Hf & [He|([] & Hsh & [He|(tb & Htb & He)]%result_bind_Err)]
    %result_bind_Err)]%result_bind_Err.
  - apply for_each_Err in He as (n' & Hn & He). by eapply check_function_Err.
  - by eapply check_shape_Err.
  - apply result_bind_Err in He as [He|(? & _ & ?)]; [|done].
    apply map_result_Err in He as (n' & Hn & He). by eapply check_table_Err.
  - assert (safe_statement p t) as Hs by (by apply (checks_spec p t tb Hq)).
    apply result_bind_Err in He as [He|(t' & Ht'%qualify_columns_Ok & He)]; [by eapply qualify_Err|].
    apply result_bind_Err in He as [He|(s & Hsql & He)]; [by eauto|].
    rewrite guarded_query_validates in He.
    destruct (String.eqb_spec s EmptyString); cbn in He; [simplify_eq; by eauto|].
    destruct (Z.leb_spec 1 (max_rows p)); simplify_eq. by eauto.
Qed.

(** The stable reason codes. *)
Definition violation_reasons : list string :=
  ["EMPTY_QUERY"; "SQL_PARSE_ERROR"; "MULTIPLE_STATEMENTS"; "NON_READ_ONLY_STATEMENT";
   "FORBIDDEN_SQL_OPERATION"; "FORBIDDEN_FUNCTION"; "FUNCTION_NOT_ALLOWED";
   "RECURSIVE_QUERY_NOT_ALLOWED"; "CARTESIAN_JOIN_NOT_ALLOWED"; "CROSS_SCHEMA_REFERENCE";
   "TABLE_NOT_ALLOWED"; "COLUMN_NOT_ALLOWED"].

Lemma refusal_reason q p r : refusal q p (SQLPolicyViolationError r) → r ∈ violation_reasons.
Proof.
  intros Hr. inversion Hr; subst; first
    [by apply (bool_decide_unpack _); vm_compute
    |exfalso; by match goal with
       | E : parse _ = Err _ |- _ => apply parse_foreign in E
       | E : qualify _ _ _ = Err _ |- _ => apply qualify_foreign in E
       | E : SqlGuard.sql _ = Err _ |- _ => apply sql_foreign in E
       end].
Qed.

Lemma inspect_Err_kind q p e :
  inspect q p = Err e →
  (∃ r, e = SQLPolicyViolationError r ∧ r ∈ violation_reasons) ∨ is_query_safety_error e = false.
Proof.
  intros Hr%inspect_Err.
  assert (∀ r, refusal q p (violation r) →
    ∃ r', violation r = SQLPolicyViolationError r' ∧ r' ∈ violation_reasons) as Hv
    by (intros r ?; exists r; eauto using refusal_reason).
  destruct Hr; try (left; by eauto); right;
    first [by eapply parse_foreign|by eapply qualify_foreign|by eapply sql_foreign|done].
Qed.

(** C27: a query the guard does not let through is refused for a reason the
    statement gives.  Each policy violation carries one of twelve reason codes
    and its code names a defect that is there: a blank text, a syntax error of
    the parser, a number of statements other than one, a statement that is no
    query, a forbidden node, a forbidden or unknown function, a recursive
    root, a join without a condition, a table of another schema or outside the
    policy, a column the qualifier rejects.  Any other exception is one that
    sqlglot raised and the guard does not catch, in the parser, in the
    qualifier or in the printer of a statement that passed the checks; and a
    policy violation is never one of those. *)
Theorem inspect_fails_closed : ∀ q p e,
  policy_valid p = true → (∀ t s, sql t = Ok s → s ≠ EmptyString) →
  inspect q p = Err e →
  (∃ r, e = SQLPolicyViolationError r ∧ r ∈ violation_reasons ∧ refusal q p e) ∨
  is_query_safety_error e = false ∧
    ((parse q = Err e ∧ e ≠ OtherException "ParseError" ∧ e ≠ OtherException "TokenError") ∨
     ∃ t, parse q = Ok [Some t] ∧ safe_statement p t ∧
       (allowed_columns p ≠ ∅ ∧ qualify t (allowed_schema p) (allowed_columns p) = Err e ∧
          e ≠ OtherException "OptimizeError" ∨
        ∃ t', qualified_as p t t' ∧ sql t' = Err e)).
Proof.
  intros q p e Hp Hsql Hr%inspect_Err. apply policy_max_rows in Hp.
  assert (∀ r, refusal q p (violation r) →
    ∃ r', violation r = SQLPolicyViolationError r' ∧ r' ∈ violation_reasons ∧ refusal q p (violation r))
    as Hv by (intros r ?; exists r; eauto using refusal_reason).
  destruct Hr; try (left; by eauto); right.
  - split; [by eapply parse_foreign|]. left. done.
  - split; [by eapply qualify_foreign|]. right. exists t. split_and!; [done|done|left]. done.
  - split; [by eapply sql_foreign|]. right. exists t. eauto 10.
  - exfalso. match goal with E : _ ∨ _ |- _ => destruct E as [->|?]; [by eapply Hsql|lia] end.
Qed.

(** The facts about a guarded query that executor and audit rely on. *)
Lemma inspect_bounds q p g :
  inspect q p = Ok g →
  row_fetch_limit g = (max_rows p + 1)%Z ∧
  Sorted str_le (referenced_tables g) ∧
  (∀ x, x ∈ referenced_tables g →
     ∃ tn : string, tn ∈ allowed_tables p ∧ x = allowed_schema p +:+ "." +:+ tn) ∧
  is_fingerprint (query_fingerprint g) = true.
Proof.
  intros (_ & t & t' & s & tables & _ & _ & Ht & _ & _ & _ & _ & ->)%inspect_Ok_iff. cbn.
  split_and!; [done|apply sort_strings_sorted| |apply fingerprint_ok].
  intros x. rewrite elem_of_sort_strings, elem_of_elements, Ht.
  intros (n & _ & _ & _ & ? & ->). eauto.
Qed.
End Theorems.

(** ** Concrete statements *)

Definition plain_attrs (cs : list node_class) (nm : string) : attrs :=
  {| classes := cs; name := nm; alias_or_name := nm; sql_name := EmptyString; db := EmptyString;
     catalog := EmptyString; column_table := EmptyString; kind := None; on_arg := None;
     has_using := false; with_recursive := None |}.

Definition demo_select : node :=
  Node (plain_attrs [Query] EmptyString) [Node (plain_attrs [Table] "customers") []].

(** [SELECT * FROM (WITH RECURSIVE ... SELECT ...) AS nested]. *)
Definition recursive_attrs : attrs :=
  {| classes := [Query]; name := EmptyString; alias_or_name := EmptyString;
     sql_name := EmptyString; db := EmptyString; catalog := EmptyString;
     column_table := EmptyString; kind := None;
     on_arg := None; has_using := false; with_recursive := Some true |}.
Definition nested_recursion : node :=
  Node (plain_attrs [Query] EmptyString) [Node recursive_attrs []].

#[export] Program Instance demo_sqlglot : SqlGlot := {|
  parse q := if String.eqb q "select" then Ok [Some demo_select]
             else if String.eqb q "nested" then Ok [Some nested_recursion]
             else if String.eqb q "deep" then Err (OtherException "RecursionError")
             else Err (OtherException "ParseError");
  qualify t _ _ := Ok t;
  sql _ := Ok "SELECT customer_id FROM customers"
|}.
Next Obligation. intros q e. cbn. repeat case_match; by intros [= <-]. Qed.
Next Obligation. done. Qed.
Next Obligation. done. Qed.

Lemma demo_sql_nonempty t s : sql t = Ok s → s ≠ EmptyString.
Proof. by intros [= <-]. Qed.

Lemma inspect_fails_closed_witness :
  inspect "DROP TABLE customers" demo_policy = Err (violation "SQL_PARSE_ERROR") ∧
  ∃ r, violation "SQL_PARSE_ERROR" = SQLPolicyViolationError r ∧ r ∈ violation_reasons ∧
    refusal "DROP TABLE customers" demo_policy (violation "SQL_PARSE_ERROR").
Proof.
  assert (inspect "DROP TABLE customers" demo_policy = Err (violation "SQL_PARSE_ERROR")) as Hi
    by (vm_compute; reflexivity).
  assert (policy_valid demo_policy = true) as Hp by (vm_compute; reflexivity).
  split; [exact Hi|].
  destruct (inspect_fails_closed _ _ _ Hp demo_sql_nonempty Hi) as [Hr|[Hn _]];
    [exact Hr|discriminate Hn].
Defined.

(** A [RecursionError] of the parser leaves the guard as it is. *)
Example parser_exception_escapes : inspect "deep" demo_policy = Err (OtherException "RecursionError").
Proof. vm_compute. reflexivity. Qed.

(** Only the root's WITH clause is inspected, so a recursive common table
    expression inside a subquery reaches the database. *)
Theorem nested_recursion_passes :
  isinstance Query nested_recursion = true ∧
  (∃ n, subnode n nested_recursion ∧ with_recursive (node_attrs n) = Some true) ∧
  is_ok (inspect "nested" demo_policy) = true.
Proof.
  split_and!; [reflexivity| |vm_compute; reflexivity].
  exists (Node recursive_attrs []). split; [|reflexivity].
  eapply subnode_child; [by apply list_elem_of_singleton|constructor].
Qed.
