(* ===== verification/Numbers.v ===== *)
(** * Python's [float(x)] and [int(x)]

    The conversions of the builtins on the values [json.loads] returns: a
    decimal text is rounded once to the nearest binary64 value.  Only ASCII
    digits are read. *)

From S2P Require Import Prelude PyStr Floats Errors Json.
From Stdlib Require Import SpecFloat.

(** The binary64 value nearest to [m * 10 ^ e]: the quotient keeps far more
    than 53 bits and a sticky bit, so one rounding decides. *)
Definition nearest (m e : Z) : float :=
  if (0 <=? e)%Z then binary_normalize 53 1024 (m * 10 ^ e) 0 false
  else
    let d := (10 ^ (- e))%Z in
    let k := (Z.log2_up d + 64)%Z in
    let n := Z.shiftl (Z.abs m) k in
    let q := (2 * (n / d) + (if (n mod d =? 0)%Z then 0 else 1))%Z in
    binary_normalize 53 1024 (if (m <? 0)%Z then - q else q)%Z (- k - 1) (m <? 0)%Z.

(** Digits with single underscores between them: value, how many, the rest. *)
Fixpoint digits (l : list N) (acc : Z) (n : Z) : Z * Z * list N :=
  match l with
  | c :: l' =>
      if is_digit c then digits l' (10 * acc + (Z.of_N c - 48)) (n + 1)
      else match l' with
           | d :: _ => if (c =? 95)%N && is_digit d && (0 <? n)%Z then digits l' acc n
                       else (acc, n, l)
           | [] => (acc, n, l)
           end
  | [] => (acc, n, [])
  end.

Definition sign (l : list N) : bool * list N :=
  match l with
  | c :: l' => if (c =? 45)%N then (true, l') else if (c =? 43)%N then (false, l') else (false, l)
  | [] => (false, [])
  end.

Definition lower_cps (l : list N) : list N := map ascii_lower l.

Definition infinity (negative : bool) : float := S754_infinity negative.

(** The exponent suffix: [None] when the text does not end there. *)
Definition exponent (l : list N) : option Z :=
  match l with
  | [] => Some 0%Z
  | c :: l =>
      if (c =? 101)%N || (c =? 69)%N then
        let '(neg, l) := sign l in
        let '(v, n, r) := digits l 0 0 in
        match r with
        | [] => if (0 <? n)%Z then Some (if neg then - v else v)%Z else None
        | _ => None
        end
      else None
  end.

Definition signed_nearest (neg : bool) (m e : Z) : float :=
  let x := nearest m e in if neg then fneg x else x.

(** [float(text)]; [None] is [ValueError]. *)
Definition float_of_str (s : string) : option float :=
  let '(neg, l) := sign (strip_cps (cps s)) in
  if bool_decide (lower_cps l ∈ [cps "inf"; cps "infinity"]) then Some (infinity neg)
  else if bool_decide (lower_cps l = cps "nan") then Some S754_nan
  else
    let '(a, n, r) := digits l 0 0 in
    match r with
    | c :: r' =>
        if (c =? 46)%N then
          let '(b, k, r'') := match r' with
            | d :: _ => if is_digit d then digits r' a 0 else (a, 0%Z, r')
            | [] => (a, 0%Z, [])
            end in
          if (0 <? n + k)%Z then e ← exponent r''; Some (signed_nearest neg b (e - k)) else None
        else if (0 <? n)%Z then e ← exponent r; Some (signed_nearest neg a e) else None
    | [] => if (0 <? n)%Z then Some (signed_nearest neg a 0) else None
    end.

(** [int(text)]. *)
Definition int_of_str (s : string) : option Z :=
  let '(neg, l) := sign (strip_cps (cps s)) in
  let '(a, n, r) := digits l 0 0 in
  match r with
  | [] => if (0 <? n)%Z then Some (if neg then - a else a)%Z else None
  | _ => None
  end.

(** [int(x)] of a finite float truncates toward zero. *)
Definition trunc (x : float) : option Z :=
  match x with
  | S754_zero _ => Some 0%Z
  | S754_finite s m e =>
      let a := Z.shiftl (Zpos m) e in Some (if s then - a else a)%Z
  | _ => None
  end.

Definition py_float (v : pyval) : result exn float :=
  match v with
  | PFloat t | PStr t => match float_of_str t with Some x => Ok x | None => Err ValueError end
  | PInt z => match f_of_Z z with S754_infinity _ => Err OverflowError | x => Ok x end
  | PBool b => Ok (f_of_Z (if b then 1 else 0))
  | _ => Err TypeError
  end.

Definition py_int (v : pyval) : result exn Z :=
  match v with
  | PInt z => Ok z
  | PBool b => Ok (if b then 1 else 0)%Z
  | PStr t => match int_of_str t with Some z => Ok z | None => Err ValueError end
  | PFloat t =>
      match float_of_str t with
      | None | Some S754_nan => Err ValueError
      | Some x => match trunc x with Some z => Ok z | None => Err OverflowError end
      end
  | _ => Err TypeError
  end.

Example nearest_tenth : float_of_str "0.1" = Some (nearest 1 (-1)) ∧
  nearest 1 (-1) = S754_finite false 7205759403792794 (-56).
Proof. vm_compute. done. Qed.

Example float_texts :
  py_float (PStr " +1_0.5e-1 ") = Ok (decimal 105 2) ∧ py_float (PStr "1__0") = Err ValueError ∧
  py_int (PFloat "-2.75") = Ok (-2)%Z ∧ py_int (PFloat "1e400") = Err OverflowError.
Proof. vm_compute. done. Qed.
