(* ===== verification/DataSources.v ===== *)
(** * Data sources and the database driver: [app/data_sources/]

    [psycopg] is a library: one operation per driver call over a world [W],
    with the reply of each call.  The connection settings, the checks of
    [DataSourceConfig] and the mapping of driver errors are the code's. *)

From S2P Require Import Prelude PyStr Floats Errors Json Metadata Policy.

(** ** The driver *)

(** The calls the code makes; the exit of a [with] block learns whether its
    body ended normally. *)
Inductive db_call :=
| Connect (parameters : list (string * pyval))
| BeginTransaction
| OpenCursor
| Execute (statement : string) (arguments : list pyval)
| FetchMany (n : Z)
| FetchOne
| FetchAllRows                 (* with [row_factory=dict_row] *)
| FetchOneRow
| ExecuteMany (statement : string) (arguments : list (list pyval))
| CloseCursor (ok : bool)
| EndTransaction (ok : bool)
| CloseConnection (ok : bool).

(** [Execute] answers with the names of [cursor.description]. *)
Definition reply (c : db_call) : Type :=
  match c with
  | Execute _ _ => option (list string)
  | FetchMany _ => list (list pyval)
  | FetchOne => option (list pyval)
  | FetchAllRows => list (list (string * pyval))
  | FetchOneRow => option (list (string * pyval))
  | _ => unit
  end.

Class Psycopg (W : Type) := perform : ∀ c : db_call, op W exn (reply c).

Definition db {W} `{Psycopg W} (c : db_call) : eff W db_call exn (reply c) := invoke c (perform c).

(** [with enter as x: body(x)]. *)
Definition with_block {W C E A B} (enter : eff W C E A) (exit : bool → eff W C E unit)
    (body : A → eff W C E B) : eff W C E B :=
  x ← enter; finally (body x) exit.

Lemma sat_db {W} `{Psycopg W} c (Q : list db_call → result exn (reply c) → Prop) :
  (∀ r, Q [c] r) → sat (db (W := W) c) Q.
Proof. apply sat_invoke. Qed.

Ltac sat_call :=
  lazymatch goal with |- sat (db ?c) _ => apply (sat_db c); let r := fresh "r" in intros r end.

Lemma sat_with_block {W C E A B} (enter : eff W C E A) exit (body : A → eff W C E B)
    (R : list C → result E B → Prop) :
  sat enter (λ t r, match r with
    | Err e => R t (Err e)
    | Ok x => sat (body x) (λ t' r', sat (exit (is_ok r')) (λ t'' r'',
        R (t ++ t' ++ t'') match r'' with Ok _ => r' | Err e => Err e end))
    end) →
  sat (with_block enter exit body) R.
Proof.
  intros Hs. apply sat_bind. refine (sat_conseq _ _ _ Hs _). intros t [x|e] Hx; [|exact Hx].
  apply sat_finally. exact Hx.
Qed.

(** The driver raises its own errors and operating-system errors. *)
Definition driver_errors (W : Type) `{Psycopg W} : Prop :=
  ∀ c w w' e, perform c w = (w', Err e) → is_psycopg_error e = true ∨ is_os_error e = true.

Lemma yields_db {W} `{Psycopg W} c (E : exn → Prop) :
  driver_errors W → (∀ e, is_psycopg_error e = true ∨ is_os_error e = true → E e) →
  yields (λ _, True) E (db (W := W) c).
Proof.
  intros Hd Herr w. unfold trace, outcome, db, invoke.
  destruct (perform c w) as [w' [a|e]] eqn:He; [done|]. apply Herr. by eapply Hd.
Qed.

Lemma yields_with_block {W C E A B} (H : E → Prop) (enter : eff W C E A) exit
    (body : A → eff W C E B) P Q :
  yields P H enter → (∀ ok, yields (λ _, True) H (exit ok)) → (∀ x, P x → yields Q H (body x)) →
  yields Q H (with_block enter exit body).
Proof. intros. eapply yields_bind; [done|]. intros x Hx. apply yields_finally; eauto. Qed.

(** ** data_sources/models.py *)

Record BusinessDatabaseSettings := {
  db_host : string; db_port : Z; db_name : string; readonly_user : string;
  readonly_password : string; db_allowed_schema : string;
  db_connect_timeout_seconds : Z; db_statement_timeout_ms : Z;
  metadata_cache_ttl_seconds : Z
}.

Record DataSourceConfig := {
  cfg_source_id : string; cfg_host : string; cfg_port : Z; cfg_database : string;
  cfg_username : string; cfg_password : string; cfg_allowed_schema : string;
  connect_timeout_seconds : Z; statement_timeout_ms : Z
}.

Definition DataSourceConfig_post_init (c : DataSourceConfig) : result exn DataSourceConfig :=
  _ ← ensure (simple_identifier (cfg_allowed_schema c)) ValueError;
  _ ← ensure (within 1 (cfg_port c) 65535) ValueError;
  _ ← ensure (negb ((connect_timeout_seconds c <=? 0) || (statement_timeout_ms c <=? 0))%Z)
        ValueError;
  Ok c.

Definition from_settings (s : BusinessDatabaseSettings) : result exn DataSourceConfig :=
  DataSourceConfig_post_init {|
    cfg_source_id := "northwind-demo"; cfg_host := db_host s; cfg_port := db_port s;
    cfg_database := db_name s; cfg_username := readonly_user s;
    cfg_password := readonly_password s; cfg_allowed_schema := db_allowed_schema s;
    connect_timeout_seconds := db_connect_timeout_seconds s;
    statement_timeout_ms := db_statement_timeout_ms s
  |}.

Definition connection_parameters (c : DataSourceConfig) : list (string * pyval) :=
  [("host", PStr (cfg_host c)); ("port", PInt (cfg_port c)); ("dbname", PStr (cfg_database c));
   ("user", PStr (cfg_username c)); ("password", PStr (cfg_password c));
   ("connect_timeout", PInt (connect_timeout_seconds c));
   ("options", PStr ("-c statement_timeout=" +:+ str_of_Z (statement_timeout_ms c)))].

Record ConnectionCheck := {
  check_source_id : string; check_database : pyval; check_username : pyval;
  transaction_read_only : pyval
}.

(** ** data_sources/service.py *)

Section Service.
Context {W : Type} `{Psycopg W}.

(** The two [except] clauses of the service. *)
Definition map_connection_error {A} (e : exn) : eff W db_call exn A :=
  match e with
  | PsycopgInsufficientPrivilege => raise DataSourcePermissionError
  | _ => if is_operational_error e || is_os_error e then raise DataSourceUnavailableError
         else raise e
  end.

Definition connect (c : DataSourceConfig) : eff W db_call exn unit :=
  try_except (db (Connect (connection_parameters c))) map_connection_error.

Definition check_sql : string :=
  "
                    SELECT current_database(), current_user,
                           current_setting('transaction_read_only') = 'on'
                    ".

Definition test_connection (c : DataSourceConfig) : eff W db_call exn ConnectionCheck :=
  row ← try_except
    (with_block (connect c) (λ ok, db (CloseConnection ok)) (λ _,
     with_block (db OpenCursor) (λ ok, db (CloseCursor ok)) (λ _,
       _ ← db (Execute check_sql []);
       row ← db FetchOne;
       match row with
       | None => raise TypeError
       | Some [database; username; read_only] => mret (database, username, read_only)
       | Some _ => raise ValueError
       end)))
    map_connection_error;
  mret {| check_source_id := cfg_source_id c; check_database := row.1.1;
          check_username := row.1.2; transaction_read_only := row.2 |}.
End Service.

(** ** Theorems *)

(** The configuration built from settings is accepted exactly when the
    schema is a simple identifier, the port is a TCP port and both timeouts
    are positive, and the driver is then asked for that host, that port and a
    session-wide statement timeout. *)
Theorem from_settings_spec : ∀ s,
  match from_settings s with
  | Ok c =>
      simple_identifier (db_allowed_schema s) = true ∧ (1 ≤ db_port s ≤ 65535)%Z ∧
      (0 < db_connect_timeout_seconds s)%Z ∧ (0 < db_statement_timeout_ms s)%Z ∧
      dict_get "port" (connection_parameters c) = Some (PInt (db_port s)) ∧
      dict_get "user" (connection_parameters c) = Some (PStr (readonly_user s)) ∧
      dict_get "options" (connection_parameters c)
        = Some (PStr ("-c statement_timeout=" +:+ str_of_Z (db_statement_timeout_ms s)))
  | Err e =>
      e = ValueError ∧
      (simple_identifier (db_allowed_schema s) = false ∨ ¬ (1 ≤ db_port s ≤ 65535)%Z ∨
       (db_connect_timeout_seconds s ≤ 0)%Z ∨ (db_statement_timeout_ms s ≤ 0)%Z)
  end.
Proof.
  intros s. unfold from_settings, DataSourceConfig_post_init, ensure, within. cbn -[simple_identifier str_of_Z].
  destruct (simple_identifier _) eqn:E1; cbn -[str_of_Z]; [|split; [done|by left]].
  destruct (1 <=? db_port s)%Z eqn:E2, (db_port s <=? 65535)%Z eqn:E3; cbn -[str_of_Z];
    try (split; [done|right; left; lia]).
  destruct (db_connect_timeout_seconds s <=? 0)%Z eqn:E4,
    (db_statement_timeout_ms s <=? 0)%Z eqn:E5; cbn -[str_of_Z];
    try (split; [done|right; right; lia]).
  split_and!; (done || lia).
Qed.
