(* ===== verification/Executor.v ===== *)
(** * Planner estimate and bounded execution:
      [app/query_safety/executor.py], [app/query_safety/cost.py] *)

From S2P Require Import Prelude PyStr Floats Errors Json Metadata Policy Numbers DataSources.

(** ** executor.py *)

Definition payload (columns : list string) (rows : list pyval) : pyval :=
  PDict [("columns", str_list columns); ("rows", PList rows)].

(** [dict(zip(columns, raw_row, strict=True))]. *)
Definition zip_row (columns : list string) (raw_row : list pyval) : result exn pyval :=
  if length columns =? length raw_row then Ok (PDict (dict_of (zip columns raw_row)))
  else Err ValueError.

(** The loop over the fetched rows: [rows] and [serialized_bytes] so far;
    the flag is [break]. *)
Fixpoint bounded_rows (columns : list string) (limit : Z) (raw_rows : list (list pyval))
    (rows : list pyval) (serialized : Z) : result exn (list pyval * Z * bool) :=
  match raw_rows with
  | [] => Ok (rows, serialized, false)
  | raw_row :: raw_rows =>
      row ← zip_row columns raw_row;
      let encoded := dumps row in
      let added_size := (Z.of_nat (byte_len encoded) + if rows is [] then 0 else 1)%Z in
      if (limit <? serialized + added_size)%Z then Ok (rows, serialized, true)
      else match loads encoded with
           | None => Err ValueError
           | Some v => bounded_rows columns limit raw_rows (rows ++ [v]) (serialized + added_size)
           end
  end.

(** A row field of [QueryExecutionResult] is a dict. *)
Definition as_dict (v : pyval) : result exn (list (string * pyval)) :=
  match v with PDict d => Ok d | _ => Err ValidationError end.

Definition bounded_result (columns : list string) (raw_rows : list (list pyval)) (p : QueryPolicy) :
    result exn QueryExecutionResult :=
  let base_size := Z.of_nat (byte_len (dumps (payload columns []))) in
  if (max_result_bytes p <? base_size)%Z then Err QueryResultLimitError
  else
    '(rows, serialized, stopped) ←
      bounded_rows columns (max_result_bytes p) (slice_to (max_rows p) raw_rows) [] base_size;
    dicts ← map_result as_dict rows;
    Ok {| result_columns := columns; rows := dicts;
          returned_row_count := Z.of_nat (length rows); serialized_bytes := serialized;
          truncated := (max_rows p <? Z.of_nat (length raw_rows))%Z || stopped |}.

Section Database.
Context {W : Type} `{Psycopg W}.

Definition set_timeout_sql : string := "SELECT set_config('statement_timeout', %s, true)".
Definition timeout_argument (c : DataSourceConfig) : list pyval :=
  [PStr (str_of_Z (statement_timeout_ms c))].

(** The three nested [with] blocks of executor and estimator. *)
Definition in_transaction {A} (c : DataSourceConfig) (body : eff W db_call exn A) :
    eff W db_call exn A :=
  with_block (connect c) (λ ok, db (CloseConnection ok)) (λ _,
  with_block (db BeginTransaction) (λ ok, db (EndTransaction ok)) (λ _,
  with_block (db OpenCursor) (λ ok, db (CloseCursor ok)) (λ _,
    _ ← db (Execute "SET TRANSACTION READ ONLY" []);
    _ ← db (Execute set_timeout_sql (timeout_argument c));
    body))).

Definition fetch_bounded (query : GuardedQuery) (p : QueryPolicy) :
    eff W db_call exn (list string * list (list pyval)) :=
  description ← db (Execute (bounded_sql query) []);
  match description with
  | None => raise QueryExecutionError
  | Some columns =>
      if (max_columns p <? Z.of_nat (length columns))%Z || negb (all_distinct columns)
      then raise QueryResultLimitError
      else
        raw_rows ← db (FetchMany (row_fetch_limit query));
        mret (columns, raw_rows)
  end.

(** The [except] clauses that translate driver errors. *)
Definition map_query_error {A} (e : exn) : eff W db_call exn A :=
  match e with
  | PsycopgQueryCanceled => raise QueryTimeoutError
  | PsycopgInsufficientPrivilege => raise QueryPermissionError
  | _ => if is_data_source_error e || is_psycopg_error e || is_os_error e
         then raise QueryExecutionError else raise e
  end.

Definition execute (query : GuardedQuery) (c : DataSourceConfig) (p : QueryPolicy) :
    eff W db_call exn QueryExecutionResult :=
  fetched ← try_except (in_transaction c (fetch_bounded query p))
    (λ e, if is_query_safety_error e then raise e else map_query_error e);
  lift_result (bounded_result fetched.1 fetched.2 p).

(** ** cost.py *)

Definition fetch_plan (query : GuardedQuery) : eff W db_call exn (option (list pyval)) :=
  _ ← db (Execute ("EXPLAIN (FORMAT JSON) " +:+ normalized_sql query) []);
  db FetchOne.

(** [payload[0]] and [plan[key]] on whatever the driver returned. *)
Definition first_item (v : pyval) : result exn pyval :=
  match v with
  | PList (x :: _) => Ok x
  | PList [] => Err IndexError
  | PStr s => match cps s with c :: _ => Ok (PStr (encode [c])) | [] => Err IndexError end
  | PDict _ => Err KeyError
  | _ => Err TypeError
  end.
Definition get_key (v : pyval) (k : string) : result exn pyval :=
  match v with
  | PDict d => match dict_get k d with Some x => Ok x | None => Err KeyError end
  | _ => Err TypeError
  end.

Definition plan_payload (row : option (list pyval)) : pyval :=
  match row with Some (x :: _) => x | _ => PNone end.

Definition parse_plan (row : option (list pyval)) : result exn QueryCostEstimate :=
  payload ← match plan_payload row with
            | PStr s => match loads s with Some v => Ok v | None => Err ValueError end
            | v => Ok v
            end;
  first ← first_item payload;
  plan ← get_key first "Plan";
  cost ← get_key plan "Total Cost";
  total_cost ← py_float cost;
  estimated_rows ← get_key plan "Plan Rows";
  plan_rows ← py_int estimated_rows;
  QueryCostEstimate_validate {| total_cost := total_cost; plan_rows := plan_rows |}.

Definition map_plan_error (r : result exn QueryCostEstimate) : result exn QueryCostEstimate :=
  match r with
  | Err (IndexError | KeyError | TypeError) => Err QueryExecutionError
  | Err e => if is_value_error e then Err QueryExecutionError else Err e
  | r => r
  end.

Definition estimate (query : GuardedQuery) (c : DataSourceConfig) :
    eff W db_call exn QueryCostEstimate :=
  row ← try_except (in_transaction c (fetch_plan query)) map_query_error;
  lift_result (map_plan_error (parse_plan row)).
End Database.

(** ** The size of a result *)

Lemma join_cons2 sep y z l : join sep (y :: z :: l) = y +:+ sep +:+ join sep (z :: l).
Proof. done. Qed.

Lemma byte_len_join_snoc sep l x :
  byte_len (join sep (l ++ [x]))
    = byte_len (join sep l) + byte_len x + (if l is [] then 0 else byte_len sep).
Proof.
  induction l as [|y l IH]; cbn [app]; [unfold byte_len; cbn; lia|].
  destruct l as [|z l]; [cbn [app join]; rewrite !byte_len_app; lia|].
  cbn [app] in *. rewrite !join_cons2, !byte_len_app, IH. lia.
Qed.

Definition payload_size (columns : list string) (rows : list pyval) : Z :=
  Z.of_nat (byte_len (dumps (payload columns rows))).

Lemma payload_size_rows columns rows :
  payload_size columns rows
    = (payload_size columns [] + Z.of_nat (byte_len (join "," (map dumps rows))))%Z.
Proof.
  unfold payload_size, payload. rewrite !dumps_dict. unfold dumps_entry.
  cbn [map fst snd join dumps]. rewrite !byte_len_app. cbn [byte_len String.length]. lia.
Qed.

Lemma payload_size_snoc columns rows x :
  payload_size columns (rows ++ [x])
    = (payload_size columns rows + (Z.of_nat (byte_len (dumps x)) + if rows is [] then 0 else 1))%Z.
Proof.
  rewrite !(payload_size_rows _ (rows ++ [x])), (payload_size_rows _ rows), map_app.
  cbn [map]. rewrite byte_len_join_snoc. destruct rows; cbn [map byte_len String.length]; lia.
Qed.

(** The row a fetched tuple becomes, once encoded and decoded. *)
Definition row_view (columns : list string) (raw_row : list pyval) : pyval :=
  json_view (PDict (dict_of (zip columns raw_row))).

Definition row_ok (columns : list string) (raw_row : list pyval) : Prop :=
  length raw_row = length columns ∧ json_ok (PDict (dict_of (zip columns raw_row))) = true.

Lemma bounded_rows_spec columns limit raw_rows rows :
  Forall (row_ok columns) raw_rows →
  (payload_size columns rows ≤ limit)%Z →
  ∃ n stopped,
    let out := rows ++ map (row_view columns) (take n raw_rows) in
    bounded_rows columns limit raw_rows rows (payload_size columns rows)
      = Ok (out, payload_size columns out, stopped) ∧
    (payload_size columns out ≤ limit)%Z ∧ n ≤ length raw_rows ∧
    (stopped = false → n = length raw_rows) ∧
    (stopped = true → ∃ r, raw_rows !! n = Some r ∧
       (limit < payload_size columns (out ++ [row_view columns r]))%Z).
Proof.
  intros Hok. revert rows. induction Hok as [|r raw_rows [Hlen Hr] _ IH]; intros rows Hsize.
  { exists 0, false. cbn. rewrite app_nil_r. split_and!; try done. }
  cbn [bounded_rows]. unfold zip_row at 1. rewrite Hlen, Nat.eqb_refl. cbn [mbind result_bind].
  rewrite (loads_dumps_ok _ Hr).
  pose proof (payload_size_snoc columns rows (row_view columns r)) as Hsnoc.
  unfold row_view in Hsnoc at 2. rewrite dumps_json_view in Hsnoc.
  destruct (_ <? _)%Z eqn:Hlim.
  - exists 0, true. cbn. rewrite app_nil_r. split_and!; [done|done|lia|done|].
    intros _. exists r. split; [done|]. apply Z.ltb_lt in Hlim. rewrite <-Hsnoc in Hlim. exact Hlim.
  - destruct (IH (rows ++ [row_view columns r])) as (n & stopped & Heq & Hle & Hn & Hf & Ht); [lia|].
    exists (S n), stopped. cbn [take map length lookup list_lookup]. cbv zeta.
    rewrite (cons_middle (row_view columns r) rows (map _ _)), (app_assoc rows), <-Hsnoc. split_and!; [exact Heq|exact Hle|lia|intros Hs; by rewrite (Hf Hs)|exact Ht].
Qed.

Lemma as_dict_views columns raw_rows :
  map_result as_dict (map (row_view columns) raw_rows)
    = Ok (map (λ r, map (λ '(k, x), (k, json_view x)) (dict_of (zip columns r))) raw_rows).
Proof.
  induction raw_rows as [|r l IH]; [done|]. cbn [map]. rewrite map_result_cons, IH. done.
Qed.

(** What [_bounded_result] returns when it does not raise. *)
Record bounded_ok (columns : list string) (raw_rows : list (list pyval)) (p : QueryPolicy)
    (r : QueryExecutionResult) : Prop := {
  bounded_columns : result_columns r = columns;
  bounded_count : returned_row_count r = Z.of_nat (length (rows r));
  bounded_max : (returned_row_count r ≤ max_rows p)%Z;
  bounded_prefix : map PDict (rows r) = map (row_view columns) (take (length (rows r)) raw_rows);
  bounded_size : serialized_bytes r = payload_size columns (map PDict (rows r));
  bounded_limit : (serialized_bytes r ≤ max_result_bytes p)%Z;
  bounded_truncated : truncated r = false ↔ length (rows r) = length raw_rows;
  bounded_greedy : ∀ raw, raw_rows !! length (rows r) = Some raw →
    (returned_row_count r < max_rows p)%Z →
    (max_result_bytes p < payload_size columns (map PDict (rows r) ++ [row_view columns raw]))%Z
}.

Lemma map_dict_views columns (l : list (list pyval)) :
  map PDict (map (λ r, map (λ '(k, x), (k, json_view x)) (dict_of (zip columns r))) l)
    = map (row_view columns) l.
Proof. by rewrite map_map. Qed.

Lemma bounded_result_cases columns raw_rows p :
  (1 ≤ max_rows p)%Z → Forall (row_ok columns) raw_rows →
  match bounded_result columns raw_rows p with
  | Ok r => bounded_ok columns raw_rows p r
  | Err e => e = QueryResultLimitError ∧ (max_result_bytes p < payload_size columns [])%Z
  end.
Proof.
  intros Hp Hok. unfold bounded_result. fold (payload_size columns []).
  destruct (Z.ltb_spec (max_result_bytes p) (payload_size columns [])); [done|].
  rewrite slice_to_nonneg by lia.
  pose proof (Forall_take _ (Z.to_nat (max_rows p)) _ Hok) as Hslice.
  destruct (bounded_rows_spec columns (max_result_bytes p) _ [] Hslice ltac:(lia))
    as (n & stopped & Heq & Hle & Hn & Hf & Ht).
  cbn [app] in *. rewrite Heq. cbn [mbind result_bind].
  rewrite length_take in *. rewrite take_take in *.
  set (k := n `min` Z.to_nat (max_rows p)) in *. assert (k = n) as Hk by lia.
  rewrite Hk in *. rewrite as_dict_views. cbn [mbind result_bind].
  rewrite length_map, length_take.
  assert (n `min` length raw_rows = n) as Hnl by lia.
  split; cbn [result_columns rows returned_row_count serialized_bytes truncated];
    rewrite ?map_dict_views, ?length_map, ?length_take, ?Hnl; try done; try lia.
  - rewrite orb_false_iff, Z.ltb_ge. split.
    + intros [? Hs]. specialize (Hf Hs). lia.
    + intros ->. split; [lia|]. destruct stopped; [|done].
      destruct (Ht eq_refl) as (r & Hr & _). apply lookup_lt_Some in Hr.
      rewrite length_take in Hr. lia.
  - intros raw Hraw Hlt. destruct stopped.
    + destruct (Ht eq_refl) as (r & Hr & Hsz). rewrite lookup_take_lt in Hr by lia.
      congruence.
    + specialize (Hf eq_refl). apply lookup_lt_Some in Hraw. lia.
Qed.

(** ** The sessions *)

Ltac yields_call H :=
  lazymatch goal with |- yields _ _ (db ?k ≫= _) => eapply yields_bind; [exact (H k)|] end.

Definition is_statement (c : db_call) : bool :=
  match c with Execute _ _ | FetchMany _ | FetchOne => true | _ => false end.

(** The calls of one query, whatever fails on the way: what was opened is
    closed, innermost first, and statements run inside the transaction. *)
Inductive session (c : DataSourceConfig) (body : list db_call) : list db_call → Prop :=
| session_connect : body = [] → session c body [Connect (connection_parameters c)]
| session_begin : body = [] →
    session c body [Connect (connection_parameters c); BeginTransaction; CloseConnection false]
| session_cursor : body = [] →
    session c body [Connect (connection_parameters c); BeginTransaction; OpenCursor;
                    EndTransaction false; CloseConnection false]
| session_full k1 k2 k3 :
    session c body ([Connect (connection_parameters c); BeginTransaction; OpenCursor] ++ body ++
                    [CloseCursor k1; EndTransaction k2; CloseConnection k3]).

Definition preamble (c : DataSourceConfig) : list db_call :=
  [Execute "SET TRANSACTION READ ONLY" []; Execute set_timeout_sql (timeout_argument c)].

Section Sessions.
Context {W : Type} `{Psycopg W}.
Implicit Types (c : DataSourceConfig) (q : GuardedQuery) (p : QueryPolicy).

Lemma sat_map_connection_error {A} e (Q : list db_call → result exn A → Prop) :
  (∀ r, Q [] r) → sat (map_connection_error (W := W) e) Q.
Proof. intros HQ. unfold map_connection_error. destruct e; sat_auto; apply HQ. Qed.

Lemma sat_connect c (Q : list db_call → result exn unit → Prop) :
  (∀ r, Q [Connect (connection_parameters c)] r) → sat (connect (W := W) c) Q.
Proof.
  intros HQ. unfold connect, db. sat_step. sat_step. destruct r; [apply HQ|].
  apply sat_map_connection_error. intros r. apply HQ.
Qed.

Lemma sat_map_query_error {A} e (Q : list db_call → result exn A → Prop) :
  (∀ r, Q [] r) → sat (map_query_error (W := W) e) Q.
Proof. intros HQ. unfold map_query_error. destruct e; sat_auto; apply HQ. Qed.

(** The calls of a body, behind the preamble, in a session. *)
Lemma in_transaction_session {A} c (m : eff W db_call exn A) (full : list db_call) :
  sat m (λ t _, t `prefix_of` full) →
  sat (in_transaction c m) (λ t _, ∃ body, session c body t ∧ body `prefix_of` preamble c ++ full).
Proof.
  intros Hm. unfold in_transaction. apply sat_with_block, sat_connect. intros [u|e].
  2:{ eexists. split; [by constructor|apply prefix_nil]. }
  apply sat_with_block. sat_call. destruct r as [u'|e].
  2:{ sat_call. eexists. split; [by apply session_begin|apply prefix_nil]. }
  apply sat_with_block. sat_call. destruct r as [u''|e].
  2:{ do 2 sat_call. destruct r; (eexists; split; [by apply session_cursor|apply prefix_nil]). }
  assert (sat (_ ← db (Execute "SET TRANSACTION READ ONLY" []);
               _ ← db (Execute set_timeout_sql (timeout_argument c)); m)
            (λ t _, t `prefix_of` preamble c ++ full)) as Hbody.
  { apply sat_bind; sat_call; destruct r as [r|e]; [|by apply prefix_cons, prefix_nil].
    apply sat_bind; sat_call; destruct r0 as [r'|e]; [|by do 2 apply prefix_cons; apply prefix_nil].
    refine (sat_conseq _ _ _ Hm _). intros t r'' Ht. by do 2 apply prefix_cons. }
  refine (sat_conseq _ _ _ Hbody _). intros t r Ht.
  do 3 sat_call. eexists. split; [|exact Ht].
  match goal with |- session _ _ ?l => replace l with
    ([Connect (connection_parameters c); BeginTransaction; OpenCursor] ++ t ++
     [CloseCursor (is_ok r); EndTransaction (is_ok (match r0 with Ok _ => r | Err e => Err e end));
      CloseConnection (is_ok (match r1 with Ok _ => match r0 with Ok _ => r | Err e => Err e end
                              | Err e => Err e end))])
    by (cbn; by rewrite <-!app_assoc) end.
  apply session_full.
Qed.

Lemma sat_silent {A B} (m : eff W db_call exn A) h (f : A → eff W db_call exn B)
    (Q : list db_call → Prop) :
  sat m (λ t _, Q t) → (∀ e, sat (h e) (λ t _, t = [])) → (∀ a, sat (f a) (λ t _, t = [])) →
  sat (x ← try_except m h; f x) (λ t _, Q t).
Proof.
  intros Hm Hh Hf. apply sat_bind, sat_try. refine (sat_conseq _ _ _ Hm _). intros t [a|e] Ht.
  - refine (sat_conseq _ _ _ (Hf a) _). intros t' r ->. by rewrite app_nil_r.
  - refine (sat_conseq _ _ _ (Hh e) _). intros t' [a|e'] ->; rewrite app_nil_r; [|done].
    refine (sat_conseq _ _ _ (Hf a) _). intros t' r ->. by rewrite app_nil_r.
Qed.

Definition handled_error (e : exn) : Prop :=
  is_query_safety_error e = true ∨ is_data_source_error e = true ∨
  is_psycopg_error e = true ∨ is_os_error e = true.

Lemma yields_connect c :
  driver_errors W → yields (λ _, True) handled_error (connect (W := W) c).
Proof.
  intros Hd. apply (yields_try _ (λ e, is_psycopg_error e = true ∨ is_os_error e = true)).
  - by apply (yields_db (Connect (connection_parameters c))).
  - intros e He. unfold map_connection_error, handled_error.
    destruct e; try (destruct He; discriminate); cbn; apply yields_raise; cbn; tauto.
Qed.

(** With a documented driver a session ends in a value of its body or in
    an error the handlers know. *)
Lemma in_transaction_yields {A} c (m : eff W db_call exn A) (P : A → Prop) :
  driver_errors W → yields P handled_error m → yields P handled_error (in_transaction c m).
Proof.
  intros Hd Hm.
  assert (∀ k, yields (λ _, True) handled_error (db k)) as Hdb.
  { intros k. apply yields_db; [done|]. unfold handled_error. tauto. }
  apply (yields_with_block _ _ _ _ (λ _, True)); [by apply yields_connect|intros ok; exact (Hdb (CloseConnection ok))|intros _ _].
  apply (yields_with_block _ _ _ _ (λ _, True)); [exact (Hdb BeginTransaction)
    |intros ok; exact (Hdb (EndTransaction ok))|intros _ _].
  apply (yields_with_block _ _ _ _ (λ _, True)); [exact (Hdb OpenCursor)
    |intros ok; exact (Hdb (CloseCursor ok))|intros _ _].
  do 2 (yields_call Hdb; intros _ _). done.
Qed.

Lemma yields_map_query_error {A} e (P : A → Prop) :
  handled_error e → is_query_safety_error e = false →
  yields P (λ e', is_query_safety_error e' = true) (map_query_error (W := W) e).
Proof.
  unfold handled_error. intros He Hq. destruct e; cbn in *; try discriminate;
    try (destruct He as [|[|[|]]]; discriminate); by apply yields_raise.
Qed.

Definition fetched_ok (p : QueryPolicy) (x : list string * list (list pyval)) : Prop :=
  NoDup x.1 ∧ (Z.of_nat (length x.1) ≤ max_columns p)%Z.

Lemma fetch_bounded_yields q p :
  driver_errors W → yields (fetched_ok p) handled_error (fetch_bounded (W := W) q p).
Proof.
  intros Hd.
  assert (∀ k, yields (λ _, True) handled_error (db k)) as Hdb.
  { intros k. apply yields_db; [done|]. unfold handled_error. tauto. }
  unfold fetch_bounded. yields_call Hdb. intros [columns|] _; [|by apply yields_raise; left].
  destruct (_ || _) eqn:Hc; [by apply yields_raise; left|].
  apply orb_false_iff in Hc as [Hlen%Z.ltb_ge Hnd%negb_false_iff%all_distinct_spec].
  yields_call Hdb. intros raw _. by apply yields_ret.
Qed.

Lemma bounded_result_errors columns raw p e :
  bounded_result columns raw p = Err e → e = QueryResultLimitError ∨ is_value_error e = true.
Proof.
  unfold bounded_result. destruct (_ <? _)%Z; [intros [= <-]; by left|].
  assert (∀ limit raw rows n, bounded_rows columns limit raw rows n = Err e → e = ValueError) as Hrows.
  { intros limit raws. induction raws as [|r raws IH]; intros rows n; [done|].
    cbn [bounded_rows]. rewrite result_bind_Err. unfold zip_row.
    intros [|(row & _ & Hr)]; [by destruct (_ =? _); naive_solver|].
    destruct (_ <? _)%Z; [done|]. destruct (loads _); [by eapply IH|congruence]. }
  rewrite result_bind_Err. intros [He%Hrows|([[rows n] b] & _ & He)]; [subst; by right|].
  apply result_bind_Err in He as [(v & _ & He)%map_result_Err|(? & _ & ?)]; [|done].
  right. destruct v; cbn in He; by simplify_eq.
Qed.

Lemma bounded_rows_serialized columns limit raw rows n out m b :
  bounded_rows columns limit raw rows n = Ok (out, m, b) → (0 ≤ n)%Z → (0 ≤ m)%Z.
Proof.
  revert rows n. induction raw as [|r raw IH]; intros rows n; [by intros [= _ <- _]|].
  cbn [bounded_rows]. rewrite result_bind_Ok. intros (row & _ & Hr) Hn.
  destruct (_ <? _)%Z; [by simplify_eq|]. destruct (loads _); [|done].
  eapply IH; [exact Hr|]. destruct rows; lia.
Qed.

Lemma bounded_result_nonneg columns raw p r :
  bounded_result columns raw p = Ok r → (0 ≤ returned_row_count r)%Z ∧ (0 ≤ serialized_bytes r)%Z.
Proof.
  unfold bounded_result. destruct (_ <? _)%Z; [done|].
  rewrite result_bind_Ok. intros ([[out m] b] & Hrows & Hr).
  apply result_bind_Ok in Hr as (dicts & _ & [= <-]). cbn.
  split; [lia|]. eapply bounded_rows_serialized; [exact Hrows|lia].
Qed.

Lemma execute_nonneg q c p :
  yields (λ r, (0 ≤ returned_row_count r)%Z ∧ (0 ≤ serialized_bytes r)%Z) (λ _, True)
    (execute (W := W) q c p).
Proof.
  apply sat_bind. intros w. destruct (outcome _ w) as [[columns raw]|e]; [|done].
  apply sat_lift. destruct (bounded_result _ _ _) eqn:E; [|done].
  by eapply bounded_result_nonneg.
Qed.

Lemma parse_plan_valid row e :
  parse_plan row = Ok e → fltb (total_cost e) fzero = false ∧ (0 ≤ plan_rows e)%Z.
Proof.
  unfold parse_plan. intros Hp. inv_ok. unfold QueryCostEstimate_validate in *.
  destruct (negb _ && _) eqn:E; simplify_eq. split_bools. split; [done|lia].
Qed.

Lemma estimate_valid q c :
  yields (λ e, fltb (total_cost e) fzero = false ∧ (0 ≤ plan_rows e)%Z) (λ _, True)
    (estimate (W := W) q c).
Proof.
  apply sat_bind. intros w. destruct (outcome _ w) as [row|e]; [|done].
  apply sat_lift. unfold map_plan_error. destruct (parse_plan row) as [e|e] eqn:E.
  - by eapply parse_plan_valid.
  - destruct e; cbn; try done; by destruct (is_value_error _).
Qed.
End Sessions.

(** ** Theorems *)

(** C8: a bounded result holds the columns and a prefix of the fetched rows
    as JSON would give them back; its size is exactly that of its encoding
    and within the byte limit; its row count is within the row limit; the
    truncation flag tells whether a row is missing, and a row is left out
    for size only when it would break the limit.  The only error is a header
    that exceeds the byte limit. *)
Theorem bounded_result_sound : ∀ columns raw_rows p,
  (1 ≤ max_rows p)%Z → Forall (row_ok columns) raw_rows →
  match bounded_result columns raw_rows p with
  | Ok r => bounded_ok columns raw_rows p r
  | Err e => e = QueryResultLimitError ∧ (max_result_bytes p < payload_size columns [])%Z
  end.
Proof. exact bounded_result_cases. Qed.

(** The sessions of the executor and of the estimator. *)
Definition execution_session c q (t : list db_call) : Prop :=
  ∃ body, session c body t ∧
    body `prefix_of` preamble c ++ [Execute (bounded_sql q) []; FetchMany (row_fetch_limit q)].
Definition explain_session c q (t : list db_call) : Prop :=
  ∃ body, session c body t ∧
    body `prefix_of` preamble c ++ [Execute ("EXPLAIN (FORMAT JSON) " +:+ normalized_sql q) []; FetchOne].

Lemma execute_session `{Psycopg W} q c p : sat (execute (W := W) q c p) (λ t _, execution_session c q t).
Proof.
  refine (sat_silent _ _ _ (execution_session c q) _ _ _).
  - apply in_transaction_session. unfold fetch_bounded. apply sat_bind. sat_call.
    destruct r as [[columns|]|e]; [|apply sat_raise, prefix_cons, prefix_nil|apply prefix_cons, prefix_nil].
    destruct (_ || _); [apply sat_raise, prefix_cons, prefix_nil|].
    apply sat_bind. sat_call. destruct r as [raw|e]; [by apply sat_ret|done].
  - intros e. destruct (is_query_safety_error e); [by apply sat_raise|by apply sat_map_query_error].
  - intros a. by apply sat_lift.
Qed.

Lemma estimate_session `{Psycopg W} q c : sat (estimate (W := W) q c) (λ t _, explain_session c q t).
Proof.
  refine (sat_silent _ _ _ (explain_session c q) _ _ _).
  - apply in_transaction_session. unfold fetch_plan. apply sat_bind. sat_call.
    destruct r as [d|e]; [sat_call; done|apply prefix_cons, prefix_nil].
  - intros e. by apply sat_map_query_error.
  - intros a. by apply sat_lift.
Qed.

(** Whatever the driver answers or raises, the calls of the executor form
    one session: every resource opened is closed, and the statements run are
    a prefix of "SET TRANSACTION READ ONLY", the statement timeout, the
    bounded query and one bounded fetch; the estimator explains the query
    in such a session too, and never runs it. *)
Theorem query_sessions : ∀ W (H : Psycopg W) q c p w,
  (∃ body, session c body (trace (execute q c p) w) ∧
     body `prefix_of` preamble c ++ [Execute (bounded_sql q) []; FetchMany (row_fetch_limit q)]) ∧
  (∃ body, session c body (trace (estimate q c) w) ∧
     body `prefix_of` preamble c ++ [Execute ("EXPLAIN (FORMAT JSON) " +:+ normalized_sql q) [];
                                     FetchOne]).
Proof. intros W H q c p w. split; [apply (execute_session q c p w)|apply (estimate_session q c w)]. Qed.

(** With a driver that raises only its documented errors, the executor
    returns the bounded view of rows with distinct columns within the column
    limit, or raises a query-safety error; the one other error is the value
    error of a row whose shape differs from the header. *)
Theorem execute_outcome : ∀ W (H : Psycopg W) q c p w,
  driver_errors W →
  match outcome (execute q c p) w with
  | Ok r => ∃ columns raw_rows, NoDup columns ∧
      (Z.of_nat (length columns) ≤ max_columns p)%Z ∧ bounded_result columns raw_rows p = Ok r
  | Err e => is_query_safety_error e = true ∨
      is_value_error e = true ∧ ∃ columns raw_rows, bounded_result columns raw_rows p = Err e
  end.
Proof.
  intros W H q c p w Hd.
  refine (yields_bind (λ e, _ ∨ _) _ _ (fetched_ok p) (λ r, ∃ columns raw_rows, _) _ _ w).
  - apply (yields_try _ handled_error).
    + by apply in_transaction_yields, fetch_bounded_yields.
    + intros e He. destruct (is_query_safety_error e) eqn:Hq; [apply yields_raise; by left|].
      refine (sat_conseq _ _ _ (yields_map_query_error e (fetched_ok p) He Hq) _).
      intros t [x|e']; [done|by left].
  - intros [columns raw_rows] [Hnd Hlen] w'. cbn.
    destruct (bounded_result columns raw_rows p) as [r|e] eqn:E; [eauto 10|].
    destruct (bounded_result_errors _ _ _ _ E) as [->|?]; [by left|right; eauto].
Qed.

Definition demo_driver : Psycopg unit := λ c w,
  match c with
  | Execute _ _ => (w, Ok (Some ["customer"; "revenue"]))
  | FetchMany _ => (w, Ok [[PStr "Ernst Handel"; POther "104874.98"]; [PStr "QUICK"; PNone]])
  | FetchOne | FetchOneRow => (w, Ok None)
  | FetchAllRows => (w, Ok [])
  | Connect _ | BeginTransaction | OpenCursor | ExecuteMany _ _ | CloseCursor _ | EndTransaction _
  | CloseConnection _ => (w, Ok tt)
  end.

Definition demo_config : DataSourceConfig := {|
  cfg_source_id := "northwind-demo"; cfg_host := "localhost"; cfg_port := 5433;
  cfg_database := "northwind"; cfg_username := "northwind_reader"; cfg_password := "secret";
  cfg_allowed_schema := "northwind"; connect_timeout_seconds := 3; statement_timeout_ms := 2000
|}.
Definition demo_query : GuardedQuery := {|
  normalized_sql := "SELECT 1"; bounded_sql := "SELECT 1 LIMIT 101"; query_fingerprint := "sha256:";
  referenced_tables := []; row_fetch_limit := 101 |}.

Lemma bounded_result_sound_witness :
  ∃ r, bounded_result ["customer"; "revenue"] [[PStr "Ernst"; POther "1.5"]; [PStr "Q"; PNone]]
         demo_policy = Ok r ∧ truncated r = false ∧
       bounded_ok ["customer"; "revenue"] [[PStr "Ernst"; POther "1.5"]; [PStr "Q"; PNone]]
         demo_policy r.
Proof.
  eexists. split; [vm_compute; reflexivity|]. split; [reflexivity|].
  refine (bounded_result_sound ["customer"; "revenue"]
    [[PStr "Ernst"; POther "1.5"]; [PStr "Q"; PNone]] demo_policy _ _).
  - vm_compute. discriminate.
  - repeat constructor.
Defined.

Lemma execute_outcome_witness :
  match outcome (execute (H := demo_driver) demo_query demo_config demo_policy) tt with
  | Ok r => ∃ columns raw_rows, NoDup columns ∧
      (Z.of_nat (length columns) ≤ max_columns demo_policy)%Z ∧
      bounded_result columns raw_rows demo_policy = Ok r
  | Err e => is_query_safety_error e = true ∨
      is_value_error e = true ∧ ∃ columns raw_rows, bounded_result columns raw_rows demo_policy = Err e
  end.
Proof.
  apply (execute_outcome unit demo_driver demo_query demo_config demo_policy tt).
  intros [] w w' e; discriminate.
Defined.

Example demo_execution :
  is_ok (outcome (execute (H := demo_driver) demo_query demo_config demo_policy) tt) = true ∧
  trace (execute (H := demo_driver) demo_query demo_config demo_policy) tt
    = [Connect (connection_parameters demo_config); BeginTransaction; OpenCursor] ++
      preamble demo_config ++ [Execute "SELECT 1 LIMIT 101" []; FetchMany 101;
        CloseCursor true; EndTransaction true; CloseConnection true].
Proof. vm_compute. done. Qed.
