(* ===== verification/SafeQuery.v ===== *)
(** * Guarded, estimated, bounded and audited execution:
      [app/query_safety/service.py], [app/query_safety/audit.py] *)

From S2P Require Import Prelude PyStr Floats Errors Json Metadata Policy SqlGuard Numbers.
From S2P Require Import DataSources Executor.

(** ** The collaborators of the service *)

Class SafetyEnv (W : Type) := {
  cost_estimator : option (GuardedQuery → DataSourceConfig → op W exn QueryCostEstimate);
  executor : GuardedQuery → DataSourceConfig → QueryPolicy → op W exn QueryExecutionResult;
  audit_sink : QueryAuditEvent → op W exn unit;
  datetime_now : W → W * Z;
  monotonic_ns : W → W * Z;
  uuid4 : W → W * string
}.

Inductive safety_call :=
| CallEstimate (query : GuardedQuery)
| CallExecute (query : GuardedQuery) (policy : QueryPolicy)
| CallRecord (event : QueryAuditEvent).

(** The sinks of audit.py: an appended list, and one log line per event. *)
Definition memory_sink (event : QueryAuditEvent) : op (list QueryAuditEvent) exn unit :=
  λ events, (events ++ [event], Ok tt).

(** Pydantic's constraints on an audit event. *)
Definition nonneg (z : Z) : bool := (0 <=? z)%Z.
Definition QueryAuditEvent_validate (e : QueryAuditEvent) : result exn QueryAuditEvent :=
  let n := py_len (ev_reason_code e) in
  if (1 <=? n) && (n <=? 80) && is_fingerprint (ev_query_fingerprint e)
     && default true ((λ x, negb (fltb x fzero)) <$> ev_estimated_total_cost e)
     && default true (nonneg <$> ev_estimated_plan_rows e)
     && nonneg (ev_returned_rows e) && nonneg (ev_returned_columns e)
     && nonneg (ev_serialized_bytes e) && nonneg (ev_duration_ms e)
  then Ok e else Err ValidationError.

Section Service.
Context `{PyUnicode} `{Digests} `{SqlGlot} {W : Type} `{SafetyEnv W}.
Notation M := (eff W safety_call exn).

(** The keyword arguments of [_event]. *)
Record event_args := {
  arg_status : QueryAuditStatus; arg_reason_code : string; arg_query_fingerprint : string;
  arg_referenced_tables : list string; arg_planner_invoked : bool; arg_executor_invoked : bool;
  arg_estimate : option QueryCostEstimate; arg_result : option QueryExecutionResult
}.

Definition mk_event (context : QueryContext) (occurred_at started_ns : Z) (a : event_args)
    (event_id : string) (now_ns : Z) : QueryAuditEvent := {|
  ev_event_id := event_id; ev_occurred_at := occurred_at; ev_context := context;
  ev_status := arg_status a; ev_reason_code := arg_reason_code a;
  ev_query_fingerprint := arg_query_fingerprint a;
  ev_referenced_tables := arg_referenced_tables a;
  ev_planner_invoked := arg_planner_invoked a; ev_executor_invoked := arg_executor_invoked a;
  ev_estimated_total_cost := total_cost <$> arg_estimate a;
  ev_estimated_plan_rows := plan_rows <$> arg_estimate a;
  ev_returned_rows := from_option returned_row_count 0%Z (arg_result a);
  ev_returned_columns := from_option (λ r, Z.of_nat (length (result_columns r))) 0%Z (arg_result a);
  ev_serialized_bytes := from_option serialized_bytes 0%Z (arg_result a);
  ev_result_truncated := from_option truncated false (arg_result a);
  ev_duration_ms := Z.max 0 ((now_ns - started_ns) / 1000000)
|}.

Definition _event (context : QueryContext) (occurred_at started_ns : Z) (a : event_args) :
    M QueryAuditEvent :=
  event_id ← silent uuid4;
  now_ns ← silent monotonic_ns;
  lift_result (QueryAuditEvent_validate (mk_event context occurred_at started_ns a event_id now_ns)).

Definition _record (event : QueryAuditEvent) : M unit :=
  try_except (invoke (CallRecord event) (audit_sink event)) (λ _, raise QueryAuditError).

Definition _approval_reason (e : QueryCostEstimate) (p : QueryPolicy) : option string :=
  if fltb (max_total_cost p) (total_cost e) then Some "TOTAL_COST_LIMIT_EXCEEDED"
  else if (max_plan_rows p <? plan_rows e)%Z then Some "PLAN_ROWS_LIMIT_EXCEEDED"
  else None.

(** Every exit of the service builds one event and records it. *)
Definition audited (context : QueryContext) (occurred_at started_ns : Z) (a : event_args) :
    M QueryAuditEvent :=
  event ← _event context occurred_at started_ns a;
  _ ← _record event;
  mret event.

Definition rejected_args (sql : string) (reason : string) : event_args := {|
  arg_status := REJECTED; arg_reason_code := reason;
  arg_query_fingerprint := fingerprint_query sql; arg_referenced_tables := [];
  arg_planner_invoked := false; arg_executor_invoked := false;
  arg_estimate := None; arg_result := None |}.
Definition planner_args (g : GuardedQuery) (status : QueryAuditStatus) (reason : string)
    (estimate : option QueryCostEstimate) : event_args := {|
  arg_status := status; arg_reason_code := reason;
  arg_query_fingerprint := query_fingerprint g; arg_referenced_tables := referenced_tables g;
  arg_planner_invoked := true; arg_executor_invoked := false;
  arg_estimate := estimate; arg_result := None |}.
Definition executor_args (g : GuardedQuery) (status : QueryAuditStatus) (reason : string)
    (estimate : option QueryCostEstimate) (result : option QueryExecutionResult) : event_args := {|
  arg_status := status; arg_reason_code := reason;
  arg_query_fingerprint := query_fingerprint g; arg_referenced_tables := referenced_tables g;
  arg_planner_invoked := if estimate is Some _ then true else false;
  arg_executor_invoked := true; arg_estimate := estimate; arg_result := result |}.

(** The two [except] clauses around a collaborator: a query-safety error is
    audited and raised again, anything else becomes [QueryExecutionError]. *)
Definition public_error (e : exn) : exn :=
  if is_query_safety_error e then e else QueryExecutionError.
Definition error_code (e : exn) : string := default "" (code (public_error e)).

Definition estimated (context : QueryContext) (c : DataSourceConfig) (p : QueryPolicy)
    (started_at started_ns : Z) (g : GuardedQuery) : M (option QueryCostEstimate) :=
  match cost_estimator with
  | None => mret None
  | Some estimate =>
      e ← try_except (invoke (CallEstimate g) (estimate g c)) (λ e,
            _ ← audited context started_at started_ns (planner_args g FAILED (error_code e) None);
            raise (public_error e));
      match _approval_reason e p with
      | Some reason =>
          _ ← audited context started_at started_ns (planner_args g APPROVAL_REQUIRED reason (Some e));
          raise (QueryApprovalRequiredError reason (total_cost e) (plan_rows e))
      | None => mret (Some e)
      end
  end.

Definition execute_fixed (sql : string) (context : QueryContext) (c : DataSourceConfig)
    (p : QueryPolicy) : M SafeQueryOutcome :=
  started_at ← silent datetime_now;
  started_ns ← silent monotonic_ns;
  g ← match inspect sql p with
      | Ok g => mret g
      | Err (SQLPolicyViolationError reason) =>
          _ ← audited context started_at started_ns (rejected_args sql reason);
          raise (SQLPolicyViolationError reason)
      | Err e => raise e
      end;
  estimate ← estimated context c p started_at started_ns g;
  result ← try_except (invoke (CallExecute g p) (executor g c p)) (λ e,
             _ ← audited context started_at started_ns
                   (executor_args g FAILED (error_code e) estimate None);
             raise (public_error e));
  event ← audited context started_at started_ns
            (executor_args g SUCCEEDED "QUERY_EXECUTED" estimate (Some result));
  mret {| outcome_result := result; audit := event |}.

Definition execute_generated := execute_fixed.
End Service.

(** ** What every run leaves behind *)

(** The collaborators return model instances that passed pydantic. *)
Class SafetyEnvOk (W : Type) `{SafetyEnv W} : Prop := {
  estimates_valid : ∀ f g c w w' e, cost_estimator = Some f → f g c w = (w', Ok e) →
    fltb (total_cost e) fzero = false ∧ (0 ≤ plan_rows e)%Z;
  results_valid : ∀ g c p w w' r, executor g c p w = (w', Ok r) →
    (0 ≤ returned_row_count r)%Z ∧ (0 ≤ serialized_bytes r)%Z
}.

Section Runs.
Context `{PyUnicode} `{Digests} `{SqlGlot} {W : Type} `{Henv : SafetyEnv W}.
Notation M := (eff W safety_call exn).
Implicit Types (a : event_args) (p : QueryPolicy) (g : GuardedQuery) (w : W).

(** The exception a caller sees for an exception of a collaborator, and the
    code that is audited: a query-safety error goes through, any other becomes
    [QueryExecutionError]. *)
Inductive shown : exn → exn → string → Prop :=
| shown_safety e code_ : is_query_safety_error e = true → code e = Some code_ → shown e e code_
| shown_other e : is_query_safety_error e = false →
    shown e QueryExecutionError "QUERY_EXECUTION_FAILED".

(** The limit an estimate exceeds. *)
Inductive over_limit p (e : QueryCostEstimate) : string → Prop :=
| over_cost : fltb (max_total_cost p) (total_cost e) = true → over_limit p e "TOTAL_COST_LIMIT_EXCEEDED"
| over_rows : fltb (max_total_cost p) (total_cost e) = false → (max_plan_rows p < plan_rows e)%Z →
    over_limit p e "PLAN_ROWS_LIMIT_EXCEEDED".

(** From [w] to [w'], the planner answered an estimate within the limits; a
    service without an estimator asks nothing. *)
Definition planned (c : DataSourceConfig) p g w (estimate : option QueryCostEstimate) w' : Prop :=
  match cost_estimator with
  | None => estimate = None ∧ w' = w
  | Some f => ∃ e, estimate = Some e ∧ f g c w = (w', Ok e) ∧
      fltb (max_total_cost p) (total_cost e) = false ∧ (plan_rows e ≤ max_plan_rows p)%Z
  end.
Definition planning g (estimate : option QueryCostEstimate) : list safety_call :=
  if estimate is Some _ then [CallEstimate g] else [].

(** The ways a request goes, with the collaborators' replies: the calls
    before the audit record, what is audited (status, reason, fingerprint,
    tables, planner and executor called, estimate, result) and what the
    caller gets. *)
Inductive path (sql : string) (c : DataSourceConfig) p :
    W → list safety_call → event_args → result exn QueryExecutionResult → W → Prop :=
| path_rejected w reason :
    inspect sql p = Err (SQLPolicyViolationError reason) →
    path sql c p w []
      (Build_event_args REJECTED reason ("sha256:" +:+ sha256_hex sql) [] false false None None)
      (Err (SQLPolicyViolationError reason)) w
| path_estimate_failed g f w w' e e' reason :
    inspect sql p = Ok g → cost_estimator = Some f → f g c w = (w', Err e) → shown e e' reason →
    path sql c p w [CallEstimate g]
      (Build_event_args FAILED reason (query_fingerprint g) (referenced_tables g) true false None None)
      (Err e') w'
| path_approval g f w w' e reason :
    inspect sql p = Ok g → cost_estimator = Some f → f g c w = (w', Ok e) → over_limit p e reason →
    path sql c p w [CallEstimate g]
      (Build_event_args APPROVAL_REQUIRED reason (query_fingerprint g) (referenced_tables g)
         true false (Some e) None)
      (Err (QueryApprovalRequiredError reason (total_cost e) (plan_rows e))) w'
| path_execution_failed g estimate w w1 w2 e e' reason :
    inspect sql p = Ok g → planned c p g w estimate w1 → executor g c p w1 = (w2, Err e) →
    shown e e' reason →
    path sql c p w (planning g estimate ++ [CallExecute g p])
      (Build_event_args FAILED reason (query_fingerprint g) (referenced_tables g)
         (bool_decide (is_Some estimate)) true estimate None) (Err e') w2
| path_succeeded g estimate w w1 w2 r :
    inspect sql p = Ok g → planned c p g w estimate w1 → executor g c p w1 = (w2, Ok r) →
    path sql c p w (planning g estimate ++ [CallExecute g p])
      (Build_event_args SUCCEEDED "QUERY_EXECUTED" (query_fingerprint g) (referenced_tables g)
         (bool_decide (is_Some estimate)) true estimate (Some r)) (Ok r) w2.

(** The record of a request: its context, its start, what the path says and
    the numbers of the estimate and of the result. *)
Definition record_of (context : QueryContext) (t0 n0 : Z) a (id : string) (n : Z) : QueryAuditEvent := {|
  ev_event_id := id; ev_occurred_at := t0; ev_context := context;
  ev_status := arg_status a; ev_reason_code := arg_reason_code a;
  ev_query_fingerprint := arg_query_fingerprint a;
  ev_referenced_tables := arg_referenced_tables a;
  ev_planner_invoked := arg_planner_invoked a; ev_executor_invoked := arg_executor_invoked a;
  ev_estimated_total_cost := match arg_estimate a with Some e => Some (total_cost e) | None => None end;
  ev_estimated_plan_rows := match arg_estimate a with Some e => Some (plan_rows e) | None => None end;
  ev_returned_rows := match arg_result a with Some r => returned_row_count r | None => 0%Z end;
  ev_returned_columns := match arg_result a with Some r => Z.of_nat (length (result_columns r)) | None => 0%Z end;
  ev_serialized_bytes := match arg_result a with Some r => serialized_bytes r | None => 0%Z end;
  ev_result_truncated := match arg_result a with Some r => truncated r | None => false end;
  ev_duration_ms := Z.max 0 ((n - n0) / 1000000)
|}.

(** The record goes to the sink; a sink that refuses it fails the request. *)
Inductive recorded {A} context (t0 n0 : Z) a (expected : QueryAuditEvent → result exn A) w :
    list safety_call → result exn A → W → Prop :=
| recorded_event w1 w2 w3 id n reply :
    uuid4 w = (w1, id) → monotonic_ns w1 = (w2, n) →
    audit_sink (record_of context t0 n0 a id n) w2 = (w3, reply) →
    recorded context t0 n0 a expected w [CallRecord (record_of context t0 n0 a id n)]
      match reply with
      | Ok _ => expected (record_of context t0 n0 a id n)
      | Err _ => Err QueryAuditError
      end w3.

(** The calls and the outcome of a request that the guard judged. *)
Definition run_ok (sql : string) (context : QueryContext) (c : DataSourceConfig) p w
    (t : list safety_call) (r : result exn SafeQueryOutcome) : Prop :=
  ∃ w0 w1 w2 w3 t0 n0 pre a expected record,
    datetime_now w = (w0, t0) ∧ monotonic_ns w0 = (w1, n0) ∧
    path sql c p w1 pre a expected w2 ∧
    recorded context t0 n0 a (λ ev, match expected with
      | Ok x => Ok {| outcome_result := x; audit := ev |}
      | Err e => Err e
      end) w2 record r w3 ∧
    t = pre ++ record.

Record args_valid a : Prop := {
  valid_reason : (1 <=? py_len (arg_reason_code a)) && (py_len (arg_reason_code a) <=? 80) = true;
  valid_fingerprint : is_fingerprint (arg_query_fingerprint a) = true;
  valid_estimate : ∀ e, arg_estimate a = Some e →
    fltb (total_cost e) fzero = false ∧ (0 ≤ plan_rows e)%Z;
  valid_result : ∀ r, arg_result a = Some r →
    (0 ≤ returned_row_count r)%Z ∧ (0 ≤ serialized_bytes r)%Z
}.

Lemma mk_event_record context t0 n0 a id n :
  mk_event context t0 n0 a id n = record_of context t0 n0 a id n.
Proof. unfold mk_event, record_of. by destruct (arg_estimate a), (arg_result a). Qed.

Lemma event_validates context t0 n0 a id n :
  args_valid a →
  QueryAuditEvent_validate (mk_event context t0 n0 a id n) = Ok (mk_event context t0 n0 a id n).
Proof.
  intros [Hr Hf He Hres]. unfold QueryAuditEvent_validate, nonneg, mk_event.
  cbn [ev_reason_code ev_query_fingerprint ev_estimated_total_cost ev_estimated_plan_rows
    ev_returned_rows ev_returned_columns ev_serialized_bytes ev_duration_ms].
  rewrite Hr, Hf. assert ((0 <=? Z.max 0 ((n - n0) / 1000000))%Z = true) as -> by lia.
  assert (default true ((λ x, negb (fltb x fzero)) <$> (total_cost <$> arg_estimate a)) = true ∧
    default true ((λ x, 0 <=? x)%Z <$> (plan_rows <$> arg_estimate a)) = true) as [Hc Hp].
  { destruct (arg_estimate a) as [e|]; [|done]. cbn -[fltb fzero]. destruct (He e eq_refl) as [-> ?].
    split; [done|lia]. }
  assert ((0 <=? from_option returned_row_count 0 (arg_result a))%Z = true ∧
    (0 <=? from_option (λ r, Z.of_nat (length (result_columns r))) 0 (arg_result a))%Z = true ∧
    (0 <=? from_option serialized_bytes 0 (arg_result a))%Z = true) as (Hn & Hk & Hb).
  { destruct (arg_result a) as [r|]; [|done]. destruct (Hres r eq_refl).
    split_and!; apply Z.leb_le; cbn [from_option]; lia. }
  by rewrite Hn, Hk, Hb, Hp, Hc.
Qed.

Lemma audited_spec context t0 n0 a w :
  args_valid a →
  run_from w (audited (W := W) context t0 n0 a) (λ w' t r, recorded context t0 n0 a Ok w t r w').
Proof.
  intros Ha. unfold audited, _event. apply from_bind, from_bind, from_silent. intros w1 id Hid.
  apply from_bind, from_silent. intros w2 n Hn. apply from_lift. rewrite event_validates by done.
  rewrite mk_event_record. apply from_bind. unfold _record. apply from_try, from_invoke.
  intros w3 [[]|e] Hop; [apply from_ret|apply from_raise].
  - exact (recorded_event _ _ _ _ Ok _ _ _ _ _ _ _ Hid Hn Hop).
  - exact (recorded_event _ _ _ _ Ok _ _ _ _ _ _ _ Hid Hn Hop).
Qed.

(** A record before an error fits a caller of any type. *)
Lemma recorded_err {A B} context t0 n0 a e w t (r : result exn A) w' :
  recorded context t0 n0 a (λ _, Err e) w t r w' →
  ∃ e', r = Err e' ∧ recorded (A := B) context t0 n0 a (λ _, Err e) w t (Err e') w'.
Proof.
  intros [w1 w2 w3 id n reply Hid Hn Hop].
  pose proof (recorded_event (A := B) _ _ _ _ (λ _, Err e) _ _ _ _ _ _ _ Hid Hn Hop) as Hr.
  destruct reply; eauto.
Qed.

(** An exit with an error: record, then raise. *)
Lemma audited_raise {A} context t0 n0 a (e : exn) w :
  args_valid a →
  run_from w (_ ← audited (W := W) context t0 n0 a; raise e)
    (λ w' t (r : result exn A), recorded context t0 n0 a (λ _, Err e) w t r w').
Proof.
  intros Ha. apply from_bind. refine (from_conseq _ _ _ _ (audited_spec _ _ _ _ _ Ha) _).
  intros w' t r [w1 w2 w3 id n reply Hid Hn Hop].
  pose proof (recorded_event context t0 n0 a (λ _, Err (A := A) e) w w1 w2 w3 id n reply Hid Hn Hop) as Hrec.
  destruct reply; [apply from_raise; by rewrite app_nil_r|exact Hrec].
Qed.

Lemma shown_error e : shown e (public_error e) (error_code e).
Proof.
  unfold error_code, public_error. destruct (is_query_safety_error e) eqn:He; [|by constructor].
  destruct (code e) as [x|] eqn:Hc; [by constructor|]. by destruct e.
Qed.

Lemma error_code_valid e :
  (1 <=? py_len (error_code e)) && (py_len (error_code e) <=? 80) = true.
Proof. destruct e; reflexivity. Qed.

Lemma violation_reason_valid r :
  r ∈ violation_reasons → (1 <=? py_len r) && (py_len r <=? 80) = true.
Proof.
  revert r. apply Forall_forall. by repeat (constructor; [reflexivity|]).
Qed.

Lemma approval_reason_spec e p :
  match _approval_reason e p with
  | Some reason => over_limit p e reason ∧ (1 <=? py_len reason) && (py_len reason <=? 80) = true
  | None => fltb (max_total_cost p) (total_cost e) = false ∧ (plan_rows e ≤ max_plan_rows p)%Z
  end.
Proof.
  unfold _approval_reason. destruct (fltb _ _) eqn:?; [by repeat constructor|].
  destruct (Z.ltb_spec (max_plan_rows p) (plan_rows e)); [by repeat constructor|done].
Qed.

Lemma is_Some_match {A} (o : option A) : (if o is Some _ then true else false) = bool_decide (is_Some o).
Proof. by destruct o. Qed.

Context `{!SafetyEnvOk W}.

(** The planner: an estimate within the limits, or the end of the request. *)
Lemma estimated_spec sql context c p t0 n0 g w :
  inspect sql p = Ok g →
  run_from w (estimated (W := W) context c p t0 n0 g) (λ w' t r, match r with
    | Ok estimate => planned c p g w estimate w' ∧ t = planning g estimate
    | Err e => ∃ w1 pre a e' record, path sql c p w pre a (Err e') w1 ∧
        recorded (A := SafeQueryOutcome) context t0 n0 a (λ _, Err e') w1 record (Err e) w' ∧
        t = pre ++ record
    end).
Proof using Type*.
  intros Hg. pose proof (proj2 (proj2 (proj2 (inspect_bounds _ _ _ Hg)))) as Hfp.
  unfold estimated, planned. destruct cost_estimator as [f|] eqn:Hf; [|by apply from_ret].
  apply from_bind, from_try, from_invoke. intros w1 [e|e] Hop.
  - destruct (estimates_valid f g c w w1 e Hf Hop) as [Hc Hrows].
    pose proof (approval_reason_spec e p) as Hreason.
    destruct (_approval_reason e p) as [reason|].
    + destruct Hreason as [Hover Hlen].
      refine (from_conseq _ _ _ _ (audited_raise _ _ _ _ _ _ _) _).
      * split; cbn [planner_args arg_reason_code arg_query_fingerprint arg_estimate arg_result];
          [done|done|by intros e' [= <-]|done].
      * intros w' t r (e' & -> & H')%(recorded_err (B := SafeQueryOutcome)). pose proof (path_approval sql c p g f w w1 e reason Hg Hf Hop Hover) as Hpath.
        eexists _, _, _, _, _. by split; [exact Hpath|]; split; [exact H'|].
    + apply from_ret. destruct Hreason. split; [|done]. by exists e.
  - refine (from_conseq _ _ _ _ (audited_raise _ _ _ _ _ _ _) _).
    + split; cbn [planner_args arg_reason_code arg_query_fingerprint arg_estimate arg_result];
        [apply error_code_valid|done|done|done].
    + intros w' t r (e' & -> & H')%(recorded_err (B := SafeQueryOutcome)).
      pose proof (path_estimate_failed sql c p g f w w1 e _ _ Hg Hf Hop (shown_error e)) as Hpath.
        eexists _, _, _, _, _. by split; [exact Hpath|]; split; [exact H'|].
Qed.

Lemma planned_valid c p g w w' estimate e :
  planned c p g w estimate w' → estimate = Some e →
  fltb (total_cost e) fzero = false ∧ (0 ≤ plan_rows e)%Z.
Proof using Type*.
  unfold planned. destruct cost_estimator as [f|] eqn:Hf; [|by intros [-> _]].
  intros (e' & -> & Hop & _) [= ->]. by eapply estimates_valid.
Qed.

(** The executor and the record of its outcome. *)
Lemma executed_spec sql context c p t0 n0 g estimate w w1 :
  inspect sql p = Ok g → planned c p g w estimate w1 →
  run_from w1 (result ← try_except (invoke (CallExecute g p) (executor g c p)) (λ e,
         _ ← audited context t0 n0 (executor_args g FAILED (error_code e) estimate None);
         raise (public_error e));
       event ← audited context t0 n0
         (executor_args g SUCCEEDED "QUERY_EXECUTED" estimate (Some result));
       mret {| outcome_result := result; audit := event |})
    (λ w' t r, ∃ w2 pre a expected record, path sql c p w pre a expected w2 ∧
       recorded context t0 n0 a (λ ev, match expected with
         | Ok x => Ok {| outcome_result := x; audit := ev |}
         | Err e => Err e
         end) w2 record r w' ∧
       planning g estimate ++ t = pre ++ record).
Proof using Type*.
  intros Hg Hplan. pose proof (proj2 (proj2 (proj2 (inspect_bounds _ _ _ Hg)))) as Hfp.
  apply from_bind, from_try, from_invoke. intros w2 [res|e] Hop.
  - apply from_bind. refine (from_conseq _ _ _ _ (audited_spec _ _ _ _ _ _) _).
    + split; cbn [executor_args arg_reason_code arg_query_fingerprint arg_estimate arg_result];
        [done|done|by eauto using planned_valid|].
      intros r [= <-]. by eapply results_valid.
    + intros w' t r [w3 w4 w5 id n reply Hid Hn Hrec].
      pose proof (path_succeeded sql c p g estimate w w1 w2 res Hg Hplan Hop) as Hpath.
      unfold executor_args in *. rewrite is_Some_match in *.
      pose proof (recorded_event _ _ _ _ (λ ev, Ok {| outcome_result := res; audit := ev |})
        _ _ _ _ _ _ _ Hid Hn Hrec) as H'.
      destruct reply; [apply from_ret; rewrite app_nil_r|]; eexists _, _, _, _, _;
        (split; [exact Hpath|]); (split; [exact H'|]); by rewrite <-app_assoc.
  - refine (from_conseq _ _ _ _ (audited_raise _ _ _ _ _ _ _) _).
    + split; cbn [executor_args arg_reason_code arg_query_fingerprint arg_estimate arg_result];
        [apply error_code_valid|done|by eauto using planned_valid|done].
    + intros w' t r (e' & -> & H')%(recorded_err (B := SafeQueryOutcome)).
      pose proof (path_execution_failed sql c p g estimate w w1 w2 e _ _ Hg Hplan Hop (shown_error e)) as Hpath.
      unfold executor_args in *. rewrite is_Some_match in *.
      eexists _, _, _, (Err _), _. split; [exact Hpath|]. split; [exact H'|]. by rewrite <-app_assoc.
Qed.

(** A query that sqlglot fails on in a way the guard does not catch leaves
    no trace; every other request is a run of the story. *)
Lemma execute_fixed_run sql context c p w :
  run_from w (execute_fixed sql context c p) (λ _ t r,
    run_ok sql context c p w t r ∨
    ∃ e, inspect sql p = Err e ∧ is_query_safety_error e = false ∧ t = [] ∧ r = Err e).
Proof using Type*.
  unfold execute_fixed. apply from_bind, from_silent. intros w0 t0 Ht0.
  apply from_bind, from_silent. intros w1 n0 Hn0. apply from_bind.
  destruct (inspect sql p) as [g|e] eqn:Hg.
  - apply from_ret, from_bind.
    refine (from_conseq _ _ _ _ (estimated_spec sql _ _ _ _ _ _ _ Hg) _).
    intros w2 t [estimate|e].
    + intros [Hplan ->]. refine (from_conseq _ _ _ _ (executed_spec sql _ _ _ _ _ _ _ _ _ Hg Hplan) _).
      intros w' t r (w3 & pre & a & expected & record & Hpath & Hrec & Ht). left.
      exists w0, w1, w3, w', t0, n0, pre, a, expected, record. split_and!; auto.
    + intros (w3 & pre & a & e' & record & Hpath & Hrec & ->). left.
      exists w0, w1, w3, w2, t0, n0, pre, a, (Err e'), record. split_and!; auto.
  - destruct (inspect_Err_kind _ _ _ Hg) as [(reason & -> & Hreason)|He].
    + refine (from_conseq _ _ _ _ (audited_raise _ _ _ _ _ _ _) _).
      { split; cbn [rejected_args arg_reason_code arg_query_fingerprint arg_estimate arg_result];
          [by apply violation_reason_valid|apply fingerprint_ok|done|done]. }
      intros w' t r (e' & -> & Hr)%(recorded_err (B := SafeQueryOutcome)). left.
      eexists w0, w1, w1, w', t0, n0, [], _, (Err _), t.
      split_and!; [done|done|by apply path_rejected|exact Hr|done].
    + assert (run_from w1 (raise e : M GuardedQuery) (λ _ t r, t = [] ∧ r = Err e)) as Hraise by done.
      destruct e; try discriminate He; right; eexists; done.
Qed.
End Runs.

(** ** The PostgreSQL executor and estimator behind the interface *)

Section Postgres.
Context {W : Type} `{Psycopg W}.
Context (sink : QueryAuditEvent → op W exn unit) (now monotonic : W → W * Z)
        (uuid : W → W * string).

Definition postgres_env : SafetyEnv W := {|
  cost_estimator := Some (λ g c, as_op (Executor.estimate g c));
  executor g c p := as_op (Executor.execute g c p);
  audit_sink := sink; datetime_now := now; monotonic_ns := monotonic; uuid4 := uuid
|}.

Lemma as_op_yields {A} (P : A → Prop) (m : eff W db_call exn A) w w' a :
  yields P (λ _, True) m → as_op m w = (w', Ok a) → P a.
Proof.
  intros Hm. specialize (Hm w). unfold as_op, trace, outcome in *.
  destruct (m w) as [[w1 t] [x|e]]; cbn in *; by intros; simplify_eq.
Qed.

#[export] Instance postgres_env_ok : SafetyEnvOk W (H := postgres_env).
Proof.
  constructor.
  - intros f g c w w' e [= <-] Hop. exact (as_op_yields _ _ _ _ _ (estimate_valid g c) Hop).
  - intros g c p w w' r Hop. exact (as_op_yields _ _ _ _ _ (execute_nonneg g c p) Hop).
Qed.
End Postgres.

(** ** Theorems *)

(** C7: a request whose SQL the guard judges leaves exactly one audit record,
    as its last call.  The replies that the estimator and the executor gave
    decide the path: rejected by the guard, failed in the planner, over the
    cost or the row limit, failed in the executor, or succeeded.  The record
    holds the caller's identity, that path's status and reason code, the
    fingerprint, the tables, which collaborators were called, the estimate and
    the sizes of the result; the caller gets the result or the path's error (a
    query-safety error as it is, any other as an execution error) when the
    sink took the record, and an audit error otherwise.  Only an exception of
    sqlglot that the guard does not catch goes to the caller without a call
    and without a record. *)
Theorem execute_fixed_audited : ∀ (U : PyUnicode) (D : Digests) (S : SqlGlot) W (E : SafetyEnv W)
    sql context c p w,
  SafetyEnvOk W →
  run_ok sql context c p w (trace (execute_fixed sql context c p) w)
    (outcome (execute_fixed sql context c p) w) ∨
  ∃ e, inspect sql p = Err e ∧ is_query_safety_error e = false ∧
    trace (execute_fixed sql context c p) w = [] ∧
    outcome (execute_fixed sql context c p) w = Err e.
Proof. intros. by apply execute_fixed_run. Qed.

(** C2: the executor is called only with the guarded form of the request's
    own query under the request's policy, once the guard let it through and
    the planner, if there is one, put it within the cost and row limits. *)
Theorem executor_gated : ∀ (U : PyUnicode) (D : Digests) (S : SqlGlot) W (E : SafetyEnv W)
    sql context c p w g p',
  SafetyEnvOk W →
  CallExecute g p' ∈ trace (execute_fixed sql context c p) w →
  p' = p ∧ inspect sql p = Ok g ∧
  match cost_estimator with
  | None => True
  | Some f => ∃ e w1 w2, f g c w1 = (w2, Ok e) ∧
      fltb (max_total_cost p) (total_cost e) = false ∧ (plan_rows e ≤ max_plan_rows p)%Z
  end.
Proof.
  intros U D S W E sql context c p w g p' Hok Hin.
  destruct (execute_fixed_run sql context c p w)
    as [(w0 & w1 & w2 & w3 & t0 & n0 & pre & a & expected & record & _ & _ & Hpath & Hrec & Ht)|Hraised].
  2:{ destruct Hraised as (e & _ & _ & Ht & _). rewrite Ht in Hin. by apply elem_of_nil in Hin. }
  rewrite Ht in Hin. destruct Hrec. apply elem_of_app in Hin as [Hin|Hin%list_elem_of_singleton]; [|done].
  assert (∀ g' estimate v v', planned c p g' v estimate v' →
    CallExecute g p' ∈ planning g' estimate ++ [CallExecute g' p] →
    g' = g ∧ p' = p ∧ planned c p g v estimate v') as Hcall.
  { intros g' estimate v v' Hplan [Hl|[= <- <-]%list_elem_of_singleton]%elem_of_app; [|done].
    destruct estimate; [by apply list_elem_of_singleton in Hl|by apply elem_of_nil in Hl]. }
  assert (∃ estimate v v', inspect sql p = Ok g ∧ p' = p ∧ planned c p g v estimate v')
    as (estimate & v & v' & Hg & -> & Hplan).
  { destruct Hpath as [| | |g' est v v' v'' e e' reason Hg' Hpl|g' est v v' v'' r Hg' Hpl];
      try (set_solver);
      destruct (Hcall g' est v v' Hpl Hin) as (-> & -> & ?); eauto 10. }
  split_and!; [done|done|]. unfold planned in Hplan. destruct cost_estimator as [f|]; [|done].
  destruct Hplan as (e & _ & Hop & ? & ?). by exists e, v, v'.
Qed.

(** An environment that keeps its events in memory, with a cheap plan. *)
Definition demo_env : SafetyEnv (list QueryAuditEvent) := {|
  cost_estimator := Some (λ _ _ w, (w, Ok {| total_cost := f_of_Z 12; plan_rows := 5 |}));
  executor _ _ _ w := (w, Ok {| result_columns := ["customer_id"]; rows := [];
    returned_row_count := 0; serialized_bytes := 34; truncated := false |});
  audit_sink := memory_sink;
  datetime_now w := (w, 0%Z); monotonic_ns w := (w, 0%Z); uuid4 w := (w, "event")
|}.
Definition demo_context : QueryContext := {|
  tenant_id := "t"; user_id := "u"; job_id := "j"; data_source_id := "d"; trace_id := "trace" |}.

Lemma demo_env_ok : SafetyEnvOk _ (H := demo_env).
Proof.
  constructor; cbn.
  - intros f g c w w' e [= <-] [= _ <-]. by vm_compute.
  - intros g c p w w' r [= _ <-]. by vm_compute.
Qed.

Definition demo_guarded : GuardedQuery :=
  guarded_query "SELECT customer_id FROM customers" {["northwind.customers"]} demo_policy.

Definition demo_execution := execute_fixed (H2 := demo_env) "select" demo_context demo_config demo_policy.

Lemma execute_fixed_audited_witness :
  length (trace demo_execution []) = 3 ∧
  (run_ok (Henv := demo_env) "select" demo_context demo_config demo_policy []
     (trace demo_execution []) (outcome demo_execution []) ∨
   ∃ e, inspect "select" demo_policy = Err e ∧ is_query_safety_error e = false ∧
     trace demo_execution [] = [] ∧ outcome demo_execution [] = Err e).
Proof.
  split; [vm_compute; reflexivity|].
  exact (execute_fixed_audited demo_unicode demo_digests demo_sqlglot _ demo_env "select"
    demo_context demo_config demo_policy [] demo_env_ok).
Defined.

Lemma executor_gated_witness :
  demo_policy = demo_policy ∧ inspect "select" demo_policy = Ok demo_guarded ∧
  ∃ e w1 w2, (λ w : list QueryAuditEvent, (w, Ok (E := exn) {| total_cost := f_of_Z 12; plan_rows := 5 |}))
      w1 = (w2, Ok e) ∧
    fltb (max_total_cost demo_policy) (total_cost e) = false ∧
    (plan_rows e ≤ max_plan_rows demo_policy)%Z.
Proof.
  apply (executor_gated demo_unicode demo_digests demo_sqlglot _ demo_env "select"
    demo_context demo_config demo_policy [] demo_guarded demo_policy).
  - exact demo_env_ok.
  - apply (list_elem_of_lookup_2 _ 1). vm_compute. reflexivity.
Defined.
