(* ===== verification/QuestionGuard.v ===== *)
(** * The question guard: [app/nl2sql/question_guard.py]

    A small backtracking matcher for the constructs of the guard's regular
    expressions ([\b], classes, [.{0,n}], [\s*], alternation), with the
    Unicode case folding of [re.IGNORECASE] for ASCII letters. *)

From S2P Require Import Prelude PyStr Floats Errors.

(** ** Regular expressions *)

Inductive re :=
| Eps
| Class (p : N → bool)
| WordBoundary
| Cat (a b : re)
| Alt (a b : re)
| UpTo (n : nat) (p : N → bool)
| Many (p : N → bool).

Section Matcher.
Context `{PyUnicode}.

Definition word_at (o : option N) : bool := match o with Some c => is_word c | None => false end.

(** [accepts r k prev l]: [r] matches a prefix of [l], preceded by [prev],
    and [k] accepts what follows. *)
Fixpoint up_to (p : N → bool) (k : option N → list N → bool) (n : nat) (prev : option N)
    (l : list N) : bool :=
  k prev l || match n, l with
              | S n, c :: l => p c && up_to p k n (Some c) l
              | _, _ => false
              end.
Fixpoint many (p : N → bool) (k : option N → list N → bool) (l : list N) (prev : option N) : bool :=
  k prev l || match l with c :: l => p c && many p k l (Some c) | [] => false end.

Fixpoint accepts (r : re) (k : option N → list N → bool) (prev : option N) (l : list N) : bool :=
  match r with
  | Eps => k prev l
  | Class p => match l with c :: l => p c && k (Some c) l | [] => false end
  | WordBoundary => xorb (word_at prev) (word_at (head l)) && k prev l
  | Cat a b => accepts a (accepts b k) prev l
  | Alt a b => accepts a k prev l || accepts b k prev l
  | UpTo n p => up_to p k n prev l
  | Many p => many p k l prev
  end.

(** [pattern.search(text) is not None]. *)
Fixpoint search_from (r : re) (prev : option N) (l : list N) : bool :=
  accepts r (λ _ _, true) prev l ||
  match l with c :: l => search_from r (Some c) l | [] => false end.
Definition search (r : re) (text : string) : bool := search_from r None (cps text).
End Matcher.

(** One ASCII letter under IGNORECASE: simple lower-casing also maps U+212A
    to k and U+0130 to i, and [re] adds U+0131 for i and U+017F for s. *)
Definition fold_cp (c : N) : N :=
  if (c =? 8490)%N then 107%N
  else if (c =? 304)%N || (c =? 305)%N then 105%N
  else if (c =? 383)%N then 115%N
  else ascii_lower c.

Definition cat_all (l : list re) : re := foldr Cat Eps l.
Definition alt_all (l : list re) : re :=
  match l with [] => Class (λ _, false) | r :: l => foldl Alt r l end.
Definition lit (s : string) : re := cat_all (map (λ c, Class (N.eqb c)) (cps s)).
Definition lit_i (s : string) : re :=
  cat_all (map (λ c, Class (λ x, N.eqb (fold_cp c) (fold_cp x))) (cps s)).
Definition words_i (l : list string) : re := alt_all (map lit_i l).
Definition bounded_word (r : re) : re := Cat WordBoundary (Cat r WordBoundary).
(** [.] *)
Definition dot (c : N) : bool := negb (c =? 10)%N.
Definition gap (n : nat) : re := UpTo n dot.

(** ** The patterns *)

Definition write_verbs : list string :=
  ["drop"; "delete"; "update"; "insert"; "alter"; "truncate"; "copy"; "grant"; "revoke"; "create"].
Definition WRITE_SQL : re := bounded_word (words_i write_verbs).
Definition write_zh : re :=
  alt_all [cat_all [lit "删除"; gap 20; alt_all (map lit ["订单"; "表"; "数据"])];
           cat_all [lit "提高"; gap 20; lit "价格"]; cat_all [lit "价格"; gap 20; lit "提高"];
           cat_all [lit "修改"; gap 20; lit "数据"]].
Definition OVERRIDE : re :=
  cat_all [bounded_word (words_i ["ignore"; "bypass"; "override"]); gap 40;
           bounded_word (words_i ["instruction"; "rule"; "policy"; "guard"])].
Definition override_zh : re :=
  alt_all [cat_all [lit "忽略"; gap 30; alt_all (map lit ["规则"; "指令"; "提示"])];
           cat_all [lit "绕过"; gap 20; alt_all (map lit ["规则"; "检查"; "限制"])]].
Definition SECRETS : re :=
  bounded_word (alt_all
    [lit_i "password"; lit_i "credential"; lit_i "secret";
     cat_all [lit_i "api"; UpTo 1 (λ c, mem c (cps "-_ ")); lit_i "key"];
     lit_i "dsn"; lit_i "system prompt"]).
Definition secrets_zh : re :=
  alt_all [lit "密码"; lit "系统提示词"; lit "密钥"; cat_all [lit "完整"; gap 10; lit "连接"]].
Definition cross_tenant : re :=
  alt_all (map lit ["其他租户"; "其它租户"; "别的租户"; "跨租户"]).
Definition sensitive : re :=
  alt_all [lit "身份证"; lit "社会安全号"; bounded_word (lit_i "social security number");
           bounded_word (lit_i "ssn")].
Definition CODE : re :=
  alt_all [cat_all [WordBoundary; words_i ["exec"; "eval"]; Many is_space; lit "("];
           cat_all [bounded_word (lit_i "run"); gap 20; bounded_word (lit_i "python")]].
Definition code_zh : re := cat_all [lit "运行"; gap 20; lit_i "Python"].

(** ** The guard *)

Section Guard.
Context `{PyUnicode}.

(** The rules in the order of the code, with their reason codes. *)
Definition rules : list (re * string) :=
  [(Alt WRITE_SQL write_zh, "WRITE_REQUEST_NOT_ALLOWED");
   (Alt OVERRIDE override_zh, "SAFETY_OVERRIDE_NOT_ALLOWED");
   (Alt SECRETS secrets_zh, "SECRET_REQUEST_NOT_ALLOWED");
   (cross_tenant, "CROSS_TENANT_REQUEST_NOT_ALLOWED");
   (sensitive, "SENSITIVE_DATA_NOT_ALLOWED");
   (Alt CODE code_zh, "ARBITRARY_CODE_NOT_ALLOWED")].

Definition inspect (question : string) : result exn string :=
  let normalized := normalize_ws question in
  if String.eqb normalized EmptyString then Err (NL2SQLPolicyError "EMPTY_QUESTION")
  else if 5000 <? py_len normalized then Err (NL2SQLPolicyError "QUESTION_TOO_LONG")
  else
    _ ← for_each (λ rule, if search rule.1 normalized then Err (NL2SQLPolicyError rule.2) else Ok tt)
          rules;
    Ok normalized.
End Guard.

(** ** Words *)

Definition word (w : list N) : Prop := w ≠ [] ∧ Forall (λ c, is_space c = false) w.

Lemma split_ws_word_app w l :
  Forall (λ c, is_space c = false) w → ∀ acc, split_ws_from acc (w ++ l) = split_ws_from (rev w ++ acc) l.
Proof.
  induction 1 as [|c w Hc _ IH]; intros acc; [done|]. cbn [app split_ws_from rev].
  rewrite Hc, IH. by rewrite <-app_assoc.
Qed.

Lemma split_ws_join ws : Forall word ws → split_ws (join_cps [32%N] ws) = ws.
Proof.
  unfold split_ws. induction 1 as [|w ws [Hne Hw] Hws IH]; [done|].
  destruct ws as [|w' ws].
  - cbn [join_cps]. rewrite <-(app_nil_r w) at 1. rewrite split_ws_word_app, app_nil_r by done. cbn.
    destruct (rev w) eqn:E; [|by rewrite <-E, rev_involutive].
    apply (f_equal (@rev N)) in E. rewrite rev_involutive in E. done.
  - change (join_cps [32%N] (w :: w' :: ws)) with (w ++ 32%N :: join_cps [32%N] (w' :: ws)).
    rewrite split_ws_word_app, app_nil_r by done. cbn [split_ws_from is_space].
    destruct (rev w) eqn:E.
    + apply (f_equal (@rev N)) in E. rewrite rev_involutive in E. done.
    + rewrite <-E, rev_involutive, IH. done.
Qed.

Lemma split_ws_words l : Forall word (split_ws l).
Proof.
  unfold split_ws. enough (∀ acc, Forall (λ c, is_space c = false) acc → Forall word (split_ws_from acc l))
    as Hl by (apply Hl; constructor).
  assert (∀ a acc, Forall (λ c, is_space c = false) (a :: acc) → word (rev (a :: acc))) as Hw.
  { intros a acc Ha. split; [|by apply Forall_rev].
    intros E%(f_equal (@rev N)). by rewrite rev_involutive in E. }
  induction l as [|c l IH]; intros acc Hacc; cbn [split_ws_from].
  - destruct acc; repeat constructor; by apply Hw.
  - destruct (is_space c) eqn:Hc; [|by apply IH; constructor].
    destruct acc; [by apply IH|]. constructor; [by apply Hw|by apply IH].
Qed.

Lemma normalize_cps_idem l : normalize_cps (normalize_cps l) = normalize_cps l.
Proof. unfold normalize_cps. by rewrite split_ws_join by apply split_ws_words. Qed.

Lemma join_cps_Forall (P : N → Prop) sep ws :
  Forall P sep → Forall (Forall P) ws → Forall P (join_cps sep ws).
Proof.
  intros Hs. induction 1 as [|w ws Hw _ IH]; [constructor|]. cbn.
  destruct ws; [done|]. by rewrite !Forall_app.
Qed.

Lemma split_ws_Forall (P : N → Prop) l : Forall P l → Forall (Forall P) (split_ws l).
Proof.
  unfold split_ws. enough (∀ acc, Forall P acc → Forall P l → Forall (Forall P) (split_ws_from acc l))
    as Hl by (intros; apply Hl; [constructor|done]).
  induction l as [|c l IH]; intros acc Hacc; cbn [split_ws_from].
  - intros _. destruct acc; repeat constructor. by apply Forall_rev.
  - intros [Hc Hl]%Forall_cons. destruct (is_space c); [|by apply IH; [constructor|]].
    destruct acc; [by apply IH|]. constructor; [by apply Forall_rev|by apply IH].
Qed.

(** Text that Python can hold. *)
Definition valid_str (s : string) : Prop := Forall valid_cp (cps s).

Lemma valid_str_check s : forallb (λ c, (c <? 1114112)%N) (cps s) = true → valid_str s.
Proof.
  rewrite list_forallb_spec. intros Hs. apply Forall_forall. intros c Hc. by apply N.ltb_lt, Hs.
Qed.

Lemma cps_normalize s : valid_str s → cps (normalize_ws s) = normalize_cps (cps s).
Proof.
  intros Hs. unfold normalize_ws. apply cps_encode, join_cps_Forall; [by repeat constructor|].
  by apply split_ws_Forall.
Qed.

Lemma normalize_ws_idem s : valid_str s → normalize_ws (normalize_ws s) = normalize_ws s.
Proof.
  intros Hs. unfold normalize_ws at 1. by rewrite cps_normalize, normalize_cps_idem.
Qed.

Section Theorems.
Context `{PyUnicode}.

Lemma search_at r pre l prev :
  accepts r (λ _ _, true) (last (option_list prev ++ pre)) l = true →
  search_from r prev (pre ++ l) = true.
Proof.
  revert prev. induction pre as [|c pre IH]; intros prev Ha; cbn [app].
  - rewrite app_nil_r in Ha. assert (last (option_list prev) = prev) as E by by destruct prev.
    rewrite E in Ha. destruct l; cbn; by rewrite Ha.
  - cbn [search_from]. rewrite (IH (Some c)); [by rewrite orb_true_r|].
    revert Ha. destruct prev; cbn; done.
Qed.

Lemma search_alt_l a b prev l :
  search_from a prev l = true → search_from (Alt a b) prev l = true.
Proof.
  revert prev. induction l as [|c l IH]; intros prev; cbn [search_from accepts];
    rewrite !orb_true_iff; [tauto|]. intros [?|?]; [tauto|]. right. by apply IH.
Qed.

Lemma accepts_alt_all r l k prev t :
  r ∈ l → accepts r k prev t = true → accepts (alt_all l) k prev t = true.
Proof.
  assert (∀ l r0, accepts (foldl Alt r0 l) k prev t = true ↔
    accepts r0 k prev t = true ∨ ∃ r, r ∈ l ∧ accepts r k prev t = true) as Hfold.
  { induction l0 as [|r1 l0 IH]; intros r0; cbn [foldl]; [set_solver|].
    rewrite IH. cbn [accepts]. rewrite orb_true_iff. setoid_rewrite elem_of_cons. naive_solver. }
  destruct l as [|r0 l]; [by intros ?%elem_of_nil|]. cbn [alt_all]. rewrite Hfold.
  intros [->|?]%elem_of_cons ?; [by left|right; eauto].
Qed.

Lemma accepts_lit_i s w k prev post :
  map fold_cp w = map fold_cp (cps s) → k (last (option_list prev ++ w)) post = true →
  accepts (lit_i s) k prev (w ++ post) = true.
Proof.
  unfold lit_i. revert prev. generalize (cps s) as l. intros l. revert w.
  induction l as [|c l IH]; intros [|x w] prev E Hk; try discriminate; cbn [cat_all map foldr].
  - cbn [accepts]. rewrite app_nil_r in Hk. by destruct prev.
  - injection E as Ec E. cbn [accepts app]. rewrite Ec, N.eqb_refl. cbn [andb].
    apply IH; [done|]. revert Hk. destruct prev; cbn; done.
Qed.

Lemma latin_is_word c d : is_lower_latin d = true → ascii_lower c = d → is_word c = true.
Proof.
  unfold is_word, ascii_lower. intros Hd <-. destruct (is_upper_latin c) eqn:Hu.
  - rewrite isalnum_ascii, Hu, !orb_true_r; [done|]. unfold is_upper_latin in Hu.
    apply andb_true_iff in Hu as [_ ?%N.leb_le]. lia.
  - rewrite isalnum_ascii, Hd, !orb_true_r; [done|]. unfold is_lower_latin in Hd.
    apply andb_true_iff in Hd as [_ ?%N.leb_le]. lia.
Qed.

Lemma fold_ascii_lower c : is_lower_latin (ascii_lower c) = true → fold_cp c = ascii_lower c.
Proof.
  unfold fold_cp, ascii_lower, is_lower_latin, is_upper_latin.
  destruct (N.eqb_spec c 8490), (N.eqb_spec c 304), (N.eqb_spec c 305), (N.eqb_spec c 383);
    subst; cbn; done.
Qed.

Lemma fold_lower d : is_lower_latin d = true → fold_cp d = d.
Proof.
  intros Hd. assert (ascii_lower d = d) as E.
  { unfold ascii_lower, is_upper_latin, is_lower_latin in *.
    apply andb_true_iff in Hd as [?%N.leb_le _].
    by rewrite (proj2 (N.leb_gt d 90)), andb_false_r by lia. }
  rewrite <-E at 2. apply fold_ascii_lower. by rewrite E.
Qed.

Lemma space_not_word : is_word 32 = false.
Proof. unfold is_word. by rewrite isalnum_ascii. Qed.

(** A word of normalized text stands between boundaries. *)
Lemma join_word w ws :
  w ∈ ws → ∃ pre post, join_cps [32%N] ws = pre ++ w ++ post ∧
    word_at (last pre) = false ∧ word_at (head post) = false.
Proof.
  induction ws as [|w' ws IH]; [by intros ?%elem_of_nil|]. destruct ws as [|w'' ws].
  - intros ->%list_elem_of_singleton. exists [], []. cbn. by rewrite app_nil_r.
  - change (join_cps [32%N] (w' :: w'' :: ws)) with (w' ++ [32%N] ++ join_cps [32%N] (w'' :: ws)).
    intros [->|Hw]%elem_of_cons.
    + exists [], ([32%N] ++ join_cps [32%N] (w'' :: ws)). cbn [word_at last head app hd_error].
      split_and!; [done|done|apply space_not_word].
    + destruct (IH Hw) as (pre & post & -> & Hpre & Hpost).
      exists (w' ++ [32%N] ++ pre), post. split_and!; [by rewrite <-!app_assoc| |done].
      rewrite app_assoc, last_app. destruct (last pre) as [c|] eqn:E; [done|].
      rewrite last_app. cbn. apply space_not_word.
Qed.

(** A listed verb between boundaries is found. *)
Lemma search_bounded_verb verbs v w pre post :
  v ∈ verbs → cps v ≠ [] → forallb is_lower_latin (cps v) = true → map ascii_lower w = cps v →
  word_at (last pre) = false → word_at (head post) = false →
  search_from (bounded_word (words_i verbs)) None (pre ++ w ++ post) = true.
Proof.
  intros Hv Hne Hlat Hw Hpre Hpost. apply search_at.
  change (option_list None ++ pre) with pre.
  assert (∀ c, c ∈ w → is_lower_latin (ascii_lower c) = true) as Hlow.
  { intros c Hc. rewrite list_forallb_spec in Hlat. apply Hlat. rewrite <-Hw.
    apply elem_of_map. eauto. }
  assert (map fold_cp w = map fold_cp (cps v)) as Hfold.
  { rewrite <-Hw, map_map. apply map_ext_in. intros c Hc. apply list_elem_of_In, Hlow in Hc.
    by rewrite (fold_ascii_lower c Hc), fold_lower. }
  destruct w as [|c w]; [by rewrite <-Hw in Hne|].
  unfold bounded_word. cbn [accepts]. apply andb_true_iff. split.
  { rewrite Hpre. cbn [app head hd_error word_at].
    rewrite (latin_is_word c (ascii_lower c)); [done|apply Hlow; by left|done]. }
  unfold words_i. apply (accepts_alt_all (lit_i v)); [by apply elem_of_map; eauto|].
  apply accepts_lit_i; [done|]. cbn [accepts]. rewrite Hpost, andb_true_r.
  rewrite last_app. destruct (last (c :: w)) as [d|] eqn:Ed; [|by apply last_None in Ed].
  cbn [word_at]. rewrite (latin_is_word d (ascii_lower d)); [done| |done].
  apply Hlow. by apply last_Some_elem_of.
Qed.

Definition guard_reasons : list string := "EMPTY_QUESTION" :: "QUESTION_TOO_LONG" :: map snd rules.

Lemma inspect_Ok q s :
  inspect q = Ok s ↔ s = normalize_ws q ∧ s ≠ EmptyString ∧ py_len s ≤ 5000 ∧
    ∀ rule, rule ∈ rules → search rule.1 s = false.
Proof.
  unfold inspect. cbv zeta. destruct (String.eqb_spec (normalize_ws q) EmptyString) as [E|E].
  { split; [done|]. intros (-> & ? & _). done. }
  destruct (Nat.ltb_spec 5000 (py_len (normalize_ws q))) as [Hl|Hl].
  { split; [done|]. intros (-> & _ & ? & _). lia. }
  rewrite result_bind_Ok. split.
  - intros ([] & Hr & [= <-]). split_and!; [done|done|done|].
    apply for_each_Ok in Hr. rewrite Forall_forall in Hr. intros rule Hin.
    specialize (Hr rule Hin). by destruct (search rule.1 _).
  - intros (-> & _ & _ & Hr). exists tt. split; [|done]. apply for_each_Ok, Forall_forall.
    intros rule Hin. by rewrite Hr.
Qed.

Lemma question_guard_Err q e : inspect q = Err e → ∃ r, r ∈ guard_reasons ∧ e = NL2SQLPolicyError r.
Proof.
  unfold inspect, guard_reasons. destruct (String.eqb _ _); [intros [= <-]; eexists; split; [by left|done]|].
  destruct (_ <? _); [intros [= <-]; eexists; split; [right; by left|done]|].
  intros [Hr|(? & _ & ?)]%result_bind_Err; [|done].
  apply for_each_Err in Hr as (rule & Hin & Hr). destruct (search _ _); [|done].
  injection Hr as <-. exists rule.2. split; [|done]. do 2 right. apply elem_of_map. eauto.
Qed.

(** A question is let through exactly when its whitespace-normalized
    text is not empty, has at most 5000 characters and matches none of the
    rules; that text is returned, and is let through unchanged again.  Any
    other outcome is a policy error with one of eight reasons. *)
Theorem question_guard_spec : ∀ q,
  valid_str q →
  (∀ s, inspect q = Ok s ↔ s = normalize_ws q ∧ s ≠ EmptyString ∧ py_len s ≤ 5000 ∧
     ∀ rule, rule ∈ rules → search rule.1 s = false) ∧
  (∀ s, inspect q = Ok s → inspect s = Ok s) ∧
  (∀ e, inspect q = Err e → ∃ r, r ∈ guard_reasons ∧ e = NL2SQLPolicyError r).
Proof.
  intros q Hq. split_and!; [intros s; apply inspect_Ok| |apply question_guard_Err].
  intros s. rewrite !inspect_Ok. intros (-> & ? & ? & ?).
  by rewrite normalize_ws_idem.
Qed.

(** A question in which a write verb stands as a word of its own, in any
    ASCII letter case, is rejected. *)
Theorem write_word_rejected : ∀ q v w,
  valid_str q → v ∈ write_verbs → w ∈ split_ws (cps q) → map ascii_lower w = cps v →
  ∃ r, inspect q = Err (NL2SQLPolicyError r).
Proof.
  intros q v w Hq Hv Hw Hlow. destruct (inspect q) as [s|e] eqn:E.
  2:{ apply question_guard_Err in E as (r & _ & ->). eauto. }
  apply inspect_Ok in E as (-> & _ & _ & Hr).
  specialize (Hr (Alt WRITE_SQL write_zh, "WRITE_REQUEST_NOT_ALLOWED") ltac:(by left)).
  destruct (join_word w (split_ws (cps q)) Hw) as (pre & post & Hjoin & Hpre & Hpost).
  assert (cps v ≠ [] ∧ forallb is_lower_latin (cps v) = true) as [Hne Hlat].
  { clear Hlow. revert v Hv. apply Forall_forall. unfold write_verbs.
    repeat (constructor; [split; [discriminate|reflexivity]|]). constructor. }
  pose proof (search_bounded_verb write_verbs v w pre post Hv Hne Hlat Hlow Hpre Hpost) as Hs.
  rewrite <-Hjoin in Hs. cbn [fst] in Hr. unfold search in Hr.
  rewrite cps_normalize in Hr by done. unfold normalize_cps in Hr.
  rewrite (search_alt_l WRITE_SQL write_zh) in Hr by exact Hs. done.
Qed.
End Theorems.

Lemma question_guard_spec_witness :
  inspect "  top  five customers " = Ok "top five customers" ∧
  (∀ s, inspect "  top  five customers " = Ok s → inspect s = Ok s).
Proof.
  split; [vm_compute; reflexivity|].
  apply (question_guard_spec "  top  five customers "). by apply valid_str_check.
Defined.

Lemma write_word_rejected_witness :
  ∃ r, inspect "please Drop the table" = Err (NL2SQLPolicyError r).
Proof.
  apply (write_word_rejected "please Drop the table" "drop" (cps "Drop")).
  - by apply valid_str_check.
  - by left.
  - apply (list_elem_of_lookup_2 _ 1). reflexivity.
  - reflexivity.
Defined.

(** Chinese characters are word characters, so a write verb that touches
    Chinese text has no word boundary and passes the guard. *)
Theorem write_verb_in_chinese_passes :
  inspect "请drop表orders" = Ok "请drop表orders" ∧
  inspect "请 drop 表orders" = Err (NL2SQLPolicyError "WRITE_REQUEST_NOT_ALLOWED").
Proof. vm_compute. done. Qed.
