(* ===== verification/StructuredLLM.v ===== *)
(** * The structured model client: [app/llm/]

    [StructuredLLMClient.generate] calls a provider, retries what may be
    retried with bounded exponential backoff, and validates the answer
    against a response model.  Providers are an interface; the
    OpenAI-compatible one is modelled down to the HTTP response.  Response
    models are pydantic classes: their JSON schema and their validator. *)

From S2P Require Import Prelude PyStr Floats Errors Json.

(** ** llm/models.py *)

Inductive role := System | User | Assistant.
Definition role_name (r : role) : string :=
  match r with System => "system" | User => "user" | Assistant => "assistant" end.

Record LLMMessage := { msg_role : role; msg_content : string }.
Definition LLMMessage_make (r : role) (content : string) : result exn LLMMessage :=
  if (1 <=? py_len content) && (py_len content <=? 50000)
  then Ok {| msg_role := r; msg_content := content |} else Err ValidationError.

Record LLMRequest := {
  messages : list LLMMessage; response_schema : pyval; schema_name : string;
  structured_output_mode : string; max_output_tokens : Z; timeout_seconds : float
}.

(** [^[A-Za-z][A-Za-z0-9_-]{0,63}$]. *)
Definition schema_name_ok (s : string) : bool :=
  match cps s with
  | c :: l => (is_lower_latin c || is_upper_latin c) && (length l <=? 63)
      && forallb (λ c, is_lower_latin c || is_upper_latin c || is_digit c
                       || (c =? 95)%N || (c =? 45)%N) l
  | [] => false
  end.

Definition LLMRequest_validate (r : LLMRequest) : result exn LLMRequest :=
  if negb (bool_decide (length (messages r) = 0)) && schema_name_ok (schema_name r)
     && mem (structured_output_mode r) ["json_schema"; "json_object"]
     && ((1 <=? max_output_tokens r) && (max_output_tokens r <=? 32768))%Z
     && negb (fleb (timeout_seconds r) fzero) && negb (fltb (f_of_Z 300) (timeout_seconds r))
  then Ok r else Err ValidationError.

Record LLMTokenUsage := {
  input_tokens : option Z; output_tokens : option Z; total_tokens : option Z }.
Definition no_usage : LLMTokenUsage :=
  {| input_tokens := None; output_tokens := None; total_tokens := None |}.

Record LLMCompletion := {
  content : string; completion_model : string; completion_request_id : option string;
  completion_usage : LLMTokenUsage }.

Record StructuredLLMResult (A : Type) := {
  output : A; provider : string; model : string; request_id : option string;
  attempts : Z; usage : LLMTokenUsage }.
Arguments output {A}. Arguments provider {A}. Arguments model {A}.
Arguments request_id {A}. Arguments attempts {A}. Arguments usage {A}.

(** A pydantic response model: its name, its JSON schema and
    [model_validate_json], which returns the issues it found on failure. *)
Record ResponseModel (A : Type) := {
  model_name : string;
  model_json_schema : pyval;
  model_validate_json : string → A + list string
}.
Arguments model_name {A}. Arguments model_json_schema {A}. Arguments model_validate_json {A}.

(** ** llm/structured.py *)

Class LLMProvider (W : Type) := {
  complete : LLMRequest → op W exn LLMCompletion;
  provider_name : string;
  provider_model : string
}.

Record client := {
  cl_structured_output_mode : string; cl_request_timeout_seconds : float;
  cl_max_output_tokens : Z; cl_max_attempts : Z; cl_invalid_response_retries : Z;
  cl_initial_backoff_seconds : float; cl_max_backoff_seconds : float
}.

Definition StructuredLLMClient (c : client) : result exn client :=
  if (cl_max_attempts c <? 1)%Z then Err ValueError
  else if negb (mem (cl_invalid_response_retries c) [0; 1]%Z) then Err ValueError
  else Ok c.

Inductive llm_call :=
| CallComplete (request : LLMRequest) (reply : result exn LLMCompletion)
| CallSleep (delay : float)
| CallTokens (provider model : string) (input_tokens output_tokens : option Z).

(** [asyncio.timeout] raises [TimeoutError] in place of a slow reply, so the
    provider operation may raise it. *)
Section Client.
Context {W : Type} `{LLMProvider W} (c : client).
Notation M := (eff W llm_call exn).

(** [initial * 2 ** (attempt - 1)]; an int too large for a float raises. *)
Definition backoff (attempt : Z) : result exn float :=
  let factor := f_of_Z (2 ^ (attempt - 1)) in
  match factor with
  | SpecFloat.S754_infinity _ => Err OverflowError
  | _ => Ok (fmin (fmul (cl_initial_backoff_seconds c) factor) (cl_max_backoff_seconds c))
  end.

Definition _schedule_retry (attempt : Z) : M unit :=
  delay ← lift_result (backoff attempt);
  log_call (CallSleep delay).

Definition _retry (error : exn) (attempt : Z) : M bool :=
  if negb (retryable error) || (cl_max_attempts c <=? attempt)%Z then mret false
  else _ ← _schedule_retry attempt; mret true.

(** [for attempt in range(attempt, max_attempts + 1)], [remaining] turns. *)
Fixpoint attempt_loop {A} (rm : ResponseModel A) (request : LLMRequest) (remaining : nat)
    (attempt invalid_retries_used : Z) : M (StructuredLLMResult A) :=
  match remaining with
  | O => raise AssertionError
  | S remaining =>
      reply ← try_except (Some <$> observe (CallComplete request) (complete request)) (λ e,
        let error := match e with TimeoutError => LLMTimeoutError | e => e end in
        if is_llm_error error then
          again ← _retry error attempt;
          if again : bool then mret None else raise error
        else raise e);
      match reply with
      | None => attempt_loop rm request remaining (attempt + 1) invalid_retries_used
      | Some completion =>
          match model_validate_json rm (content completion) with
          | inr issues =>
              let can_retry := ((invalid_retries_used <? cl_invalid_response_retries c)
                                && (attempt <? cl_max_attempts c))%Z in
              if negb can_retry then raise (LLMInvalidResponseError issues)
              else _ ← _schedule_retry attempt;
                   attempt_loop rm request remaining (attempt + 1) (invalid_retries_used + 1)
          | inl output =>
              let result := {| output := output; provider := provider_name;
                model := completion_model completion;
                request_id := completion_request_id completion;
                attempts := attempt; usage := completion_usage completion |} in
              _ ← log_call (CallTokens (provider result) (model result)
                    (input_tokens (usage result)) (output_tokens (usage result)));
              mret result
          end
      end
  end.

Definition make_request {A} (rm : ResponseModel A) (ms : list LLMMessage) : result exn LLMRequest :=
  LLMRequest_validate {|
    messages := ms; response_schema := model_json_schema rm;
    schema_name := encode (take 64 (cps (model_name rm)));
    structured_output_mode := cl_structured_output_mode c;
    max_output_tokens := cl_max_output_tokens c;
    timeout_seconds := cl_request_timeout_seconds c |}.

Definition generate {A} (rm : ResponseModel A) (ms : list LLMMessage) : M (StructuredLLMResult A) :=
  request ← lift_result (make_request rm ms);
  attempt_loop rm request (Z.to_nat (cl_max_attempts c)) 1 0.
End Client.

(** ** llm/openai_compatible.py *)

Record wire_completion := {
  wire_id : option string; wire_model : option string; wire_contents : list string;
  prompt_tokens : option Z; completion_tokens : option Z; wire_total_tokens : option Z }.

Record http_response := {
  status_code : Z; response_json : option pyval; x_request_id : option string }.

Record OpenAICompatibleProvider := {
  oa_provider_name : string; oa_api_key : string; oa_model : string;
  oa_connect_timeout_seconds : float; oa_app_name : option string; oa_site_url : option string }.

Definition _raise_for_status (status : Z) : result exn unit :=
  if ((200 <=? status) && (status <? 300))%Z then Ok tt
  else if (status =? 401)%Z then Err LLMAuthenticationError
  else if (status =? 403)%Z then Err LLMRequestRejectedError
  else if (status =? 408)%Z || (status =? 504)%Z then Err LLMTimeoutError
  else if (status =? 429)%Z then Err LLMRateLimitError
  else if (500 <=? status)%Z then Err LLMUnavailableError
  else Err LLMRequestRejectedError.

Definition _response_format (r : LLMRequest) : pyval :=
  if String.eqb (structured_output_mode r) "json_object"
  then PDict [("type", PStr "json_object")]
  else PDict [("type", PStr "json_schema");
              ("json_schema", PDict [("name", PStr (schema_name r)); ("strict", PBool true);
                                     ("schema", response_schema r)])].

(** A falsy option: [None] and the empty string. *)
Definition truthy (o : option string) : option string :=
  match o with Some s => if String.eqb s EmptyString then None else Some s | None => None end.

Section OpenAI.
(** pydantic's validation of the response body, and the HTTP client. *)
Context (validate_wire : pyval → option wire_completion).
Context {W : Type}
  (post : list (string * string) → pyval → float * float → op W exn http_response).
Context (p : OpenAICompatibleProvider).

Definition request_headers : list (string * string) :=
  let key := strip (oa_api_key p) in
  [("Content-Type", "application/json")]
  ++ (if String.eqb key EmptyString then [] else [("Authorization", "Bearer " +:+ key)])
  ++ (if truthy (oa_app_name p) is Some n then [("X-Title", n)] else [])
  ++ (if truthy (oa_site_url p) is Some u then [("HTTP-Referer", u)] else []).

Definition request_payload (r : LLMRequest) : pyval :=
  PDict [("model", PStr (oa_model p));
         ("messages", PList (map (λ m, PDict [("role", PStr (role_name (msg_role m)));
                                              ("content", PStr (msg_content m))]) (messages r)));
         ("max_tokens", PInt (max_output_tokens r));
         ("response_format", _response_format r)].

Definition read_response (response : http_response) : result exn LLMCompletion :=
  _ ← _raise_for_status (status_code response);
  wire ← match response_json response ≫= validate_wire with
         | Some wire => Ok wire
         | None => Err (LLMInvalidResponseError [])
         end;
  match wire_contents wire with
  | [] => Err IndexError
  | text :: _ =>
      Ok {| content := text; completion_model := default (oa_model p) (truthy (wire_model wire));
            completion_request_id :=
              match truthy (wire_id wire) with Some i => Some i | None => x_request_id response end;
            completion_usage := {| input_tokens := prompt_tokens wire;
              output_tokens := completion_tokens wire; total_tokens := wire_total_tokens wire |} |}
  end.

Definition openai_complete (r : LLMRequest) : op W exn LLMCompletion := λ w,
  let '(w', reply) := post request_headers (request_payload r)
    (timeout_seconds r, fmin (oa_connect_timeout_seconds p) (timeout_seconds r)) w in
  (w', match reply with
       | Err HttpxTimeoutException => Err LLMTimeoutError
       | Err HttpxNetworkError => Err LLMUnavailableError
       | Err e => Err e
       | Ok response => read_response response
       end).

#[export] Instance openai_provider : LLMProvider W := {|
  complete := openai_complete; provider_name := oa_provider_name p; provider_model := oa_model p |}.
End OpenAI.

(** ** llm/fake.py: scripted replies, oldest first, and the requests seen. *)

Inductive scripted := ScriptText (s : string) | ScriptCompletion (r : LLMCompletion) | ScriptError (e : exn).

Definition fake_complete (fake_model : string) (r : LLMRequest) :
    op (list scripted * list LLMRequest) exn LLMCompletion := λ '(responses, requests),
  match responses with
  | [] => ([], requests ++ [r], Err AssertionError)
  | s :: responses =>
      (responses, requests ++ [r],
       match s with
       | ScriptError e => Err e
       | ScriptCompletion c => Ok c
       | ScriptText t => if 1 <=? py_len t
           then Ok {| content := t; completion_model := fake_model; completion_request_id := None;
                      completion_usage := no_usage |}
           else Err ValidationError
       end)
  end.
#[export] Instance fake_provider : LLMProvider (list scripted * list LLMRequest) := {|
  complete := fake_complete "fake-model"; provider_name := "fake"; provider_model := "fake-model" |}.

(** ** The retry loop *)

Definition replies (t : list llm_call) : list (result exn LLMCompletion) :=
  omap (λ k, match k with CallComplete _ r => Some r | _ => None end) t.
Definition requests (t : list llm_call) : list LLMRequest :=
  omap (λ k, match k with CallComplete r _ => Some r | _ => None end) t.
Definition delays (t : list llm_call) : list float :=
  omap (λ k, match k with CallSleep d => Some d | _ => None end) t.

(** The error of a failed call, as the client classifies it. *)
Definition call_error (e : exn) : exn := match e with TimeoutError => LLMTimeoutError | e => e end.

Lemma fltb_irrefl x : fltb x x = false.
Proof. destruct (fltb x x) eqn:E; [|done]. by rewrite (fltb_asym _ _ E) in E. Qed.

Lemma fmin_not_above x y : fltb y (fmin x y) = false.
Proof. unfold fmin. destruct (fltb y x) eqn:E; [apply fltb_irrefl|done]. Qed.

Section Runs.
Context {W : Type} `{LLMProvider W} (c : client) {A : Type} (rm : ResponseModel A).

Definition invalid (r : result exn LLMCompletion) : bool :=
  match r with
  | Ok k => match model_validate_json rm (content k) with inr _ => true | inl _ => false end
  | Err _ => false
  end.

(** Why the loop stopped with an error: the last reply, and no retry left. *)
Definition stopped (n : Z) (invalids : Z) (reply : result exn LLMCompletion) (e : exn) : Prop :=
  match reply with
  | Err e0 => e = call_error e0 ∧
      (is_llm_error e = false ∨ retryable e = false ∨ n = cl_max_attempts c)
  | Ok k => ∃ issues, model_validate_json rm (content k) = inr issues ∧
      e = LLMInvalidResponseError issues ∧
      (invalids = (cl_invalid_response_retries c + 1)%Z ∨ n = cl_max_attempts c)
  end.

(** A run that starts at [attempt] with [used] invalid answers behind it. *)
Record run_spec (request : LLMRequest) (attempt used : Z) (t : list llm_call)
    (r : result exn (StructuredLLMResult A)) : Prop := {
  run_count : (attempt + Z.of_nat (length (replies t)) - 1 ≤ cl_max_attempts c)%Z;
  run_some : replies t ≠ [];
  run_requests : Forall (eq request) (requests t);
  run_delays : Forall (λ d, fltb (cl_max_backoff_seconds c) d = false) (delays t);
  run_pauses : length (delays t) + 1 = length (replies t);
  run_invalid : (used + Z.of_nat (length (List.filter invalid (replies t)))
                 ≤ cl_invalid_response_retries c + 1)%Z;
  run_outcome : ∃ reply, last (replies t) = Some reply ∧
    let n := (attempt + Z.of_nat (length (replies t)) - 1)%Z in
    match r with
    | Ok x => attempts x = n ∧ ∃ k, reply = Ok k ∧
        model_validate_json rm (content k) = inl (output x) ∧ usage x = completion_usage k
    | Err e => stopped n (used + Z.of_nat (length (List.filter invalid (replies t)))) reply e
    end
}.

(** One answered call in front of a run. *)
Lemma run_spec_cons request attempt used used' reply d t r :
  fltb (cl_max_backoff_seconds c) d = false →
  used' = (used + if invalid reply then 1 else 0)%Z →
  run_spec request (attempt + 1) used' t r →
  run_spec request attempt used ([CallComplete request reply; CallSleep d] ++ t) r.
Proof.
  intros Hd -> [H1 H2 H3 H4 H5 H6 (reply' & Hlast & Hout)].
  assert (replies ([CallComplete request reply; CallSleep d] ++ t) = reply :: replies t) as Er by done.
  assert ((used + Z.of_nat (length (List.filter invalid (reply :: replies t))))%Z
    = (used + (if invalid reply then 1 else 0) + Z.of_nat (length (List.filter invalid (replies t))))%Z)
    as Ei by (cbn [List.filter]; destruct (invalid reply); cbn [length]; lia).
  assert (attempt + Z.of_nat (length (reply :: replies t)) - 1
    = attempt + 1 + Z.of_nat (length (replies t)) - 1)%Z as En by (cbn [length]; lia).
  split; rewrite ?Er.
  - by rewrite En.
  - done.
  - by constructor.
  - by constructor.
  - cbn. f_equal. exact H5.
  - by rewrite Ei.
  - exists reply'. split.
    + destruct (replies t); [done|exact Hlast].
    + rewrite En, Ei. exact Hout.
Qed.

Lemma run_spec_last request attempt used reply rest r :
  (attempt ≤ cl_max_attempts c)%Z → (used ≤ cl_invalid_response_retries c)%Z →
  replies rest = [] → requests rest = [] → delays rest = [] →
  match r with
  | Ok x => attempts x = attempt ∧ ∃ k, reply = Ok k ∧
      model_validate_json rm (content k) = inl (output x) ∧ usage x = completion_usage k
  | Err e => stopped attempt (used + if invalid reply then 1 else 0) reply e
  end →
  run_spec request attempt used (CallComplete request reply :: rest) r.
Proof.
  intros Ha Hu Hr Hq Hd Hout.
  assert (replies (CallComplete request reply :: rest) = [reply]) as Er
    by (unfold replies in *; cbn; by rewrite Hr).
  assert (requests (CallComplete request reply :: rest) = [request]) as Eq
    by (unfold requests in *; cbn; by rewrite Hq).
  assert (delays (CallComplete request reply :: rest) = []) as Ed by done || exact Hd.
  split; rewrite ?Er, ?Eq, ?Ed; cbn [length List.filter Nat.add].
  - lia.
  - done.
  - by constructor.
  - done.
  - done.
  - destruct (invalid reply); cbn [length]; lia.
  - exists reply. split; [done|].
    replace (attempt + Z.of_nat 1 - 1)%Z with attempt by lia.
    replace (Z.of_nat (length (if invalid reply then [reply] else [])))
      with (if invalid reply then 1 else 0)%Z by by destruct (invalid reply).
    exact Hout.
Qed.

Lemma backoff_Ok k :
  (1 ≤ k ≤ 5)%Z → ∃ d, backoff c k = Ok d ∧ fltb (cl_max_backoff_seconds c) d = false.
Proof.
  intros Hk. exists (fmin (fmul (cl_initial_backoff_seconds c) (f_of_Z (2 ^ (k - 1))))
                      (cl_max_backoff_seconds c)).
  split; [|apply fmin_not_above]. unfold backoff.
  assert (k = 1 ∨ k = 2 ∨ k = 3 ∨ k = 4 ∨ k = 5)%Z as [-> | [-> | [-> | [-> | ->]]]] by lia; done.
Qed.

Lemma sat_schedule_retry k (Q : list llm_call → result exn unit → Prop) :
  (1 ≤ k ≤ 5)%Z →
  (∀ d, fltb (cl_max_backoff_seconds c) d = false → Q [CallSleep d] (Ok tt)) →
  sat (_schedule_retry (W := W) c k) Q.
Proof.
  intros Hk HQ. destruct (backoff_Ok k Hk) as (d & Hd & Hle). unfold _schedule_retry.
  apply sat_bind, sat_lift. rewrite Hd. by apply sat_log, HQ.
Qed.

Lemma retry_stops e (attempt : Z) :
  negb (retryable e) || (cl_max_attempts c <=? attempt)%Z = true → (attempt ≤ cl_max_attempts c)%Z →
  retryable e = false ∨ attempt = cl_max_attempts c.
Proof.
  intros [Hr%negb_true_iff|Hm%Z.leb_le]%orb_true_iff Ha; [by left|right; lia].
Qed.

Context (Hmax : (cl_max_attempts c ≤ 5)%Z).

Lemma loop_run request remaining : ∀ attempt used,
  (attempt + Z.of_nat remaining = cl_max_attempts c + 1)%Z → (1 ≤ attempt)%Z → 0 < remaining →
  (used ≤ cl_invalid_response_retries c)%Z →
  sat (attempt_loop (W := W) c rm request remaining attempt used) (run_spec request attempt used).
Proof using Hmax.
  induction remaining as [|remaining IH]; intros attempt used Hsum Ha Hpos Hu; [lia|].
  assert (∀ reply d used' t r, fltb (cl_max_backoff_seconds c) d = false →
    used' = (used + if invalid reply then 1 else 0)%Z →
    run_spec request (attempt + 1) used' t r →
    run_spec request attempt used ([CallComplete request reply; CallSleep d] ++ t) r) as Hcons
    by (intros; by eapply run_spec_cons).
  cbn [attempt_loop]. apply sat_bind, sat_try, sat_bind, sat_observe. intros w w' [k|e] Hop.
  - apply sat_ret. destruct (model_validate_json rm (content k)) as [out|issues] eqn:Hval.
    + apply sat_bind, sat_log, sat_ret. apply run_spec_last; [lia|done..|].
      split; [done|]. exists k. done.
    + assert (invalid (Ok k) = true) as Hinv by (unfold invalid; by rewrite Hval).
      destruct (negb _) eqn:Hretry.
      * apply sat_raise, run_spec_last; [lia|done..|]. rewrite Hinv. exists issues.
        split_and!; [done|done|]. apply negb_true_iff, andb_false_iff in Hretry
          as [Hr%Z.ltb_ge|Hr%Z.ltb_ge]; [left; lia|right; lia].
      * apply negb_false_iff, andb_true_iff in Hretry as [Hr%Z.ltb_lt Hr'%Z.ltb_lt].
        apply sat_bind, sat_schedule_retry; [lia|]. intros d Hd.
        eapply sat_conseq; [apply IH; lia|]. intros t r Hrun.
        refine (Hcons (Ok k) d _ t r Hd _ Hrun). by rewrite Hinv.
  - set (e' := call_error e). change (match e with TimeoutError => LLMTimeoutError | e => e end) with e'.
    destruct (is_llm_error e') eqn:Hllm.
    2:{ assert (e' = e) as E by (by destruct e). rewrite E in Hllm.
        apply sat_raise, run_spec_last; [lia|done..|]. split; [done|]. by left. }
    apply sat_bind. unfold _retry. destruct (negb _ || _) eqn:Hstop.
    + apply sat_ret, sat_raise, run_spec_last; [lia|done..|]. split; [done|]. right.
      apply retry_stops; [done|lia].
    + apply orb_false_iff in Hstop as [_ Hlt%Z.leb_gt].
      apply sat_bind, sat_schedule_retry; [lia|]. intros d Hd. apply sat_ret, sat_ret.
      eapply sat_conseq; [apply IH; lia|]. intros t r Hrun.
      refine (Hcons (Err e) d _ t r Hd _ Hrun). cbn. lia.
Qed.
End Runs.

(** ** Theorems *)

(** A structured generation sends one validated request, at least once and
    at most [max_attempts] times, pausing between calls for at most the
    configured maximum; it accepts no more than [invalid_response_retries]
    invalid answers before it gives up.  A result is the validated last
    answer, with the number of calls made; an error is the classified last
    failure, one that must not be retried or came with the attempts or the
    invalid-answer retries used up (the trailing assertion is unreachable). *)
Theorem generate_bounded : ∀ W (H : LLMProvider W) c A (rm : ResponseModel A) ms w,
  StructuredLLMClient c = Ok c → (cl_max_attempts c ≤ 5)%Z →
  match make_request c rm ms with
  | Err e => e = ValidationError ∧ trace (generate c rm ms) w = [] ∧
             outcome (generate c rm ms) w = Err e
  | Ok request => run_spec c rm request 1 0 (trace (generate c rm ms) w)
                    (outcome (generate c rm ms) w)
  end.
Proof.
  intros W H c A rm ms w Hc Hmax. unfold generate. destruct (make_request c rm ms) as [request|e] eqn:E.
  - refine (sat_bind _ _ (run_spec c rm request 1 0) (sat_lift _ _ _) w).
    unfold StructuredLLMClient in Hc. destruct (Z.ltb_spec (cl_max_attempts c) 1); [done|].
    destruct (mem _ _) eqn:Hm; [|done]. apply mem_spec in Hm.
    apply loop_run; [done|lia|lia|lia|].
    apply elem_of_cons in Hm as [->|Hm]; [lia|]. apply list_elem_of_singleton in Hm as ->. lia.
  - split_and!; [|done|done]. unfold make_request, LLMRequest_validate in E.
    destruct (_ && _); by simplify_eq.
Qed.

Definition demo_client : client := {|
  cl_structured_output_mode := "json_schema"; cl_request_timeout_seconds := f_of_Z 30;
  cl_max_output_tokens := 2000; cl_max_attempts := 3; cl_invalid_response_retries := 1;
  cl_initial_backoff_seconds := decimal 25 2; cl_max_backoff_seconds := f_of_Z 2 |}.
Definition demo_model : ResponseModel string := {|
  model_name := "Answer"; model_json_schema := PDict [];
  model_validate_json s := if String.eqb s "{}" then inr ["$:missing"] else inl s |}.
Definition demo_messages : list LLMMessage := [{| msg_role := User; msg_content := "hello" |}].
Definition demo_script : list scripted * list LLMRequest :=
  ([ScriptError LLMRateLimitError; ScriptText "{}"; ScriptText "fine"], []).

Lemma generate_bounded_witness :
  (∃ request, make_request demo_client demo_model demo_messages = Ok request ∧
     run_spec demo_client demo_model request 1 0
       (trace (generate demo_client demo_model demo_messages) demo_script)
       (outcome (generate demo_client demo_model demo_messages) demo_script)) ∧
  is_ok (outcome (generate demo_client demo_model demo_messages) demo_script) = true.
Proof.
  split; [|vm_compute; reflexivity]. eexists. split; [vm_compute; reflexivity|].
  refine (generate_bounded _ fake_provider demo_client _ demo_model demo_messages demo_script _ _).
  - reflexivity.
  - discriminate.
Defined.

(** The provider turns every HTTP status outside 2xx into a model error,
    a retryable one exactly for 408, 429 and the 5xx, and an unreadable body
    into a retryable invalid response; whatever else it raises, the HTTP
    client raised, and only timeouts and network errors of the client are
    translated. *)
Theorem openai_complete_errors : ∀ validate_wire W
    (post : list (string * string) → pyval → float * float → op W exn http_response) p r w w' e,
  (∀ v wire, validate_wire v = Some wire → wire_contents wire ≠ []) →
  openai_complete validate_wire post p r w = (w', Err e) →
  (∃ reply w0, post (request_headers p) (request_payload p r)
      (timeout_seconds r, fmin (oa_connect_timeout_seconds p) (timeout_seconds r)) w0 = (w', reply) ∧
   match reply with
   | Err e0 => e = match e0 with HttpxTimeoutException => LLMTimeoutError
                            | HttpxNetworkError => LLMUnavailableError | e0 => e0 end
   | Ok response => is_llm_error e = true ∧
       ((200 ≤ status_code response < 300)%Z → e = LLMInvalidResponseError []) ∧
       (¬ (200 ≤ status_code response < 300)%Z →
          retryable e = true ↔ status_code response = 408%Z ∨ status_code response = 429%Z ∨
                               (500 ≤ status_code response)%Z)
   end).
Proof.
  intros validate_wire W post p r w w' e Hwire. unfold openai_complete.
  destruct (post _ _ _ w) as [w1 reply] eqn:Hpost. intros [= <- He]. exists reply, w.
  split; [done|]. destruct reply as [response|e0]; [|by destruct e0; injection He as <-].
  unfold read_response in He. apply result_bind_Err in He as [He|([] & Hs & He)].
  - unfold _raise_for_status in He. set (s := status_code response) in *.
    repeat (match type of He with (if ?b then _ else _) = _ => destruct b eqn:? end;
      [first [discriminate He|injection He as <-; cbn; lia]|]).
    injection He as <-. cbn. lia.
  - assert (200 ≤ status_code response < 300)%Z as Hrange.
    { revert Hs. unfold _raise_for_status. destruct ((200 <=? _) && _)%Z eqn:Eb; [lia|].
      repeat match goal with |- (if ?b then _ else _) = _ → _ => destruct b; [done|] end. done. }
    apply result_bind_Err in He as [He|(wire & Hw & He)].
    + destruct (response_json response ≫= validate_wire); [done|]. injection He as <-. done.
    + destruct (response_json response ≫= validate_wire) as [wire'|] eqn:Ew; [|done].
      injection Hw as ->. apply bind_Some in Ew as (v & _ & Hv).
      specialize (Hwire _ _ Hv). by destruct (wire_contents wire).
Qed.

Lemma openai_complete_errors_witness :
  let post _ _ _ (w : unit) : unit * result exn http_response :=
    (w, Ok {| status_code := 429; response_json := None; x_request_id := None |}) in
  let p := {| oa_provider_name := "openrouter"; oa_api_key := "key"; oa_model := "m";
    oa_connect_timeout_seconds := f_of_Z 5; oa_app_name := None; oa_site_url := None |} in
  let r := {| messages := demo_messages; response_schema := PDict []; schema_name := "Answer";
    structured_output_mode := "json_schema"; max_output_tokens := 10; timeout_seconds := f_of_Z 30 |} in
  ∃ reply w0, post (request_headers p) (request_payload p r) (f_of_Z 30, f_of_Z 5) w0 = (tt, reply) ∧
    match reply with
    | Err _ => False
    | Ok response => is_llm_error LLMRateLimitError = true ∧
        ((200 ≤ status_code response < 300)%Z → LLMRateLimitError = LLMInvalidResponseError []) ∧
        (¬ (200 ≤ status_code response < 300)%Z →
           retryable LLMRateLimitError = true ↔ status_code response = 408%Z ∨
             status_code response = 429%Z ∨ (500 ≤ status_code response)%Z)
    end.
Proof.
  intros post p r.
  assert (∀ (v : pyval) wire, (λ _ : pyval, None) v = Some wire → wire_contents wire ≠ []) as Hwire
    by discriminate.
  destruct (openai_complete_errors (λ _, None) unit post p r tt tt LLMRateLimitError Hwire eq_refl)
    as (reply & w0 & Hpost & Hreply).
  exists reply, w0. split; [exact Hpost|]. destruct reply as [response|e]; [exact Hreply|discriminate].
Defined.
