(* ===== verification/AgentState.v ===== *)
(** * Agent state and step records:
      [app/agent/state.py], [app/agent/models.py], [app/agent/steps.py]

    The [TypedDict] of the workflow as a record: the keys that the initial
    state sets are fields, the other keys are options, absent at first.  An
    update sets some keys and leaves the rest.  Snapshots, policies, guarded
    queries and analysis plans are kept as the models they dump and validate
    back to. *)

From S2P Require Import Prelude PyStr Floats Errors Json Metadata Policy SqlGuard Numbers.
From S2P Require Import DataSources Executor SafeQuery StructuredLLM QuestionGuard NL2SQL.

(** ** state.py *)

Inductive intent := IntentSql | IntentKnowledge | IntentHybrid.
Inductive sql_risk := Safe | Approval | Blocked | Repair.
Inductive decision := Approved | Rejected.
#[export] Instance intent_eq_dec : EqDecision intent. Proof. solve_decision. Defined.
#[export] Instance sql_risk_eq_dec : EqDecision sql_risk. Proof. solve_decision. Defined.
#[export] Instance decision_eq_dec : EqDecision decision. Proof. solve_decision. Defined.

Definition intent_name (i : intent) : string :=
  match i with IntentSql => "sql" | IntentKnowledge => "knowledge" | IntentHybrid => "hybrid" end.
Definition risk_name (r : sql_risk) : string :=
  match r with Safe => "safe" | Approval => "approval" | Blocked => "blocked" | Repair => "repair" end.

Record AgentState := {
  st_run_id : string; st_tenant_id : string; st_user_id : string; st_role : string;
  st_data_source_id : string; st_trace_id : string; st_question : string;
  st_intent : option intent;
  st_candidate_tables : list string;
  st_selection_confidence : option float;
  st_schema_snapshot : option SchemaSnapshot;
  st_query_policy : option QueryPolicy;
  st_metric_context : list pyval;
  st_analysis_plan : option AnalysisPlan;
  st_sql : option string;
  st_sql_fingerprint : option string;
  st_guarded_query : option GuardedQuery;
  st_sql_risk : option sql_risk;
  st_risk_reasons : list string;
  st_approval_decision : option decision;
  st_rows : list (list (string * pyval));
  st_columns : list string;
  st_result_truncated : bool;
  st_attempts : Z;
  st_answer : option string;
  st_citations : list pyval;
  st_chart_spec : option pyval;
  st_error_code : option string
}.

(** What a node returns: the keys it sets. *)
Record update := {
  up_intent : option intent;
  up_candidate_tables : option (list string);
  up_selection_confidence : option float;
  up_schema_snapshot : option SchemaSnapshot;
  up_query_policy : option QueryPolicy;
  up_metric_context : option (list pyval);
  up_analysis_plan : option AnalysisPlan;
  up_sql : option string;
  up_sql_fingerprint : option string;
  up_guarded_query : option GuardedQuery;
  up_sql_risk : option sql_risk;
  up_risk_reasons : option (list string);
  up_approval_decision : option decision;
  up_rows : option (list (list (string * pyval)));
  up_columns : option (list string);
  up_result_truncated : option bool;
  up_attempts : option Z;
  up_answer : option string;
  up_citations : option (list pyval);
  up_chart_spec : option pyval;
  up_error_code : option (option string)
}.

Definition no_update : update := {|
  up_intent := None; up_candidate_tables := None; up_selection_confidence := None;
  up_schema_snapshot := None; up_query_policy := None; up_metric_context := None;
  up_analysis_plan := None; up_sql := None; up_sql_fingerprint := None; up_guarded_query := None;
  up_sql_risk := None; up_risk_reasons := None; up_approval_decision := None; up_rows := None;
  up_columns := None; up_result_truncated := None; up_attempts := None; up_answer := None;
  up_citations := None; up_chart_spec := None; up_error_code := None |}.

(** [d | {key: value}] for an optional key. *)
Definition set_opt {A} (o new : option A) : option A := match new with Some x => Some x | None => o end.

(** [state.update(update)]. *)
Definition merge (s : AgentState) (u : update) : AgentState := {|
  st_run_id := st_run_id s; st_tenant_id := st_tenant_id s; st_user_id := st_user_id s;
  st_role := st_role s; st_data_source_id := st_data_source_id s; st_trace_id := st_trace_id s;
  st_question := st_question s;
  st_intent := set_opt (st_intent s) (up_intent u);
  st_candidate_tables := default (st_candidate_tables s) (up_candidate_tables u);
  st_selection_confidence := set_opt (st_selection_confidence s) (up_selection_confidence u);
  st_schema_snapshot := set_opt (st_schema_snapshot s) (up_schema_snapshot u);
  st_query_policy := set_opt (st_query_policy s) (up_query_policy u);
  st_metric_context := default (st_metric_context s) (up_metric_context u);
  st_analysis_plan := set_opt (st_analysis_plan s) (up_analysis_plan u);
  st_sql := set_opt (st_sql s) (up_sql u);
  st_sql_fingerprint := set_opt (st_sql_fingerprint s) (up_sql_fingerprint u);
  st_guarded_query := set_opt (st_guarded_query s) (up_guarded_query u);
  st_sql_risk := set_opt (st_sql_risk s) (up_sql_risk u);
  st_risk_reasons := default (st_risk_reasons s) (up_risk_reasons u);
  st_approval_decision := set_opt (st_approval_decision s) (up_approval_decision u);
  st_rows := default (st_rows s) (up_rows u);
  st_columns := default (st_columns s) (up_columns u);
  st_result_truncated := default (st_result_truncated s) (up_result_truncated u);
  st_attempts := default (st_attempts s) (up_attempts u);
  st_answer := set_opt (st_answer s) (up_answer u);
  st_citations := default (st_citations s) (up_citations u);
  st_chart_spec := set_opt (st_chart_spec s) (up_chart_spec u);
  st_error_code := default (st_error_code s) (up_error_code u) |}.

(** ** models.py *)

Record StartRun := {
  sr_run_id : string; sr_tenant_id : string; sr_user_id : string; sr_role : string;
  sr_data_source_id : string; sr_trace_id : string; sr_question : string }.

Definition StartRun_validate (r : StartRun) : result exn StartRun :=
  if between 1 (py_len (sr_run_id r)) 64 && between 1 (py_len (sr_tenant_id r)) 64
     && between 1 (py_len (sr_user_id r)) 64 && mem (sr_role r) ["ADMIN"; "ANALYST"; "VIEWER"]
     && between 1 (py_len (sr_data_source_id r)) 64 && between 16 (py_len (sr_trace_id r)) 64
     && between 1 (py_len (sr_question r)) 4000
  then Ok r else Err ValidationError.

Definition initial_state (r : StartRun) : AgentState := {|
  st_run_id := sr_run_id r; st_tenant_id := sr_tenant_id r; st_user_id := sr_user_id r;
  st_role := sr_role r; st_data_source_id := sr_data_source_id r; st_trace_id := sr_trace_id r;
  st_question := strip (sr_question r);
  st_intent := None; st_candidate_tables := []; st_selection_confidence := None;
  st_schema_snapshot := None; st_query_policy := None; st_metric_context := [];
  st_analysis_plan := None; st_sql := None; st_sql_fingerprint := None; st_guarded_query := None;
  st_sql_risk := None; st_risk_reasons := []; st_approval_decision := None; st_rows := [];
  st_columns := []; st_result_truncated := false; st_attempts := 0; st_answer := None;
  st_citations := []; st_chart_spec := None; st_error_code := None |}.

Record ApprovalResume := {
  approval_id : string; resume_decision : decision; decided_by : string; comment : option string }.
Definition ApprovalResume_validate (r : ApprovalResume) : result exn ApprovalResume :=
  if between 1 (py_len (approval_id r)) 64 && between 1 (py_len (decided_by r)) 64
     && default true ((λ c, py_len c <=? 500) <$> comment r)
  then Ok r else Err ValidationError.

Inductive RunStatus := PLANNING | WAITING_APPROVAL | COMPLETED | RunRejected | RunFailed.
#[export] Instance RunStatus_eq_dec : EqDecision RunStatus. Proof. solve_decision. Defined.

(** ** steps.py *)

Record AgentStepRecord := {
  sp_run_id : string; sp_step_name : string; sp_status : string; sp_attempt : Z;
  sp_input_summary : list (string * pyval); sp_output_summary : list (string * pyval);
  sp_duration_ms : Z; sp_error_code : option string }.

Definition count {A} (l : list A) : pyval := PInt (Z.of_nat (length l)).

Section Summary.
Context `{Digests}.

Definition state_summary (s : AgentState) : list (string * pyval) :=
  List.filter (λ kv, match kv.2 with PNone => false | _ => true end)
    ([("intent", opt_str (intent_name <$> st_intent s));
      ("candidate_table_count", count (st_candidate_tables s));
      ("metric_context_count", count (st_metric_context s));
      ("attempts", PInt (st_attempts s));
      ("sql_risk", opt_str (risk_name <$> st_sql_risk s));
      ("risk_reasons", str_list (take 5 (st_risk_reasons s)));
      ("row_count", count (st_rows s));
      ("column_count", count (st_columns s));
      ("citation_count", count (st_citations s));
      ("error_code", opt_str (st_error_code s))]
     ++ match truthy (st_sql s) with
        | Some q => [("sql_fingerprint", PStr ("sha256:" +:+ sha256_hex q))]
        | None => []
        end).

(** [error_policy.classify_error] as the dict the record carries. *)
Definition classification_dict (e : exn) : list (string * pyval) :=
  [("category", PStr (category (classify_error e)));
   ("retryable", PBool (is_retryable (classify_error e)))].
End Summary.

(** The collaborators of a node: the step sink, the approval sink, the clock. *)
Class AgentEnv (W : Type) := {
  step_sink : AgentStepRecord → op W exn unit;
  approval_sink : AgentState → op W exn unit;
  node_clock : W → W * Z
}.

Inductive agent_call :=
| CallAction (node : string) (state : AgentState)
| CallStep (r : AgentStepRecord)
| CallPending (state : AgentState).

Section Steps.
Context `{Digests} {W : Type} `{AgentEnv W}.
Notation M := (eff W agent_call exn).

Definition record_step (r : AgentStepRecord) : M unit := invoke (CallStep r) (step_sink r).
Definition elapsed (started now : Z) : Z := Z.max 0 ((now - started) / 1000000).

(** [GraphInterrupt] is raised by [interrupt()]; metrics and spans only
    observe. *)
Definition timed_step (step_name : string) (s : AgentState) (operation : AgentState → M update) :
    M update :=
  started ← silent node_clock;
  try_except
    (u ← operation s;
     now ← silent node_clock;
     _ ← record_step {| sp_run_id := st_run_id s; sp_step_name := step_name;
           sp_status := "SUCCEEDED"; sp_attempt := st_attempts s;
           sp_input_summary := state_summary s; sp_output_summary := state_summary (merge s u);
           sp_duration_ms := elapsed started now; sp_error_code := None |};
     mret u)
    (λ e, match e with
          | GraphInterrupt => raise e
          | _ =>
              now ← silent node_clock;
              _ ← record_step {| sp_run_id := st_run_id s; sp_step_name := step_name;
                    sp_status := "FAILED"; sp_attempt := st_attempts s;
                    sp_input_summary := state_summary s; sp_output_summary := classification_dict e;
                    sp_duration_ms := elapsed started now; sp_error_code := Some (code_or_class e) |};
              raise e
          end).

(** [InMemoryAgentStepSink.record]. *)
Definition memory_step_sink (r : AgentStepRecord) : op (list AgentStepRecord) exn unit :=
  λ records, (records ++ [r], Ok tt).
End Steps.

(** ** Theorems *)

(** The parts of a state that its summary may show. *)
Definition public_view `{Digests} (s : AgentState) :=
  (st_intent s, st_attempts s, st_sql_risk s, take 5 (st_risk_reasons s), st_error_code s,
   (length (st_candidate_tables s), length (st_metric_context s), length (st_rows s),
    length (st_columns s), length (st_citations s)),
   sha256_hex <$> truthy (st_sql s)).

(** A step summary is a function of the public view: whatever the
    question, the SQL text, the rows, the answer or the identities are, two
    states with the same view have the same summary. *)
Theorem state_summary_noninterference : ∀ (D : Digests) s1 s2,
  public_view s1 = public_view s2 → state_summary s1 = state_summary s2.
Proof.
  intros D s1 s2 [= Hi Ha Hr Hre He Hct Hmc Hro Hco Hci Hsql].
  unfold state_summary, count. rewrite Hi, Ha, Hr, Hre, He, Hct, Hmc, Hro, Hco, Hci.
  destruct (truthy (st_sql s1)), (truthy (st_sql s2)); try discriminate; [|done].
  injection Hsql as ->. done.
Qed.

Lemma state_summary_noninterference_witness :
  let run question := {| sr_run_id := "run"; sr_tenant_id := "t"; sr_user_id := "u";
    sr_role := "ANALYST"; sr_data_source_id := "d";
    sr_trace_id := "0123456789abcdef"; sr_question := question |} in
  state_summary (initial_state (run "revenue by month"))
  = state_summary (initial_state (run "customers in Berlin")).
Proof. intros run. apply (state_summary_noninterference demo_digests). reflexivity. Defined.
