(* ===== verification/AgentGraph.v ===== *)
(** * The agent workflow graph: [app/agent/graph.py]

    Nodes, edges and the approval pause of the graph.  LangGraph is a
    library; its contract, as the code relies on it: after a node succeeds
    its update is merged into the state and the outgoing edge is taken on the
    merged state; [interrupt] pauses the run until it is resumed with a
    payload, and the paused node is then run again from its beginning; a run
    takes at most 25 supersteps. *)

From S2P Require Import Prelude PyStr Floats Errors Json Metadata Policy SqlGuard Numbers.
From S2P Require Import DataSources Executor SafeQuery StructuredLLM QuestionGuard NL2SQL.
From S2P Require Import AgentState.

(** ** The actions of the nodes *)

Class AgentActions (W : Type) := {
  classify : AgentState → op W exn update;
  retrieve_metrics : AgentState → op W exn update;
  select_schema : AgentState → op W exn update;
  generate_sql : AgentState → op W exn update;
  guard_sql : AgentState → op W exn update;
  execute_sql : AgentState → op W exn update;
  verify : AgentState → op W exn update;
  compose : AgentState → op W exn update
}.

Inductive node :=
| Classify | RetrieveMetrics | SelectSchema | GenerateSql | GuardSql | RequestApproval
| ExecuteSql | Verify | Compose.
#[export] Instance node_eq_dec : EqDecision node. Proof. solve_decision. Defined.

Definition node_name (n : node) : string :=
  match n with
  | Classify => "classify" | RetrieveMetrics => "retrieve_metrics"
  | SelectSchema => "select_schema" | GenerateSql => "generate_sql" | GuardSql => "guard_sql"
  | RequestApproval => "request_approval" | ExecuteSql => "execute_sql" | Verify => "verify"
  | Compose => "compose"
  end.

Definition approved_update : update := {|
  up_intent := None; up_candidate_tables := None; up_selection_confidence := None;
  up_schema_snapshot := None; up_query_policy := None; up_metric_context := None;
  up_analysis_plan := None; up_sql := None; up_sql_fingerprint := None; up_guarded_query := None;
  up_sql_risk := None; up_risk_reasons := None; up_approval_decision := Some Approved;
  up_rows := None; up_columns := None; up_result_truncated := None; up_attempts := None;
  up_answer := None; up_citations := None; up_chart_spec := None; up_error_code := Some None |}.
Definition rejected_update : update := {|
  up_intent := None; up_candidate_tables := None; up_selection_confidence := None;
  up_schema_snapshot := None; up_query_policy := None; up_metric_context := None;
  up_analysis_plan := None; up_sql := None; up_sql_fingerprint := None; up_guarded_query := None;
  up_sql_risk := None; up_risk_reasons := None; up_approval_decision := Some Rejected;
  up_rows := None; up_columns := None; up_result_truncated := None; up_attempts := None;
  up_answer := None; up_citations := None; up_chart_spec := None;
  up_error_code := Some (Some "APPROVAL_REJECTED") |}.

Section Nodes.
Context `{Digests} {W : Type} `{AgentEnv W} `{AgentActions W}.
Notation M := (eff W agent_call exn).

Definition call_action (n : node) (o : AgentState → op W exn update) (s : AgentState) : M update :=
  invoke (CallAction (node_name n) s) (o s).

Definition waiting_record (s : AgentState) (started now : Z) : AgentStepRecord := {|
  sp_run_id := st_run_id s; sp_step_name := "request_approval"; sp_status := "WAITING";
  sp_attempt := st_attempts s; sp_input_summary := state_summary s;
  sp_output_summary := [("sql_fingerprint", opt_str (st_sql_fingerprint s));
                        ("risk_reasons", str_list (take 5 (st_risk_reasons s)))];
  sp_duration_ms := elapsed started now; sp_error_code := None |}.

(** What [interrupt] shows to the caller. *)
Definition interrupt_payload (s : AgentState) : pyval :=
  PDict [("run_id", PStr (st_run_id s)); ("sql_fingerprint", opt_str (st_sql_fingerprint s));
         ("reason_codes", str_list (st_risk_reasons s))].

(** The test of the resume payload: [decision.get("decision")] must be one of
    the set's two strings; a list or a dict has no hash to look up. *)
Definition payload_decision (payload : pyval) : result exn decision :=
  match payload with
  | PDict d =>
      match dict_get "decision" d with
      | Some (PStr t) =>
          if String.eqb t "approved" then Ok Approved
          else if String.eqb t "rejected" then Ok Rejected else Err ValueError
      | Some (PList _) | Some (PDict _) => Err TypeError
      | _ => Err ValueError
      end
  | _ => Err ValueError
  end.

Definition pause (payload : option pyval) (s : AgentState) : M update :=
  started ← silent node_clock;
  _ ← invoke (CallPending s) (approval_sink s);
  now ← silent node_clock;
  _ ← record_step (waiting_record s started now);
  match payload with
  | None => raise GraphInterrupt
  | Some p =>
      d ← lift_result (payload_decision p);
      mret (match d with Rejected => rejected_update | Approved => approved_update end)
  end.

Definition operation (n : node) (payload : option pyval) : AgentState → M update :=
  match n with
  | Classify => call_action Classify classify
  | RetrieveMetrics => call_action RetrieveMetrics retrieve_metrics
  | SelectSchema => call_action SelectSchema select_schema
  | GenerateSql => call_action GenerateSql generate_sql
  | GuardSql => call_action GuardSql guard_sql
  | RequestApproval => pause payload
  | ExecuteSql => call_action ExecuteSql execute_sql
  | Verify => call_action Verify verify
  | Compose => call_action Compose compose
  end.

Definition run_node (n : node) (payload : option pyval) (s : AgentState) : M update :=
  timed_step (node_name n) s (operation n payload).

(** ** build_agent_graph *)

Definition max_repairs_ok (max_repairs : Z) : bool := within 0 max_repairs 2.

Definition retry_allowed (max_repairs : Z) (s : AgentState) : bool :=
  (st_attempts s <? max_repairs + 1)%Z.

(** The edges; [None] is END, an absent key or an unmapped route raises. *)
Definition next_node (max_repairs : Z) (n : node) (s : AgentState) : result exn (option node) :=
  match n with
  | Classify => if bool_decide (st_sql_risk s = Some Blocked) then Ok None else Ok (Some RetrieveMetrics)
  | RetrieveMetrics =>
      match st_intent s with
      | None => Err KeyError
      | Some IntentKnowledge => Ok (Some Compose)
      | Some _ => Ok (Some SelectSchema)
      end
  | SelectSchema => Ok (Some GenerateSql)
  | GenerateSql => Ok (Some GuardSql)
  | GuardSql =>
      match st_sql_risk s with
      | None => Err KeyError
      | Some Repair => if retry_allowed max_repairs s then Ok (Some GenerateSql) else Ok None
      | Some Safe => Ok (Some ExecuteSql)
      | Some Approval => Ok (Some RequestApproval)
      | Some Blocked => Ok None
      end
  | RequestApproval =>
      match st_approval_decision s with
      | None => Err KeyError
      | Some Approved => Ok (Some ExecuteSql)
      | Some Rejected => Ok None
      end
  | ExecuteSql => Ok (Some Verify)
  | Verify =>
      if truthy (st_error_code s) is Some _
      then if retry_allowed max_repairs s then Ok (Some GenerateSql) else Ok (Some Compose)
      else Ok (Some Compose)
  | Compose => Ok None
  end.

Inductive run_end := Finished (s : AgentState) | Paused (n : node) (s : AgentState).

(** Supersteps from node [n]; the payload goes to the node that paused. *)
Fixpoint run_graph (max_repairs : Z) (fuel : nat) (payload : option pyval) (n : node)
    (s : AgentState) : M run_end :=
  match fuel with
  | O => raise (OtherException "GraphRecursionError")
  | S fuel =>
      reply ← try_except (Some <$> run_node n payload s)
        (λ e, match e with GraphInterrupt => mret None | e => raise e end);
      match reply with
      | None => mret (Paused n s)
      | Some u =>
          let s' := merge s u in
          next ← lift_result (next_node max_repairs n s');
          match next with
          | None => mret (Finished s')
          | Some n' => run_graph max_repairs fuel None n' s'
          end
      end
  end.

Definition recursion_limit : nat := 25.

(** [graph.invoke(initial_state)] on a new thread, and
    [graph.invoke(Command(resume=...))] on a paused one. *)
Definition invoke_start (max_repairs : Z) (s : AgentState) : M run_end :=
  run_graph max_repairs recursion_limit None Classify s.
Definition invoke_resume (max_repairs : Z) (payload : pyval) (n : node) (s : AgentState) : M run_end :=
  run_graph max_repairs recursion_limit (Some payload) n s.
End Nodes.

(** ** What the graph relies on *)

(** An update that leaves the attempt counter, the risk and the decision alone. *)
Record quiet (u : update) : Prop := {
  quiet_attempts : up_attempts u = None;
  quiet_risk : up_sql_risk u = None;
  quiet_decision : up_approval_decision u = None
}.

(** The contract of the actions: only generation counts attempts, only
    classification blocks, only the guard rates SQL, and what it lets through
    it has vetted. *)
Class AgentActionsOk (W : Type) `{AgentActions W} := {
  vetted : AgentState → update → Prop;
  classify_ok : ∀ s w w' u, classify s w = (w', Ok u) →
    up_attempts u = None ∧ up_approval_decision u = None ∧
    (up_sql_risk u = Some Blocked ∨ up_sql_risk u = None);
  retrieve_ok : ∀ s w w' u, retrieve_metrics s w = (w', Ok u) → quiet u;
  select_ok : ∀ s w w' u, select_schema s w = (w', Ok u) → quiet u;
  generate_ok : ∀ s w w' u, generate_sql s w = (w', Ok u) →
    up_attempts u = Some (st_attempts s + 1)%Z ∧ up_sql_risk u = None ∧ up_approval_decision u = None;
  guard_ok : ∀ s w w' u, guard_sql s w = (w', Ok u) →
    up_attempts u = None ∧ up_approval_decision u = None ∧
    (up_sql_risk u = Some Repair ∨
     (up_sql_risk u = Some Safe ∨ up_sql_risk u = Some Approval) ∧ vetted s u);
  execute_ok : ∀ s w w' u, execute_sql s w = (w', Ok u) → quiet u;
  verify_ok : ∀ s w w' u, verify s w = (w', Ok u) → quiet u;
  compose_ok : ∀ s w w' u, compose s w = (w', Ok u) → quiet u
}.

Section Runs.
Context `{Digests} {W : Type} `{AgentEnv W} `{AgentActionsOk W} (max_repairs : Z).
Notation M := (eff W agent_call exn).
Implicit Types (s : AgentState) (u : update) (n : node).

(** The updates a node can return. *)
Definition node_update n s u : Prop :=
  match n with
  | Classify => up_attempts u = None ∧ up_approval_decision u = None ∧
      (up_sql_risk u = Some Blocked ∨ up_sql_risk u = None)
  | GenerateSql => up_attempts u = Some (st_attempts s + 1)%Z ∧ up_sql_risk u = None ∧
      up_approval_decision u = None
  | GuardSql => up_attempts u = None ∧ up_approval_decision u = None ∧
      (up_sql_risk u = Some Repair ∨
       (up_sql_risk u = Some Safe ∨ up_sql_risk u = Some Approval) ∧ vetted s u)
  | RequestApproval => u = approved_update ∨ u = rejected_update
  | RetrieveMetrics | SelectSchema | ExecuteSql | Verify | Compose => quiet u
  end.

Lemma yields_action n (o : AgentState → op W exn update) s (P : update → Prop) :
  (∀ w w' u, o s w = (w', Ok u) → P u) → yields P (λ _, True) (call_action n o s : M update).
Proof.
  intros Ho w. unfold call_action, trace, outcome, invoke.
  destruct (o s w) as [w' [u|e]] eqn:E; [by eapply Ho|done].
Qed.

Lemma yields_True {A} (m : eff W agent_call exn A) : yields (λ _, True) (λ _, True) m.
Proof. intros w. by destruct (outcome m w). Qed.

Lemma operation_yields n payload s :
  yields (node_update n s) (λ _, True) (operation (W := W) n payload s).
Proof.
  destruct n; cbn [operation node_update]; try apply yields_action; intros.
  - by eapply classify_ok.
  - by eapply retrieve_ok.
  - by eapply select_ok.
  - by eapply generate_ok.
  - by eapply guard_ok.
  - unfold pause. do 4 (eapply yields_bind; [apply yields_True|]; intros ? _).
    destruct payload as [p|]; [|by apply yields_raise].
    apply sat_guard; [|done]. intros [] _;
      apply yields_ret; [by left|by right].
  - by eapply execute_ok.
  - by eapply verify_ok.
  - by eapply compose_ok.
Qed.

Lemma timed_step_yields name s (o : AgentState → M update) (P : update → Prop) :
  yields P (λ _, True) (o s) → yields P (λ _, True) (timed_step name s o).
Proof.
  intros Ho. unfold timed_step. eapply yields_bind; [apply yields_True|]. intros started _.
  apply (yields_try _ (λ _, True)).
  - eapply yields_bind; [exact Ho|]. intros u Hu.
    do 2 (eapply yields_bind; [apply yields_True|]; intros ? _). by apply yields_ret.
  - intros e _. destruct e; first [by apply yields_raise
      |do 2 (eapply yields_bind; [apply yields_True|]; intros ? _); by apply yields_raise].
Qed.

(** Vetted by the guard as safe, or vetted and then approved. *)
Definition cleared s : Prop :=
  ∃ s0 u, vetted s0 u ∧
    (up_sql_risk u = Some Safe ∧ s = merge s0 u ∨
     up_sql_risk u = Some Approval ∧ s = merge (merge s0 u) approved_update).
Definition awaiting s : Prop :=
  ∃ s0 u, vetted s0 u ∧ up_sql_risk u = Some Approval ∧ s = merge s0 u.

Definition attempts_within s : Prop := (0 ≤ st_attempts s ≤ max_repairs + 1)%Z.

(** What holds whenever a node starts. *)
Definition node_inv n s : Prop :=
  attempts_within s ∧
  match n with
  | Classify | RetrieveMetrics | SelectSchema => st_attempts s = 0%Z
  | GenerateSql => (st_attempts s ≤ max_repairs)%Z
  | RequestApproval => awaiting s
  | ExecuteSql => cleared s
  | GuardSql | Verify | Compose => True
  end.

Definition repairs_left s : nat := Z.to_nat (max_repairs + 1 - st_attempts s).
(** An upper bound on the nodes that still run. *)
Definition nodes_left n s : nat :=
  5 * repairs_left s +
  match n with
  | Classify => 4 | RetrieveMetrics => 3 | SelectSchema => 2 | GenerateSql => 1
  | GuardSql => 5 | RequestApproval => 4 | ExecuteSql => 3 | Verify => 2 | Compose => 1
  end.

Context (Hmax : (0 ≤ max_repairs)%Z).

Lemma retry_allowed_le s : retry_allowed max_repairs s = true → (st_attempts s ≤ max_repairs)%Z.
Proof. unfold retry_allowed. intros ?%Z.ltb_lt. lia. Qed.

Lemma quiet_merge s u : quiet u →
  st_attempts (merge s u) = st_attempts s ∧ st_sql_risk (merge s u) = st_sql_risk s ∧
  st_approval_decision (merge s u) = st_approval_decision s.
Proof. intros [Ha Hr Hd]. cbn. by rewrite Ha, Hr, Hd. Qed.

(** One superstep keeps the invariant and uses up a node. *)
Lemma superstep n s u n' :
  node_inv n s → node_update n s u → next_node max_repairs n (merge s u) = Ok (Some n') →
  node_inv n' (merge s u) ∧ nodes_left n' (merge s u) < nodes_left n s.
Proof using Hmax.
  unfold node_inv, attempts_within, nodes_left, repairs_left.
  intros [Hatt Hn] Hu Hnext. destruct n; cbn [next_node node_update] in *.
  - destruct Hu as (Ha & _ & _). cbn in *. rewrite Ha in *. cbn in *.
    case_bool_decide; simplify_eq. cbn. lia.
  - apply (quiet_merge s) in Hu as (Ha & _ & _). rewrite Ha.
    destruct (st_intent _) as [[]|]; simplify_eq; lia.
  - apply (quiet_merge s) in Hu as (Ha & _ & _). rewrite Ha. simplify_eq. lia.
  - destruct Hu as (Ha & _ & _). simplify_eq. cbn. rewrite Ha. cbn. lia.
  - destruct Hu as (Ha & _ & Hr). assert (st_attempts (merge s u) = st_attempts s) as E by (cbn; by rewrite Ha).
    destruct Hr as [Hr|[[Hr|Hr] Hv]]; cbn [merge st_sql_risk] in Hnext; rewrite Hr in Hnext; cbn in Hnext.
    + destruct (retry_allowed _ _) eqn:Hretry; simplify_eq. apply retry_allowed_le in Hretry.
      rewrite E in *. lia.
    + simplify_eq. rewrite E. split; [split; [done|]|lia]. exists s, u. split; [done|]. by left.
    + simplify_eq. rewrite E. split; [split; [done|]|lia]. by exists s, u.
  - destruct Hu as [-> | ->]; cbn in Hnext; simplify_eq. cbn. split; [split; [done|]|lia].
    destruct Hn as (s0 & u & Hv & Hr & ->). exists s0, u. split; [done|]. by right.
  - apply (quiet_merge s) in Hu as (Ha & _ & _). rewrite Ha. simplify_eq. split; [done|lia].
  - apply (quiet_merge s) in Hu as (Ha & _ & _).
    destruct (truthy _); [destruct (retry_allowed _ _) eqn:Hretry|]; simplify_eq;
      rewrite Ha; split; try lia; split; try done.
    apply retry_allowed_le in Hretry. by rewrite Ha in Hretry.
  - done.
Qed.

(** The calls of actions in a trace. *)
Definition is_action (c : agent_call) : bool := if c is CallAction _ _ then true else false.
Definition actions_of (t : list agent_call) : list agent_call := List.filter is_action t.

Lemma actions_of_app t t' : actions_of (t ++ t') = actions_of t ++ actions_of t'.
Proof. apply List.filter_app. Qed.

Definition no_action {A} (m : M A) : Prop := sat m (λ t _, actions_of t = []).

Lemma no_action_bind {A B} (m : M A) (f : A → M B) :
  no_action m → (∀ a, no_action (f a)) → no_action (m ≫= f).
Proof.
  intros Hm Hf. apply sat_bind. refine (sat_conseq _ _ _ Hm _). intros t [a|e] Ht; [|done].
  refine (sat_conseq _ _ _ (Hf a) _). intros t' r Ht'. by rewrite actions_of_app, Ht, Ht'.
Qed.

Lemma no_action_silent {A} (o : W → W * A) : no_action (silent o).
Proof. by apply sat_silent_op. Qed.

Lemma no_action_record r : no_action (record_step r).
Proof. by apply sat_invoke. Qed.

Lemma no_action_ret {A} (a : A) : no_action (mret a).
Proof. by apply sat_ret. Qed.

Lemma no_action_raise {A} e : no_action (raise e : M A).
Proof. by apply sat_raise. Qed.

Lemma no_action_app {A} (m : M A) t (P : list agent_call → Prop) :
  no_action m → P (actions_of t) → sat m (λ t' _, P (actions_of (t ++ t'))).
Proof.
  intros Hm HP. refine (sat_conseq _ _ _ Hm _). intros t' r Ht'.
  by rewrite actions_of_app, Ht', app_nil_r.
Qed.

Hint Resolve no_action_silent no_action_record no_action_ret no_action_raise no_action_bind : quiet.

(** Recording a step calls no action of its own. *)
Lemma timed_step_actions name s (o : AgentState → M update) (P : list agent_call → Prop) :
  sat (o s) (λ t _, P (actions_of t)) → sat (timed_step name s o) (λ t _, P (actions_of t)).
Proof.
  intros Ho. unfold timed_step. apply sat_bind, sat_silent_op. intros started. cbn [app].
  apply sat_try, sat_bind. refine (sat_conseq _ _ _ Ho _). intros t [u|e] Ht.
  - set (rest := _ ≫= _ : M update). assert (no_action rest) as Hrest by (unfold rest; auto with quiet).
    refine (sat_conseq _ _ _ Hrest _). intros t' [u'|e] Ht';
      [by rewrite actions_of_app, Ht', app_nil_r|].
    apply no_action_app; [destruct e; auto with quiet|by rewrite actions_of_app, Ht', app_nil_r].
  - apply no_action_app; [destruct e; auto with quiet|done].
Qed.

(** A node calls its own action once, on the state it starts with; the
    approval pause calls none. *)
Definition node_actions n s : list agent_call :=
  if decide (n = RequestApproval) then [] else [CallAction (node_name n) s].

Lemma run_node_actions n payload s :
  sat (run_node (W := W) n payload s) (λ t _, actions_of t = node_actions n s).
Proof.
  apply (timed_step_actions _ _ _ (λ l, l = node_actions n s)).
  destruct n; try by apply sat_invoke. cbn [operation].
  assert (no_action (pause (W := W) payload s)) as Hp; [|exact Hp]. unfold pause.
  apply no_action_bind; [auto with quiet|]. intros started.
  apply no_action_bind; [by apply sat_invoke|]. intros _.
  apply no_action_bind; [auto with quiet|]. intros now.
  apply no_action_bind; [auto with quiet|]. intros _.
  destruct payload as [p|]; [|auto with quiet].
  apply sat_guard; [|done]. intros [] _; by apply sat_ret.
Qed.

(** SQL runs only in a cleared state. *)
Definition call_ok (c : agent_call) : Prop :=
  match c with CallAction m s => m = "execute_sql" → cleared s | _ => True end.
Definition is_generation (c : agent_call) : bool :=
  match c with CallAction m _ => String.eqb m "generate_sql" | _ => false end.
Definition generations (t : list agent_call) : nat := length (List.filter is_generation t).

Record run_ok s (t : list agent_call) (r : result exn run_end) : Prop := {
  run_calls : Forall call_ok t;
  run_generations : generations t ≤ repairs_left s;
  run_end_ok : ∀ x, r = Ok x → match x with
    | Finished s' => attempts_within s'
    | Paused n s' => node_inv n s'
    end
}.

Lemma actions_call_ok t : Forall call_ok (actions_of t) → Forall call_ok t.
Proof.
  induction t as [|c t IH]; [done|]. unfold actions_of. cbn [List.filter].
  destruct c; cbn; intros Hf; [apply Forall_cons in Hf as [? ?]|..]; constructor; auto; done.
Qed.

Lemma generations_actions t : generations t = generations (actions_of t).
Proof.
  unfold generations, actions_of. induction t as [|c t IH]; [done|]. cbn [List.filter].
  destruct c; cbn; try done. destruct (String.eqb _ _); cbn; by rewrite ?IH.
Qed.

Lemma generations_app t t' : generations (t ++ t') = generations t + generations t'.
Proof. unfold generations. by rewrite List.filter_app, length_app. Qed.

Lemma node_actions_ok n s t :
  node_inv n s → actions_of t = node_actions n s → Forall call_ok t ∧
  generations t = if decide (n = GenerateSql) then 1 else 0.
Proof.
  intros Hinv Ht. rewrite generations_actions, Ht. split.
  - apply actions_call_ok. rewrite Ht. unfold node_actions.
    destruct n; repeat constructor; cbn; try discriminate. intros _. apply Hinv.
  - by destruct n.
Qed.

Lemma next_end_attempts n s u :
  node_inv n s → node_update n s u → next_node max_repairs n (merge s u) = Ok None →
  attempts_within (merge s u).
Proof using Hmax.
  unfold node_inv, attempts_within. intros [Hatt Hn] Hu Hnext.
  destruct n; cbn [next_node node_update] in *; try discriminate.
  - destruct Hu as (Ha & _ & _). cbn. by rewrite Ha.
  - by destruct (st_intent _) as [[]|].
  - destruct Hu as (Ha & _ & _). cbn. by rewrite Ha.
  - by destruct Hu as [-> | ->].
  - destruct (truthy _); [destruct (retry_allowed _ _)|]; done.
  - apply (quiet_merge s) in Hu as (Ha & _ & _). by rewrite Ha.
Qed.

(** A generation uses up an attempt. *)
Lemma generation_repairs n s u :
  node_inv n s → node_update n s u →
  (if decide (n = GenerateSql) then 1 else 0) + repairs_left (merge s u) ≤ repairs_left s.
Proof using Hmax.
  unfold node_inv, attempts_within, repairs_left. intros [Hatt Hn] Hu.
  destruct n; cbn [node_update] in *;
    first [rewrite decide_False by done|rewrite decide_True by done];
    try (apply (quiet_merge s) in Hu as (Ha & _ & _); rewrite Ha; cbn; lia).
  - destruct Hu as (Ha & _ & _). cbn. rewrite Ha. cbn. lia.
  - destruct Hu as (Ha & _ & _). cbn. rewrite Ha. cbn. lia.
  - destruct Hu as (Ha & _ & _). cbn. rewrite Ha. cbn. lia.
  - destruct Hu as [-> | ->]; cbn; lia.
Qed.

Lemma run_graph_ok fuel : ∀ payload n s,
  node_inv n s → sat (run_graph (W := W) max_repairs fuel payload n s) (run_ok s).
Proof using Hmax.
  induction fuel as [|fuel IH]; intros payload n s Hinv; cbn [run_graph].
  { apply sat_raise. split; [constructor|cbn; lia|done]. }
  apply sat_bind, sat_try, sat_bind.
  refine (sat_conseq _ _ _ (sat_and _ _ _ (run_node_actions n payload s)
    (timed_step_yields _ s _ _ (operation_yields n payload s))) _).
  intros t r [Ht Hu]. apply (node_actions_ok n s t Hinv) in Ht as [Hcalls Hgen].
  assert (generations t ≤ repairs_left s) as Hgen'.
  { rewrite Hgen. destruct (decide (n = GenerateSql)) as [->|]; [|lia].
    destruct Hinv as [[? ?] ?]. unfold repairs_left. lia. }
  assert (∀ r', match r' with Ok (Finished _) => False | Ok (Paused n' s') => n' = n ∧ s' = s | Err _ => True end
    → run_ok s t r') as Hstop.
  { intros r' Hr'. split; [done|done|]. intros x ->. destruct x as [s'|n' s']; [done|].
    by destruct Hr' as [-> ->]. }
  destruct r as [u|e].
  2:{ destruct e; try (apply sat_raise; rewrite app_nil_r; by apply Hstop).
      apply sat_ret, sat_ret. rewrite !app_nil_r. by apply Hstop. }
  apply sat_ret, sat_bind, sat_lift. rewrite app_nil_r.
  pose proof (generation_repairs n s u Hinv Hu) as Hrep. rewrite <-Hgen in Hrep.
  destruct (next_node _ _ _) as [[n'|]|e] eqn:Hnext.
  - destruct (superstep n s u n' Hinv Hu Hnext) as [Hinv' _].
    refine (sat_conseq _ _ _ (IH None n' _ Hinv') _). intros t' r' [Hc' Hg' He'].
    cbn [app]. rewrite ?app_nil_r.
    split; [by apply Forall_app|rewrite generations_app; lia|exact He'].
  - apply sat_ret. cbn [app]. rewrite ?app_nil_r. split; [done|done|]. intros x [= <-].
    by eapply next_end_attempts.
  - cbn [app]. rewrite ?app_nil_r. by apply Hstop.
Qed.

(** More fuel than nodes left changes nothing. *)
Lemma run_graph_fuel fuel : ∀ k payload n s w,
  node_inv n s → nodes_left n s ≤ fuel →
  run_graph (W := W) max_repairs (fuel + k) payload n s w = run_graph max_repairs fuel payload n s w.
Proof using Hmax.
  induction fuel as [|fuel IH]; intros k payload n s w Hinv Hle.
  { unfold nodes_left in Hle. destruct n; lia. }
  cbn [Nat.add run_graph]. unfold mbind, eff_bind, try_except, fmap, eff_fmap, mbind, eff_bind.
  pose proof (timed_step_yields (node_name n) s _ _ (operation_yields n payload s) w) as Hu.
  unfold run_node, trace, outcome in *.
  destruct (timed_step _ _ _ w) as [[w1 t1] [u|e]]; [|destruct e; done].
  cbn in Hu |- *. destruct (next_node _ _ _) as [[n'|]|e] eqn:Hnext; [|done|done].
  destruct (superstep n s u n' Hinv Hu Hnext) as [Hinv' Hlt]. cbn.
  rewrite IH; [done|done|lia].
Qed.
End Runs.

(** ** Step records *)

Definition records_of (t : list agent_call) : list AgentStepRecord :=
  omap (λ c, match c with CallStep r => Some r | _ => None end) t.

Section Records.
Context `{Digests} {W : Type} `{AgentEnv W} `{AgentActions W}.
Notation M := (eff W agent_call exn).

Lemma records_of_app t t' : records_of (t ++ t') = records_of t ++ records_of t'.
Proof. unfold records_of. apply omap_app. Qed.

Definition succeeded_record (name : string) (s : AgentState) (u : update) (r : AgentStepRecord) : Prop :=
  sp_run_id r = st_run_id s ∧ sp_step_name r = name ∧ sp_status r = "SUCCEEDED" ∧
  sp_attempt r = st_attempts s ∧ sp_input_summary r = state_summary s ∧
  sp_output_summary r = state_summary (merge s u) ∧ sp_error_code r = None ∧ (0 ≤ sp_duration_ms r)%Z.
Definition failed_record (name : string) (s : AgentState) (e : exn) (r : AgentStepRecord) : Prop :=
  sp_run_id r = st_run_id s ∧ sp_step_name r = name ∧ sp_status r = "FAILED" ∧
  sp_attempt r = st_attempts s ∧ sp_input_summary r = state_summary s ∧
  sp_output_summary r = classification_dict e ∧ sp_error_code r = Some (code_or_class e) ∧
  (0 ≤ sp_duration_ms r)%Z.

(** What a step leaves in the sink. *)
Definition step_recorded (name : string) (s : AgentState) (t : list agent_call) (r : result exn update) : Prop :=
  match r with
  | Ok u => ∃ rec, records_of t = [rec] ∧ succeeded_record name s u rec
  | Err e => e = GraphInterrupt ∨ ∃ rec e', last (records_of t) = Some rec ∧
      failed_record name s e' rec ∧ (e = e' ∨ ∃ w w', step_sink rec w = (w', Err e))
  end.

Lemma sat_record_step r (Q : list agent_call → result exn unit → Prop) :
  (∀ w w', step_sink r w = (w', Ok tt) → Q [CallStep r] (Ok tt)) →
  (∀ w w' e, step_sink r w = (w', Err e) → Q [CallStep r] (Err e)) →
  sat (record_step r : M unit) Q.
Proof. intros HO HE. apply sat_invoke_op. intros w w' [[]|e] Hop; eauto. Qed.

Lemma elapsed_nonneg a b : (0 ≤ elapsed a b)%Z.
Proof. unfold elapsed. lia. Qed.

(** The handler of a failed step. *)
Lemma sat_failed name s e started (t0 : list agent_call) :
  e ≠ GraphInterrupt →
  sat (now ← silent node_clock;
       _ ← record_step {| sp_run_id := st_run_id s; sp_step_name := name; sp_status := "FAILED";
             sp_attempt := st_attempts s; sp_input_summary := state_summary s;
             sp_output_summary := classification_dict e; sp_duration_ms := elapsed started now;
             sp_error_code := Some (code_or_class e) |};
       raise e : M update) (λ t, step_recorded name s (t0 ++ t)).
Proof.
  intros He. apply sat_bind, sat_silent_op. intros now. apply sat_bind. cbn [app].
  match goal with |- context [record_step ?r] => set (rec := r) end.
  assert (failed_record name s e rec) as Hrec by (repeat split; apply elapsed_nonneg).
  assert (∀ t', records_of t' = [rec] → last (records_of (t0 ++ t')) = Some rec) as Hlast.
  { intros t' Ht'. rewrite records_of_app, Ht'. apply last_snoc. }
  apply sat_record_step.
  - intros w w' _. apply sat_raise. right. exists rec, e. split; [by apply Hlast|]. split; [done|by left].
  - intros w w' e' Hop. right. exists rec, e. split; [by apply Hlast|]. split; [done|]. right. eauto.
Qed.

Lemma sat_handler name s e started t0 :
  sat (match e with
       | GraphInterrupt => raise e
       | _ =>
         now ← silent node_clock;
         _ ← record_step {| sp_run_id := st_run_id s; sp_step_name := name; sp_status := "FAILED";
               sp_attempt := st_attempts s; sp_input_summary := state_summary s;
               sp_output_summary := classification_dict e; sp_duration_ms := elapsed started now;
               sp_error_code := Some (code_or_class e) |};
         raise e
       end : M update) (λ t, step_recorded name s (t0 ++ t)).
Proof.
  destruct e; try (by apply sat_failed). apply sat_raise. by left.
Qed.

Lemma timed_step_recorded name s (o : AgentState → M update) :
  sat (o s) (λ t _, records_of t = []) → sat (timed_step name s o) (step_recorded name s).
Proof.
  intros Ho. unfold timed_step. apply sat_bind, sat_silent_op. intros started. cbn [app].
  apply sat_try, sat_bind. refine (sat_conseq _ _ _ Ho _). intros t [u|e] Ht; [|apply sat_handler].
  apply sat_bind, sat_silent_op. intros now. apply sat_bind, sat_record_step.
  - intros w w' _. apply sat_ret. eexists. split; [rewrite records_of_app, Ht; cbn; reflexivity|].
    repeat split. apply elapsed_nonneg.
  - intros w w' e _. apply sat_handler.
Qed.
End Records.

(** ** agent/demo.py: the scripted actions *)

Definition set_error (e : option string) : update := {|
  up_intent := None; up_candidate_tables := None; up_selection_confidence := None;
  up_schema_snapshot := None; up_query_policy := None; up_metric_context := None;
  up_analysis_plan := None; up_sql := None; up_sql_fingerprint := None; up_guarded_query := None;
  up_sql_risk := None; up_risk_reasons := None; up_approval_decision := None; up_rows := None;
  up_columns := None; up_result_truncated := None; up_attempts := None; up_answer := None;
  up_citations := None; up_chart_spec := None; up_error_code := Some e |}.

Section Demo.
Context (approval : bool).

(** The world counts the executions. *)
Definition reply_with (u : update) : op nat exn update := λ executions, (executions, Ok u).

Definition demo_update (i : option intent) (tables : option (list string)) (q : option string)
    (risk : option sql_risk) (attempts : option Z) (answer : option string)
    (columns : option (list string)) (rows : option (list (list (string * pyval))))
    (error : option (option string)) : update := {|
  up_intent := i; up_candidate_tables := tables; up_selection_confidence := None;
  up_schema_snapshot := None; up_query_policy := None; up_metric_context := None;
  up_analysis_plan := None; up_sql := q; up_sql_fingerprint := None; up_guarded_query := None;
  up_sql_risk := risk; up_risk_reasons := None; up_approval_decision := None; up_rows := rows;
  up_columns := columns; up_result_truncated := None; up_attempts := attempts;
  up_answer := answer; up_citations := None; up_chart_spec := None; up_error_code := error |}.

#[export] Instance DemoActions : AgentActions nat := {|
  classify _ := reply_with (demo_update (Some IntentHybrid) None None None None None None None None);
  retrieve_metrics _ := reply_with {|
    up_intent := None; up_candidate_tables := None; up_selection_confidence := None;
    up_schema_snapshot := None; up_query_policy := None; up_metric_context := Some [];
    up_analysis_plan := None; up_sql := None; up_sql_fingerprint := None; up_guarded_query := None;
    up_sql_risk := None; up_risk_reasons := None; up_approval_decision := None; up_rows := None;
    up_columns := None; up_result_truncated := None; up_attempts := None; up_answer := None;
    up_citations := Some []; up_chart_spec := None; up_error_code := None |};
  select_schema _ := reply_with (demo_update None (Some ["orders"]) None None None None None None None);
  generate_sql s := reply_with (demo_update None None (Some "SELECT 1") None
    (Some (st_attempts s + 1)%Z) None None None (Some None));
  guard_sql s := reply_with
    (if (st_attempts s =? 1)%Z && negb approval
     then demo_update None None None (Some Repair) None None None None (Some (Some "DEMO_REPAIR_REQUIRED"))
     else demo_update None None None (Some (if approval then Approval else Safe)) None None None None
            (Some None));
  execute_sql _ := λ executions, (S executions,
    Ok (demo_update None None None None None None (Some ["value"]) (Some [[("value", PInt 1)]]) None));
  verify _ := reply_with (set_error None);
  compose _ := reply_with
    (demo_update None None None None None (Some "Offline demonstration completed.") None None None)
|}.

#[export] Program Instance DemoActionsOk : AgentActionsOk nat := {| vetted _ _ := True |}.
Solve Obligations with (intros; cbn in *; unfold reply_with in *; simplify_eq; first [by repeat split|by split_and!; auto]).
Next Obligation.
  cbn. intros s w w' u [= _ <-]. destruct ((st_attempts s =? 1)%Z && negb approval); cbn; [by auto|].
  split_and!; [done|done|]. right. split; [|done]. destruct approval; auto.
Qed.
End Demo.

#[export] Instance demo_agent_env : AgentEnv nat := {|
  step_sink _ w := (w, Ok tt); approval_sink _ w := (w, Ok tt); node_clock w := (w, 0%Z) |}.
Definition demo_start : StartRun := {|
  sr_run_id := "run"; sr_tenant_id := "tenant"; sr_user_id := "user"; sr_role := "ANALYST";
  sr_data_source_id := "source"; sr_trace_id := "0123456789abcdef"; sr_question := "Offline demo" |}.

(** ** Theorems *)

(** C3: every node of a run, started on a new request or resumed where it
    paused, starts within its invariant: SQL is executed only in a state
    whose last guard verdict was "safe", or "approval" followed by an
    approval, on the SQL that verdict was about; SQL is generated at most
    [max_repairs + 1] times in all. *)
Theorem workflow_executes_only_cleared : ∀ (D : Digests) W (E : AgentEnv W) (A : AgentActions W)
    (Ok_ : AgentActionsOk W) max_repairs w,
  max_repairs_ok max_repairs = true →
  (∀ r, run_ok max_repairs (initial_state r)
     (trace (invoke_start max_repairs (initial_state r)) w)
     (outcome (invoke_start max_repairs (initial_state r)) w)) ∧
  (∀ n s payload, node_inv max_repairs n s →
     run_ok max_repairs s (trace (invoke_resume max_repairs payload n s) w)
       (outcome (invoke_resume max_repairs payload n s) w)).
Proof.
  intros D W E A Ok_ max_repairs w Hm. unfold max_repairs_ok, within in Hm. split_bools.
  split.
  - intros r. apply run_graph_ok; [lia|]. split; [|done]. unfold attempts_within. cbn. lia.
  - intros n s payload Hinv. apply run_graph_ok; [lia|done].
Qed.

(** C15: twenty supersteps are enough for every run, so a run ends, pauses or
    fails by itself before the limit of twenty-five: with more fuel it goes
    the same way. *)
Theorem workflow_terminates : ∀ (D : Digests) W (E : AgentEnv W) (A : AgentActions W)
    (Ok_ : AgentActionsOk W) max_repairs n s payload k w,
  max_repairs_ok max_repairs = true → node_inv max_repairs n s →
  20 ≤ recursion_limit ∧
  run_graph max_repairs (20 + k) payload n s w = run_graph max_repairs 20 payload n s w.
Proof.
  intros D W E A Ok_ max_repairs n s payload k w Hm Hinv. split; [unfold recursion_limit; lia|].
  unfold max_repairs_ok, within in Hm. split_bools. apply run_graph_fuel; [lia|done|].
  destruct Hinv as [[? ?] Hn]. unfold nodes_left, repairs_left. destruct n; try lia.
Qed.

(** A rejected approval calls no action: if the resumed run ends in a
    value, the workflow has finished with the rejection recorded. *)
Theorem rejection_runs_nothing : ∀ (D : Digests) W (E : AgentEnv W) (A : AgentActions W)
    max_repairs payload s w,
  payload_decision payload = Ok Rejected →
  actions_of (trace (invoke_resume max_repairs payload RequestApproval s) w) = [] ∧
  ∀ x, outcome (invoke_resume max_repairs payload RequestApproval s) w = Ok x →
    x = Finished (merge s rejected_update) ∨ x = Paused RequestApproval s.
Proof.
  intros D W E A max_repairs payload s w Hp. revert w.
  change (sat (invoke_resume max_repairs payload RequestApproval s)
    (λ t r, actions_of t = [] ∧ ∀ x, r = Ok x →
       x = Finished (merge s rejected_update) ∨ x = Paused RequestApproval s)).
  assert (yields (λ u, u = rejected_update) (λ _, True)
    (run_node RequestApproval (Some payload) s : eff W agent_call exn update)) as Hu.
  { apply timed_step_yields. cbn [operation]. unfold pause.
    do 4 (eapply yields_bind; [apply yields_True|]; intros ? _).
    rewrite Hp. apply sat_guard; [|done]. intros ? [= <-]. by apply sat_ret. }
  unfold invoke_resume, recursion_limit. cbn [run_graph]. apply sat_bind, sat_try, sat_bind.
  refine (sat_conseq _ _ _ (sat_and _ _ _ (run_node_actions RequestApproval (Some payload) s) Hu) _).
  intros t [u|e] [Ht Hr].
  - subst u. apply sat_ret, sat_bind, sat_lift. cbn [next_node merge rejected_update st_approval_decision
      up_approval_decision set_opt]. apply sat_ret. cbn [app]. rewrite ?app_nil_r.
    split; [by rewrite Ht|]. intros x [= <-]. by left.
  - destruct e; try (apply sat_raise; rewrite app_nil_r; by rewrite Ht).
    apply sat_ret, sat_ret. rewrite !app_nil_r, Ht. split; [done|]. intros x [= <-]. by right.
Qed.

(** A node that calls an action leaves one SUCCEEDED record with the
    summaries of the state before and after; if it fails, the last record is
    a FAILED one with the code and the class of an error, the error raised
    or one the sink itself replaced. *)
Theorem action_steps_recorded : ∀ (D : Digests) W (E : AgentEnv W) (A : AgentActions W) n payload s w,
  n ≠ RequestApproval →
  step_recorded (node_name n) s (trace (run_node n payload s) w) (outcome (run_node n payload s) w).
Proof.
  intros D W E A n payload s w Hn. apply timed_step_recorded. destruct n; by try apply sat_invoke.
Qed.

Definition demo_run (approval : bool) : eff nat agent_call exn run_end :=
  invoke_start (H1 := DemoActions approval) 2 (initial_state demo_start).

Lemma workflow_executes_only_cleared_witness :
  run_ok (H2 := DemoActionsOk false) 2 (initial_state demo_start)
    (trace (demo_run false) 0) (outcome (demo_run false) 0) ∧
  generations (trace (demo_run false) 0) = 2 ∧ world (demo_run false) 0 = 1.
Proof.
  split; [|split; vm_compute; reflexivity].
  unfold demo_run. exact (proj1 (workflow_executes_only_cleared demo_digests nat demo_agent_env
    (DemoActions false) (DemoActionsOk false) 2 0 eq_refl) demo_start).
Defined.

Lemma workflow_terminates_witness :
  20 ≤ recursion_limit ∧
  run_graph (H1 := DemoActions true) 2 (20 + 5) None Classify (initial_state demo_start) 0
    = run_graph (H1 := DemoActions true) 2 20 None Classify (initial_state demo_start) 0.
Proof.
  assert (node_inv (H2 := DemoActionsOk true) 2 Classify (initial_state demo_start)) as Hinv
    by (split; [split; discriminate|reflexivity]).
  exact (workflow_terminates demo_digests nat demo_agent_env (DemoActions true) (DemoActionsOk true)
    2 Classify (initial_state demo_start) None 5 0 eq_refl Hinv).
Defined.

Lemma rejection_runs_nothing_witness :
  actions_of (trace (invoke_resume (H1 := DemoActions true) 2
    (PDict [("decision", PStr "rejected")]) RequestApproval (initial_state demo_start)) 0) = [].
Proof.
  apply (rejection_runs_nothing demo_digests nat demo_agent_env (DemoActions true) 2
    (PDict [("decision", PStr "rejected")]) (initial_state demo_start) 0 eq_refl).
Defined.

Lemma action_steps_recorded_witness :
  step_recorded "generate_sql" (initial_state demo_start)
    (trace (run_node (H1 := DemoActions true) GenerateSql None (initial_state demo_start)) 0)
    (outcome (run_node (H1 := DemoActions true) GenerateSql None (initial_state demo_start)) 0).
Proof.
  apply (action_steps_recorded demo_digests nat demo_agent_env (DemoActions true) GenerateSql None
    (initial_state demo_start) 0). discriminate.
Defined.
