(* ===== verification/AgentService.v ===== *)
(** * Starting, inspecting and resuming runs:
      [app/agent/service.py], [app/agent/api.py]

    The compiled graph and its checkpoints are LangGraph's: an interface with
    the state snapshot of a thread and the two ways to invoke it. *)

From S2P Require Import Prelude PyStr Floats Errors Json Metadata Policy SqlGuard Numbers.
From S2P Require Import DataSources Executor SafeQuery StructuredLLM QuestionGuard NL2SQL.
From S2P Require Import AgentState AgentGraph.

(** ** The graph runtime *)

Record task := { task_error : option string; task_interrupts : list pyval }.
(** An unknown thread has neither values nor tasks. *)
Inductive snapshot := NoThread | Thread (values : AgentState) (tasks : list task).
Definition snap_tasks (s : snapshot) : list task :=
  match s with NoThread => [] | Thread _ tasks => tasks end.
(** The dict [invoke] returns: the state and its [__interrupt__] entry. *)
Record invocation := { inv_state : AgentState; inv_interrupts : list pyval }.

Class GraphRuntime (W : Type) := {
  get_state : string → op W exn snapshot;
  invoke_new : string → AgentState → op W exn invocation;
  invoke_command : string → pyval → op W exn invocation
}.

Inductive service_call :=
| CallGetState (run_id : string)
| CallInvoke (run_id : string) (state : AgentState)
| CallResume (run_id : string) (payload : pyval).

Record WorkflowResult := {
  wr_run_id : string; wr_status : RunStatus; wr_state : AgentState; wr_interrupt : option pyval }.

(** ** service.py *)

Definition _status (s : AgentState) (interrupted : bool) : RunStatus :=
  if interrupted then WAITING_APPROVAL
  else if bool_decide (st_error_code s = Some "APPROVAL_REJECTED")
          || bool_decide (st_sql_risk s = Some Blocked) then RunRejected
  else if truthy (st_error_code s) is Some _ then RunFailed
  else if truthy (st_answer s) is Some _ then COMPLETED
  else PLANNING.

Definition error_codes : list (string * string) :=
  [("SchemaSelectionError", "NL2SQL_SCHEMA_SELECTION_FAILED");
   ("NL2SQLRepairExhaustedError", "NL2SQL_REPAIR_EXHAUSTED");
   ("NL2SQLPolicyError", "NL2SQL_QUESTION_REJECTED");
   ("LLMAuthenticationError", "LLM_AUTHENTICATION_ERROR");
   ("LLMConfigurationError", "LLM_CONFIGURATION_ERROR");
   ("LLMInvalidResponseError", "LLM_INVALID_RESPONSE");
   ("LLMRateLimitError", "LLM_RATE_LIMITED");
   ("LLMRequestRejectedError", "LLM_REQUEST_REJECTED");
   ("LLMTimeoutError", "LLM_TIMEOUT");
   ("LLMUnavailableError", "LLM_UNAVAILABLE")].

Definition open_paren : Ascii.ascii := byte 40.
(** [text.partition("(")[0]]. *)
Definition before_paren (text : string) : string := default EmptyString (head (split_on open_paren text)).

Fixpoint first_error (tasks : list task) : option string :=
  match tasks with
  | [] => None
  | t :: tasks => match truthy (task_error t) with Some e => Some e | None => first_error tasks end
  end.
Definition _snapshot_error_code (s : snapshot) : option string :=
  (λ e, default "AGENT_WORKFLOW_FAILED" (dict_get (before_paren e) error_codes))
    <$> first_error (snap_tasks s).

Definition dict_payload (interrupts : list pyval) : option pyval :=
  match interrupts with PDict d :: _ => Some (PDict d) | _ => None end.

Definition interrupts_of (s : snapshot) : list pyval := concat (map task_interrupts (snap_tasks s)).
Definition is_nil {A} (l : list A) : bool := match l with [] => true | _ => false end.

Definition _snapshot_result (run_id : string) (s : AgentState) (snap : snapshot) : WorkflowResult :=
  let state := match _snapshot_error_code snap with
               | Some c => merge s (set_error (Some c)) | None => s end in
  let interrupts := interrupts_of snap in
  {| wr_run_id := run_id; wr_status := _status state (negb (is_nil interrupts)); wr_state := state;
     wr_interrupt := dict_payload interrupts |}.

Definition _result (run_id : string) (raw : invocation) : WorkflowResult :=
  {| wr_run_id := run_id; wr_status := _status (inv_state raw) (negb (is_nil (inv_interrupts raw)));
     wr_state := inv_state raw; wr_interrupt := dict_payload (inv_interrupts raw) |}.

Definition resume_payload (r : ApprovalResume) : pyval :=
  PDict [("approval_id", PStr (approval_id r));
         ("decision", PStr (match resume_decision r with Approved => "approved" | Rejected => "rejected" end));
         ("decided_by", PStr (decided_by r)); ("comment", opt_str (comment r))].

Section Service.
Context {W : Type} `{GraphRuntime W}.
Notation M := (eff W service_call exn).

Definition state_of (run_id : string) : M snapshot := invoke (CallGetState run_id) (get_state run_id).

Definition inspect (run_id : string) : M WorkflowResult :=
  snap ← state_of run_id;
  match snap with
  | NoThread => raise KeyError
  | Thread s _ => mret (_snapshot_result run_id s snap)
  end.

Definition same_request (s : AgentState) (r : StartRun) : bool :=
  String.eqb (st_tenant_id s) (sr_tenant_id r) && String.eqb (st_user_id s) (sr_user_id r)
  && String.eqb (st_data_source_id s) (sr_data_source_id r)
  && String.eqb (st_question s) (strip (sr_question r)).

Definition start (r : StartRun) : M WorkflowResult :=
  snap ← state_of (sr_run_id r);
  match snap with
  | Thread existing _ =>
      if negb (same_request existing r) then raise WorkflowConflictError
      else inspect (sr_run_id r)
  | NoThread =>
      reply ← try_except
        (inl <$> invoke (CallInvoke (sr_run_id r) (initial_state r))
                   (invoke_new (sr_run_id r) (initial_state r)))
        (λ e,
          snap ← state_of (sr_run_id r);
          match _snapshot_error_code snap, snap with
          | Some _, Thread s _ => mret (inr (_snapshot_result (sr_run_id r) s snap))
          | _, _ => raise e
          end);
      match reply with
      | inl raw => mret (_result (sr_run_id r) raw)
      | inr failed => mret failed
      end
  end.

Definition resume (run_id tenant_id : string) (r : ApprovalResume) : M WorkflowResult :=
  snap ← state_of run_id;
  if is_nil (interrupts_of snap) then raise WorkflowConflictError
  else
    match snap with
    | NoThread => raise WorkflowIdentityError
    | Thread s _ =>
        if negb (String.eqb (st_run_id s) run_id) || negb (String.eqb (st_tenant_id s) tenant_id)
        then raise WorkflowIdentityError
        else
          raw ← invoke (CallResume run_id (resume_payload r)) (invoke_command run_id (resume_payload r));
          mret (_result run_id raw)
    end.
End Service.

(** ** api.py *)

Definition space_char : Ascii.ascii := byte 32.
Definition is_ascii (s : string) : bool := forallb (λ c, (c <? 128)%N) (cps s).

(** [secrets.compare_digest] on two strings. *)
Definition compare_digest (a b : string) : result exn bool :=
  if is_ascii a && is_ascii b then Ok (String.eqb a b) else Err TypeError.

(** [scheme, _, token = authorization.partition(" ")]. *)
Definition partition_space (s : string) : string * string :=
  match split_on space_char s with
  | [] => (EmptyString, EmptyString)
  | scheme :: rest => (scheme, join " " rest)
  end.

Definition authorize_service `{PyUnicode} (service_token authorization : string) : result exn unit :=
  let '(scheme, token) := partition_space authorization in
  if negb (String.eqb (lower scheme) "bearer") || String.eqb token EmptyString
  then Err (HTTPException 401)
  else
    same ← compare_digest token service_token;
    if same : bool then Ok tt else Err (HTTPException 401).

Section Api.
Context {W : Type} `{GraphRuntime W}.
Notation M := (eff W service_call exn).
(** [trace_id_from_traceparent], of the observability module. *)
Context (trace_id_from_traceparent : string → result exn string).

Definition trace_id (traceparent : string) : result exn string :=
  match trace_id_from_traceparent traceparent with
  | Err e => if is_value_error e then Err (HTTPException 400) else Err e
  | r => r
  end.

Definition start_run (job_id data_source_id question tenant_id user_id user_role traceparent : string) :
    M WorkflowResult :=
  try_except
    (t ← lift_result (trace_id traceparent);
     r ← lift_result (StartRun_validate {|
           sr_run_id := job_id; sr_tenant_id := tenant_id; sr_user_id := user_id;
           sr_role := user_role; sr_data_source_id := data_source_id; sr_trace_id := t;
           sr_question := question |});
     start r)
    (λ e, match e with WorkflowConflictError => raise (HTTPException 409) | e => raise e end).

Definition resume_run (run_id tenant_id user_role : string) (body : ApprovalResume) : M WorkflowResult :=
  if negb (String.eqb user_role "ADMIN") then raise (HTTPException 403)
  else
    try_except
      (r ← lift_result (ApprovalResume_validate body);
       resume run_id tenant_id r)
      (λ e, match e with
            | WorkflowConflictError => raise (HTTPException 409)
            | WorkflowIdentityError => raise (HTTPException 404)
            | e => raise e
            end).
End Api.

(** ** Runs *)

Section Runs.
Context {W : Type} `{GraphRuntime W}.
Notation M := (eff W service_call exn).

Definition is_invocation (c : service_call) : bool :=
  match c with CallGetState _ => false | _ => true end.

(** What the caller of [resume] must have shown. *)
Definition may_resume (run_id tenant : string) (snap : snapshot) : Prop :=
  interrupts_of snap ≠ [] ∧ ∃ s tasks, snap = Thread s tasks ∧ st_run_id s = run_id ∧ st_tenant_id s = tenant.

(** The graph is not invoked, or once for a caller who has shown it. *)
Lemma resume_spec run_id tenant r w :
  run_from w (resume run_id tenant r) (λ _ t out,
    (t = [CallGetState run_id] ∧ match (get_state run_id w).2 with
       | Err e => out = Err e
       | Ok snap => interrupts_of snap = [] ∧ out = Err WorkflowConflictError ∨
           ∃ s tasks, snap = Thread s tasks ∧ interrupts_of snap ≠ [] ∧
             (st_run_id s ≠ run_id ∨ st_tenant_id s ≠ tenant) ∧ out = Err WorkflowIdentityError
       end) ∨
    ∃ w1 s tasks, get_state run_id w = (w1, Ok (Thread s tasks)) ∧
      interrupts_of (Thread s tasks) ≠ [] ∧ st_run_id s = run_id ∧ st_tenant_id s = tenant ∧
      t = [CallGetState run_id; CallResume run_id (resume_payload r)] ∧
      match (invoke_command run_id (resume_payload r) w1).2 with
      | Ok raw => out = Ok (_result run_id raw)
      | Err e => out = Err e
      end).
Proof.
  unfold resume, state_of. apply from_bind, from_invoke. intros w1 [snap|e] Hget; rewrite Hget; [|by left].
  destruct (is_nil (interrupts_of snap)) eqn:Hnil.
  { apply from_raise. left. split; [done|]. left. split; [by destruct (interrupts_of snap)|done]. }
  assert (interrupts_of snap ≠ []) as Hint by (by destruct (interrupts_of snap)).
  destruct snap as [|s tasks]; [done|].
  destruct (negb _ || negb _) eqn:Hid.
  - apply from_raise. left. split; [done|]. right. exists s, tasks. split_and!; try done.
    apply orb_true_iff in Hid as [Hr%negb_true_iff%String.eqb_neq|Ht%negb_true_iff%String.eqb_neq]; first [by left|by right].
  - apply orb_false_iff in Hid as [Hr%negb_false_iff%String.eqb_eq Ht%negb_false_iff%String.eqb_eq].
    apply from_bind, from_invoke. intros w2 [raw|e] Hinv; [apply from_ret|]; right; exists w1, s, tasks;
      rewrite Hinv; by split_and!.
Qed.
End Runs.

(** ** Theorems *)

(** The meaning of a status: "waiting" exactly while the run is interrupted;
    otherwise a rejection or a blocked question makes it rejected, any other
    error code failed, a non-empty answer completed, and only a run with none
    of these is still planning. *)
Definition status_means (status : RunStatus) (s : AgentState) (interrupted : bool) : Prop :=
  match status with
  | WAITING_APPROVAL => interrupted = true
  | RunRejected => interrupted = false ∧
      (st_error_code s = Some "APPROVAL_REJECTED" ∨ st_sql_risk s = Some Blocked)
  | RunFailed => interrupted = false ∧ st_sql_risk s ≠ Some Blocked ∧
      ∃ c, st_error_code s = Some c ∧ c ≠ EmptyString ∧ c ≠ "APPROVAL_REJECTED"
  | COMPLETED => interrupted = false ∧ st_sql_risk s ≠ Some Blocked ∧
      (st_error_code s = None ∨ st_error_code s = Some EmptyString) ∧
      ∃ a, st_answer s = Some a ∧ a ≠ EmptyString
  | PLANNING => interrupted = false ∧ st_sql_risk s ≠ Some Blocked ∧
      (st_error_code s = None ∨ st_error_code s = Some EmptyString) ∧
      (st_answer s = None ∨ st_answer s = Some EmptyString)
  end.

Lemma truthy_Some o c : truthy o = Some c ↔ o = Some c ∧ c ≠ EmptyString.
Proof.
  destruct o as [t|]; cbn; [|naive_solver]. destruct (String.eqb_spec t EmptyString); naive_solver.
Qed.
Lemma truthy_None o : truthy o = None ↔ o = None ∨ o = Some EmptyString.
Proof. destruct o as [t|]; cbn; [|naive_solver]. destruct (String.eqb_spec t EmptyString); naive_solver. Qed.

Lemma status_correct s interrupted : status_means (_status s interrupted) s interrupted.
Proof.
  unfold _status. destruct interrupted; [done|].
  destruct (bool_decide_reflect (st_error_code s = Some "APPROVAL_REJECTED")) as [He|He]; [cbn; by auto|].
  destruct (bool_decide_reflect (st_sql_risk s = Some Blocked)) as [Hr|Hr]; [cbn; by auto|]. cbn [orb].
  destruct (truthy (st_error_code s)) as [c|] eqn:Ec.
  - apply truthy_Some in Ec as [Ec Hc]. split_and!; [done|done|]. exists c. split_and!; [done|done|congruence].
  - apply truthy_None in Ec. destruct (truthy (st_answer s)) as [a|] eqn:Ea.
    + apply truthy_Some in Ea as [Ea Ha]. split_and!; eauto.
    + apply truthy_None in Ea. by split_and!.
Qed.

(** The public code of a task's error text, [Name(...)]. *)
Definition error_name (text name : string) : Prop :=
  char_in open_paren name = false ∧ (text = name ∨ ∃ rest, text = name +:+ "(" +:+ rest).
Definition reported_code (text c : string) : Prop :=
  ∃ name, error_name text name ∧
    ((name, c) ∈ [("SchemaSelectionError", "NL2SQL_SCHEMA_SELECTION_FAILED");
       ("NL2SQLRepairExhaustedError", "NL2SQL_REPAIR_EXHAUSTED");
       ("NL2SQLPolicyError", "NL2SQL_QUESTION_REJECTED");
       ("LLMAuthenticationError", "LLM_AUTHENTICATION_ERROR");
       ("LLMConfigurationError", "LLM_CONFIGURATION_ERROR");
       ("LLMInvalidResponseError", "LLM_INVALID_RESPONSE");
       ("LLMRateLimitError", "LLM_RATE_LIMITED");
       ("LLMRequestRejectedError", "LLM_REQUEST_REJECTED");
       ("LLMTimeoutError", "LLM_TIMEOUT");
       ("LLMUnavailableError", "LLM_UNAVAILABLE")] ∨
     dict_get name error_codes = None ∧ c = "AGENT_WORKFLOW_FAILED").

Lemma before_paren_name text : error_name text (before_paren text).
Proof.
  unfold error_name, before_paren.
  pose proof (split_on_join open_paren text) as Hj. pose proof (split_on_no_sep open_paren text) as Hn.
  destruct (split_on open_paren text) as [|w l]; cbn in *; [by subst; auto|].
  apply Forall_cons in Hn as [Hw _]. split; [done|]. rewrite <-Hj.
  destruct l as [|w' l]; [by left|right]. eexists. reflexivity.
Qed.

Lemma reported_code_of text :
  reported_code text (default "AGENT_WORKFLOW_FAILED" (dict_get (before_paren text) error_codes)).
Proof.
  exists (before_paren text). split; [apply before_paren_name|].
  destruct (dict_get _ error_codes) as [c|] eqn:E; [left|by right].
  apply dict_get_elem; [|done]. by apply (bool_decide_unpack _); vm_compute.
Qed.

Definition no_error (t : task) : Prop := task_error t = None ∨ task_error t = Some EmptyString.

Lemma first_error_spec tasks :
  match first_error tasks with
  | None => Forall no_error tasks
  | Some text => ∃ before t after, tasks = before ++ t :: after ∧ Forall no_error before ∧
      task_error t = Some text ∧ text ≠ EmptyString
  end.
Proof.
  induction tasks as [|t tasks IH]; cbn; [constructor|]. destruct (truthy _) as [e|] eqn:E.
  - apply truthy_Some in E as [? ?]. by exists [], t, tasks.
  - apply truthy_None in E. destruct (first_error tasks); [|by constructor].
    destruct IH as (b & t' & a & -> & Hb & ? & ?). exists (t :: b), t', a. split_and!; [done|by constructor|done|done].
Qed.

(** The stored state under another error code. *)
Definition with_error_code (s : AgentState) (c : string) : AgentState := {|
  st_run_id := st_run_id s; st_tenant_id := st_tenant_id s; st_user_id := st_user_id s; st_role :=
  st_role s; st_data_source_id := st_data_source_id s; st_trace_id := st_trace_id s; st_question
  := st_question s; st_intent := st_intent s; st_candidate_tables := st_candidate_tables s;
  st_selection_confidence := st_selection_confidence s; st_schema_snapshot := st_schema_snapshot
  s; st_query_policy := st_query_policy s; st_metric_context := st_metric_context s;
  st_analysis_plan := st_analysis_plan s; st_sql := st_sql s; st_sql_fingerprint :=
  st_sql_fingerprint s; st_guarded_query := st_guarded_query s; st_sql_risk := st_sql_risk s;
  st_risk_reasons := st_risk_reasons s; st_approval_decision := st_approval_decision s; st_rows :=
  st_rows s; st_columns := st_columns s; st_result_truncated := st_result_truncated s; st_attempts
  := st_attempts s; st_answer := st_answer s; st_citations := st_citations s; st_chart_spec :=
  st_chart_spec s; st_error_code := Some c |}.

(** What is answered for a stored run: its state, with the code of the first
    failed task if there is one, its status and its open interrupt. *)
Record stored_run (run_id : string) (s : AgentState) (tasks : list task) (wr : WorkflowResult) : Prop := {
  stored_id : wr_run_id wr = run_id;
  stored_state :
    (Forall no_error tasks ∧ wr_state wr = s) ∨
    ∃ before t after text c, tasks = before ++ t :: after ∧ Forall no_error before ∧
      task_error t = Some text ∧ text ≠ EmptyString ∧ reported_code text c ∧
      wr_state wr = with_error_code s c;
  stored_status : ∃ waiting, status_means (wr_status wr) (wr_state wr) waiting ∧
    (waiting = true ↔ ∃ t, t ∈ tasks ∧ task_interrupts t ≠ []);
  stored_interrupt : ∀ payload, wr_interrupt wr = Some payload ↔
    ∃ d rest, concat (map task_interrupts tasks) = PDict d :: rest ∧ payload = PDict d
}.

Lemma interrupts_nil tasks :
  negb (is_nil (concat (map task_interrupts tasks))) = true ↔ ∃ t, t ∈ tasks ∧ task_interrupts t ≠ [].
Proof.
  induction tasks as [|t tasks IH]; cbn; [split; [done|by intros (? & ?%elem_of_nil & _)]|].
  destruct (task_interrupts t) as [|x l] eqn:E; cbn.
  - rewrite IH. setoid_rewrite elem_of_cons. naive_solver.
  - split; [|done]. intros _. exists t. split; [by left|]. by rewrite E.
Qed.

Lemma snapshot_result_stored run_id s tasks :
  stored_run run_id s tasks (_snapshot_result run_id s (Thread s tasks)).
Proof.
  unfold _snapshot_result, _snapshot_error_code, interrupts_of. cbn [snap_tasks].
  pose proof (first_error_spec tasks) as Hf. split; cbn [wr_run_id wr_state wr_status wr_interrupt].
  - done.
  - destruct (first_error tasks) as [text|]; cbn; [right|by left].
    destruct Hf as (b & t & a & ? & ? & ? & ?). exists b, t, a, text. eexists.
    split_and!; [done|done|done|done|apply reported_code_of|done].
  - eexists. split; [apply status_correct|apply interrupts_nil].
  - intros payload. destruct (concat _) as [|[]]; cbn; naive_solver.
Qed.

(** The bounds of the request body. *)
Definition approval_fits (r : ApprovalResume) : Prop :=
  1 ≤ py_len (approval_id r) ≤ 64 ∧ 1 ≤ py_len (decided_by r) ≤ 64 ∧
  ∀ c, comment r = Some c → py_len c ≤ 500.

(** A run waits while one of its tasks has an open interrupt. *)
Definition waits (tasks : list task) : Prop := ∃ t, t ∈ tasks ∧ task_interrupts t ≠ [].

(** What the two workflow errors become. *)
Definition http_error (e : exn) : exn :=
  match e with WorkflowConflictError => HTTPException 409 | WorkflowIdentityError => HTTPException 404 | _ => e end.

(** Why a resumption is turned away, after which calls and with what. *)
Inductive turned_away {W} `{GraphRuntime W} (run_id tenant role : string) (body : ApprovalResume) (w : W) :
    list service_call → exn → Prop :=
| away_role : role ≠ "ADMIN" → turned_away run_id tenant role body w [] (HTTPException 403)
| away_body : role = "ADMIN" → ¬ approval_fits body → turned_away run_id tenant role body w [] ValidationError
| away_unread w1 e : role = "ADMIN" → approval_fits body → get_state run_id w = (w1, Err e) →
    turned_away run_id tenant role body w [CallGetState run_id]
      (match e with WorkflowConflictError => HTTPException 409 | WorkflowIdentityError => HTTPException 404 | _ => e end)
| away_idle w1 snap : role = "ADMIN" → approval_fits body → get_state run_id w = (w1, Ok snap) →
    (∀ s tasks, snap = Thread s tasks → ¬ waits tasks) →
    turned_away run_id tenant role body w [CallGetState run_id] (HTTPException 409)
| away_other w1 s tasks : role = "ADMIN" → approval_fits body → get_state run_id w = (w1, Ok (Thread s tasks)) →
    waits tasks → st_run_id s ≠ run_id ∨ st_tenant_id s ≠ tenant →
    turned_away run_id tenant role body w [CallGetState run_id] (HTTPException 404).

(** A resumption that invoked the graph: the run was read once, in a state of
    the tenant with an open interrupt, the graph got the decision, and its
    reply is the outcome. *)
Definition resumed {W} `{GraphRuntime W} (run_id tenant : string) (body : ApprovalResume) (w : W)
    (t : list service_call) (out : result exn WorkflowResult) : Prop :=
  ∃ w1 s tasks payload, get_state run_id w = (w1, Ok (Thread s tasks)) ∧
    st_run_id s = run_id ∧ st_tenant_id s = tenant ∧ waits tasks ∧
    payload = PDict [("approval_id", PStr (approval_id body));
      ("decision", PStr (match resume_decision body with Approved => "approved" | Rejected => "rejected" end));
      ("decided_by", PStr (decided_by body));
      ("comment", match comment body with Some c => PStr c | None => PNone end)] ∧
    t = [CallGetState run_id; CallResume run_id payload] ∧
    match (invoke_command run_id payload w1).2 with
    | Ok raw => ∃ wr, out = Ok wr ∧ wr_run_id wr = run_id ∧ wr_state wr = inv_state raw ∧
        status_means (wr_status wr) (inv_state raw) (negb (is_nil (inv_interrupts raw))) ∧
        (∀ shown, wr_interrupt wr = Some shown ↔
           ∃ d rest, inv_interrupts raw = PDict d :: rest ∧ shown = PDict d)
    | Err WorkflowConflictError => out = Err (HTTPException 409)
    | Err WorkflowIdentityError => out = Err (HTTPException 404)
    | Err e => out = Err e
    end.

Lemma approval_fits_spec body :
  between 1 (py_len (approval_id body)) 64 && between 1 (py_len (decided_by body)) 64
    && default true ((λ c, py_len c <=? 500) <$> comment body) = true ↔ approval_fits body.
Proof.
  unfold approval_fits, between. rewrite !andb_true_iff, !Nat.leb_le.
  destruct (comment body) as [c|]; cbn; rewrite ?Nat.leb_le; naive_solver.
Qed.

Lemma result_shown run_id raw : 
  let wr := _result run_id raw in
  wr_run_id wr = run_id ∧ wr_state wr = inv_state raw ∧
  status_means (wr_status wr) (inv_state raw) (negb (is_nil (inv_interrupts raw))) ∧
  (∀ shown, wr_interrupt wr = Some shown ↔
     ∃ d rest, inv_interrupts raw = PDict d :: rest ∧ shown = PDict d).
Proof.
  split_and!; [done|done|apply status_correct|]. intros shown. cbn.
  destruct (inv_interrupts raw) as [|[]]; cbn; naive_solver.
Qed.

Lemma waits_interrupts s tasks : interrupts_of (Thread s tasks) ≠ [] ↔ waits tasks.
Proof.
  unfold waits. rewrite <-interrupts_nil. unfold interrupts_of. cbn [snap_tasks]. by destruct (concat _).
Qed.

Lemma resume_run_spec W (G : GraphRuntime W) run_id tenant role body w :
  run_from w (resume_run run_id tenant role body) (λ _ t out,
    (∃ e, out = Err e ∧ turned_away run_id tenant role body w t e) ∨
    role = "ADMIN" ∧ approval_fits body ∧ resumed run_id tenant body w t out).
Proof.
  unfold resume_run. destruct (String.eqb_spec role "ADMIN") as [->|Hrole]; cbn [negb];
    [|apply from_raise; left; eexists; split; [done|by apply away_role]].
  apply from_try, from_bind, from_lift. unfold ApprovalResume_validate.
  destruct (_ && _ && _) eqn:Hfit.
  2:{ apply from_raise. left. eexists. split; [done|]. apply away_body; [done|].
      rewrite <-approval_fits_spec. congruence. }
  apply approval_fits_spec in Hfit. refine (from_conseq _ _ _ _ (resume_spec run_id tenant body w) _).
  intros w' t out [[-> Hno]|(w1 & s & tasks & Hget & Hint & Hr & Ht & -> & Hout)].
  - assert (∀ e x, out = Err e → x = http_error e →
      turned_away run_id tenant "ADMIN" body w [CallGetState run_id] x →
      match out with
      | Ok _ => False
      | Err e => run_from w' match e with
          | WorkflowConflictError => raise (HTTPException 409)
          | WorkflowIdentityError => raise (HTTPException 404)
          | e => raise e end (λ _ t' out', (∃ e, out' = Err e ∧
            turned_away run_id tenant "ADMIN" body w ([CallGetState run_id] ++ t') e) ∨
            "ADMIN" = "ADMIN" ∧ approval_fits body ∧ resumed run_id tenant body w ([CallGetState run_id] ++ t') out')
      end) as Hdone.
    { intros e x -> -> Haway. destruct e; apply from_raise; left; eexists; (split; [done|]); exact Haway. }
    destruct (get_state run_id w) as [w1 [snap|e]] eqn:Hget; cbn in Hno.
    + destruct Hno as [[Hnil ->]|(s & tasks & -> & Hint & Hid & ->)].
      * apply (Hdone _ (HTTPException 409) eq_refl eq_refl). eapply away_idle; [done..|].
        intros s tasks -> Hw%(waits_interrupts s). done.
      * apply (Hdone _ (HTTPException 404) eq_refl eq_refl). apply waits_interrupts in Hint.
        by eapply away_other.
    + subst out. refine (Hdone _ _ eq_refl eq_refl _). by eapply away_unread.
  - assert (∀ x, match (invoke_command run_id (resume_payload body) w1).2 with
      | Ok raw => x = Ok (_result run_id raw)
      | Err WorkflowConflictError => x = Err (HTTPException 409)
      | Err WorkflowIdentityError => x = Err (HTTPException 404)
      | Err e => x = Err e
      end → resumed run_id tenant body w [CallGetState run_id; CallResume run_id (resume_payload body)] x) as Hx.
    { intros x Hx. exists w1, s, tasks, (resume_payload body). apply waits_interrupts in Hint.
      split_and!; try done. destruct (invoke_command _ _ _).2 as [raw|e]; [|by destruct e].
      eexists. split; [done|]. apply result_shown. }
    destruct (invoke_command run_id (resume_payload body) w1).2 as [raw|e]; subst out.
    + right. split_and!; [done..|]. by apply Hx.
    + destruct e; apply from_raise; right; (split_and!; [done..|]); by apply Hx.
Qed.

(** C17: starting a run id that exists never invokes the graph.  When the
    stored run has another tenant, user, data source or question (the request's
    without surrounding blanks), the start is a conflict after one read of the
    stored run; otherwise the stored run is read again and its own state,
    status and open interrupt are the answer, with the code of its first failed
    task if it has one. *)
Theorem start_idempotent : ∀ W (G : GraphRuntime W) r w w1 s tasks,
  get_state (sr_run_id r) w = (w1, Ok (Thread s tasks)) →
  let same := st_tenant_id s = sr_tenant_id r ∧ st_user_id s = sr_user_id r ∧
              st_data_source_id s = sr_data_source_id r ∧ st_question s = strip (sr_question r) in
  (¬ same → trace (start r) w = [CallGetState (sr_run_id r)] ∧
     outcome (start r) w = Err WorkflowConflictError) ∧
  (same → trace (start r) w = [CallGetState (sr_run_id r); CallGetState (sr_run_id r)] ∧
     match (get_state (sr_run_id r) w1).2 with
     | Err e => outcome (start r) w = Err e
     | Ok NoThread => outcome (start r) w = Err KeyError
     | Ok (Thread s' tasks') => ∃ wr, outcome (start r) w = Ok wr ∧ stored_run (sr_run_id r) s' tasks' wr
     end).
Proof.
  intros W G r w w1 s tasks Hget same. unfold start, state_of, inspect, trace, outcome, invoke, mbind, eff_bind.
  rewrite Hget. assert (same_request s r = true ↔ same) as Hsame.
  { unfold same_request, same. rewrite !andb_true_iff, !String.eqb_eq. tauto. }
  destruct (same_request s r); cbn [negb]; (split; [intros Hno|intros Hyes]);
    [exfalso; by apply Hno, Hsame| |done|apply Hsame in Hyes; discriminate].
  unfold state_of, invoke, mbind, eff_bind.
  destruct (get_state (sr_run_id r) w1) as [w2 [[|s' ts]|e]]; cbn; (split; [done|]); try done.
  eexists. split; [done|]. apply snapshot_result_stored.
Qed.

(** C18: a resumption goes exactly one of two ways.  It is turned away, with
    the status of its reason and without the graph: a caller who is no
    administrator (403) or an invalid decision before anything is read; after
    one read of the stored run an error of the checkpoint, a run none of whose
    tasks waits for an approval (409), or a run of another id or tenant (404).
    Or, for an administrator with a valid decision and a waiting run of that
    id and tenant, the stored run is read once, the graph is invoked once, with
    the decision of the request body, and its reply is the outcome: the state,
    its status and the interrupt that is open now, or its error. *)
Theorem resume_guarded : ∀ W (G : GraphRuntime W) run_id tenant role body w,
  (∃ e, outcome (resume_run run_id tenant role body) w = Err e ∧
     turned_away run_id tenant role body w (trace (resume_run run_id tenant role body) w) e) ∨
  role = "ADMIN" ∧ approval_fits body ∧
    resumed run_id tenant body w (trace (resume_run run_id tenant role body) w)
      (outcome (resume_run run_id tenant role body) w).
Proof. intros W G run_id tenant role body w. apply resume_run_spec. Qed.

(** The status of every run has its meaning. *)
Theorem status_spec : ∀ s interrupted, status_means (_status s interrupted) s interrupted.
Proof. exact status_correct. Qed.

(** The failure table of the service agrees with the classes' own codes:
    a task error of a question or model class is reported under the code the
    class declares, any other under the generic one. *)
Theorem error_codes_agree : ∀ e,
  match dict_get (class_name e) error_codes with
  | Some c => code e = Some c ∨ ∃ n, e = OtherException n
  | None => is_llm_error e = false ∧ is_nl2sql_error e = false
  end.
Proof.
  intros e. destruct e; try (vm_compute; auto; fail).
  cbn [Errors.class_name]. destruct (dict_get _ _); [right; eauto|done].
Qed.

(** A failure of a new run is reported as a failed run once the checkpoint
    holds the error, while the same failure of a resumed run escapes to the
    caller. *)
Theorem failures_after_resume_escape : ∀ W (G : GraphRuntime W) run_id tenant r w w' w'' s tasks e,
  get_state run_id w = (w', Ok (Thread s tasks)) → may_resume run_id tenant (Thread s tasks) →
  invoke_command run_id (resume_payload r) w' = (w'', Err e) →
  outcome (resume run_id tenant r) w = Err e.
Proof.
  intros W G run_id tenant r w w' w'' s tasks e Hget (Hint & s' & tasks' & [= <- <-] & Hr & Ht) Hinv.
  unfold resume, state_of, invoke, outcome, mbind, eff_bind. rewrite Hget.
  destruct (is_nil _) eqn:E; [by destruct (interrupts_of _)|].
  rewrite Hr, Ht, !String.eqb_refl. cbn. by rewrite Hinv.
Qed.

(** One stored run that waits for an approval and fails when resumed. *)
Definition demo_runtime (fails : bool) : GraphRuntime unit := {|
  get_state _ w := (w, Ok (Thread (initial_state demo_start)
    [{| task_error := None; task_interrupts := [PDict [("run_id", PStr "run")]] |}]));
  invoke_new _ _ w := (w, Err RuntimeError);
  invoke_command _ _ w :=
    (w, if fails then Err LLMTimeoutError
        else Ok {| inv_state := initial_state demo_start; inv_interrupts := [] |}) |}.
Definition demo_tasks : list task :=
  [{| task_error := None; task_interrupts := [PDict [("run_id", PStr "run")]] |}].
Definition demo_approval : ApprovalResume := {|
  approval_id := "approval"; resume_decision := Approved; decided_by := "admin"; comment := None |}.

Lemma start_idempotent_witness :
  trace (start (H := demo_runtime true) demo_start) tt = [CallGetState "run"; CallGetState "run"] ∧
  ∃ wr, outcome (start (H := demo_runtime true) demo_start) tt = Ok wr ∧
    stored_run "run" (initial_state demo_start) demo_tasks wr.
Proof.
  refine (proj2 (start_idempotent unit (demo_runtime true) demo_start tt tt (initial_state demo_start)
    demo_tasks eq_refl) _).
  by split_and!.
Defined.

(** The second alternative of [resume_guarded] holds for a waiting run. *)
Example demo_resumed :
  trace (resume_run (H := demo_runtime false) "run" "tenant" "ADMIN" demo_approval) tt
    = [CallGetState "run"; CallResume "run" (resume_payload demo_approval)].
Proof. vm_compute. reflexivity. Qed.

Lemma failures_after_resume_escape_witness :
  outcome (resume (H := demo_runtime true) "run" "tenant" demo_approval) tt = Err LLMTimeoutError.
Proof.
  apply (failures_after_resume_escape unit (demo_runtime true) "run" "tenant" demo_approval tt tt tt
    (initial_state demo_start) demo_tasks LLMTimeoutError); [reflexivity| |reflexivity].
  split; [discriminate|]. by exists (initial_state demo_start), demo_tasks.
Defined.
