(* ===== verification/Observability.v ===== *)
(** * Trace identifiers, route labels and metrics: [app/observability.py]

    The Prometheus counters and the tracer are libraries: what the code tells
    them is a call. *)

From S2P Require Import Prelude PyStr Floats Errors Json Metadata.

Definition is_hex_upper (c : N) : bool := is_hex_char c || ((65 <=? c) && (c <=? 70))%N.

(** [[0-9a-f]{n}], as a full match. *)
Definition hex_n (n : nat) (l : list N) : bool := (length l =? n) && forallb is_hex_char l.
Definition zeros (n : nat) : list N := replicate n 48%N.

Definition dash : Ascii.ascii := byte 45.

Section Trace.
Context `{PyUnicode} `{Digests}.

Definition trace_id_from_traceparent (value : string) : result exn string :=
  match split_on dash (lower value) with
  | [version; trace; parent; flags] =>
      if negb (String.eqb version "00") || negb (hex_n 32 (cps trace))
         || bool_decide (cps trace = zeros 32) || negb (hex_n 16 (cps parent))
         || bool_decide (cps parent = zeros 16) || negb (hex_n 2 (cps flags))
      then Err ValueError else Ok trace
  | _ => Err ValueError
  end.

Definition normalize_trace_id (value : string) : string :=
  let lowered := lower value in
  if hex_n 32 (cps lowered) && negb (bool_decide (cps lowered = zeros 32)) then lowered
  else encode (take 32 (cps (sha256_hex value))).
End Trace.

(** The longest prefix of characters in [p]. *)
Fixpoint run_length (p : N → bool) (l : list N) : nat :=
  match l with c :: l => if p c then S (run_length p l) else 0 | [] => 0 end.

(** One match of [[0-9a-fA-F]{8}-[0-9a-fA-F-]{27,36}] at the head: what follows it. *)
Definition uuid_match (l : list N) : option (list N) :=
  let tail_length := run_length (λ c, is_hex_upper c || (c =? 45)%N) (drop 9 l) in
  if (8 <=? run_length is_hex_upper (take 8 l)) && bool_decide (head (drop 8 l) = Some 45%N)
     && (27 <=? tail_length)
  then Some (drop (9 + Nat.min tail_length 36) l) else None.

(** [_UUID.sub("{id}", path)], leftmost matches first. *)
Fixpoint sub_uuid (fuel : nat) (l : list N) : list N :=
  match fuel, l with
  | S fuel, c :: l' =>
      match uuid_match l with
      | Some rest => cps "{id}" ++ sub_uuid fuel rest
      | None => c :: sub_uuid fuel l'
      end
  | _, _ => []
  end.
Definition _safe_route (path : string) : string :=
  encode (take 160 (sub_uuid (length (cps path)) (cps path))).

(** ** Theorems *)

Lemma hex_n_spec n l : hex_n n l = true ↔ length l = n ∧ ∀ c, c ∈ l → is_hex_char c = true.
Proof. unfold hex_n. rewrite andb_true_iff, Nat.eqb_eq, list_forallb_spec. done. Qed.

Lemma cps_take_encode n l : Forall valid_cp l → cps (encode (take n l)) = take n l.
Proof. intros Hl. apply cps_encode. by apply Forall_take. Qed.

Lemma hex_valid c : is_hex_char c = true → valid_cp c.
Proof.
  unfold is_hex_char, is_digit, valid_cp.
  intros [[_ ?%N.leb_le]%andb_true_iff|[_ ?%N.leb_le]%andb_true_iff]%orb_true_iff; lia.
Qed.

(** An accepted traceparent is version 00 with a lower-case trace id of 32
    hex digits, a parent id of 16 and two flag digits, neither id all zero,
    and the trace id is returned; the trace id of any text is 32 hex digits. *)
Theorem trace_ids_wellformed : ∀ (U : PyUnicode) (D : Digests),
  (∀ value t, trace_id_from_traceparent value = Ok t ↔
     ∃ parent flags, split_on dash (lower value) = ["00"; t; parent; flags] ∧
       hex_n 32 (cps t) = true ∧ cps t ≠ zeros 32 ∧ hex_n 16 (cps parent) = true ∧
       cps parent ≠ zeros 16 ∧ hex_n 2 (cps flags) = true) ∧
  (∀ value e, trace_id_from_traceparent value = Err e → e = ValueError) ∧
  (∀ value, hex_n 32 (cps (normalize_trace_id value)) = true).
Proof.
  intros U D. split_and!.
  - intros value t. unfold trace_id_from_traceparent.
    destruct (split_on dash (lower value)) as [|v [|t' [|parent [|flags [|]]]]];
      try (split; [done|by intros (? & ? & ? & _)]).
    set (bad := _ || _). assert (bad = false ↔ v = "00" ∧ hex_n 32 (cps t') = true ∧ cps t' ≠ zeros 32 ∧
      hex_n 16 (cps parent) = true ∧ cps parent ≠ zeros 16 ∧ hex_n 2 (cps flags) = true) as Hbad.
    { unfold bad. rewrite !orb_false_iff, !negb_false_iff, !bool_decide_eq_false, String.eqb_eq. tauto. }
    destruct bad.
    + split; [done|]. intros (p & f & [= -> -> -> ->] & Hok).
      discriminate (proj2 Hbad (conj eq_refl Hok)).
    + destruct (proj1 Hbad eq_refl) as [-> Hok]. split; [intros [= <-]; eauto|].
      by intros (p & f & [= -> -> ->] & _).
  - intros value e. unfold trace_id_from_traceparent.
    destruct (split_on dash (lower value)) as [|v [|t' [|parent [|flags [|]]]]]; try by intros [= <-].
    destruct (_ || _); by intros [= <-].
  - intros value. unfold normalize_trace_id. destruct (hex_n 32 _ && _) eqn:E.
    { by apply andb_true_iff in E as [-> _]. }
    pose proof (sha256_hex_ok value) as [Hhex Hlen%Nat.eqb_eq]%andb_true_iff.
    rewrite list_forallb_spec in Hhex. rewrite cps_take_encode.
    + apply hex_n_spec. rewrite length_take, Hlen. split; [done|].
      intros c Hc. apply Hhex. by eapply elem_of_take in Hc as (i & ?%list_elem_of_lookup_2 & _).
    + apply Forall_forall. intros c Hc. by apply hex_valid, Hhex.
Qed.

Example safe_route_example :
  _safe_route "/runs/123e4567-e89b-12d3-a456-426614174000/resume" = "/runs/{id}/resume".
Proof. vm_compute. done. Qed.

(** ** Metrics and spans *)

(** [SpanContext(is_remote=True, trace_flags=SAMPLED)]. *)
Record span_context := { sc_trace_id : Z; sc_span_id : Z }.

Inductive obs_call :=
| CallNext
| CountRequest (method route status : string)
| ObserveDuration (method route : string) (seconds : float)
| CountTokens (provider model direction : string) (tokens : Z)
| SetTracer (resource : list (string * string)) (exporter : option string)
| StartSpan (name node : string) (parent : span_context)
| MarkError (error_code : string)
| EndSpan.

(** The collectors of the module; a counter has no buckets. *)
Record metric := { metric_name : string; metric_labels : list string; metric_buckets : list float }.
Definition HTTP_REQUESTS : metric := {|
  metric_name := "copilot_agent_http_requests_total"; metric_labels := ["method"; "route"; "status"];
  metric_buckets := [] |}.
Definition HTTP_DURATION : metric := {|
  metric_name := "copilot_agent_http_request_duration_seconds"; metric_labels := ["method"; "route"];
  metric_buckets := [decimal 1 2; decimal 25 3; decimal 5 2; decimal 1 1; decimal 25 2; decimal 5 1; f_of_Z 1;
    decimal 25 1; f_of_Z 5; f_of_Z 10; f_of_Z 30; f_of_Z 60] |}.
Definition NODE_DURATION : metric := {|
  metric_name := "copilot_agent_node_duration_seconds"; metric_labels := ["node"; "status"];
  metric_buckets := [decimal 5 3; decimal 1 2; decimal 25 3; decimal 5 2; decimal 1 1; decimal 25 2; decimal 5 1;
    f_of_Z 1; decimal 25 1; f_of_Z 5; f_of_Z 10; f_of_Z 30] |}.
Definition NODE_ERRORS : metric := {|
  metric_name := "copilot_agent_node_errors_total"; metric_labels := ["node"; "error_code"]; metric_buckets := [] |}.
Definition MODEL_TOKENS : metric := {|
  metric_name := "copilot_agent_model_tokens_total"; metric_labels := ["provider"; "model"; "direction"];
  metric_buckets := [] |}.
Definition SQL_REJECTIONS : metric := {|
  metric_name := "copilot_agent_sql_rejections_total"; metric_labels := ["reason_code"]; metric_buckets := [] |}.

(** The collector and the label values of an update. *)
Definition update_of (c : obs_call) : option (metric * list string) :=
  match c with
  | CountRequest method route status => Some (HTTP_REQUESTS, [method; route; status])
  | ObserveDuration method route _ => Some (HTTP_DURATION, [method; route])
  | CountTokens provider model direction _ => Some (MODEL_TOKENS, [provider; model; direction])
  | _ => None
  end.
(** What prometheus_client accepts: a value per label, buckets that grow,
    and no negative increment. *)
Definition update_accepted (c : obs_call) : bool :=
  match update_of c with
  | Some (m, values) => length values =? length (metric_labels m)
  | None => true
  end && match c with CountTokens _ _ _ n => (0 <=? n)%Z | _ => true end.
Fixpoint increasing (l : list float) : bool :=
  match l with x :: (y :: _) as l' => fltb x y && increasing l' | _ => true end.

Example collectors_wellformed :
  forallb (λ m, increasing (metric_buckets m) && all_distinct (metric_labels m))
    [HTTP_REQUESTS; HTTP_DURATION; NODE_DURATION; NODE_ERRORS; MODEL_TOKENS; SQL_REJECTIONS] = true.
Proof. vm_compute. reflexivity. Qed.

(** [int(text, 16)] for the lower-case digits of a trace id. *)
Definition hex_cp_value (c : N) : Z := Z.of_N (if is_digit c then c - 48 else c - 87)%N.
Definition int_16 (text : string) : Z := fold_left (λ z c, 16 * z + hex_cp_value c)%Z (cps text) 0%Z.

Section Metrics.
Context {W : Type} (perf_counter : W → W * float).
Notation M := (eff W obs_call exn).

(** The path template of the matched route, or the path without ids. *)
Definition route_label (route : option string) (path : string) : string :=
  match route with
  | Some template => if String.eqb template EmptyString then _safe_route path else template
  | None => _safe_route path
  end.

(** [try ... finally]: the status is 500 until the response is there. *)
Definition observe_http (route : option string) (method path : string) (call_next : op W exn Z) : M Z :=
  started ← silent perf_counter;
  reply ← try_except (status ← invoke CallNext call_next; mret (Ok status)) (λ e, mret (Err e));
  let label := route_label route path in
  let name := upper_ascii method in
  _ ← log_call (CountRequest name label (str_of_Z match reply with Ok status => status | Err _ => 500 end));
  now ← silent perf_counter;
  _ ← log_call (ObserveDuration name label (fmax fzero (fsub now started)));
  lift_result reply.

(** The span of a node; [randbits] is [secrets.randbits(64)], and the span
    ends with the block. *)
Definition agent_node_span `{PyUnicode} `{Digests} {A} (randbits : W → W * Z) (node trace_id : string)
    (body : M A) : M A :=
  bits ← silent randbits;
  _ ← log_call (StartSpan ("agent.node." +:+ node) node
                  {| sc_trace_id := int_16 (normalize_trace_id trace_id); sc_span_id := Z.max 1 bits |});
  finally body (λ _, log_call EndSpan).

Definition mark_span_error (error_code : string) : M unit := log_call (MarkError error_code).

Definition record_model_tokens (provider model : string) (input_tokens output_tokens : option Z) : M unit :=
  _ ← match input_tokens with Some n => log_call (CountTokens provider model "input" n) | None => mret tt end;
  match output_tokens with Some n => log_call (CountTokens provider model "output" n) | None => mret tt end.
End Metrics.

Record tracing_settings := {
  tr_enabled : bool; tr_endpoint : option string; tr_service : string; tr_version : string;
  tr_environment : string }.

(** The module's [_configured] flag is the state. *)
Definition configure_observability (s : tracing_settings) : eff bool obs_call exn unit := λ configured,
  if configured || negb (tr_enabled s) then (configured, [], Ok tt)
  else (true,
        [SetTracer [("service.name", tr_service s); ("service.version", tr_version s);
                    ("deployment.environment.name", tr_environment s)]
           ((λ endpoint, rstrip_slash endpoint +:+ "/v1/traces") <$> tr_endpoint s)],
        Ok tt).

(** Every request is counted once and timed once under the same labels,
    after its handler ended; the status is the response's, or 500 for an
    exception, which is raised again; and a label that is not a route
    template has at most 160 characters. *)
Theorem observe_http_spec : ∀ {W : Type} (clock : W → W * float) route method path call_next,
  sat (observe_http clock route method path call_next) (λ t r, ∃ seconds,
    let label := route_label route path in
    t = [CallNext;
         CountRequest (upper_ascii method) label (match r with Ok s => str_of_Z s | Err _ => "500" end);
         ObserveDuration (upper_ascii method) label seconds] ∧
    (route = Some label ∨ ∃ l, label = encode (take 160 l))).
Proof.
  intros W clock route method path call_next. cbv zeta.
  assert (route = Some (route_label route path) ∨ ∃ l, route_label route path = encode (take 160 l)) as Hlabel.
  { unfold route_label, _safe_route. destruct route as [template|]; [|right; by eexists].
    destruct (String.eqb template EmptyString); [right; by eexists|by left]. }
  apply sat_bind, sat_silent_op. intros started. cbn [app]. apply sat_bind, sat_try, sat_bind, sat_invoke.
  intros [status|e]; apply sat_ret; cbn [app]; apply sat_bind, sat_log; cbn [app];
    apply sat_bind, sat_silent_op; intros now; cbn [app]; apply sat_bind, sat_log; cbn [app];
    apply sat_lift; by eexists.
Qed.

(** No update of a request or of a model's tokens is refused, as long as no
    provider reports a negative number of them. *)
Lemma updates_accepted {W : Type} (clock : W → W * float) route method path call_next provider model i o :
  calls (λ c, update_accepted c = true) (observe_http clock route method path call_next) ∧
  ((∀ n, i = Some n ∨ o = Some n → (0 ≤ n)%Z) →
   calls (λ c, update_accepted c = true) (record_model_tokens provider model i o : eff W obs_call exn unit)).
Proof.
  split.
  - unfold observe_http. cbv zeta. repeat first [calls_step | done | apply sat_log, Forall_singleton, eq_refl].
  - intros Hn. unfold record_model_tokens.
    assert (∀ d n, (0 ≤ n)%Z → calls (λ c, update_accepted c = true)
      (log_call (CountTokens provider model d n) : eff W obs_call exn unit)) as Hlog.
    { intros d n H0. apply sat_log, Forall_singleton. cbn. by apply Z.leb_le. }
    apply calls_bind; [destruct i|intros ?; destruct o]; try apply calls_ret; apply Hlog, Hn; auto.
Qed.

(** The tracer is set at most once, whatever is configured afterwards. *)
Lemma configure_once s1 s2 configured :
  let '(state, t, _) := (_ ← configure_observability s1; configure_observability s2) configured in
  length t ≤ 1 ∧ (configured = true → t = []) ∧ (tr_enabled s1 || tr_enabled s2 || configured = state).
Proof. by destruct configured, s1 as [[] ? ? ? ?], s2 as [[] ? ? ? ?]; vm_compute; split_and!; auto. Qed.

Lemma int_16_bound l : forallb is_hex_char l = true → ∀ z, (0 ≤ z)%Z →
  (0 ≤ fold_left (λ z c, 16 * z + hex_cp_value c) l z < (z + 1) * 16 ^ Z.of_nat (length l))%Z.
Proof.
  induction l as [|c l IH]; intros Hl z Hz; cbn [fold_left length].
  { rewrite Z.pow_0_r. lia. }
  cbn [forallb] in Hl. apply andb_true_iff in Hl as [Hc Hl].
  assert (0 ≤ hex_cp_value c < 16)%Z as Hv.
  { unfold hex_cp_value, is_hex_char in *. destruct (is_digit c) eqn:E.
    - unfold is_digit in E. apply andb_true_iff in E as [?%N.leb_le ?%N.leb_le]. lia.
    - cbn [orb] in Hc. apply andb_true_iff in Hc as [?%N.leb_le ?%N.leb_le]. lia. }
  rewrite Nat2Z.inj_succ, Z.pow_succ_r by lia.
  destruct (IH Hl (16 * z + hex_cp_value c)%Z ltac:(lia)) as [H0 H1]. split; [done|].
  assert (0 < 16 ^ Z.of_nat (length l))%Z by (apply Z.pow_pos_nonneg; lia). nia.
Qed.

(** Whatever trace id a request carries, the parent of a node's span is a
    128-bit id, with a span id that is not zero, and the span ends after its
    block. *)
Theorem agent_node_span_spec : ∀ (U : PyUnicode) (D : Digests) {W A : Type} (randbits : W → W * Z)
    node trace_id (body : eff W obs_call exn A),
  sat (agent_node_span randbits node trace_id body) (λ t r, ∃ parent calls,
    t = StartSpan ("agent.node." +:+ node) node parent :: calls ++ [EndSpan] ∧
    (0 ≤ sc_trace_id parent < 2 ^ 128)%Z ∧ (1 ≤ sc_span_id parent)%Z).
Proof.
  intros U D W A randbits node trace_id body. apply sat_bind, sat_silent_op. intros bits.
  apply sat_bind, sat_log. cbn [app]. apply sat_finally. intros w. apply sat_log.
  eexists _, _. split; [reflexivity|]. cbn [sc_trace_id sc_span_id]. split; [|lia].
  pose proof (proj2 (proj2 (trace_ids_wellformed U D)) trace_id) as [Hlen%Nat.eqb_eq Hhex]%andb_true_iff.
  pose proof (int_16_bound _ Hhex 0 ltac:(lia)) as Hb. rewrite Hlen in Hb. exact Hb.
Qed.
