(* ===== verification/Parsing.v ===== *)
(** * Documents and chunks: [app/retrieval/parsing.py]

    Markdown sections and bounded, overlapping chunks, on code points.  PDF
    text extraction is pypdf's: an operation that yields the page texts. *)

From S2P Require Import Prelude PyStr Floats Errors Json.

Record DocumentSection := {
  section_key : string; section_title : string; source_locator : string; section_content : string }.

Definition DocumentSection_make (s : DocumentSection) : result exn DocumentSection :=
  let within n lo hi := (lo <=? n) && (n <=? hi) in
  if within (py_len (section_key s)) 1 500 && within (py_len (section_title s)) 1 500
     && within (py_len (source_locator s)) 1 120
     && within (py_len (section_content s)) 1 (Z.to_nat 100000)
  then Ok s else Err ValidationError.

(** ** Text helpers *)

(** [payload.decode("utf-8")]; [None] is [UnicodeDecodeError]. *)
Definition decode_utf8 (payload : string) : option (list N) :=
  let l := cps payload in
  if String.eqb (encode l) payload
     && forallb (λ c, (c <? 1114112)%N && negb ((55296 <=? c) && (c <=? 57343))%N) l
  then Some l else None.

(** The line boundaries of [str.splitlines]. *)
Definition is_line_break (c : N) : bool :=
  ((10 <=? c) && (c <=? 13) || (28 <=? c) && (c <=? 30) || (c =? 133) || (c =? 8232) || (c =? 8233))%N.
Fixpoint splitlines_from (line : list N) (l : list N) : list (list N) :=
  match l with
  | [] => match line with [] => [] | _ => [rev line] end
  | c :: l' =>
      if is_line_break c then
        match (c =? 13)%N, l' with
        | true, 10%N :: l'' => rev line :: splitlines_from [] l''
        | _, _ => rev line :: splitlines_from [] l'
        end
      else splitlines_from (c :: line) l'
  end.
Definition splitlines (l : list N) : list (list N) := splitlines_from [] l.

(** [PurePath(name).stem]. *)
Definition slash : Ascii.ascii := byte 47.
Definition path_name (p : string) : list N :=
  default [] (last (List.filter (λ c, negb (bool_decide (c = []) || bool_decide (c = [46%N])))
                      (map cps (split_on slash p)))).
Definition last_dot (l : list N) : option nat :=
  last (List.filter (λ i, bool_decide (l !! i = Some 46%N)) (seq 0 (length l))).
Definition path_stem (p : string) : list N :=
  let name := path_name p in
  match last_dot name with
  | Some i => if (0 <? i) && (i <? length name - 1) then take i name else name
  | None => name
  end.

(** The [_HEADING] pattern: one to six hashes, white space, a title up to
    trailing white space.  A title that is all white space needs one
    character of it for the group. *)
Fixpoint leading_hashes (l : list N) : nat :=
  match l with
  | 35%N :: l => S (leading_hashes l)
  | _ => 0
  end.
Definition heading_of (line : list N) : option (list N) :=
  let n := leading_hashes line in
  if (1 <=? n) && (n <=? 6) then
    match drop n line with
    | c :: rest =>
        if is_space c then
          match strip_cps rest with
          | [] => match rest with [] => None | _ => Some [] end
          | title => Some title
          end
        else None
    | [] => None
    end
  else None.

Section Parsing.
Context `{PyUnicode}.

(** [re.sub(r"[^\w\u4e00-\u9fff]+", "-", text)]; runs become one dash. *)
Fixpoint slug_from (in_run : bool) (l : list N) : list N :=
  match l with
  | [] => []
  | c :: l =>
      if is_word c || is_cjk c then c :: slug_from false l
      else if in_run then slug_from true l else 45%N :: slug_from true l
  end.
Definition strip_dashes (l : list N) : list N :=
  rev (drop_while (N.eqb 45) (rev (drop_while (N.eqb 45) l))).

Definition _section_key (source_name heading : string) (ordinal : nat) : string :=
  let slug := strip_dashes (slug_from false (cps (lower heading))) in
  source_name +:+ "#" +:+
    match slug with [] => "section-" +:+ str_of_nat (ordinal + 1) | _ => encode slug end.

Record parse_state := {
  sections : list DocumentSection; heading : string; heading_line : nat; body : list (list N) }.

(** [flush(end_line)]. *)
Definition flush (source_name : string) (end_line : nat) (st : parse_state) :
    result exn (list DocumentSection) :=
  match strip_cps (join_cps [10%N] (body st)) with
  | [] => Ok (sections st)
  | content =>
      s ← DocumentSection_make {|
        section_key := _section_key source_name (heading st) (length (sections st));
        section_title := heading st;
        source_locator := "lines=" +:+ str_of_nat (heading_line st) +:+ "-"
                          +:+ str_of_nat (Nat.max (heading_line st) end_line);
        section_content := encode content |};
      Ok (sections st ++ [s])
  end.

Fixpoint parse_lines (source_name : string) (line_number : nat) (lines : list (list N))
    (st : parse_state) : result exn (list DocumentSection) :=
  match lines with
  | [] => flush source_name (line_number - 1) st
  | line :: lines =>
      match heading_of line with
      | Some title =>
          done ← flush source_name (line_number - 1) st;
          parse_lines source_name (line_number + 1) lines
            {| sections := done; heading := encode title; heading_line := line_number; body := [] |}
      | None =>
          parse_lines source_name (line_number + 1) lines
            {| sections := sections st; heading := heading st; heading_line := heading_line st;
               body := body st ++ [line] |}
      end
  end.

Definition _parse_markdown (source_name payload : string) : result exn (list DocumentSection) :=
  match decode_utf8 payload with
  | None => Err DocumentParseError
  | Some text =>
      let default_title := match path_stem source_name with [] => "Document" | t => encode t end in
      found ← parse_lines source_name 1 (splitlines text)
        {| sections := []; heading := default_title; heading_line := 1; body := [] |};
      match found with [] => Err DocumentParseError | _ => Ok found end
  end.

(** A PDF as pypdf reads it: the encryption flag, and per page the text
    or the exception that extracting it raises. *)
Definition pdf_pages : Type := bool * list (result exn (option string)).

Definition pdf_section (source_name : string) (numbered : nat * result exn (option string)) :
    result exn (option DocumentSection) :=
  page ← numbered.2;
  match strip_cps (cps (default EmptyString page)) with
  | [] => Ok None
  | content =>
      s ← DocumentSection_make {|
        section_key := source_name +:+ "#page-" +:+ str_of_nat numbered.1;
        section_title := "Page " +:+ str_of_nat numbered.1;
        source_locator := "page=" +:+ str_of_nat numbered.1;
        section_content := encode content |};
      Ok (Some s)
  end.

Definition read_pdf_sections (source_name : string) (reader : result exn pdf_pages)
    (max_pdf_pages : Z) : result exn (list DocumentSection) :=
  reader ≫= λ '(is_encrypted, pages),
  if is_encrypted : bool then Err DocumentParseError
  else if (max_pdf_pages <? Z.of_nat (length pages))%Z then Err DocumentLimitError
  else omap (M:=list) id <$> map_result (pdf_section source_name) (zip (seq 1 (length pages)) pages).

Definition _parse_pdf (source_name : string) (reader : result exn pdf_pages)
    (max_pdf_pages : Z) : result exn (list DocumentSection) :=
  match read_pdf_sections source_name reader max_pdf_pages with
  | Err DocumentLimitError => Err DocumentLimitError
  | Err _ => Err DocumentParseError
  | Ok [] => Err DocumentParseError
  | Ok found => Ok found
  end.

Inductive SourceType := MARKDOWN | PDF.

Definition parse_document (source_name : string) (source_type : SourceType) (payload : string)
    (read_pdf : string → result exn pdf_pages)
    (max_markdown_bytes max_pdf_bytes max_pdf_pages : Z) : result exn (list DocumentSection) :=
  if byte_len payload =? 0 then Err DocumentParseError
  else match source_type with
       | MARKDOWN =>
           if (max_markdown_bytes <? Z.of_nat (byte_len payload))%Z then Err DocumentLimitError
           else _parse_markdown source_name payload
       | PDF =>
           if (max_pdf_bytes <? Z.of_nat (byte_len payload))%Z then Err DocumentLimitError
           else _parse_pdf source_name (read_pdf payload) max_pdf_pages
       end.
End Parsing.

(** ** chunk_sections *)

(** [text.rfind(pattern, start, end)], -1 when absent. *)
Definition rfind (pattern l : list N) (start end_ : nat) : Z :=
  match last (List.filter (λ i, bool_decide (take (length pattern) (drop i l) = pattern)
                                && (i + length pattern <=? end_))
                (seq start (end_ - start))) with
  | Some i => Z.of_nat i
  | None => -1
  end.

(** Where the window that starts at [start] ends. *)
Definition window_end (max_characters : nat) (l : list N) (start : nat) : nat :=
  let e := Nat.min (length l) (start + max_characters) in
  if e <? length l then
    let boundary := Z.max (Z.max (rfind [10%N] l start e) (rfind (cps "。") l start e))
                      (rfind (cps ". ") l start e) in
    if (Z.of_nat (start + max_characters / 2) <? boundary)%Z then Z.to_nat (boundary + 1) else e
  else e.

(** The [while] loop over one section: its windows. *)
Fixpoint windows (fuel max_characters overlap : nat) (l : list N) (start : nat) : list (nat * nat) :=
  match fuel with
  | O => []
  | S fuel =>
      if start <? length l then
        let e := window_end max_characters l start in
        (start, e) ::
          (if length l <=? e then []
           else windows fuel max_characters overlap l (Nat.max (start + 1) (e - overlap)))
      else []
  end.

Definition slice (l : list N) (w : nat * nat) : list N := take (w.2 - w.1) (drop w.1 l).

(** The stripped, non-empty contents of a section's windows. *)
Definition section_chunks (max_characters overlap : nat) (content : string) : list string :=
  let l := cps content in
  omap (λ w, match strip_cps (slice l w) with [] => None | c => Some (encode c) end)
    (windows (length l) max_characters overlap l 0).

Definition with_content (s : DocumentSection) (content : string) : DocumentSection := {|
  section_key := section_key s; section_title := section_title s;
  source_locator := source_locator s; section_content := content |}.

Definition chunk_sections (found : list DocumentSection) (max_characters overlap : Z) :
    result exn (list (DocumentSection * nat)) :=
  if ((max_characters <? 1) || (overlap <? 0) || (max_characters <=? overlap))%Z then Err ValueError
  else
    let chunks := concat (map (λ s, map (with_content s)
      (section_chunks (Z.to_nat max_characters) (Z.to_nat overlap) (section_content s))) found) in
    Ok (zip chunks (seq 0 (length chunks))).

(** ** Lemmas *)

Lemma drop_while_length p l : length (drop_while p l) ≤ length l.
Proof. induction l as [|c l IH]; cbn; [done|]. case_split; cbn; lia. Qed.

Lemma drop_while_nil p l : drop_while p l = [] → Forall (λ c, p c = true) l.
Proof. induction l as [|c l IH]; cbn; [done|]. case_split; [|done]. auto. Qed.

Lemma strip_cps_length l : length (strip_cps l) ≤ length l.
Proof.
  unfold strip_cps. rewrite length_rev. etransitivity; [apply drop_while_length|].
  rewrite length_rev. apply drop_while_length.
Qed.

Lemma drop_while_keeps p l c : c ∈ l → p c = false → c ∈ drop_while p l.
Proof.
  intros Hc Hp. induction l as [|d l IH]; [done|]. cbn.
  destruct (p d) eqn:Hd; [|done]. apply elem_of_cons in Hc as [->|Hc]; [congruence|auto].
Qed.

(** Stripping keeps every code point that is not white space. *)
Lemma strip_cps_keeps l c : c ∈ l → is_space c = false → c ∈ strip_cps l.
Proof.
  intros Hc Hs. unfold strip_cps.
  apply list_elem_of_In, in_rev. rewrite rev_involutive. apply list_elem_of_In.
  apply drop_while_keeps; [|done].
  apply list_elem_of_In, in_rev. rewrite rev_involutive. apply list_elem_of_In.
  by apply drop_while_keeps.
Qed.

Lemma rfind_before pattern l start e :
  1 ≤ length pattern → (rfind pattern l start e + 1 ≤ Z.of_nat e)%Z.
Proof.
  intros Hp. unfold rfind. destruct (last _) as [i|] eqn:E; [|lia].
  apply last_Some_elem_of, list_elem_of_In, filter_In in E as [_ E]. split_bools.
  apply Nat.leb_le in H0. lia.
Qed.

(** A window is not empty and stays within the bound and the text. *)
Lemma window_end_bounds n l start :
  1 ≤ n → start < length l →
  start < window_end n l start ≤ Nat.min (length l) (start + n).
Proof.
  intros Hn Hs. unfold window_end.
  set (e := Nat.min _ _). assert (start < e) by lia.
  destruct (Nat.ltb_spec e (length l)); [|lia].
  pose proof (rfind_before [10%N] l start e ltac:(cbn; lia)).
  pose proof (rfind_before (cps "。") l start e ltac:(vm_compute; lia)).
  pose proof (rfind_before (cps ". ") l start e ltac:(vm_compute; lia)).
  set (b := Z.max _ _). destruct (Z.ltb_spec (Z.of_nat (start + n / 2)) b); [|lia].
  assert (b + 1 ≤ Z.of_nat e)%Z by lia. lia.
Qed.

Section Windows.
Context (n overlap : nat) (l : list N) (Hn : 1 ≤ n).

Lemma windows_bounds fuel start a b :
  (a, b) ∈ windows fuel n overlap l start → start ≤ a < b ∧ b ≤ Nat.min (length l) (a + n).
Proof using Hn.
  revert start. induction fuel as [|fuel IH]; intros start; cbn [windows]; [by intros ?%elem_of_nil|].
  destruct (Nat.ltb_spec start (length l)) as [Hs|]; [|by intros ?%elem_of_nil].
  pose proof (window_end_bounds n l start Hn Hs).
  rewrite elem_of_cons. intros [[= -> ->]|Hin]; [lia|].
  destruct (length l <=? _); [by apply elem_of_nil in Hin|]. apply IH in Hin. lia.
Qed.

(** With fuel for every position, each position from [start] on falls in a
    window: the loop reaches the end and leaves no gap. *)
Lemma windows_cover fuel start i :
  length l - start ≤ fuel → start ≤ i < length l →
  ∃ a b, (a, b) ∈ windows fuel n overlap l start ∧ a ≤ i < b.
Proof using Hn.
  revert start. induction fuel as [|fuel IH]; intros start Hf Hi; [lia|]. cbn [windows].
  destruct (Nat.ltb_spec start (length l)) as [Hs|]; [|lia].
  pose proof (window_end_bounds n l start Hn Hs).
  destruct (decide (i < window_end n l start)).
  - exists start, (window_end n l start). split; [by left|lia].
  - destruct (Nat.leb_spec (length l) (window_end n l start)); [lia|].
    destruct (IH (Nat.max (start + 1) (window_end n l start - overlap))) as (a & b & Hin & ?);
      [lia|lia|].
    exists a, b. split; [by right|done].
Qed.

(** More fuel than positions changes nothing: the loop has ended. *)
Lemma windows_fuel fuel fuel' start :
  length l - start ≤ fuel → length l - start ≤ fuel' →
  windows fuel n overlap l start = windows fuel' n overlap l start.
Proof using Hn.
  revert fuel' start. induction fuel as [|fuel IH]; intros [|fuel'] start Hf Hf'; cbn [windows];
    try (destruct (Nat.ltb_spec start (length l)); [lia|done]).
  destruct (Nat.ltb_spec start (length l)) as [Hs|]; [|done].
  pose proof (window_end_bounds n l start Hn Hs).
  destruct (Nat.leb_spec (length l) (window_end n l start)); [done|].
  f_equal. apply IH; lia.
Qed.
End Windows.

Lemma slice_elem l a b i c : l !! i = Some c → a ≤ i < b → c ∈ slice l (a, b).
Proof.
  intros Hl Hi. unfold slice. cbn. apply list_elem_of_lookup. exists (i - a).
  rewrite lookup_take_lt, lookup_drop by lia. by replace (a + (i - a)) with i by lia.
Qed.

Lemma section_chunks_elem n overlap content c :
  c ∈ section_chunks n overlap content ↔
    ∃ a b, (a, b) ∈ windows (length (cps content)) n overlap (cps content) 0 ∧
           strip_cps (slice (cps content) (a, b)) ≠ [] ∧
           c = encode (strip_cps (slice (cps content) (a, b))).
Proof.
  unfold section_chunks. rewrite list_elem_of_omap. split.
  - intros ([a b] & Hin & Hc). exists a, b. destruct (strip_cps _) eqn:E; [done|].
    injection Hc as <-. done.
  - intros (a & b & Hin & Hne & ->). exists (a, b). split; [done|].
    by destruct (strip_cps _).
Qed.

Lemma section_chunks_in n overlap found s :
  s ∈ concat (map (λ s, map (with_content s) (section_chunks n overlap (section_content s))) found) ↔
  ∃ s0 c, s0 ∈ found ∧ c ∈ section_chunks n overlap (section_content s0) ∧ s = with_content s0 c.
Proof.
  rewrite list_elem_of_In, in_concat. setoid_rewrite <-list_elem_of_In.
  setoid_rewrite elem_of_map. split.
  - intros (? & (s0 & -> & ?) & (c & -> & ?)%elem_of_map). eauto 10.
  - intros (s0 & c & ? & ? & ->). eexists. split; [by eauto|]. apply elem_of_map. eauto.
Qed.

(** ** Theorems *)

(** C39: [chunk_sections] raises, a [ValueError], exactly when the bounds are
    invalid.  Otherwise the chunks are numbered 0, 1, ...; each one keeps the
    key, title and locator of a section and holds the stripped, non-empty
    text of a window of at most [max_characters] code points of it; and no
    character is lost: every code point of a section that is not white space
    lies in such a window whose text is one of the chunks. *)
Theorem chunk_sections_complete : ∀ found max_characters overlap,
  match chunk_sections found max_characters overlap with
  | Err e => e = ValueError ∧ ¬ (1 ≤ max_characters ∧ 0 ≤ overlap < max_characters)%Z
  | Ok chunks =>
      (1 ≤ max_characters ∧ 0 ≤ overlap < max_characters)%Z ∧
      map snd chunks = seq 0 (length chunks) ∧
      (∀ s k, (s, k) ∈ chunks → ∃ s0 text, s0 ∈ found ∧ s = with_content s0 (encode text) ∧
         1 ≤ length text ∧ (Z.of_nat (length text) ≤ max_characters)%Z ∧
         ∃ a b, text = strip_cps (slice (cps (section_content s0)) (a, b))) ∧
      (∀ s0 i c, s0 ∈ found → cps (section_content s0) !! i = Some c → is_space c = false →
         ∃ a b, a ≤ i < b ∧ c ∈ strip_cps (slice (cps (section_content s0)) (a, b)) ∧
           with_content s0 (encode (strip_cps (slice (cps (section_content s0)) (a, b))))
             ∈ map fst chunks)
  end.
Proof.
  intros found m o. unfold chunk_sections.
  destruct (Z.ltb_spec m 1), (Z.ltb_spec o 0), (Z.leb_spec m o); cbn [orb];
    try (split; [done|lia]).
  split_and!; [lia|lia|lia| | |].
  - set (chunks := concat _). rewrite length_zip, length_seq, Nat.min_id.
    change (@map (DocumentSection * nat) nat) with (@fmap list _ (DocumentSection * nat) nat).
    apply snd_zip. by rewrite length_seq.
  - intros s k Hs%list_elem_of_In%in_combine_l%list_elem_of_In. apply section_chunks_in in Hs as (s0 & c & Hs0 & Hc & ->).
    apply section_chunks_elem in Hc as (a & b & Hw & Hne & ->).
    apply windows_bounds in Hw; [|lia].
    exists s0. eexists. split_and!; [done|done| | |by eauto].
    + destruct (strip_cps _); [done|cbn; lia].
    + etransitivity; [apply inj_le, strip_cps_length|]. unfold slice. rewrite length_take. cbn. lia.
  - intros s0 i c Hs0 Hi Hc. pose proof (lookup_lt_Some _ _ _ Hi).
    destruct (windows_cover (Z.to_nat m) (Z.to_nat o) (cps (section_content s0)) ltac:(lia)
                (length (cps (section_content s0))) 0 i ltac:(lia) ltac:(lia)) as (a & b & Hw & Hab).
    assert (c ∈ strip_cps (slice (cps (section_content s0)) (a, b))) as Hin
      by (apply strip_cps_keeps; [by eapply slice_elem|done]).
    exists a, b. split_and!; [lia|lia|done|].
    set (chunks := concat _).
    change (@map (DocumentSection * nat)) with (λ B, @fmap list _ (DocumentSection * nat) B).
    cbv beta. rewrite fst_zip by (by rewrite length_seq). apply section_chunks_in.
    eexists s0, _. split_and!; [done| |done]. apply section_chunks_elem.
    exists a, b. split_and!; [done| |done]. intros E. rewrite E in Hin. by apply elem_of_nil in Hin.
Qed.

Section ParseTheorems.
Context `{PyUnicode}.

Lemma DocumentSection_make_outcome s :
  match DocumentSection_make s with Ok s' => s' = s ∧ DocumentSection_make s' = Ok s'
  | Err e => e = ValidationError end.
Proof.
  destruct (DocumentSection_make s) as [s'|e] eqn:E.
  - assert (s' = s) as -> by (revert E; unfold DocumentSection_make;
      cbv zeta; destruct (_ && _); by intros [= ->]).
    done.
  - revert E. unfold DocumentSection_make. cbv zeta. destruct (_ && _); by intros [= <-].
Qed.

Definition valid_sections (found : list DocumentSection) : Prop :=
  Forall (λ s, DocumentSection_make s = Ok s) found.

Lemma flush_valid name n st :
  valid_sections (sections st) →
  match flush name n st with Ok found => valid_sections found | Err e => e = ValidationError end.
Proof.
  intros Hst. unfold flush. destruct (strip_cps _) as [|c l]; [done|].
  set (s := Build_DocumentSection _ _ _ _).
  pose proof (DocumentSection_make_outcome s) as Hs.
  destruct (DocumentSection_make s) as [s'|e]; cbn in *; [|done].
  apply Forall_app. split; [done|]. constructor; [by destruct Hs|done].
Qed.

Lemma parse_lines_valid name lines n st :
  valid_sections (sections st) →
  match parse_lines name n lines st with
  | Ok found => valid_sections found | Err e => e = ValidationError end.
Proof.
  revert n st. induction lines as [|line lines IH]; intros n st Hst; cbn [parse_lines].
  - by apply flush_valid.
  - destruct (heading_of line); [|by apply IH].
    pose proof (flush_valid name (n - 1) st Hst) as Hf.
    destruct (flush name (n - 1) st); cbn; [by apply IH|done].
Qed.

Lemma pdf_sections_valid name reader pages found :
  read_pdf_sections name reader pages = Ok found → valid_sections found.
Proof.
  unfold read_pdf_sections. destruct reader as [[[] texts]|]; cbn; [done| |done].
  destruct (_ <? _)%Z; [done|]. destruct (map_result _ _) as [l|] eqn:E; [|done].
  intros [= <-]. apply Forall_forall. intros s (o & Ho & Hid)%list_elem_of_omap.
  apply (elem_of_map_result _ _ _ _ E) in Ho as ([k page] & _ & Hp).
  unfold pdf_section in Hp. apply result_bind_Ok in Hp as (text & _ & Hp).
  destruct (strip_cps _); [by injection Hp as <-|].
  apply result_bind_Ok in Hp as (s' & Hs' & [= <-]). cbn in Hid. injection Hid as ->.
  pose proof (DocumentSection_make_outcome (Build_DocumentSection
    (name +:+ "#page-" +:+ str_of_nat k) ("Page " +:+ str_of_nat k)
    ("page=" +:+ str_of_nat k) (encode (n :: l0)))) as Hm.
  cbn in Hs', Hm. by rewrite Hs' in Hm; destruct Hm.
Qed.

(** A parsed document has a non-empty payload within the byte bound of
    its type, at least one section, and only sections that satisfy the
    model's length bounds; a PDF that is not parsed raises one of the two
    document errors, a Markdown file possibly the model's own
    [ValidationError]. *)
Theorem parse_document_outcome : ∀ name type payload read_pdf max_md max_pdf max_pages,
  match parse_document name type payload read_pdf max_md max_pdf max_pages with
  | Ok found =>
      found ≠ [] ∧ payload ≠ EmptyString ∧ valid_sections found ∧
      (Z.of_nat (byte_len payload) ≤ match type with MARKDOWN => max_md | PDF => max_pdf end)%Z
  | Err e =>
      e = DocumentParseError ∨ e = DocumentLimitError ∨ (e = ValidationError ∧ type = MARKDOWN)
  end.
Proof.
  intros name type payload read_pdf max_md max_pdf max_pages. unfold parse_document.
  destruct (Nat.eqb_spec (byte_len payload) 0) as [|Hp]; [by left|].
  assert (payload ≠ EmptyString) by (by intros ->).
  destruct type.
  - destruct (Z.ltb_spec max_md (Z.of_nat (byte_len payload))); [auto|].
    unfold _parse_markdown. destruct (decode_utf8 payload); [|by left].
    match goal with |- context [parse_lines ?a ?b ?c ?st] =>
      pose proof (parse_lines_valid a c b st (Forall_nil_2 _)) as Hl;
      destruct (parse_lines a b c st) as [[|s0 found]|e] end; cbn; [by left|done|auto].
  - destruct (Z.ltb_spec max_pdf (Z.of_nat (byte_len payload))); [auto|].
    unfold _parse_pdf. pose proof (pdf_sections_valid name (read_pdf payload) max_pages) as Hr.
    destruct (read_pdf_sections name (read_pdf payload) max_pages) as [[|s0 found]|[]]; auto.
Qed.
End ParseTheorems.

(** A heading whose title is white space ends the whole upload with the
    model's error: an empty Markdown heading is not tolerated. *)
Example blank_heading_rejected :
  parse_document "a.md" MARKDOWN ("##  " +:+ encode [10%N] +:+ "text") (λ _, Err ValueError)
    2000000 10000000 100 = Err ValidationError ∧
  parse_document "a.md" MARKDOWN ("## A" +:+ encode [10%N] +:+ "text") (λ _, Err ValueError)
    2000000 10000000 100
  = Ok [{| section_key := "a.md#a"; section_title := "A"; source_locator := "lines=1-2";
           section_content := "text" |}].
Proof. vm_compute. done. Qed.
