(* ===== verification/Embeddings.v ===== *)
(** * Tokens and the hashing embedding: [app/retrieval/embeddings.py]

    Words and Chinese n-grams of a text, their counts, and the deterministic
    hashing vector.  [hashlib.blake2b] and [math.log] are operations of a
    class; sums and square roots are computed on binary64. *)

From S2P Require Import Prelude PyStr Floats Errors Json.

(** The standard library functions behind the embedding: the 16-byte digest
    of a text and the logarithm of a positive count. *)
Class HashMath := {
  blake2b_16 : string → list N;
  log_count : Z → float
}.

(** [collections.Counter]: counts in the order of first occurrence. *)
Definition count_of (k : string) (d : list (string * Z)) : Z := default 0%Z (dict_get k d).
Definition counter (tokens : list string) : list (string * Z) :=
  fold_left (λ d t, dict_set t (count_of t d + 1)%Z d) tokens [].

(** [re.findall] of one or more characters of a class: its maximal runs. *)
Fixpoint findall_from (p : N → bool) (run : list N) (l : list N) : list (list N) :=
  match l with
  | [] => match run with [] => [] | _ => [rev run] end
  | c :: l =>
      if p c then findall_from p (c :: run) l
      else match run with
           | [] => findall_from p [] l
           | _ => rev run :: findall_from p [] l
           end
  end.
Definition findall (p : N → bool) (l : list N) : list (list N) := findall_from p [] l.

Definition latin_or_number (c : N) : bool := is_lower_latin c || is_digit c.

(** [run[i : i + size] for i in range(max(1, len(run) - size + 1))]. *)
Definition ngrams (size : nat) (run : list N) : list (list N) :=
  map (λ i, take size (drop i run)) (seq 0 (Nat.max 1 (length run + 1 - size))).

Section Embeddings.
Context `{PyUnicode}.

Definition tokens (sizes : list nat) (text : string) : list string :=
  let lowered := cps (lower text) in
  map encode (findall latin_or_number lowered
              ++ concat (map (λ run, concat (map (λ size, ngrams size run) sizes))
                           (findall is_cjk lowered))).

Definition lexical_tokens (text : string) : list string := tokens [2] text.
Definition vector_tokens (text : string) : list string := tokens [1; 2; 3] text.

Context `{HashMath}.

(** The slot and the sign of a token. *)
Definition big_endian (bytes : list N) : N := fold_left (λ n b, 256 * n + b)%N bytes 0%N.
Definition token_slot (dimensions : nat) (token : string) : nat :=
  N.to_nat (big_endian (take 8 (blake2b_16 token)) mod N.of_nat dimensions).
Definition token_sign (token : string) : float :=
  if N.odd (default 0%N (blake2b_16 token !! 8)) then f_of_Z 1 else f_of_Z (-1).

Definition add_token (dimensions : nat) (vector : list float) (counted : string * Z) : list float :=
  alter (λ x, fadd x (fmul (token_sign counted.1) (fadd (f_of_Z 1) (log_count counted.2))))
    (token_slot dimensions counted.1) vector.

Definition norm (vector : list float) : float := fsqrt (fsum (map (λ v, fmul v v) vector)).

Definition _embed_one (dimensions : nat) (text : string) : list float :=
  let vector := fold_left (add_token dimensions) (counter (vector_tokens text))
                  (replicate dimensions fzero) in
  let n := norm vector in
  if feqb n fzero then vector else map (λ v, fdiv v n) vector.

Definition HashingEmbeddingProvider (dimensions : Z) : result exn nat :=
  if ((16 <=? dimensions) && (dimensions <=? 2048))%Z then Ok (Z.to_nat dimensions)
  else Err ValueError.

Definition hashing_embed (dimensions : nat) (texts : list string) : list (list float) :=
  map (_embed_one dimensions) texts.
End Embeddings.

Definition cosine_similarity (left right : list float) : result exn float :=
  if length left =? length right then Ok (fsum (zip_with fmul left right)) else Err ValueError.

(** repository.py: [_cosine_counts]. *)
Definition sum_Z (l : list Z) : Z := fold_left Z.add l 0%Z.
Definition _cosine_counts (left right : list (string * Z)) : float :=
  match left, right with
  | [], _ | _, [] => fzero
  | _, _ =>
      let numerator := sum_Z (map (λ '(t, c), c * count_of t right)%Z left) in
      let norm_of d := fsqrt (f_of_Z (sum_Z (map (λ '(_, c), c * c)%Z d))) in
      if (numerator =? 0)%Z then fzero
      else fdiv (f_of_Z numerator) (fmul (norm_of left) (norm_of right))
  end.

(** ** Lemmas *)

Lemma counter_NoDup ts : NoDup (counter ts).*1.
Proof.
  unfold counter. assert (NoDup ([] : list (string * Z)).*1) as Hd by constructor.
  revert Hd. generalize ([] : list (string * Z)).
  induction ts as [|t ts IH]; intros d Hd; cbn; [done|]. by apply IH, NoDup_dict_set.
Qed.

(** Each token is counted as often as it occurs. *)
Lemma counter_counts ts t :
  count_of t (counter ts) = Z.of_nat (length (filter (λ x, x = t) ts)).
Proof.
  unfold counter. enough (∀ d, count_of t (fold_left (λ d t, dict_set t (count_of t d + 1)%Z d) ts d)
    = (count_of t d + Z.of_nat (length (filter (λ x, x = t) ts)))%Z) as E by apply (E []).
  induction ts as [|x ts IH]; intros d; [rewrite filter_nil; cbn [fold_left length]; lia|].
  cbn [fold_left]. rewrite IH, filter_cons. unfold count_of at 1. rewrite dict_get_set.
  destruct (decide (t = x)) as [->|]; [rewrite decide_True by done|rewrite decide_False by done];
    cbn [length default]; unfold count_of; cbn; lia.
Qed.

Lemma sum_Z_shift l z : fold_left Z.add l z = (z + sum_Z l)%Z.
Proof.
  unfold sum_Z. revert z. induction l as [|x l IH]; intros z; cbn [fold_left]; [lia|].
  rewrite (IH (z + x)%Z), (IH (0 + x)%Z). lia.
Qed.

Lemma sum_Z_cons x l : sum_Z (x :: l) = (x + sum_Z l)%Z.
Proof. unfold sum_Z at 1. cbn [fold_left]. rewrite sum_Z_shift. lia. Qed.

(** ** The cosine of two texts, token by token *)

Definition occurrences (t : string) (ts : list string) : Z := Z.of_nat (length (filter (λ x, x = t) ts)).
Definition overlap (ts us : list string) : Z := sum_Z (map (λ t, occurrences t us) ts).

(** The pairs of equal tokens, normalized by the two texts' own pairs. *)
Definition token_cosine (ts us : list string) : float :=
  if (overlap ts us =? 0)%Z then fzero
  else fdiv (f_of_Z (overlap ts us))
         (fmul (fsqrt (f_of_Z (overlap ts ts))) (fsqrt (f_of_Z (overlap us us)))).

Lemma weighted_set (g : string → Z) t d :
  NoDup d.*1 →
  sum_Z (map (λ '(k, c), c * g k)%Z (dict_set t (count_of t d + 1)%Z d))
  = (sum_Z (map (λ '(k, c), c * g k)%Z d) + g t)%Z.
Proof.
  unfold count_of. induction d as [|[k c] d IH]; cbn [dict_set dict_get fmap list_fmap fst map].
  - intros _. rewrite sum_Z_cons. unfold sum_Z. cbn. lia.
  - intros [Hk Hd]%NoDup_cons. destruct (decide (t = k)) as [->|]; cbn [map]; rewrite !sum_Z_cons.
    + cbn. lia.
    + rewrite IH by done. lia.
Qed.

Lemma weighted_counter (g : string → Z) ts :
  sum_Z (map (λ '(k, c), c * g k)%Z (counter ts)) = sum_Z (map g ts).
Proof.
  unfold counter. assert (NoDup ([] : list (string * Z)).*1) as Hd by constructor.
  change (sum_Z (map g ts)) with (sum_Z (map (λ '(k, c), c * g k)%Z []) + sum_Z (map g ts))%Z.
  revert Hd. generalize ([] : list (string * Z)).
  induction ts as [|t ts IH]; intros d Hd; cbn [fold_left map]; [unfold sum_Z; cbn; lia|].
  rewrite IH by by apply NoDup_dict_set. rewrite weighted_set, sum_Z_cons by done. lia.
Qed.

Lemma counter_nil ts : counter ts = [] → ts = [].
Proof.
  destruct ts as [|t ts]; [done|]. intros E.
  assert (count_of t (counter (t :: ts)) = 0)%Z as Hz by by rewrite E.
  rewrite counter_counts, filter_cons_True in Hz by done. cbn in Hz. lia.
Qed.

Lemma overlap_nil_r ts : overlap ts [] = 0%Z.
Proof.
  unfold overlap. induction ts as [|t ts IH]; [done|]. cbn [map]. by rewrite sum_Z_cons, IH.
Qed.

Lemma cosine_counter ts us : _cosine_counts (counter ts) (counter us) = token_cosine ts us.
Proof.
  assert (∀ a b, sum_Z (map (λ '(t, c), c * count_of t (counter b))%Z (counter a)) = overlap a b) as Hdot.
  { intros a b. rewrite (weighted_counter (λ t, count_of t (counter b))). unfold overlap.
    f_equal. apply map_ext. intros t. apply counter_counts. }
  assert (∀ a, sum_Z (map (λ '(_, c), c * c)%Z (counter a)) = overlap a a) as Hnorm.
  { intros a. rewrite <-Hdot. f_equal. apply map_ext_in. intros [t c] Hin%list_elem_of_In.
    apply dict_get_elem in Hin; [|apply counter_NoDup]. unfold count_of. by rewrite Hin. }
  unfold token_cosine. rewrite <-(Hnorm ts), <-(Hnorm us). unfold _cosine_counts.
  destruct (counter ts) as [|x a] eqn:Ea; [apply counter_nil in Ea as ->; done|].
  destruct (counter us) as [|y b] eqn:Eb; [apply counter_nil in Eb as ->; by rewrite overlap_nil_r|].
  rewrite <-Ea, <-Eb, Hdot. by destruct (_ =? 0)%Z.
Qed.

Section EmbeddingLemmas.
Context `{PyUnicode, HashMath}.

Lemma add_token_length dims v counted : length (add_token dims v counted) = length v.
Proof. unfold add_token. apply length_alter. Qed.

(** Every embedding has the configured number of dimensions. *)
Lemma embed_one_length dims text : length (_embed_one dims text) = dims.
Proof.
  unfold _embed_one. set (l := counter _).
  assert (∀ v, length (fold_left (add_token dims) l v) = length v) as E.
  { induction l as [|x l IH]; intros v; cbn; [done|]. by rewrite IH, add_token_length. }
  destruct (feqb _ _); rewrite ?length_map, E; apply length_replicate.
Qed.
End EmbeddingLemmas.

(** A digest of constant bytes and a constant logarithm, for the witnesses. *)
#[export] Instance demo_hash_math : HashMath := {|
  blake2b_16 s := map (λ c, (c mod 256)%N) (take 16 (cps s ++ replicate 16 7%N));
  log_count _ := fzero
|}.

Example lexical_tokens_mixed :
  lexical_tokens "Net 收入额 Q1" = ["net"; "q1"; "收入"; "入额"].
Proof. reflexivity. Qed.
