(* ===== verification/KnowledgeRepository.v ===== *)
(** * Metric knowledge and the in-memory repository:
      [app/retrieval/models.py], [app/retrieval/repository.py]

    The chunk and document models, the repository's interface, and
    [InMemoryMetricKnowledgeRepository] with versions, revisions, lexical and
    vector search.  [uuid4] and [datetime.now] are drawn from two sequences
    of the repository's world. *)

From S2P Require Import Prelude PyStr Floats Errors Json Metadata Parsing Embeddings.

(** ** models.py *)

Record PendingMetricChunk := {
  pc_section_key : string; pc_section_title : string; pc_source_locator : string;
  pc_ordinal : Z; pc_content : string; pc_embedding : list float }.

Definition PendingMetricChunk_make (c : PendingMetricChunk) : result exn PendingMetricChunk :=
  if (0 <=? pc_ordinal c)%Z && (1 <=? py_len (pc_content c))
     && (Z.of_nat (py_len (pc_content c)) <=? 10000)%Z && (16 <=? length (pc_embedding c))
  then Ok c else Err ValidationError.

Inductive document_status := ACTIVE | SUPERSEDED.

Record StoredMetricDocument := {
  sd_id : string; sd_tenant_id : string; sd_title : string; sd_version : Z;
  sd_status : document_status; sd_source_type : SourceType; sd_source_name : string;
  sd_content_sha256 : string; sd_chunk_count : Z; sd_created_at : string; sd_updated_at : string }.

Definition StoredMetricDocument_make (d : StoredMetricDocument) : result exn StoredMetricDocument :=
  if (1 <=? sd_version d)%Z && is_hex64 (sd_content_sha256 d) && (1 <=? sd_chunk_count d)%Z
  then Ok d else Err ValidationError.

Record MetricChunk := {
  mc_id : string; mc_tenant_id : string; mc_document_id : string; mc_document_title : string;
  mc_document_version : Z; mc_section_key : string; mc_section_title : string;
  mc_source_locator : string; mc_ordinal : Z; mc_content : string; mc_embedding : list float }.

Definition MetricChunk_make (c : MetricChunk) : result exn MetricChunk :=
  if (1 <=? mc_document_version c)%Z && (0 <=? mc_ordinal c)%Z && (1 <=? py_len (mc_content c))
     && (16 <=? length (mc_embedding c))
  then Ok c else Err ValidationError.

Record RankedChunk := { chunk : MetricChunk; score : float }.

(** ** The repository as the service sees it *)

Class MetricKnowledgeRepository (W : Type) := {
  replace_document : string → string → SourceType → string → string →
    list PendingMetricChunk → option string → op W exn StoredMetricDocument;
  lexical_search : string → string → Z → op W exn (list RankedChunk);
  vector_search : string → list float → Z → op W exn (list RankedChunk);
  corpus_revision : string → op W exn string
}.

(** ** InMemoryMetricKnowledgeRepository *)

Record document_entry := { document : StoredMetricDocument; stored_chunks : list MetricChunk }.

Record memory_repository := {
  repo_entries : list (string * string * document_entry);
  repo_revisions : gmap string Z;
  lexical_calls : Z;
  vector_calls : Z;
  uuids_drawn : nat;     (* the next unused value of [uuid4] *)
  clock_reads : nat      (* the next reading of the clock *)
}.

Definition new_repository : memory_repository := {|
  repo_entries := []; repo_revisions := ∅; lexical_calls := 0; vector_calls := 0;
  uuids_drawn := 0; clock_reads := 0 |}.

Section Memory.
Context `{PyUnicode} (uuid4 : nat → string) (now : nat → string).

Definition stored_chunk (tenant title document_id : string) (version : Z)
    (numbered : nat * PendingMetricChunk) : result exn MetricChunk :=
  let c := numbered.2 in
  MetricChunk_make {|
    mc_id := uuid4 numbered.1; mc_tenant_id := tenant; mc_document_id := document_id;
    mc_document_title := title; mc_document_version := version;
    mc_section_key := pc_section_key c; mc_section_title := pc_section_title c;
    mc_source_locator := pc_source_locator c; mc_ordinal := pc_ordinal c;
    mc_content := pc_content c; mc_embedding := pc_embedding c |}.

Definition set_drawn (uuids reads : nat) (s : memory_repository) : memory_repository := {|
  repo_entries := repo_entries s; repo_revisions := repo_revisions s;
  lexical_calls := lexical_calls s; vector_calls := vector_calls s;
  uuids_drawn := uuids; clock_reads := reads |}.

Definition revision_of (tenant : string) (s : memory_repository) : Z :=
  default 0%Z (repo_revisions s !! tenant).

(** The version after the one stored under a title. *)
Definition next_version (tenant title : string) (s : memory_repository) : Z :=
  match dict_get (tenant, title) (repo_entries s) with
  | None => 1
  | Some previous => sd_version (document previous) + 1
  end.

Definition memory_replace (tenant title : string) (type : SourceType)
    (source_name sha : string) (chunks : list PendingMetricChunk) (created_by : option string) :
    op memory_repository exn StoredMetricDocument := λ s,
  match chunks with
  | [] => (s, Err ValueError)
  | _ =>
      let version := next_version tenant title s in
      let time := now (clock_reads s) in
      let document_id := uuid4 (uuids_drawn s) in
      let first := S (uuids_drawn s) in
      let drawn := set_drawn (first + length chunks) (S (clock_reads s)) s in
      let made :=
        doc ← StoredMetricDocument_make {|
          sd_id := document_id; sd_tenant_id := tenant; sd_title := title; sd_version := version;
          sd_status := ACTIVE; sd_source_type := type; sd_source_name := source_name;
          sd_content_sha256 := sha; sd_chunk_count := Z.of_nat (length chunks);
          sd_created_at := time; sd_updated_at := time |};
        stored ← map_result (stored_chunk tenant title document_id version)
                   (zip (seq first (length chunks)) chunks);
        Ok {| document := doc; stored_chunks := stored |} in
      match made with
      | Err e => (drawn, Err e)
      | Ok entry =>
          ({| repo_entries := dict_set (tenant, title) entry (repo_entries s);
              repo_revisions := <[tenant := (revision_of tenant s + 1)%Z]> (repo_revisions s);
              lexical_calls := lexical_calls s; vector_calls := vector_calls s;
              uuids_drawn := uuids_drawn drawn; clock_reads := clock_reads drawn |},
           Ok (document entry))
      end
  end.

Definition tenant_chunks (tenant : string) (s : memory_repository) : list MetricChunk :=
  concat (map (λ e, stored_chunks e.2)
            (List.filter (λ e, bool_decide (e.1.1 = tenant)) (repo_entries s))).

(** The sort key [(-score, ordinal, str(id))]. *)
Definition ranked_before (x y : RankedChunk) : bool :=
  let sx := fneg (score x) in let sy := fneg (score y) in
  if feqb sx sy then
    let ox := mc_ordinal (chunk x) in let oy := mc_ordinal (chunk y) in
    (ox <? oy)%Z
    || (ox =? oy)%Z && negb (str_leb (mc_id (chunk y)) (mc_id (chunk x)))
  else fltb sx sy.

(** [section_title.split(maxsplit=1)[0].lower()]. *)
Definition primary_label (title : string) : result exn string :=
  match split_ws (cps title) with
  | [] => Err IndexError
  | word :: _ => Ok (lower (encode word))
  end.

Definition lexical_score (query : string) (c : MetricChunk) : result exn float :=
  let counts := counter (lexical_tokens (mc_document_title c +:+ " " +:+ mc_section_title c
                                          +:+ " " +:+ mc_content c)) in
  let base := _cosine_counts (counter (lexical_tokens query)) counts in
  label ← primary_label (mc_section_title c);
  Ok (if negb (String.eqb label EmptyString) && contains label (lower query)
      then fadd base (f_of_Z 1) else base).

Definition positive (r : RankedChunk) : bool := fltb fzero (score r).

Definition rank_chunks (scores : MetricChunk → result exn float) (limit : Z)
    (chunks : list MetricChunk) : result exn (list RankedChunk) :=
  ranked ← map_result (λ c, s ← scores c; Ok {| chunk := c; score := s |}) chunks;
  Ok (slice_to limit (sort_by ranked_before (List.filter positive ranked))).

Definition memory_lexical_search (tenant query : string) (limit : Z) :
    op memory_repository exn (list RankedChunk) := λ s,
  ({| repo_entries := repo_entries s; repo_revisions := repo_revisions s;
      lexical_calls := lexical_calls s + 1; vector_calls := vector_calls s;
      uuids_drawn := uuids_drawn s; clock_reads := clock_reads s |},
   rank_chunks (lexical_score query) limit (tenant_chunks tenant s)).

Definition memory_vector_search (tenant : string) (embedding : list float) (limit : Z) :
    op memory_repository exn (list RankedChunk) := λ s,
  ({| repo_entries := repo_entries s; repo_revisions := repo_revisions s;
      lexical_calls := lexical_calls s; vector_calls := vector_calls s + 1;
      uuids_drawn := uuids_drawn s; clock_reads := clock_reads s |},
   rank_chunks (λ c, cosine_similarity embedding (mc_embedding c)) limit (tenant_chunks tenant s)).

Definition memory_corpus_revision (tenant : string) : op memory_repository exn string := λ s,
  (s, Ok ("memory:" +:+ str_of_Z (revision_of tenant s))).

#[export] Instance memory_store : MetricKnowledgeRepository memory_repository := {|
  replace_document := memory_replace;
  lexical_search := memory_lexical_search;
  vector_search := memory_vector_search;
  corpus_revision := memory_corpus_revision
|}.
End Memory.

(** ** Ranking *)

Lemma feqb_sym x y : feqb x y = feqb y x.
Proof.
  unfold feqb, SpecFloat.SFeqb. destruct (SpecFloat.SFcompare x y) as [c|] eqn:E.
  - apply sfcompare_antisym in E. rewrite E. by destruct c.
  - destruct (SpecFloat.SFcompare y x) as [c|] eqn:E'; [|done].
    apply sfcompare_antisym in E'. congruence.
Qed.

(** The order of the results: the higher score first, then the lower ordinal,
    then the smaller id. *)
Definition ranked_first (x y : RankedChunk) : Prop :=
  fltb (score y) (score x) = true ∨
  feqb (score x) (score y) = true ∧
    ((mc_ordinal (chunk x) < mc_ordinal (chunk y))%Z ∨
     mc_ordinal (chunk x) = mc_ordinal (chunk y) ∧
     str_le (mc_id (chunk x)) (mc_id (chunk y)) ∧ mc_id (chunk x) ≠ mc_id (chunk y)).

Lemma feqb_fltb x y : feqb x y = true → fltb x y = false.
Proof. unfold feqb, fltb, SpecFloat.SFeqb, SpecFloat.SFltb. by destruct (SpecFloat.SFcompare x y) as [[]|]. Qed.

Lemma ranked_before_spec x y : ranked_before x y = true ↔ ranked_first x y.
Proof.
  unfold ranked_before, ranked_first. cbv zeta. rewrite feqb_fneg, fltb_fneg.
  destruct (feqb (score x) (score y)) eqn:E.
  - rewrite (feqb_fltb (score y)) by by rewrite feqb_sym.
    rewrite orb_true_iff, andb_true_iff, Z.ltb_lt, Z.eqb_eq, str_ltb_spec. naive_solver.
  - naive_solver.
Qed.

Lemma ranked_before_asym x y : ranked_before x y = true → ranked_before y x = false.
Proof.
  intros Hx. apply not_true_iff_false. rewrite ranked_before_spec in *. unfold ranked_first in *.
  intros [Hy|(Hy & Ho)]; destruct Hx as [Hx|(Hx & Hox)].
  - apply fltb_asym in Hx. congruence.
  - apply feqb_fltb in Hx. congruence.
  - apply feqb_fltb in Hy. congruence.
  - destruct Hox as [?|(? & Hs & Hn)], Ho as [?|(? & Ht & _)]; try lia. by apply Hn, (anti_symm str_le).
Qed.

(** Ranking keeps the chunks with a positive score, each with its score, and
    cuts their sorted list at the limit. *)
Lemma rank_chunks_spec scores limit chunks found :
  (0 ≤ limit)%Z → rank_chunks scores limit chunks = Ok found →
  ∃ rest, Z.of_nat (length found) = Z.min limit (Z.of_nat (length (found ++ rest))) ∧
    Sorted (λ x y, ¬ ranked_first y x) (found ++ rest) ∧
    (∀ r, r ∈ found ++ rest ↔
       chunk r ∈ chunks ∧ scores (chunk r) = Ok (score r) ∧ fltb fzero (score r) = true) ∧
    (∀ c, c ∈ chunks → is_ok (scores c) = true).
Proof.
  intros Hl (ranked & Hm & [= <-])%result_bind_Ok. rewrite slice_to_nonneg by done.
  set (l := sort_by _ _). exists (drop (Z.to_nat limit) l). rewrite take_drop. split_and!.
  - rewrite length_take. lia.
  - eapply Sorted_mono; [|apply sort_by_sorted, ranked_before_asym].
    intros x y Hxy. rewrite <-ranked_before_spec. congruence.
  - intros r. unfold l. rewrite sort_by_perm, list_elem_of_In, filter_In, <-list_elem_of_In.
    rewrite (elem_of_map_result _ _ _ _ Hm). unfold positive. split.
    + intros [(c & Hc & Hs) Hp]. apply result_bind_Ok in Hs as (sc & Hsc & [= <-]). done.
    + intros (Hc & Hs & Hp). split; [|done]. exists (chunk r). rewrite Hs. by destruct r.
  - intros c Hc. apply map_result_Ok in Hm. destruct (Forall2_in_l _ _ _ _ Hm Hc) as (r & _ & Hr).
    apply result_bind_Ok in Hr as (sc & -> & _). done.
Qed.

(** ** The invariant of the in-memory repository *)

Definition versions_of (tenant : string) (d : list (string * string * document_entry)) : Z :=
  sum_Z (map (λ e, sd_version (document e.2)) (List.filter (λ e, bool_decide (e.1.1 = tenant)) d)).

(** An entry is stored under its own tenant and title, is active, and all its
    chunks are of its tenant, document and version. *)
Record entry_ok (key : string * string) (e : document_entry) : Prop := {
  entry_tenant : sd_tenant_id (document e) = key.1;
  entry_title : sd_title (document e) = key.2;
  entry_active : sd_status (document e) = ACTIVE;
  entry_version : (1 ≤ sd_version (document e))%Z;
  entry_count : sd_chunk_count (document e) = Z.of_nat (length (stored_chunks e));
  entry_chunks : Forall (λ c, mc_tenant_id c = key.1 ∧ mc_document_title c = key.2 ∧
    mc_document_id c = sd_id (document e) ∧ mc_document_version c = sd_version (document e))
    (stored_chunks e)
}.

(** One entry per tenant and title; a tenant's revision is the sum of the
    versions of its documents. *)
Record repo_ok (s : memory_repository) : Prop := {
  repo_keys : NoDup (repo_entries s).*1;
  repo_entries_ok : Forall (λ ke, entry_ok ke.1 ke.2) (repo_entries s);
  repo_revision : ∀ t, revision_of t s = versions_of t (repo_entries s)
}.

Lemma versions_of_cons t k e d :
  versions_of t ((k, e) :: d)
  = ((if decide (k.1 = t) then sd_version (document e) else 0) + versions_of t d)%Z.
Proof.
  unfold versions_of. cbn [List.filter fst].
  destruct (decide (k.1 = t)); [rewrite bool_decide_true by done|rewrite bool_decide_false by done];
    cbn [map]; [apply sum_Z_cons|lia].
Qed.

Lemma versions_of_set t k e d :
  NoDup d.*1 →
  versions_of t (dict_set k e d)
  = (versions_of t d + if decide (k.1 = t) then
       sd_version (document e) - default 0 (sd_version ∘ document <$> dict_get k d) else 0)%Z.
Proof.
  induction d as [|[k1 e1] d IH]; intros Hnd; cbn [dict_set dict_get].
  - rewrite versions_of_cons. cbn. destruct (decide _); lia.
  - apply NoDup_cons in Hnd as [Hk Hnd]. destruct (decide (k = k1)) as [->|Hne].
    + rewrite !versions_of_cons. cbn [fmap option_fmap option_map default compose].
      cbn. destruct (decide _); lia.
    + rewrite !versions_of_cons, IH by done. destruct (decide _); lia.
Qed.

Lemma dict_set_Forall {K V} `{EqDecision K} (P : K * V → Prop) k v d :
  Forall P d → P (k, v) → Forall P (dict_set k v d).
Proof.
  intros Hd Hp. induction Hd as [|[k1 v1] d Hx Hd IH]; cbn; [by constructor|].
  destruct (decide (k = k1)); by constructor.
Qed.

Lemma tenant_chunks_set t k e s entries' :
  entries' = dict_set k e (repo_entries s) → k.1 ≠ t →
  concat (map (λ e, stored_chunks e.2) (List.filter (λ e, bool_decide (e.1.1 = t)) entries'))
  = tenant_chunks t s.
Proof.
  intros -> Hk. unfold tenant_chunks.
  induction (repo_entries s) as [|[k1 e1] d IH]; cbn [dict_set].
  - cbn. by rewrite bool_decide_false.
  - destruct (decide (k = k1)) as [->|]; cbn [List.filter fst].
    + by rewrite bool_decide_false.
    + destruct (bool_decide _); cbn; [by f_equal|done].
Qed.

Lemma tenant_chunks_own t s c :
  repo_ok s → c ∈ tenant_chunks t s →
  mc_tenant_id c = t ∧ ∃ title e, dict_get (t, title) (repo_entries s) = Some e ∧
    c ∈ stored_chunks e ∧ mc_document_version c = sd_version (document e) ∧
    sd_status (document e) = ACTIVE.
Proof.
  intros Hs Hc. unfold tenant_chunks in Hc.
  apply list_elem_of_In, in_concat in Hc as (l & Hl & Hc).
  apply in_map_iff in Hl as ([[t' title] e] & <- & He).
  apply filter_In in He as [He Ht]. split_bools. cbn in Ht. subst t'.
  apply list_elem_of_In in He, Hc. pose proof (repo_entries_ok _ Hs) as Hok.
  rewrite Forall_forall in Hok. specialize (Hok _ He). cbn in Hok, Hc.
  pose proof (entry_chunks _ _ Hok) as Hch. rewrite Forall_forall in Hch.
  destruct (Hch _ Hc) as (Ht & _ & _ & Hv). split; [done|]. exists title, e. split_and!; try done.
  - apply dict_get_elem; [apply Hs|done].
  - apply Hok.
Qed.

Lemma stored_chunks_made uuid4 tenant title document_id version l stored :
  map_result (stored_chunk uuid4 tenant title document_id version) l = Ok stored →
  map mc_content stored = map (λ c, pc_content c.2) l ∧
  Forall (λ c, mc_tenant_id c = tenant ∧ mc_document_title c = title ∧
    mc_document_id c = document_id ∧ mc_document_version c = version) stored.
Proof.
  intros Hm%map_result_Ok. induction Hm as [|x c l stored Hc _ [IH1 IH2]]; cbn; [done|].
  unfold stored_chunk, MetricChunk_make in Hc. destruct (_ && _); [|done].
  injection Hc as <-. cbn. split; [by f_equal|by constructor].
Qed.

Lemma map_snd_zip_seq {A B} (f : A → B) (l : list A) n :
  map (λ c, f c.2) (zip (seq n (length l)) l) = map f l.
Proof.
  revert n. induction l as [|x l IH]; intros n; [done|].
  cbn [length seq zip zip_with map snd]. by rewrite IH.
Qed.

Lemma next_version_revision tenant title s :
  next_version tenant title s
  = (1 + default 0 (sd_version ∘ document <$> dict_get (tenant, title) (repo_entries s)))%Z.
Proof. unfold next_version. destruct (dict_get _ _); cbn; lia. Qed.

Lemma memory_replace_run : ∀ uuid4 now tenant title type name sha chunks by_user s s' r,
  repo_ok s →
  memory_replace uuid4 now tenant title type name sha chunks by_user s = (s', r) →
  repo_ok s' ∧
  (∀ t, t ≠ tenant → tenant_chunks t s' = tenant_chunks t s ∧ revision_of t s' = revision_of t s) ∧
  match r with
  | Err _ => repo_entries s' = repo_entries s ∧ repo_revisions s' = repo_revisions s
  | Ok doc =>
      sd_version doc = next_version tenant title s ∧
      revision_of tenant s' = (revision_of tenant s + 1)%Z ∧
      (∃ stored, dict_get (tenant, title) (repo_entries s')
                 = Some {| document := doc; stored_chunks := stored |} ∧
         map mc_content stored = map pc_content chunks) ∧
      (∀ key, key ≠ (tenant, title) →
         dict_get key (repo_entries s') = dict_get key (repo_entries s))
  end.
Proof.
  intros uuid4 now tenant title type name sha chunks by_user s s' r Hs.
  unfold memory_replace. destruct chunks as [|c0 cs]; [by intros [= <- <-]|].
  set (chunks := c0 :: cs). set (version := next_version tenant title s).
  set (made := mbind _ _). destruct made as [entry|e] eqn:Hmade; unfold made in Hmade.
  2: { intros [= <- <-]. split; [destruct Hs; by split|done]. }
  apply result_bind_Ok in Hmade as (doc & Hdoc & Hmade).
  apply result_bind_Ok in Hmade as (stored & Hstored & [= <-]).
  unfold StoredMetricDocument_make in Hdoc.
  destruct (_ && _) eqn:Hb in Hdoc; [|done]. injection Hdoc as <-.
  cbn in Hb. split_bools. apply Z.leb_le in H.
  pose proof (map_result_length _ _ _ Hstored) as Hlen.
  apply stored_chunks_made in Hstored as [Hcont Htags]. rewrite map_snd_zip_seq in Hcont.
  intros [= <- <-]. split_and!.
  - split; cbn [repo_entries].
    + apply NoDup_dict_set, Hs.
    + apply dict_set_Forall; [apply Hs|]. split; cbn; try done.
      rewrite Hlen, length_zip, length_seq. cbn. lia.
    + intros t. rewrite versions_of_set, <-(repo_revision _ Hs t) by apply Hs.
      unfold revision_of at 1. cbn [repo_revisions fst document sd_version].
      destruct (decide (tenant = t)) as [->|Hne].
      * rewrite lookup_insert_eq. cbn. unfold version. rewrite next_version_revision. lia.
      * rewrite lookup_insert_ne by done. unfold revision_of. lia.
  - intros t Ht. split; [by eapply tenant_chunks_set|].
    unfold revision_of. cbn. by rewrite lookup_insert_ne.
  - done.
  - unfold revision_of at 1. cbn. by rewrite lookup_insert_eq.
  - exists stored. split; [|done]. cbn. by rewrite dict_get_set, decide_True.
  - intros key Hkey. cbn. by rewrite dict_get_set, decide_False.
Qed.

Lemma new_repository_ok : repo_ok new_repository.
Proof. split; [constructor|constructor|done]. Qed.

(** ** Theorems *)

(** C30: replacing a document keeps the invariant (one active entry per tenant
    and title whose chunks carry its tenant, id and version; a tenant's
    revision is the sum of its document versions).  On success the version
    is the successor of the stored one, the revision of the tenant grows by
    one, exactly this entry changes and holds the given chunk contents; on
    an error no entry and no revision changes.  Other tenants keep their
    chunks and revision in both cases. *)
Theorem memory_replace_versions : ∀ uuid4 now tenant title type name sha chunks by_user s s' r,
  repo_ok s →
  memory_replace uuid4 now tenant title type name sha chunks by_user s = (s', r) →
  repo_ok s' ∧
  (∀ t, t ≠ tenant → tenant_chunks t s' = tenant_chunks t s ∧ revision_of t s' = revision_of t s) ∧
  match r with
  | Err _ => repo_entries s' = repo_entries s ∧ repo_revisions s' = repo_revisions s
  | Ok doc =>
      sd_version doc = next_version tenant title s ∧
      revision_of tenant s' = (revision_of tenant s + 1)%Z ∧
      (∃ stored, dict_get (tenant, title) (repo_entries s')
                 = Some {| document := doc; stored_chunks := stored |} ∧
         map mc_content stored = map pc_content chunks) ∧
      (∀ key, key ≠ (tenant, title) →
         dict_get key (repo_entries s') = dict_get key (repo_entries s))
  end.
Proof. exact memory_replace_run. Qed.

(** The score of a chunk for a query: the cosine of the token counts of the
    query and of the chunk's title, section and content, and one more when the
    query contains the first word of the section title, both in lower case. *)
Definition lexically_scored `{PyUnicode} (query : string) (c : MetricChunk) (x : float) : Prop :=
  let base := token_cosine (lexical_tokens query)
    (lexical_tokens (mc_document_title c +:+ " " +:+ mc_section_title c +:+ " " +:+ mc_content c)) in
  ∃ word rest, split_ws (cps (mc_section_title c)) = word :: rest ∧
    let label := lower (encode word) in
    (label ≠ EmptyString ∧ contains label (lower query) = true ∧ x = fadd base (f_of_Z 1) ∨
     (label = EmptyString ∨ contains label (lower query) = false) ∧ x = base).

(** The score of a chunk for an embedding: the sum of the products. *)
Definition vector_scored (embedding : list float) (c : MetricChunk) (x : float) : Prop :=
  length embedding = length (mc_embedding c) ∧ x = fsum (zip_with fmul embedding (mc_embedding c)).

(** What a search of a tenant with a limit finds: the first results of the
    sorted list of all the tenant's active chunks with a positive score. *)
Definition search_finds (scored : MetricChunk → float → Prop) (tenant : string) (limit : Z)
    (s : memory_repository) (found : list RankedChunk) : Prop :=
  ∃ rest, Z.of_nat (length found) = Z.min limit (Z.of_nat (length (found ++ rest))) ∧
    Sorted (λ x y, ¬ ranked_first y x) (found ++ rest) ∧
    (∀ r, r ∈ found ++ rest ↔
       scored (chunk r) (score r) ∧ fltb fzero (score r) = true ∧
       ∃ title e, dict_get (tenant, title) (repo_entries s) = Some e ∧ chunk r ∈ stored_chunks e) ∧
    (∀ r, r ∈ found → mc_tenant_id (chunk r) = tenant ∧
       ∃ title e, dict_get (tenant, title) (repo_entries s) = Some e ∧
         mc_document_version (chunk r) = sd_version (document e) ∧ sd_status (document e) = ACTIVE).

Lemma lexical_score_spec `{PyUnicode} query c x :
  lexical_score query c = Ok x ↔ lexically_scored query c x.
Proof.
  unfold lexical_score, lexically_scored, primary_label. cbv zeta. rewrite cosine_counter.
  destruct (split_ws _) as [|word rest]; cbn [mbind result_bind]; [naive_solver|].
  destruct (String.eqb_spec (lower (encode word)) EmptyString) as [He|He],
    (contains (lower (encode word)) (lower query)) eqn:Hc; cbn [negb andb]; (split;
      [intros [= <-]; exists word, rest; rewrite Hc; auto
      |intros (w & l & [= <- <-] & Hx); rewrite Hc in Hx; naive_solver]).
Qed.

Lemma vector_score_spec embedding c x :
  cosine_similarity embedding (mc_embedding c) = Ok x ↔ vector_scored embedding c x.
Proof.
  unfold cosine_similarity, vector_scored. destruct (Nat.eqb_spec (length embedding) (length (mc_embedding c)));
    naive_solver.
Qed.

Lemma elem_of_tenant_chunks t s c :
  repo_ok s → c ∈ tenant_chunks t s ↔
    ∃ title e, dict_get (t, title) (repo_entries s) = Some e ∧ c ∈ stored_chunks e.
Proof.
  intros Hs. split; [intros Hc; by destruct (tenant_chunks_own t s c Hs Hc) as (_ & title & e & ? & ? & _); eauto|].
  intros (title & e & He & Hc). apply dict_get_elem in He; [|apply Hs].
  unfold tenant_chunks. apply list_elem_of_In, in_concat. exists (stored_chunks e).
  split; [|by apply list_elem_of_In]. apply in_map_iff. exists (t, title, e). split; [done|].
  apply filter_In. split; [by apply list_elem_of_In|]. by apply bool_decide_true.
Qed.

Lemma ranked_search scores (scored : MetricChunk → float → Prop) tenant limit s found :
  (∀ c x, scores c = Ok x ↔ scored c x) → repo_ok s → (0 ≤ limit)%Z →
  rank_chunks scores limit (tenant_chunks tenant s) = Ok found → search_finds scored tenant limit s found.
Proof.
  intros Hsc Hs Hl (rest & Hlen & Hsort & Hin & _)%rank_chunks_spec; [|done].
  exists rest. split_and!; [done|done| |].
  - intros r. rewrite Hin, Hsc, elem_of_tenant_chunks by done. tauto.
  - intros r Hr. destruct (tenant_chunks_own tenant s (chunk r) Hs) as (? & title & e & ? & ? & ? & ?).
    { apply (Hin r). apply elem_of_app. by left. }
    eauto 10.
Qed.

(** C28: a search of the in-memory repository changes nothing but its call
    counter.  It finds the first [limit] of all active chunks of the searching
    tenant that have a positive score, sorted by descending score, then
    ordinal, then id, each with its own score: the cosine of the token counts
    (plus one when the query names the section) for the lexical search, the
    sum of the products with the embedding for the vector search. *)
Theorem memory_search_isolated : ∀ (U : PyUnicode) tenant query embedding limit s found,
  repo_ok s → (0 ≤ limit)%Z →
  memory_lexical_search tenant query limit s
    = ({| repo_entries := repo_entries s; repo_revisions := repo_revisions s;
          lexical_calls := lexical_calls s + 1; vector_calls := vector_calls s;
          uuids_drawn := uuids_drawn s; clock_reads := clock_reads s |},
       (memory_lexical_search tenant query limit s).2) ∧
  memory_vector_search tenant embedding limit s
    = ({| repo_entries := repo_entries s; repo_revisions := repo_revisions s;
          lexical_calls := lexical_calls s; vector_calls := vector_calls s + 1;
          uuids_drawn := uuids_drawn s; clock_reads := clock_reads s |},
       (memory_vector_search tenant embedding limit s).2) ∧
  ((memory_lexical_search tenant query limit s).2 = Ok found →
     search_finds (lexically_scored query) tenant limit s found) ∧
  ((memory_vector_search tenant embedding limit s).2 = Ok found →
     search_finds (vector_scored embedding) tenant limit s found).
Proof.
  intros U tenant query embedding limit s found Hs Hl. split_and!; [done|done| |]; intros Hf.
  - eapply ranked_search; [intros c x; apply lexical_score_spec|done|done|exact Hf].
  - eapply ranked_search; [intros c x; apply vector_score_spec|done|done|exact Hf].
Qed.

(** A chunk whose section title is white space makes every lexical search
    of its tenant fail with an [IndexError], whatever the query. *)
Theorem blank_title_breaks_search : ∀ (U : PyUnicode) tenant query limit s c,
  c ∈ tenant_chunks tenant s → split_ws (cps (mc_section_title c)) = [] →
  (memory_lexical_search tenant query limit s).2 = Err IndexError.
Proof.
  intros U tenant query limit s c Hc Hblank. cbn. unfold rank_chunks.
  destruct (map_result _ _) as [ranked|e] eqn:Hm; cbn.
  - apply map_result_Ok in Hm. destruct (Forall2_in_l _ _ _ _ Hm Hc) as (r & _ & Hr).
    apply result_bind_Ok in Hr as (sc & Hsc & _). unfold lexical_score, primary_label in Hsc.
    rewrite Hblank in Hsc. discriminate Hsc.
  - apply map_result_Err in Hm as (c' & _ & Hr).
    apply result_bind_Err in Hr as [Hr|(? & _ & ?)]; [|done].
    unfold lexical_score in Hr. apply result_bind_Err in Hr as [Hr|(? & _ & ?)]; [|done].
    unfold primary_label in Hr. destruct (split_ws (cps (mc_section_title c'))); congruence.
Qed.

(** ** Witnesses *)

Definition demo_uuid (n : nat) : string := "uuid-" +:+ str_of_nat n.
Definition demo_now (n : nat) : string := "time-" +:+ str_of_nat n.
Definition demo_pending (title content : string) : PendingMetricChunk := {|
  pc_section_key := "doc#s"; pc_section_title := title; pc_source_locator := "lines=1-1";
  pc_ordinal := 0; pc_content := content; pc_embedding := _embed_one 16 content |}.
Definition demo_sha : string := sha256_hex "payload".

(** Two tenants, one document each, the first one replaced once. *)
Definition demo_replace (tenant title content : string) (s : memory_repository) :=
  memory_replace demo_uuid demo_now tenant "Metrics" MARKDOWN "m.md" demo_sha
    [demo_pending title content] None s.
Definition demo_repository : memory_repository :=
  (demo_replace "t1" "Revenue" "net revenue per order"
     (demo_replace "t2" "Costs" "shipping cost"
        (demo_replace "t1" "Revenue" "gross revenue" new_repository).1).1).1.

Lemma demo_replace_ok tenant title content s :
  repo_ok s → repo_ok (demo_replace tenant title content s).1.
Proof.
  intros Hs. unfold demo_replace. destruct (memory_replace _ _ _ _ _ _ _ _ _ s) as [s' r] eqn:E.
  by destruct (memory_replace_run _ _ _ _ _ _ _ _ _ _ _ _ Hs E).
Qed.

Lemma demo_repository_ok : repo_ok demo_repository.
Proof. unfold demo_repository. do 3 apply demo_replace_ok. apply new_repository_ok. Qed.

Lemma memory_replace_versions_witness :
  repo_ok demo_repository ∧ revision_of "t1" demo_repository = 2%Z ∧
  revision_of "t1" (demo_replace "t1" "Revenue" "revenue" demo_repository).1 = 3%Z.
Proof.
  split; [apply demo_repository_ok|]. split; [vm_compute; done|].
  unfold demo_replace. destruct (memory_replace _ _ _ _ _ _ _ _ _ _) as [s' r] eqn:E.
  destruct (memory_replace_versions _ _ _ _ _ _ _ _ _ _ _ _ demo_repository_ok E)
    as (_ & _ & Hr).
  assert (is_ok r = true) as Hok by (replace r with (s', r).2 by done; rewrite <-E; vm_compute; done).
  destruct r as [doc|]; [|done]. destruct Hr as (_ & Hrev & _). cbn [fst]. rewrite Hrev.
  vm_compute. done.
Defined.

Lemma memory_search_isolated_witness :
  let found := default [] (match (memory_lexical_search "t1" "revenue" 5 demo_repository).2 with
                           | Ok l => Some l | Err _ => None end) in
  map (mc_content ∘ chunk) found = ["net revenue per order"] ∧
  search_finds (lexically_scored "revenue") "t1" 5 demo_repository found.
Proof.
  intros found. split; [vm_compute; done|].
  destruct (memory_search_isolated demo_unicode "t1" "revenue" [] 5 demo_repository found
    demo_repository_ok ltac:(done)) as (_ & _ & Hin & _).
  apply Hin. vm_compute. done.
Defined.

Lemma blank_title_breaks_search_witness :
  (memory_lexical_search "t1" "revenue" 5 (demo_replace "t1" " " "net revenue" new_repository).1).2
  = Err IndexError.
Proof.
  apply (blank_title_breaks_search demo_unicode "t1" "revenue" 5 _
    {| mc_id := "uuid-1"; mc_tenant_id := "t1"; mc_document_id := "uuid-0";
       mc_document_title := "Metrics"; mc_document_version := 1; mc_section_key := "doc#s";
       mc_section_title := " "; mc_source_locator := "lines=1-1"; mc_ordinal := 0;
       mc_content := "net revenue"; mc_embedding := _embed_one 16 "net revenue" |}).
  - vm_compute. left.
  - reflexivity.
Defined.

(** Such a title comes out of parsing: the stem of the file name [" .md"]. *)
Example blank_title_parsed :
  parse_document " .md" MARKDOWN "text" (λ _, Err ValueError) 2000000 10000000 100
  = Ok [{| section_key := " .md#section-1"; section_title := " "; source_locator := "lines=1-1";
           section_content := "text" |}].
Proof. vm_compute. done. Qed.
