(* ===== verification/RetrievalService.v ===== *)
(** * Retrieval: [app/retrieval/service.py], [app/retrieval/cache.py]

    [MetricRetrievalService] over the interfaces of the repository, the
    embedding provider and the reranker, with its result cache.  The world of
    a call is the cache and the world of the collaborators. *)

From S2P Require Import Prelude PyStr Floats Errors Json Metadata Parsing Embeddings.
From S2P Require Import KnowledgeRepository.

(** ** models.py *)

Inductive RetrievalMode := Lexical | Vector | Hybrid | HybridRerank.
#[export] Instance RetrievalMode_eq_dec : EqDecision RetrievalMode.
Proof. solve_decision. Defined.
Definition mode_name (m : RetrievalMode) : string :=
  match m with
  | Lexical => "lexical" | Vector => "vector" | Hybrid => "hybrid" | HybridRerank => "hybrid_rerank"
  end.

Record Citation := {
  ci_document_id : string; ci_document_title : string; ci_document_version : Z;
  ci_section_key : string; ci_section_title : string; ci_source_locator : string }.

Record RetrievalHit := {
  hit_content : string; hit_citation : Citation; hit_lexical_score : option float;
  hit_vector_score : option float; hit_fused_score : float; hit_rerank_score : option float }.

Definition RetrievalHit_make (h : RetrievalHit) : result exn RetrievalHit :=
  if fleb fzero (hit_fused_score h) then Ok h else Err ValidationError.

Record RetrievalResult := {
  res_query : string; res_mode : RetrievalMode; res_corpus_revision : string;
  res_hits : list RetrievalHit; res_citations : list Citation; res_should_answer : bool }.

Definition RetrievalResult_make (r : RetrievalResult) : result exn RetrievalResult :=
  if (1 <=? py_len (res_query r)) && (py_len (res_query r) <=? 4000)
  then Ok r else Err ValidationError.

(** ** cache.py *)

Definition cache_key : Type := string * string * string * string * Z.
Record cached := { cached_result : RetrievalResult; cached_until : float }.
Record RetrievalCache := { cache_ttl : Z; cache_entries : gmap cache_key cached }.

Definition RetrievalCache_new (ttl : Z) : result exn RetrievalCache :=
  if (ttl <=? 0)%Z then Err ValueError else Ok {| cache_ttl := ttl; cache_entries := ∅ |}.

Definition key_of (tenant query revision : string) (mode : RetrievalMode) (limit : Z) : cache_key :=
  (tenant, query, revision, mode_name mode, limit).

Definition set_entries (c : RetrievalCache) (m : gmap cache_key cached) : RetrievalCache :=
  {| cache_ttl := cache_ttl c; cache_entries := m |}.

Definition invalidate_tenant (tenant : string) (c : RetrievalCache) : RetrievalCache :=
  set_entries c (filter (λ kv, kv.1.1.1.1.1 ≠ tenant) (cache_entries c)).

(** ** The collaborators *)

Class RetrievalEnv (W : Type) := {
  store :: MetricKnowledgeRepository W;
  embed : list string → op W exn (list (list float));
  reranker : option (string → list RetrievalHit → op W exn (list RetrievalHit));
  read_pdf : string → result exn pdf_pages;
  monotonic : W → W * float
}.

Inductive retrieval_call :=
| CallRevision (tenant : string) (reply : result exn string)
| CallEmbed (texts : list string)
| CallLexicalSearch (tenant query : string) (limit : Z)
| CallVectorSearch (tenant : string) (embedding : list float) (limit : Z)
| CallRerank (query : string) (hits : list RetrievalHit)
| CallReplace (tenant title : string) (chunks : list PendingMetricChunk).

Record service := {
  chunk_max_characters : Z; chunk_overlap_characters : Z; default_limit : Z; rrf_k : Z;
  min_lexical_score : float; min_vector_score : float;
  max_markdown_bytes : Z; max_pdf_bytes : Z; max_pdf_pages : Z }.

Definition MetricRetrievalService (s : service) : result exn service :=
  if (rrf_k s <=? 0)%Z then Err ValueError
  else if negb ((1 <=? default_limit s) && (default_limit s <=? 20))%Z then Err ValueError
  else Ok s.

(** ** _rank and _has_evidence *)

Definition chunk_id (r : RankedChunk) : string := mc_id (chunk r).
Definition by_id (l : list RankedChunk) : list (string * RankedChunk) :=
  dict_of (map (λ r, (chunk_id r, r)) l).

(** One ranking of the reciprocal rank fusion, ranks counted from [rank]. *)
Fixpoint fuse (k : Z) (weight : float) (rank : nat) (l : list RankedChunk)
    (fused : list (string * float)) : list (string * float) :=
  match l with
  | [] => fused
  | r :: l =>
      let s := fadd (default fzero (dict_get (chunk_id r) fused))
                 (fdiv weight (f_of_Z (k + Z.of_nat rank))) in
      fuse k weight (S rank) l (dict_set (chunk_id r) s fused)
  end.

(** The sort key [(-score, str(id))]. *)
Definition fused_before (x y : string * float) : bool :=
  let sx := fneg x.2 in let sy := fneg y.2 in
  if feqb sx sy then negb (str_leb y.1 x.1) else fltb sx sy.

Definition fused_order (k : Z) (lexical vector : list RankedChunk) : list (string * float) :=
  sort_by fused_before (fuse k (f_of_Z 1) 1 vector (fuse k (f_of_Z 3) 1 lexical [])).

Definition single_order (l : list RankedChunk) : list (string * float) :=
  map (λ r, (chunk_id r, fmax fzero (score r))) l.

Definition citation_of (c : MetricChunk) : Citation := {|
  ci_document_id := mc_document_id c; ci_document_title := mc_document_title c;
  ci_document_version := mc_document_version c; ci_section_key := mc_section_key c;
  ci_section_title := mc_section_title c; ci_source_locator := mc_source_locator c |}.

Definition hit_of (lexical_by_id vector_by_id : list (string * RankedChunk))
    (entry : string * float) : result exn (option RetrievalHit) :=
  let l := dict_get entry.1 lexical_by_id in
  let v := dict_get entry.1 vector_by_id in
  match match l with Some r => Some r | None => v end with
  | None => Ok None
  | Some item =>
      h ← RetrievalHit_make {|
        hit_content := mc_content (chunk item); hit_citation := citation_of (chunk item);
        hit_lexical_score := score <$> l; hit_vector_score := score <$> v;
        hit_fused_score := entry.2; hit_rerank_score := None |};
      Ok (Some h)
  end.

Definition _rank (s : service) (lexical vector : list RankedChunk) (mode : RetrievalMode) :
    result exn (list RetrievalHit) :=
  let order := match mode with
    | Lexical => single_order lexical
    | Vector => single_order vector
    | _ => fused_order (rrf_k s) lexical vector
    end in
  omap (M:=list) id <$> map_result (hit_of (by_id lexical) (by_id vector)) order.

Definition uses_lexical (m : RetrievalMode) : bool := match m with Vector => false | _ => true end.
Definition uses_vector (m : RetrievalMode) : bool := match m with Lexical => false | _ => true end.

Definition _has_evidence (s : service) (hits : list RetrievalHit) (mode : RetrievalMode) : bool :=
  match hits with
  | [] => false
  | _ =>
      uses_lexical mode
      && existsb (λ h, fleb (min_lexical_score s) (default fzero (hit_lexical_score h))) hits
      || uses_vector mode
      && existsb (λ h, fleb (min_vector_score s)
           match hit_vector_score h with
           | Some v => if feqb v fzero then f_of_Z (-1) else v
           | None => f_of_Z (-1)
           end) hits
  end.

Section Service.
Context `{PyUnicode, Digests} {W : Type} `{RetrievalEnv W} (s : service).

Notation M := (eff (RetrievalCache * W) retrieval_call exn).

Definition on_world {A} (o : op W exn A) : op (RetrievalCache * W) exn A := λ cw,
  let '(w', r) := o cw.2 in ((cw.1, w'), r).

(** [get]: the clock is read for a stored entry only, an expired one is dropped. *)
Definition cache_get (key : cache_key) : M (option RetrievalResult) := silent (λ '(c, w),
  match cache_entries c !! key with
  | None => ((c, w), None)
  | Some entry =>
      let '(w', time) := monotonic w in
      if fleb (cached_until entry) time
      then ((set_entries c (delete key (cache_entries c)), w'), None)
      else ((c, w'), Some (cached_result entry))
  end).

Definition cache_put (tenant : string) (r : RetrievalResult) (limit : Z) : M unit := silent (λ '(c, w),
  let key := key_of tenant (res_query r) (res_corpus_revision r) (res_mode r) limit in
  let '(w', time) := monotonic w in
  let entry := {| cached_result := r; cached_until := fadd time (f_of_Z (cache_ttl c)) |} in
  ((set_entries c (<[key := entry]> (cache_entries c)), w'), tt)).

Definition cache_invalidate (tenant : string) : M unit := silent (λ '(c, w),
  ((invalidate_tenant tenant c, w), tt)).

Definition embed_query (q : string) : M (list float) :=
  vectors ← invoke (CallEmbed [q]) (on_world (embed [q]));
  match vectors with v :: _ => mret v | [] => raise IndexError end.

Definition rerank_hits (mode : RetrievalMode) (q : string) (hits : list RetrievalHit) :
    M (list RetrievalHit) :=
  match mode, reranker with
  | HybridRerank, None => raise ValueError
  | HybridRerank, Some rerank => invoke (CallRerank q hits) (on_world (rerank q hits))
  | _, _ => mret hits
  end.

(** The part of [retrieve] that a cached result skips. *)
Definition search (tenant q revision : string) (mode : RetrievalMode) (limit : Z) : M RetrievalResult :=
  let candidates := Z.min 100 (Z.max (limit * 4) 20) in
  lexical ← (if uses_lexical mode
             then invoke (CallLexicalSearch tenant q candidates)
                    (on_world (lexical_search tenant q candidates))
             else mret []);
  vector ← (if uses_vector mode
            then v ← embed_query q;
                 invoke (CallVectorSearch tenant v candidates)
                   (on_world (vector_search tenant v candidates))
            else mret []);
  ranked ← lift_result (_rank s lexical vector mode);
  reranked ← rerank_hits mode q ranked;
  let hits := slice_to limit reranked in
  r ← lift_result (RetrievalResult_make {|
    res_query := q; res_mode := mode; res_corpus_revision := revision; res_hits := hits;
    res_citations := map hit_citation hits; res_should_answer := _has_evidence s hits mode |});
  _ ← cache_put tenant r limit;
  mret r.

Definition retrieve (tenant query : string) (mode : RetrievalMode) (limit : option Z) :
    M RetrievalResult :=
  let q := normalize_ws query in
  if (py_len q =? 0) || (4000 <? py_len q) then raise ValueError
  else
    let n := default (default_limit s) limit in
    if negb ((1 <=? n) && (n <=? 20))%Z then raise ValueError
    else
      revision ← observe (CallRevision tenant) (on_world (corpus_revision tenant));
      known ← cache_get (key_of tenant q revision mode n);
      match known with
      | Some r => mret r
      | None => search tenant q revision mode n
      end.

(** ** ingest *)

Definition newline : string := encode [10%N].

Definition pending_chunk (item : DocumentSection * nat * list float) : result exn PendingMetricChunk :=
  let '(section, ordinal, vector) := item in
  PendingMetricChunk_make {|
    pc_section_key := section_key section; pc_section_title := section_title section;
    pc_source_locator := source_locator section; pc_ordinal := Z.of_nat ordinal;
    pc_content := section_content section; pc_embedding := vector |}.

(** [zip(..., strict=True)]: a difference in length raises when the shorter
    side ends. *)
Definition pending_chunks (parsed : list (DocumentSection * nat)) (vectors : list (list float)) :
    result exn (list PendingMetricChunk) :=
  made ← map_result pending_chunk (zip parsed vectors);
  if length parsed =? length vectors then Ok made else Err ValueError.

Definition ingest (tenant title source_name : string) (type : SourceType) (payload : string)
    (created_by : option string) : M StoredMetricDocument :=
  let t := normalize_ws title in
  if (py_len t =? 0) || (240 <? py_len t) then raise ValueError
  else
    sections ← lift_result (parse_document source_name type payload read_pdf
      (max_markdown_bytes s) (max_pdf_bytes s) (max_pdf_pages s));
    parsed ← lift_result (chunk_sections sections (chunk_max_characters s)
      (chunk_overlap_characters s));
    let texts := map (λ p, section_title p.1 +:+ newline +:+ section_content p.1) parsed in
    vectors ← invoke (CallEmbed texts) (on_world (embed texts));
    pending ← lift_result (pending_chunks parsed vectors);
    document ← invoke (CallReplace tenant t pending)
      (on_world (replace_document tenant t type source_name (sha256_hex payload) pending created_by));
    _ ← cache_invalidate tenant;
    mret document.
End Service.

(** ** The fusion *)

(** The score that a ranking adds to an id: [weight / (k + rank)] on top of
    what is there, with ranks counted from [rank]. *)
Fixpoint rank_of (id : string) (rank : nat) (l : list RankedChunk) : option nat :=
  match l with
  | [] => None
  | r :: l => if decide (id = chunk_id r) then Some rank else rank_of id (S rank) l
  end.

Definition rrf_add (k : Z) (weight : float) (rank : option nat) (sofar : option float) : option float :=
  match rank with
  | Some n => Some (fadd (default fzero sofar) (fdiv weight (f_of_Z (k + Z.of_nat n))))
  | None => sofar
  end.

(** Weighted reciprocal rank fusion: weight 3 for the lexical ranking, 1 for
    the vector ranking; [None] for an id in neither. *)
Definition rrf_score (k : Z) (lexical vector : list RankedChunk) (id : string) : option float :=
  rrf_add k (f_of_Z 1) (rank_of id 1 vector) (rrf_add k (f_of_Z 3) (rank_of id 1 lexical) None).

Lemma rank_of_None id n l : rank_of id n l = None ↔ id ∉ map chunk_id l.
Proof.
  revert n. induction l as [|r l IH]; intros n; cbn; [set_solver|].
  rewrite not_elem_of_cons. destruct (decide _); [naive_solver|]. rewrite IH. naive_solver.
Qed.

Lemma fuse_get k weight n l d id :
  NoDup (map chunk_id l) →
  dict_get id (fuse k weight n l d) = rrf_add k weight (rank_of id n l) (dict_get id d).
Proof.
  revert n d. induction l as [|r l IH]; intros n d; cbn [map fuse rank_of]; [done|].
  intros [Hr Hl]%NoDup_cons. rewrite IH by done. rewrite dict_get_set.
  destruct (decide (id = chunk_id r)) as [->|]; [|done].
  by rewrite (proj2 (rank_of_None _ _ _)).
Qed.

Lemma fuse_NoDup k weight n l d : NoDup d.*1 → NoDup (fuse k weight n l d).*1.
Proof.
  revert n d. induction l as [|r l IH]; intros n d Hd; cbn [fuse]; [done|].
  by apply IH, NoDup_dict_set.
Qed.

(** The order of the hits: the higher fused score first, then the smaller id. *)
Definition fused_first (x y : string * float) : Prop :=
  fltb y.2 x.2 = true ∨ feqb x.2 y.2 = true ∧ str_le x.1 y.1 ∧ x.1 ≠ y.1.

Lemma fused_before_spec x y : fused_before x y = true ↔ fused_first x y.
Proof.
  unfold fused_before, fused_first. cbv zeta. rewrite feqb_fneg, fltb_fneg.
  destruct (feqb x.2 y.2) eqn:E.
  - rewrite (feqb_fltb y.2) by by rewrite feqb_sym. rewrite str_ltb_spec. naive_solver.
  - naive_solver.
Qed.

Lemma fused_before_asym x y : fused_before x y = true → fused_before y x = false.
Proof.
  intros Hx. apply not_true_iff_false. rewrite fused_before_spec in *. unfold fused_first in *.
  intros [Hy|(Hy & Hs & _)]; destruct Hx as [Hx|(Hx & Ht & Hn)].
  - apply fltb_asym in Hx. congruence.
  - apply feqb_fltb in Hx. congruence.
  - apply feqb_fltb in Hy. congruence.
  - by apply Hn, (anti_symm str_le).
Qed.

Lemma fused_order_spec k lexical vector id score :
  NoDup (map chunk_id lexical) → NoDup (map chunk_id vector) →
  (id, score) ∈ fused_order k lexical vector ↔ rrf_score k lexical vector id = Some score.
Proof.
  intros Hl Hv. unfold fused_order. rewrite sort_by_perm.
  rewrite <-dict_get_elem by (apply fuse_NoDup, fuse_NoDup; constructor).
  by rewrite !fuse_get.
Qed.

Lemma fused_order_NoDup k lexical vector : NoDup (fused_order k lexical vector).*1.
Proof.
  unfold fused_order. rewrite sort_by_perm. apply fuse_NoDup, fuse_NoDup. constructor.
Qed.

Lemma by_id_get l id : NoDup (map chunk_id l) →
  match dict_get id (by_id l) with
  | Some r => r ∈ l ∧ chunk_id r = id
  | None => id ∉ map chunk_id l
  end.
Proof.
  intros Hl. unfold by_id.
  assert ((map (λ r, (chunk_id r, r)) l).*1 = map chunk_id l) as Hk.
  { clear. induction l as [|r l IH]; cbn; [done|]. by f_equal. }
  rewrite dict_of_id by (by rewrite Hk).
  destruct (dict_get id _) as [r|] eqn:E.
  - apply dict_get_elem in E; [|by rewrite Hk].
    apply elem_of_map in E as (r' & [= -> ->] & Hr). done.
  - apply dict_get_None in E. by rewrite Hk in E.
Qed.

Lemma rrf_score_in k lexical vector id x :
  rrf_score k lexical vector id = Some x →
  id ∈ map chunk_id lexical ∨ id ∈ map chunk_id vector.
Proof.
  intros Hs. destruct (decide (id ∈ map chunk_id lexical)); [by left|].
  destruct (decide (id ∈ map chunk_id vector)); [by right|].
  unfold rrf_score in Hs. rewrite !(proj2 (rank_of_None _ _ _)) in Hs by done. done.
Qed.

(** The score of an id: 3 over its place in the lexical ranking and 1 over its
    place in the vector ranking, each place counted from [k + 1]. *)
Inductive fusion (k : Z) (lexical vector : list RankedChunk) (id : string) : float → Prop :=
| fusion_both i j r r' :
    lexical !! i = Some r → mc_id (chunk r) = id → vector !! j = Some r' → mc_id (chunk r') = id →
    fusion k lexical vector id
      (fadd (fadd fzero (fdiv (f_of_Z 3) (f_of_Z (k + Z.of_nat i + 1))))
            (fdiv (f_of_Z 1) (f_of_Z (k + Z.of_nat j + 1))))
| fusion_lexical i r :
    lexical !! i = Some r → mc_id (chunk r) = id → (∀ r', r' ∈ vector → mc_id (chunk r') ≠ id) →
    fusion k lexical vector id (fadd fzero (fdiv (f_of_Z 3) (f_of_Z (k + Z.of_nat i + 1))))
| fusion_vector j r' :
    vector !! j = Some r' → mc_id (chunk r') = id → (∀ r, r ∈ lexical → mc_id (chunk r) ≠ id) →
    fusion k lexical vector id (fadd fzero (fdiv (f_of_Z 1) (f_of_Z (k + Z.of_nat j + 1)))).

Lemma rank_of_place id n l :
  match rank_of id n l with
  | Some m => ∃ i r, l !! i = Some r ∧ mc_id (chunk r) = id ∧ m = n + i
  | None => ∀ r, r ∈ l → mc_id (chunk r) ≠ id
  end.
Proof.
  revert n. induction l as [|r l IH]; intros n; cbn; [by intros ? ?%elem_of_nil|].
  destruct (decide (id = chunk_id r)) as [->|Hne].
  - exists 0, r. split_and!; [done|done|lia].
  - specialize (IH (S n)). destruct (rank_of id (S n) l).
    + destruct IH as (i & r' & ? & ? & ->). exists (S i), r'. split_and!; [done|done|lia].
    + intros r' [->|Hr]%elem_of_cons; [|by apply IH]. by intros E; apply Hne.
Qed.

Lemma rrf_score_fusion k lexical vector id x :
  rrf_score k lexical vector id = Some x → fusion k lexical vector id x.
Proof.
  unfold rrf_score. pose proof (rank_of_place id 1 lexical) as Hl. pose proof (rank_of_place id 1 vector) as Hv.
  assert (∀ i, k + Z.of_nat (1 + i) = k + Z.of_nat i + 1)%Z as Ek by lia.
  destruct (rank_of id 1 lexical), (rank_of id 1 vector); cbn; intros [= <-]; try done;
    repeat match goal with E : ∃ _, _ |- _ => destruct E as (? & ? & ? & ? & ->) end;
    rewrite ?Ek; by econstructor.
Qed.

(** What a hit shows: the chunk of its id (of the lexical ranking if it is
    there), the citation of that chunk and the scores of both rankings. *)
Record hit_shows (lexical vector : list RankedChunk) (entry : string * float)
    (h : RetrievalHit) : Prop := {
  shows_chunk : ∃ r, mc_id (chunk r) = entry.1 ∧
    (r ∈ lexical ∨ r ∈ vector ∧ ∀ r', r' ∈ lexical → mc_id (chunk r') ≠ entry.1) ∧
    hit_content h = mc_content (chunk r) ∧
    hit_citation h = {|
      ci_document_id := mc_document_id (chunk r); ci_document_title := mc_document_title (chunk r);
      ci_document_version := mc_document_version (chunk r); ci_section_key := mc_section_key (chunk r);
      ci_section_title := mc_section_title (chunk r); ci_source_locator := mc_source_locator (chunk r) |};
  shows_fused : hit_fused_score h = entry.2;
  shows_lexical : ∀ x, hit_lexical_score h = Some x ↔
    ∃ r, r ∈ lexical ∧ mc_id (chunk r) = entry.1 ∧ x = score r;
  shows_vector : ∀ x, hit_vector_score h = Some x ↔
    ∃ r, r ∈ vector ∧ mc_id (chunk r) = entry.1 ∧ x = score r;
  shows_rerank : hit_rerank_score h = None
}.

Lemma by_id_score l id x :
  NoDup (map chunk_id l) →
  score <$> dict_get id (by_id l) = Some x ↔ ∃ r, r ∈ l ∧ mc_id (chunk r) = id ∧ x = score r.
Proof.
  intros Hl. pose proof (by_id_get l id Hl) as Hg. destruct (dict_get id (by_id l)) as [r|]; cbn.
  - destruct Hg as [Hr Hid]. split; [intros [= <-]; by exists r|].
    intros (r' & Hr' & Hid' & ->). do 2 f_equal.
    apply list_elem_of_lookup in Hr as [i Hi], Hr' as [j Hj].
    assert (i = j) as ->; [|congruence].
    eapply (NoDup_lookup (map chunk_id l)); [done|rewrite list_lookup_fmap, Hi; cbn; by rewrite Hid|].
    rewrite list_lookup_fmap, Hj. cbn. f_equal. done.
  - split; [done|]. intros (r & Hr & Hid & _). destruct Hg. apply elem_of_map. by exists r.
Qed.

Lemma hit_of_shows lexical vector entry o :
  NoDup (map chunk_id lexical) → NoDup (map chunk_id vector) →
  entry.1 ∈ map chunk_id lexical ∨ entry.1 ∈ map chunk_id vector →
  hit_of (by_id lexical) (by_id vector) entry = Ok o →
  ∃ h, o = Some h ∧ hit_shows lexical vector entry h.
Proof.
  intros Hl Hv Hin. unfold hit_of.
  pose proof (by_id_get lexical entry.1 Hl) as El. pose proof (by_id_get vector entry.1 Hv) as Ev.
  pose proof (λ x, by_id_score lexical entry.1 x Hl) as Sl.
  pose proof (λ x, by_id_score vector entry.1 x Hv) as Sv.
  assert (∀ x item, RetrievalHit_make x ≫= (λ h, Ok (Some h)) = Ok o → item = x → o = Some item) as Hmk.
  { intros x item Hx ->. unfold RetrievalHit_make in Hx. destruct (fleb _ _); naive_solver. }
  destruct (dict_get entry.1 (by_id lexical)) as [rl|] eqn:Dl.
  - intros Ho. eexists. split; [by eapply Hmk|]. destruct El. split; try done.
    exists rl. split_and!; [done|by left|done|done].
  - destruct (dict_get entry.1 (by_id vector)) as [rv|] eqn:Dv; [|naive_solver].
    intros Ho. eexists. split; [by eapply Hmk|]. destruct Ev. split; try done.
    exists rv. split_and!; [done| |done|done]. right. split; [done|]. intros r' Hr' E.
    apply El, elem_of_map. by exists r'.
Qed.

Lemma hits_of_order lexical vector order os :
  NoDup (map chunk_id lexical) → NoDup (map chunk_id vector) →
  (∀ e, e ∈ order → e.1 ∈ map chunk_id lexical ∨ e.1 ∈ map chunk_id vector) →
  Forall2 (λ e o, hit_of (by_id lexical) (by_id vector) e = Ok o) order os →
  Forall2 (hit_shows lexical vector) order (omap (M:=list) id os).
Proof.
  intros Hl Hv Hin HF. induction HF as [|e o order os Ho HF IH]; [constructor|].
  destruct (hit_of_shows lexical vector e o) as (h & -> & Hh); [done|done|apply Hin; by left|done|].
  change (omap id (Some h :: os)) with (h :: omap (M:=list) id os).
  constructor; [done|]. apply IH. intros e' He'. apply Hin. by right.
Qed.

(** ** The cache *)

(** An entry answers its own key, with as many hits as the key's limit allows
    and the citations of exactly these hits. *)
Definition answers (key : cache_key) (r : RetrievalResult) : Prop :=
  key.1.1.1.2 = res_query r ∧ key.1.1.2 = res_corpus_revision r ∧
  key.1.2 = mode_name (res_mode r) ∧ (Z.of_nat (length (res_hits r)) ≤ key.2)%Z ∧
  res_citations r = map hit_citation (res_hits r).

Definition cache_ok (c : RetrievalCache) : Prop :=
  ∀ key entry, cache_entries c !! key = Some entry → answers key (cached_result entry).

Lemma cache_ok_subseteq c m :
  cache_ok c → (∀ key entry, m !! key = Some entry → cache_entries c !! key = Some entry) →
  cache_ok (set_entries c m).
Proof. intros Hc Hm key entry Hk. apply Hc, Hm, Hk. Qed.

#[export] Instance mode_name_inj : Inj (=) (=) mode_name.
Proof. by intros [] []. Qed.

Lemma invalidate_tenant_lookup tenant c key :
  cache_entries (invalidate_tenant tenant c) !! key
  = if decide (key.1.1.1.1 = tenant) then None else cache_entries c !! key.
Proof.
  unfold invalidate_tenant. cbn. destruct (decide (key.1.1.1.1 = tenant)) as [Ht|Ht].
  - apply map_lookup_filter_None. right. intros entry _ Hk. cbn in Hk. congruence.
  - destruct (cache_entries c !! key) as [entry|] eqn:E.
    + by apply map_lookup_filter_Some.
    + apply map_lookup_filter_None. by left.
Qed.

Definition is_search (call : retrieval_call) : bool :=
  match call with CallLexicalSearch _ _ _ | CallVectorSearch _ _ _ => true | _ => false end.
Definition searched (t : list retrieval_call) : Prop := existsb is_search t = true.

Lemma searched_app t t' : searched (t ++ t') ↔ searched t ∨ searched t'.
Proof. unfold searched. by rewrite existsb_app, orb_true_iff. Qed.

Section RetrieveRuns.
Context `{PyUnicode, Digests} {W : Type} `{RetrievalEnv W} (s : service).

(** A call of a collaborator leaves the cache as it was. *)
Lemma hoare_world {A} (P : RetrievalCache * W → Prop) (call : retrieval_call) (o : op W exn A) Q :
  (∀ c w w' r, P (c, w) → Q (c, w') [call] r) → hoare P (invoke call (on_world o)) Q.
Proof.
  intros HQ. apply hoare_invoke. intros [c w] cw' r HP. unfold on_world. cbn.
  destruct (o w) as [w' r']. intros [= <- <-]. by eapply HQ.
Qed.

Lemma lexical_run c tenant q mode n :
  hoare (λ cw, cw.1 = c)
    (if uses_lexical mode then invoke (CallLexicalSearch tenant q n)
                                 (on_world (lexical_search tenant q n)) else mret [])
    (λ cw t _, cw.1 = c ∧ (uses_lexical mode = true → searched t)).
Proof.
  destruct (uses_lexical mode).
  - apply hoare_world. intros c' w w' r Hc. cbn in *. by split.
  - apply hoare_ret. intros cw Hc. by split.
Qed.

Lemma embed_query_run c q :
  hoare (λ cw, cw.1 = c) (embed_query q) (λ cw _ _, cw.1 = c).
Proof.
  apply hoare_bind, hoare_world. intros c' w w' [vs|e] Hc; [|done].
  destruct vs; [apply hoare_raise|apply hoare_ret]; by intros ? <-.
Qed.

Lemma vector_run c tenant q mode n :
  hoare (λ cw, cw.1 = c)
    (if uses_vector mode then v ← embed_query q;
       invoke (CallVectorSearch tenant v n) (on_world (vector_search tenant v n)) else mret [])
    (λ cw t r, cw.1 = c ∧ (uses_vector mode = true → is_ok r = true → searched t)).
Proof.
  destruct (uses_vector mode).
  - apply hoare_bind. eapply hoare_conseq; [apply (embed_query_run c)|done|].
    intros [c' w] t [v|e] Hc; [|by (split; [done|intros _ [=]])]. apply hoare_world. intros c1 w1 w' r [= -> ->].
    split; [done|]. intros _ _. apply searched_app. by right.
  - apply hoare_ret. intros cw Hc. by split.
Qed.

Lemma rerank_run c mode q hits :
  hoare (λ cw, cw.1 = c) (rerank_hits mode q hits) (λ cw _ _, cw.1 = c).
Proof.
  unfold rerank_hits. destruct mode, reranker as [rerank|];
    try (by apply hoare_ret); [by apply hoare_world; intros ???? <-|by apply hoare_raise].
Qed.

Lemma RetrievalResult_make_eq r r' : RetrievalResult_make r = Ok r' → r' = r.
Proof. unfold RetrievalResult_make. destruct (_ && _); naive_solver. Qed.

(** A search that succeeds has asked the repository, and has stored exactly
    its own result under its key. *)
Lemma search_run c tenant q revision mode limit :
  (0 ≤ limit)%Z →
  hoare (λ cw, cw.1 = c) (search s tenant q revision mode limit) (λ cw t r,
    match r with
    | Ok res => searched t ∧ answers (key_of tenant q revision mode limit) res ∧
        ∃ entry, cached_result entry = res ∧
          cw.1 = set_entries c (<[key_of tenant q revision mode limit := entry]> (cache_entries c))
    | Err _ => cw.1 = c
    end).
Proof.
  intros Hlimit. unfold search.
  apply hoare_bind. eapply hoare_conseq; [apply (lexical_run c)|done|].
  intros cw1 t1 [lexical|e] [Hc1 Ht1]; [|done].
  apply hoare_bind. eapply hoare_conseq; [apply (vector_run c)|by intros ? <-|].
  intros cw2 t2 [vector|e] [Hc2 Ht2]; [|done].
  apply hoare_bind, hoare_lift. intros cw <-. destruct (_rank _ _ _ _) as [ranked|e]; [|done].
  apply hoare_bind. eapply hoare_conseq; [apply (rerank_run c)|by intros ? <-|].
  intros cw3 t3 [reranked|e] Hc3; [|done].
  apply hoare_bind, hoare_lift. intros cw' <-.
  destruct (RetrievalResult_make _) as [res|e] eqn:Hres; [|done].
  apply RetrievalResult_make_eq in Hres as ->.
  apply hoare_bind, hoare_silent. intros [c4 w4] cw5 [] ->. cbn in Hc3. subst c4.
  unfold cache_put. destruct (monotonic w4) as [w5 time]. intros [= <-].
  apply hoare_ret. intros cw6 <-. split_and!.
  - rewrite !searched_app. destruct mode; cbn in *; naive_solver.
  - unfold answers, key_of. cbn. split_and!; try done. rewrite slice_to_nonneg, length_take by done. lia.
  - eexists. split; [|reflexivity]. done.
Qed.
End RetrieveRuns.

Section RetrieveTheorems.
Context `{PyUnicode, Digests} {W : Type} `{RetrievalEnv W} (s : service).

(** The key a call of [retrieve] looks under, once the revision is known. *)
Definition request_key (tenant query revision : string) (mode : RetrievalMode) (limit : option Z) :=
  key_of tenant (normalize_ws query) revision mode (default (default_limit s) limit).

Lemma retrieve_run c tenant query mode limit :
  hoare (λ cw, cw.1 = c) (retrieve s tenant query mode limit) (λ cw t r,
    match r with
    | Ok res => ∃ revision, let key := request_key tenant query revision mode limit in
        CallRevision tenant (Ok revision) ∈ t ∧ (1 ≤ default (default_limit s) limit ≤ 20)%Z ∧
        ((∃ entry, cache_entries c !! key = Some entry ∧ cached_result entry = res ∧ cw.1 = c)
         ∨ searched t ∧ answers key res ∧
           ∃ entry, cached_result entry = res ∧
             cache_entries cw.1 = <[key := entry]> (cache_entries c))
    | Err _ => ∀ key entry, cache_entries cw.1 !! key = Some entry → cache_entries c !! key = Some entry
    end).
Proof.
  unfold retrieve. destruct (_ || _); [apply hoare_raise; by intros cw <-|].
  destruct (negb _) eqn:Hlim; [apply hoare_raise; by intros cw <-|].
  apply negb_false_iff, andb_true_iff in Hlim as [Hl1%Z.leb_le Hl2%Z.leb_le].
  apply hoare_bind, hoare_observe. intros [c0 w0] cw1 [revision|e] Hc; unfold on_world; cbn in *.
  2: { destruct (corpus_revision tenant w0). by intros [= <- _]; subst. }
  destruct (corpus_revision tenant w0) as [w1 rep]. intros [= <- ->]. subst c0.
  set (key := key_of tenant (normalize_ws query) revision mode (default (default_limit s) limit)).
  apply hoare_bind, hoare_silent. intros ? cw2 known <-.
  assert (∀ c' w', (∀ k entry, cache_entries c' !! k = Some entry → cache_entries c !! k = Some entry) →
    (∀ entry, <[key := entry]> (cache_entries c') = <[key := entry]> (cache_entries c)) →
    hoare (eq (c', w')) (search s tenant (normalize_ws query) revision mode (default (default_limit s) limit))
      (λ cw t r, match r with
       | Ok res => searched t ∧ answers key res ∧
           ∃ entry, cached_result entry = res ∧ cache_entries cw.1 = <[key := entry]> (cache_entries c)
       | Err _ => ∀ k entry, cache_entries cw.1 !! k = Some entry → cache_entries c !! k = Some entry
       end)) as Hsearch.
  { intros c' w' Hsub Hins. eapply hoare_conseq; [apply (search_run s c'); lia|by intros ? <-|].
    intros cw t [res|e]; [|by intros ->]. intros (Ht & Ha & entry & He & ->).
    split_and!; [done|done|]. exists entry. split; [done|]. apply Hins. }
  unfold cache_get. fold key. destruct (cache_entries c !! key) as [entry|] eqn:E.
  - destruct (monotonic w1) as [w2 time]. destruct (fleb _ _); intros [= <- <-].
    + eapply hoare_conseq; [apply Hsearch|done|].
      * intros k entry'. cbn. rewrite lookup_delete_Some. naive_solver.
      * intros entry'. cbn. apply insert_delete_eq.
      * intros cw t [res|e]; [|done]. intros Hres. exists revision. cbn zeta.
        split; [by left|]. split; [done|]. right. destruct Hres as (Ht & Hres). split; [|done].
        by apply (searched_app [_]); right.
    + apply hoare_ret. intros cw <-. exists revision. cbn zeta. split; [by left|]. split; [done|]. left.
      by exists entry.
  - intros [= <- <-]. eapply hoare_conseq; [by apply Hsearch|done|].
    intros cw t [res|e]; [|done]. intros Hres. exists revision. cbn zeta.
    split; [by left|]. split; [done|]. right. destruct Hres as (Ht & Hres). split; [|done].
    by apply (searched_app [_]); right.
Qed.
End RetrieveTheorems.

Section IngestRuns.
Context `{PyUnicode, Digests} {W : Type} `{RetrievalEnv W} (s : service).

Definition is_replace (call : retrieval_call) : bool :=
  match call with CallReplace _ _ _ => true | _ => false end.

(** The chunks a document is stored with: valid, numbered in order. *)
Definition stored_pending (pending : list PendingMetricChunk) : Prop :=
  Forall (λ p, PendingMetricChunk_make p = Ok p) pending ∧
  map pc_ordinal pending = map Z.of_nat (seq 0 (length pending)).

Lemma PendingMetricChunk_make_eq p p' : PendingMetricChunk_make p = Ok p' → p' = p.
Proof. unfold PendingMetricChunk_make. destruct (_ && _); naive_solver. Qed.

Lemma pending_chunks_ok found n overlap parsed vectors pending :
  chunk_sections found n overlap = Ok parsed → pending_chunks parsed vectors = Ok pending →
  stored_pending pending.
Proof.
  intros Hparsed (made & Hmade & Hlen)%result_bind_Ok.
  destruct (Nat.eqb_spec (length parsed) (length vectors)) as [Hl|]; [|done]. injection Hlen as <-.
  assert (map snd parsed = seq 0 (length parsed)) as Hord.
  { revert Hparsed. unfold chunk_sections. destruct (_ || _); [done|]. intros [= <-].
    rewrite length_zip, length_seq, Nat.min_id.
    change (@map (DocumentSection * nat) nat) with (@fmap list _ (DocumentSection * nat) nat).
    apply snd_zip. by rewrite length_seq. }
  pose proof (map_result_length _ _ _ Hmade) as Hn. rewrite length_zip, <-Hl, Nat.min_id in Hn.
  apply map_result_Ok in Hmade. split.
  - apply Forall_forall. intros p Hp. apply Forall2_flip in Hmade.
    destruct (Forall2_in_l _ _ _ _ Hmade Hp) as ([[sec i] v] & _ & Hi).
    unfold pending_chunk in Hi. pose proof (PendingMetricChunk_make_eq _ _ Hi) as ->. exact Hi.
  - rewrite Hn, <-Hord. clear -Hmade Hl. revert vectors Hl made Hmade.
    induction parsed as [|[sec i] parsed IH]; intros [|v vectors] Hl made Hmade; try done;
      cbn [zip zip_with] in Hmade; inversion Hmade as [|? p ? made' Hp Hm]; subst; [done|].
    cbn. unfold pending_chunk in Hp. apply PendingMetricChunk_make_eq in Hp as ->. cbn.
    f_equal. apply (IH vectors); [by injection Hl|done].
Qed.

Lemma ingest_run c tenant title name type payload created_by :
  hoare (λ cw, cw.1 = c) (ingest s tenant title name type payload created_by) (λ cw t r,
    (existsb is_replace t = true → ∃ texts pending, stored_pending pending ∧
       t = [CallEmbed texts; CallReplace tenant (normalize_ws title) pending]) ∧
    match r with
    | Ok _ => cw.1 = invalidate_tenant tenant c ∧ existsb is_replace t = true
    | Err _ => cw.1 = c
    end).
Proof.
  unfold ingest. destruct (_ || _); [apply hoare_raise; by intros cw <-|].
  apply hoare_bind, hoare_lift. intros cw <-. destruct (parse_document _ _ _ _ _ _ _); [|done].
  apply hoare_bind, hoare_lift. intros ? <-.
  destruct (chunk_sections _ _ _) as [parsed|e] eqn:Hparsed; [|done].
  set (texts := map _ parsed).
  apply hoare_bind, hoare_world. intros c1 w1 w2 [vectors|e] Hcw; [|by subst].
  apply hoare_bind, hoare_lift. intros ? <-.
  destruct (pending_chunks parsed vectors) as [pending|e] eqn:Hp; [|by subst].
  pose proof (pending_chunks_ok _ _ _ _ _ _ Hparsed Hp) as Hstored.
  apply hoare_bind, hoare_world. intros c3 w3 w4 [doc|e] [= <- <-]; subst; cbn.
  2: { split; [|done]. intros _. by exists texts, pending. }
  apply hoare_bind, hoare_silent. intros ? cw5 [] <- [= <-].
  apply hoare_ret. intros ? <-. cbn. split; [|done]. intros _. by exists texts, pending.
Qed.
End IngestRuns.

(** ** Theorems *)

(** C35: hybrid ranking is weighted reciprocal rank fusion.  For rankings
    without repeated chunks, the hits follow an order of ids in which every
    id of either ranking occurs exactly once, with the score
    [3/(k + lexical rank) + 1/(k + vector rank)] (a missing rank adds
    nothing), sorted by descending score and then by ascending id.  The i-th
    hit shows the content and the citation (document id, title and version,
    section key and title, locator) of the i-th chunk, its fused score and its
    scores in the two rankings. *)
Theorem hybrid_rank_fuses : ∀ s lexical vector mode hits,
  mode = Hybrid ∨ mode = HybridRerank →
  NoDup (map chunk_id lexical) → NoDup (map chunk_id vector) →
  _rank s lexical vector mode = Ok hits →
  ∃ order,
    NoDup order.*1 ∧ Sorted (λ x y, ¬ fused_first y x) order ∧
    (∀ id x, (id, x) ∈ order → fusion (rrf_k s) lexical vector id x) ∧
    (∀ id, (∃ x, (id, x) ∈ order) ↔ ∃ r, (r ∈ lexical ∨ r ∈ vector) ∧ mc_id (chunk r) = id) ∧
    Forall2 (hit_shows lexical vector) order hits.
Proof.
  intros s lexical vector mode hits Hmode Hl Hv Hrank.
  exists (fused_order (rrf_k s) lexical vector).
  pose proof (λ id x, fused_order_spec (rrf_k s) lexical vector id x Hl Hv) as Hspec.
  assert (∀ id, id ∈ map chunk_id lexical ∨ id ∈ map chunk_id vector ↔
    ∃ r, (r ∈ lexical ∨ r ∈ vector) ∧ mc_id (chunk r) = id) as Hids.
  { intros id. rewrite !elem_of_map. unfold chunk_id. naive_solver. }
  split_and!; [apply fused_order_NoDup| | | |].
  - eapply Sorted_mono; [|apply sort_by_sorted, fused_before_asym].
    intros x y Hxy. rewrite <-fused_before_spec. congruence.
  - intros id x Hx. by apply rrf_score_fusion, Hspec.
  - intros id. rewrite <-Hids. setoid_rewrite Hspec. split; [intros [x Hx]; by eapply rrf_score_in|].
    unfold rrf_score. intros Hin.
    destruct (rank_of id 1 vector) eqn:Ev; [by eexists|].
    destruct (rank_of id 1 lexical) eqn:El; [by eexists|].
    apply rank_of_None in El, Ev. naive_solver.
  - assert (∃ os, map_result (hit_of (by_id lexical) (by_id vector))
                    (fused_order (rrf_k s) lexical vector) = Ok os ∧ omap (M:=list) id os = hits)
      as (os & Hos & <-).
    { unfold _rank in Hrank. destruct Hmode as [-> | ->];
        (destruct (map_result _ _) as [os|]; [|done]); injection Hrank as <-; by exists os. }
    apply hits_of_order; [done|done| |by apply map_result_Ok].
    intros [id x] He. apply Hspec in He. by eapply rrf_score_in.
Qed.

(** On a cache whose entries answer their keys, [retrieve] keeps that
    invariant whatever the collaborators do, and a result it returns is for
    the normalized query and the mode asked for, at the corpus revision the
    repository reported during this call, with at most [limit] hits
    (1 to 20) and the citations of exactly these hits. *)
Theorem retrieve_consistent : ∀ W (E : RetrievalEnv W) s tenant query mode limit c w,
  cache_ok c →
  cache_ok (world (retrieve s tenant query mode limit) (c, w)).1 ∧
  match outcome (retrieve s tenant query mode limit) (c, w) with
  | Ok res =>
      res_query res = normalize_ws query ∧ res_mode res = mode ∧
      CallRevision tenant (Ok (res_corpus_revision res))
        ∈ trace (retrieve s tenant query mode limit) (c, w) ∧
      (1 ≤ default (default_limit s) limit ≤ 20)%Z ∧
      (Z.of_nat (length (res_hits res)) ≤ default (default_limit s) limit)%Z ∧
      res_citations res = map hit_citation (res_hits res)
  | Err _ => True
  end.
Proof.
  intros W E s tenant query mode limit c w Hc.
  pose proof (retrieve_run s c tenant query mode limit (c, w) eq_refl) as Hrun.
  destruct (outcome _ _) as [res|e].
  - destruct Hrun as (revision & Hrev & Hlim & Hres).
    assert (answers (request_key s tenant query revision mode limit) res) as Ha.
    { destruct Hres as [(entry & Hk & <- & _)|(_ & Ha & _)]; [by apply Hc in Hk|done]. }
    split.
    + destruct Hres as [(entry & _ & _ & ->)|(_ & _ & entry & Hentry & Hw)]; [done|].
      intros key entry'. rewrite Hw, lookup_insert_Some. intros [[<- <-]|[_ Hk]]; [by subst|].
      by apply Hc.
    + destruct Ha as (Hq & Hr & Hm & Hn & Hci). cbn in Hq, Hr, Hm, Hn.
      apply (inj mode_name) in Hm. rewrite <-Hq, <-Hr, <-Hm. split_and!; try done; lia.
  - split; [|done]. intros key entry Hk. apply Hc, Hrun, Hk.
Qed.

(** An ingest that fails leaves the cache as it was, and the repository is
    asked to store at most once, as the last call and only with valid chunks
    numbered 0, 1, ...; an ingest that succeeds drops the entries of its
    tenant from the cache and no others. *)
Theorem ingest_atomic : ∀ (U : PyUnicode) (D : Digests) W (E : RetrievalEnv W)
    s tenant title name type payload by_user c w,
  let run := ingest s tenant title name type payload by_user in
  (existsb is_replace (trace run (c, w)) = true →
     ∃ texts pending, stored_pending pending ∧
       trace run (c, w) = [CallEmbed texts; CallReplace tenant (normalize_ws title) pending]) ∧
  match outcome run (c, w) with
  | Ok _ =>
      existsb is_replace (trace run (c, w)) = true ∧
      ∀ key, cache_entries (world run (c, w)).1 !! key
             = if decide (key.1.1.1.1 = tenant) then None else cache_entries c !! key
  | Err _ => (world run (c, w)).1 = c
  end.
Proof.
  intros U D W E s tenant title name type payload by_user c w run.
  pose proof (ingest_run s c tenant title name type payload by_user (c, w) eq_refl) as [Ht Hr].
  split; [exact Ht|]. unfold run. destruct (outcome _ _); [|done].
  destruct Hr as [Hw Hr]. split; [done|]. intros key. rewrite Hw. apply invalidate_tenant_lookup.
Qed.

(** After a successful ingest no cached result of the tenant survives:
    whatever happens to the collaborators in between, the next successful
    [retrieve] of the tenant, for any query and mode, searches the repository. *)
Theorem ingest_then_retrieve_searches : ∀ (U : PyUnicode) (D : Digests) W (E : RetrievalEnv W)
    s tenant title name type payload by_user c w doc query mode limit w' res,
  outcome (ingest s tenant title name type payload by_user) (c, w) = Ok doc →
  let c' := (world (ingest s tenant title name type payload by_user) (c, w)).1 in
  outcome (retrieve s tenant query mode limit) (c', w') = Ok res →
  searched (trace (retrieve s tenant query mode limit) (c', w')).
Proof.
  intros U D W E s tenant title name type payload by_user c w doc query mode limit w' res Hdoc c' Hres.
  pose proof (ingest_run s c tenant title name type payload by_user (c, w) eq_refl) as [_ Hi].
  rewrite Hdoc in Hi. destruct Hi as [Hi _]. fold c' in Hi.
  pose proof (retrieve_run s c' tenant query mode limit (c', w') eq_refl) as Hrun.
  rewrite Hres in Hrun. destruct Hrun as (revision & _ & _ & [(entry & Hk & _)|(Ht & _)]); [|done].
  rewrite Hi, invalidate_tenant_lookup in Hk. cbn in Hk. by rewrite decide_True in Hk.
Qed.

(** ** Witnesses *)

Definition demo_service : service := {|
  chunk_max_characters := 1200; chunk_overlap_characters := 120; default_limit := 5; rrf_k := 60;
  min_lexical_score := decimal 8 2; min_vector_score := decimal 26 2;
  max_markdown_bytes := 2000000; max_pdf_bytes := 10000000; max_pdf_pages := 100 |}.

Definition demo_retrieval : RetrievalEnv memory_repository := {|
  store := memory_store demo_uuid demo_now;
  embed := λ texts w, (w, Ok (hashing_embed 16 texts));
  reranker := None;
  read_pdf := λ _, Err ValueError;
  monotonic := λ w, (w, fzero) |}.

Definition demo_cache : RetrievalCache := {| cache_ttl := 300; cache_entries := ∅ |}.
Definition demo_ingest := @ingest _ _ _ demo_retrieval demo_service
  "t1" "Metrics" "m.md" MARKDOWN "net revenue per order" None.
Definition demo_retrieve := @retrieve _ demo_retrieval demo_service "t1" "net  revenue" Lexical None.

Definition demo_state : RetrievalCache * memory_repository :=
  world demo_ingest (demo_cache, new_repository).

Lemma demo_cache_ok : cache_ok demo_cache.
Proof. intros key entry Hk. cbn in Hk. by rewrite lookup_empty in Hk. Qed.

Lemma retrieve_consistent_witness :
  is_ok (outcome demo_retrieve (demo_cache, demo_state.2)) = true ∧
  cache_ok (world demo_retrieve (demo_cache, demo_state.2)).1.
Proof.
  split; [vm_compute; done|]. unfold demo_retrieve.
  pose proof (retrieve_consistent memory_repository demo_retrieval demo_service "t1"
    "net  revenue" Lexical None demo_cache demo_state.2 demo_cache_ok) as [Hok _].
  exact Hok.
Defined.

Definition ok_value {A} (r : result exn A) (ok : is_ok r = true) : A :=
  match r return is_ok r = true → A with
  | Ok a => λ _, a
  | Err _ => λ absurd, match Bool.diff_false_true absurd with end
  end ok.

Lemma ok_value_eq {A} (r : result exn A) (ok : is_ok r = true) : r = Ok (ok_value r ok).
Proof. destruct r; [done|discriminate]. Qed.

(** The cache is warm before the ingest: the same question is asked again. *)
Lemma ingest_then_retrieve_searches_witness :
  let warm := world demo_retrieve demo_state in
  let again := world demo_ingest warm in
  trace demo_retrieve warm = [CallRevision "t1" (Ok "memory:1")] ∧
  searched (trace demo_retrieve (again.1, again.2)).
Proof.
  intros warm again. split; [vm_compute; done|].
  assert (is_ok (outcome demo_ingest (warm.1, warm.2)) = true) as Hi by (vm_compute; done).
  assert (is_ok (outcome demo_retrieve (again.1, again.2)) = true) as Hr by (vm_compute; done).
  exact (ingest_then_retrieve_searches demo_unicode demo_digests _ demo_retrieval demo_service
    "t1" "Metrics" "m.md" MARKDOWN "net revenue per order" None warm.1 warm.2 _
    "net  revenue" Lexical None again.2 _ (ok_value_eq _ Hi) (ok_value_eq _ Hr)).
Defined.

Definition demo_chunk (id content : string) : MetricChunk := {|
  mc_id := id; mc_tenant_id := "t1"; mc_document_id := "d"; mc_document_title := "Metrics";
  mc_document_version := 1; mc_section_key := "d#s"; mc_section_title := "Revenue";
  mc_source_locator := "lines=1-1"; mc_ordinal := 0; mc_content := content; mc_embedding := [] |}.
Definition demo_ranked (id : string) : RankedChunk :=
  {| chunk := demo_chunk id ("content " +:+ id); score := f_of_Z 1 |}.

Lemma hybrid_rank_fuses_witness :
  let lexical := [demo_ranked "b"; demo_ranked "a"] in
  let vector := [demo_ranked "a"; demo_ranked "c"] in
  ∃ hits, _rank demo_service lexical vector Hybrid = Ok hits ∧
    map hit_content hits = ["content a"; "content b"; "content c"] ∧
    ∃ order, NoDup order.*1 ∧ Forall2 (hit_shows lexical vector) order hits.
Proof.
  intros lexical vector. eexists. split; [reflexivity|]. split; [reflexivity|].
  destruct (hybrid_rank_fuses demo_service lexical vector Hybrid _ (or_introl eq_refl)
    ltac:(apply (bool_decide_unpack _); vm_compute; exact I)
    ltac:(apply (bool_decide_unpack _); vm_compute; exact I) eq_refl)
    as (order & Hnd & _ & _ & _ & HF).
  by exists order.
Defined.
