(* ===== verification/Providers.v ===== *)
(** * Embedding and reranking providers: [app/retrieval/providers.py]

    The bounded HTTP adapter, the batched embedding provider with its usage
    counters, and the two rerankers.  The HTTP client is httpx: an operation
    that yields a status and a body, or raises. *)

From S2P Require Import Prelude PyStr Floats Errors Json Numbers Metadata Parsing Embeddings.
From S2P Require Import KnowledgeRepository RetrievalService.

(** ** post_json *)

(** A response: its status and what [response.json()] returns or raises. *)
Record json_response := { status_code : Z; json_body : result exn pyval }.

Class HttpClient (W : Type) := {
  http_post : string → pyval → op W exn json_response;
  time_sleep : float → W → W
}.

Inductive http_call :=
| CallPost (url : string) (payload : pyval) (reply : result exn json_response)
| CallSleep (delay : float).

(** [raise_for_status], [json()] and the envelope check: the dictionary, or
    the exception of the attempt. *)
Definition read_envelope (reply : result exn json_response) : result exn (list (string * pyval)) :=
  response ← reply;
  if ((200 <=? status_code response) && (status_code response <? 300))%Z then
    body ← json_body response;
    match body with PDict d => Ok d | _ => Err ValueError end
  else Err (HttpxStatusError (status_code response)).

(** [except (httpx.HTTPError, ValueError)], and what is worth a retry. *)
Definition handled (e : exn) : bool := is_httpx_error e || is_value_error e.
Definition transient (e : exn) : bool :=
  is_httpx_transport_error e
  || match e with HttpxStatusError status => (status =? 429)%Z || (500 <=? status)%Z | _ => false end.

Definition sleep_delay (attempt : Z) : float :=
  fmin (fmul (decimal 2 1) (f_of_Z (2 ^ attempt))) (f_of_Z 1).

Section PostJson.
Context {W : Type} `{HttpClient W}.

Notation M := (eff W http_call exn).

Definition sleep (delay : float) : M unit :=
  invoke (CallSleep delay) (λ w, (time_sleep delay w, Ok tt)).

(** The loop over [range(attempts)], from [attempt] with [budget] to go. *)
Fixpoint post_loop (budget : nat) (attempts attempt : Z) (url : string) (payload : pyval) :
    M (list (string * pyval)) :=
  match budget with
  | O => raise RetrievalProviderError
  | S budget =>
      reply ← try_except (r ← observe (CallPost url payload) (http_post url payload); mret (Ok r))
                (λ e, mret (Err e));
      match read_envelope reply with
      | Ok d => mret d
      | Err e =>
          if handled e then
            if negb (transient e) || (attempt + 1 =? attempts)%Z then raise RetrievalProviderError
            else _ ← sleep (sleep_delay attempt); post_loop budget attempts (attempt + 1) url payload
          else raise e
      end
  end.

Definition post_json (url : string) (payload : pyval) (attempts : Z) : M (list (string * pyval)) :=
  post_loop (Z.to_nat attempts) attempts 0 url payload.
End PostJson.

(** A call of [post_json] by a provider that keeps counters beside it. *)
Definition beside {S W C E A} (m : eff W C E A) : eff (S * W) C E A := λ '(u, w),
  let '(w', t, r) := m w in ((u, w'), t, r).

(** ** HTTPEmbeddingProvider *)

Record embedding_provider := { ep_url : string; ep_model : string; ep_dimensions : Z; ep_attempts : Z }.
Record usage := { input_tokens : Z; provider_requests : Z; usage_known : bool }.

(** [texts[start : start + 32] for start in range(0, len(texts), 32)]. *)
Fixpoint batches (fuel n : nat) (texts : list string) : list (list string) :=
  match fuel, texts with
  | O, _ | _, [] => []
  | S fuel, _ => take n texts :: batches fuel n (drop n texts)
  end.

(** [item[key]] on a value of a response. *)
Definition item_get (key : string) (item : pyval) : result exn pyval :=
  match item with
  | PDict d => match dict_get key d with Some v => Ok v | None => Err KeyError end
  | _ => Err TypeError
  end.

(** The integer that a number is equal to; a list or a dictionary cannot be
    put into a set. *)
Definition index_of (v : pyval) : result exn (option Z) :=
  match v with
  | PInt z => Ok (Some z)
  | PBool b => Ok (Some (if b then 1 else 0))%Z
  | PFloat t =>
      Ok (x ← float_of_str t; z ← trunc x; if feqb (f_of_Z z) x then Some z else None)
  | PList _ | PDict _ => Err TypeError
  | _ => Ok None
  end.

Definition py_iter (v : pyval) : result exn (list pyval) :=
  match v with
  | PList l => Ok l
  | PStr s => Ok (map (λ c, PStr (encode [c])) (cps s))
  | PDict d => Ok (map (λ kv, PStr kv.1) d)
  | _ => Err TypeError
  end.

Definition py_length (v : pyval) : result exn nat := length <$> py_iter v.

(** One validated and normalised vector. *)
Definition unit_vector (dimensions : Z) (item : pyval) : result exn (list float) :=
  embedding ← item_get "embedding" item;
  values ← py_iter embedding;
  vector ← map_result py_float values;
  if negb (Z.of_nat (length vector) =? dimensions)%Z || negb (forallb is_finite vector)
  then Err ValueError
  else
    let n := norm vector in
    if feqb n fzero then Err ValueError else Ok (map (λ v, fdiv v n) vector).

(** The vectors of a batch in the order of its texts. *)
Definition batch_vectors (dimensions : Z) (batch : list string) (reply : list (string * pyval)) :
    result exn (list (list float)) :=
  data ← item_get "data" (PDict reply);
  n ← py_length data;
  if negb (n =? length batch) then Err ValueError
  else
    items ← py_iter data;
    indexes ← map_result (λ item, i ← item_get "index" item; index_of i) items;
    if negb (bool_decide (list_to_set indexes
                          =@{gset (option Z)} list_to_set (map (Some ∘ Z.of_nat) (seq 0 (length batch)))))
    then Err ValueError
    else
      map_result (unit_vector dimensions)
        (map snd (sort_by (λ x y, (default 0 x.1 <? default 0 y.1)%Z) (zip indexes items))).

(** [result.get("usage", {})] and the counters; a list or a text has no [get]. *)
Definition no_attribute : exn := OtherException "AttributeError".
Definition record_usage (u : usage) (reply : list (string * pyval)) : usage * result exn unit :=
  let unknown := {| input_tokens := input_tokens u; provider_requests := provider_requests u;
                    usage_known := false |} in
  let counted known v :=
    match py_int v with
    | Err e => (known, Err e)
    | Ok z => ({| input_tokens := input_tokens known + z; provider_requests := provider_requests known + 1;
                  usage_known := usage_known known |}, Ok tt)
    end in
  match default (PDict []) (dict_get "usage" reply) with
  | PDict d =>
      match dict_get "prompt_tokens" d with
      | Some v => counted u v
      | None => counted unknown (PInt 0)
      end
  | PList l => (if existsb (λ v, match v with PStr "prompt_tokens" => true | _ => false end) l
                then u else unknown, Err no_attribute)
  | PStr t => (if contains "prompt_tokens" t then u else unknown, Err no_attribute)
  | _ => (u, Err TypeError)
  end.

(** [except (KeyError, TypeError, ValueError, OverflowError)]. *)
Definition embed_error (e : exn) : exn :=
  match e with
  | KeyError | TypeError | ValueError | ValidationError | OverflowError => RetrievalProviderError
  | e => e
  end.

Section HttpEmbedding.
Context {W : Type} `{HttpClient W} (p : embedding_provider).

Notation M := (eff (usage * W) http_call exn).

Definition embed_payload (batch : list string) : pyval :=
  PDict [("model", PStr (ep_model p)); ("input", str_list batch)].

Definition count_usage (reply : list (string * pyval)) : M unit := λ '(u, w),
  let '(u', r) := record_usage u reply in
  ((u', w), [], match r with Ok _ => Ok tt | Err e => Err (embed_error e) end).

Definition embed_batch (batch : list string) : M (list (list float)) :=
  reply ← beside (post_json (ep_url p) (embed_payload batch) (ep_attempts p));
  vectors ← lift_result (match batch_vectors (ep_dimensions p) batch reply with
                         | Ok v => Ok v | Err e => Err (embed_error e) end);
  _ ← count_usage reply;
  mret vectors.

Fixpoint embed_batches (l : list (list string)) : M (list (list float)) :=
  match l with
  | [] => mret []
  | batch :: l =>
      vectors ← embed_batch batch;
      rest ← embed_batches l;
      mret (vectors ++ rest)
  end.

Definition http_embed (texts : list string) : M (list (list float)) :=
  embed_batches (batches (length texts) 32 texts).
End HttpEmbedding.

(** ** Rerankers *)

Definition overlap `{PyUnicode} (query : string) (h : RetrievalHit) : nat :=
  size (list_to_set (lexical_tokens query) ∩ list_to_set (lexical_tokens (hit_content h)) : gset string).

(** [OverlapReranker.rerank]. *)
Definition overlap_rerank `{PyUnicode} (query : string) (hits : list RetrievalHit) :
    list RetrievalHit :=
  sort_by (λ x y, overlap query y <? overlap query x) hits.

Definition with_rerank (h : RetrievalHit) (x : float) : RetrievalHit := {|
  hit_content := hit_content h; hit_citation := hit_citation h;
  hit_lexical_score := hit_lexical_score h; hit_vector_score := hit_vector_score h;
  hit_fused_score := hit_fused_score h; hit_rerank_score := Some x |}.

Definition relevance (item : pyval) : result exn float :=
  v ← item_get "relevance_score" item; py_float v.

(** [any(type(i) is not int ...)] and the comparison of the index sets. *)
Definition int_index (v : pyval) : option Z := match v with PInt z => Some z | _ => None end.
Definition complete_indices (n : nat) (indices : list pyval) : bool :=
  forallb (λ v, bool_decide (is_Some (int_index v))) indices
  && bool_decide (list_to_set (map int_index indices)
                  =@{gset (option Z)} list_to_set (map (Some ∘ Z.of_nat) (seq 0 n))).

(** [any(not math.isfinite(float(...)) for item in results)]: stops at the
    first score that is not finite. *)
Fixpoint all_finite (items : list pyval) : result exn bool :=
  match items with
  | [] => Ok true
  | item :: items =>
      x ← relevance item;
      if is_finite x then all_finite items else Ok false
  end.

Definition rerank_reply (hits : list RetrievalHit) (reply : list (string * pyval)) :
    result exn (list RetrievalHit) :=
  results ← item_get "results" (PDict reply);
  n ← py_length results;
  if negb (n =? length hits) then Err ValueError
  else
    items ← py_iter results;
    indices ← map_result (item_get "index") items;
    if negb (complete_indices (length hits) indices) then Err ValueError
    else
      finite ← all_finite items;
      if negb finite then Err ValueError
      else
        scores ← map_result relevance items;
        map_result (λ '(i, x),
            match hits !! Z.to_nat (default 0%Z (int_index i)) with
            | Some h => Ok (with_rerank h x)
            | None => Err IndexError
            end)
          (sort_by (λ a b, fltb (fneg a.2) (fneg b.2)) (zip indices scores)).

(** [except (KeyError, TypeError, ValueError, IndexError)]. *)
Definition rerank_error (e : exn) : exn :=
  match e with
  | KeyError | TypeError | ValueError | ValidationError | IndexError => RetrievalProviderError
  | e => e
  end.

Record http_reranker := { rr_url : string; rr_model : string; rr_attempts : Z }.

Definition rerank_payload (p : http_reranker) (query : string) (hits : list RetrievalHit) : pyval :=
  PDict [("model", PStr (rr_model p)); ("query", PStr query);
         ("documents", str_list (map hit_content hits)); ("top_n", PInt (Z.of_nat (length hits)))].

(** The state counts the requests that were answered. *)
Definition http_rerank {W} `{HttpClient W} (p : http_reranker) (query : string)
    (hits : list RetrievalHit) : eff (Z * W) http_call exn (list RetrievalHit) :=
  match hits with
  | [] => mret []
  | _ =>
      reply ← beside (post_json (rr_url p) (rerank_payload p query hits) (rr_attempts p));
      _ ← silent (λ '(requests, w), (((requests + 1)%Z, w), tt));
      lift_result (match rerank_reply hits reply with
                   | Ok l => Ok l | Err e => Err (rerank_error e) end)
  end.

(** ** post_json: bounded attempts *)

Definition replies (t : list http_call) : list (result exn json_response) :=
  omap (M:=list) (λ c, match c with CallPost _ _ r => Some r | _ => None end) t.
Definition sleeps (t : list http_call) : list float :=
  omap (M:=list) (λ c, match c with CallSleep d => Some d | _ => None end) t.

Definition failed_transiently (reply : result exn json_response) : bool :=
  match read_envelope reply with Ok _ => false | Err e => transient e end.

(** What the last reply is turned into. *)
Definition final_outcome (reply : option (result exn json_response)) :
    result exn (list (string * pyval)) :=
  match reply with
  | None => Err RetrievalProviderError
  | Some reply =>
      match read_envelope reply with
      | Ok d => Ok d
      | Err e => if handled e then Err RetrievalProviderError else Err e
      end
  end.

(** A run of at most [budget] attempts, counted from [attempt]. *)
Record post_run (budget : nat) (attempt : Z) (rs : list (result exn json_response))
    (ds : list float) (r : result exn (list (string * pyval))) : Prop := {
  run_bound : length rs ≤ budget;
  run_some : 1 ≤ budget → rs ≠ [];
  run_retried : ∀ i reply, rs !! i = Some reply → S i < length rs → failed_transiently reply = true;
  run_stopped : length rs < budget → ∀ reply, last rs = Some reply → failed_transiently reply = false;
  run_outcome : r = final_outcome (last rs);
  run_delays : ds = map (λ i, sleep_delay (attempt + Z.of_nat i)) (seq 0 (length rs - 1))
}.

Lemma transient_handled e : transient e = true → handled e = true.
Proof. unfold transient, handled, is_httpx_error. by destruct e. Qed.

Lemma post_run_last budget attempt reply :
  1 ≤ budget → (1 < budget → failed_transiently reply = false) →
  post_run budget attempt [reply] [] (final_outcome (Some reply)).
Proof.
  intros Hb Hs. split; cbn; [done|done| |by intros ? ? [= <-]; auto|done|done].
  intros [|i] x _ Hi; exfalso; lia.
Qed.

Lemma post_run_retry budget attempt reply rs ds r :
  failed_transiently reply = true → 1 ≤ budget → post_run budget (attempt + 1) rs ds r →
  post_run (S budget) attempt (reply :: rs) (sleep_delay attempt :: ds) r.
Proof.
  intros Ht Hb []. destruct rs as [|reply' rs]; [by destruct run_some0|].
  split; cbn in *; [lia|done| | |done|].
  - intros [|i] x; cbn; [by intros [= <-]|]. intros Hx Hi. apply (run_retried0 i); [done|lia].
  - intros Hlt x Hx. apply run_stopped0; [lia|done].
  - rewrite run_delays0, Nat.sub_0_r. f_equal; [f_equal; lia|].
    rewrite <-seq_shift, map_map. apply map_ext. intros i. f_equal. lia.
Qed.

Section PostRuns.
Context {W : Type} `{HttpClient W}.

Lemma sat_attempt url payload :
  sat (try_except (r ← observe (CallPost url payload) (http_post url payload); mret (Ok r))
         (λ e, mret (Err e)) : eff W http_call exn _)
    (λ t r, ∃ reply, t = [CallPost url payload reply] ∧ r = Ok reply).
Proof.
  apply sat_try, sat_bind, sat_observe. intros w w' [response|e] _.
  - apply sat_ret. by eexists.
  - apply sat_ret. by eexists.
Qed.

Lemma post_loop_run budget attempts attempt url payload :
  (attempts = attempt + Z.of_nat budget)%Z →
  sat (post_loop budget attempts attempt url payload : eff W http_call exn _)
    (λ t r, post_run budget attempt (replies t) (sleeps t) r).
Proof.
  revert attempt. induction budget as [|budget IH]; intros attempt Hat; cbn [post_loop].
  - apply sat_raise. by split; cbn; try lia.
  - apply sat_bind. eapply sat_conseq; [apply sat_attempt|]. intros t r (reply & -> & ->).
    destruct (read_envelope reply) as [d|e] eqn:Hd.
    + apply sat_ret. cbn.
      replace (Ok d) with (final_outcome (Some reply)) by (unfold final_outcome; by rewrite Hd).
      apply post_run_last; [lia|]. intros _. unfold failed_transiently. by rewrite Hd.
    + assert (∀ Q : bool, handled e = true → (transient e = false ∨ budget = 0) →
        post_run (S budget) attempt [reply] [] (Err RetrievalProviderError)) as Hend.
      { intros _ Hh Ht.
        replace (Err RetrievalProviderError) with (final_outcome (Some reply))
          by (unfold final_outcome; by rewrite Hd, Hh).
        apply post_run_last; [lia|]. intros Hb. unfold failed_transiently. rewrite Hd.
        destruct Ht; [done|lia]. }
      destruct (handled e) eqn:Hh.
      * destruct (negb (transient e)) eqn:Ht; cbn [orb].
        { apply sat_raise. apply (Hend true); [done|left]. by apply negb_true_iff. }
        destruct (Z.eqb_spec (attempt + 1) attempts).
        { apply sat_raise. apply (Hend true); [done|right]. lia. }
        apply sat_bind, sat_invoke_op. intros w w' r. intros [= _ <-].
        eapply sat_conseq; [apply IH; lia|]. intros t r Hrun.
        apply (post_run_retry _ _ reply); [|lia|done].
        unfold failed_transiently. rewrite Hd. by apply negb_false_iff.
      * apply sat_raise.
        replace (Err e) with (final_outcome (Some reply)) by (unfold final_outcome; by rewrite Hd, Hh).
        apply post_run_last; [lia|]. intros _. unfold failed_transiently. rewrite Hd.
        destruct (transient e) eqn:Ht; [|done]. by rewrite transient_handled in Hh.
Qed.
End PostRuns.

(** Every post of a run is for the given address and body. *)
Definition posts_only (url : string) (payload : pyval) (t : list http_call) : Prop :=
  ∀ u p r, CallPost u p r ∈ t → u = url ∧ p = payload.

Section PostTarget.
Context {W : Type} `{HttpClient W}.

Lemma posts_only_app url payload t1 t2 :
  posts_only url payload t1 → posts_only url payload t2 → posts_only url payload (t1 ++ t2).
Proof. intros ?? u p r [?|?]%elem_of_app; eauto. Qed.

Lemma posts_only_post url payload r : posts_only url payload [CallPost url payload r].
Proof. intros u p r' [= -> -> ->]%list_elem_of_singleton. done. Qed.

Lemma posts_only_sleep url payload d : posts_only url payload [CallSleep d].
Proof. by intros u p r ?%list_elem_of_singleton. Qed.

Lemma posts_only_nil url payload : posts_only url payload [].
Proof. by intros u p r ?%elem_of_nil. Qed.

Lemma post_loop_target budget attempts attempt url payload :
  sat (post_loop budget attempts attempt url payload : eff W http_call exn _)
    (λ t _, posts_only url payload t).
Proof.
  revert attempt. induction budget as [|budget IH]; intros attempt; cbn [post_loop].
  - apply sat_raise, posts_only_nil.
  - apply sat_bind. eapply sat_conseq; [apply sat_attempt|]. intros t r (reply & -> & ->).
    destruct (read_envelope reply) as [d|e]; [apply sat_ret, posts_only_app;
      [apply posts_only_post|apply posts_only_nil]|].
    destruct (handled e); [|apply sat_raise, posts_only_app;
      [apply posts_only_post|apply posts_only_nil]].
    destruct (_ || _); [apply sat_raise, posts_only_app;
      [apply posts_only_post|apply posts_only_nil]|].
    apply sat_bind, sat_invoke_op. intros w w' r. intros [= _ <-].
    eapply sat_conseq; [apply IH|]. intros t r0 Ht.
    apply posts_only_app; [apply posts_only_post|].
    apply posts_only_app; [apply posts_only_sleep|done].
Qed.
End PostTarget.

Lemma post_json_run W (E : HttpClient W) url payload attempts :
  sat (post_json url payload attempts : eff W http_call exn _) (λ t r,
    post_run (Z.to_nat attempts) 0 (replies t) (sleeps t) r ∧ posts_only url payload t).
Proof.
  apply sat_and; [|apply post_loop_target]. unfold post_json.
  destruct (decide (0 ≤ attempts)%Z); [apply post_loop_run; lia|].
  replace (Z.to_nat attempts) with 0 by lia. apply sat_raise. by split; cbn; try lia.
Qed.

(** The calls of a run with these replies: the same request each time, with
    a pause of min(0.2 * 2^i, 1) seconds after attempt [i]. *)
Fixpoint retry_trace (url : string) (payload : pyval) (i : Z) (rs : list (result exn json_response)) : list http_call :=
  match rs with
  | [] => []
  | [reply] => [CallPost url payload reply]
  | reply :: rs =>
      CallPost url payload reply :: CallSleep (fmin (fmul (decimal 2 1) (f_of_Z (2 ^ i))) (f_of_Z 1))
      :: retry_trace url payload (i + 1) rs
  end.

(** The exception of an attempt: the request's own, a status out of the two
    hundreds, a body that is not JSON, a body that is not an object. *)
Inductive attempt_raises : result exn json_response → exn → Prop :=
| Unanswered e : attempt_raises (Err e) e
| BadStatus response : (status_code response < 200 ∨ 300 ≤ status_code response)%Z →
    attempt_raises (Ok response) (HttpxStatusError (status_code response))
| BadJson response e : (200 ≤ status_code response < 300)%Z → json_body response = Err e →
    attempt_raises (Ok response) e
| NotAnObject response v : (200 ≤ status_code response < 300)%Z → json_body response = Ok v →
    (∀ d, v ≠ PDict d) → attempt_raises (Ok response) ValueError.

(** What is worth another attempt: a failure of the transport, too many
    requests, a fault of the server. *)
Inductive worth_retry : exn → Prop :=
| TimedOut : worth_retry HttpxTimeoutException
| NetworkFailed : worth_retry HttpxNetworkError
| TransportFailed : worth_retry HttpxTransportError
| TooManyRequests : worth_retry (HttpxStatusError 429)
| ServerFault s : (500 ≤ s)%Z → worth_retry (HttpxStatusError s).

(** How the last attempt ends the run. *)
Inductive run_ends : result exn json_response → result exn (list (string * pyval)) → Prop :=
| EndsWithObject response d : (200 ≤ status_code response < 300)%Z → json_body response = Ok (PDict d) →
    run_ends (Ok response) (Ok d)
| EndsInProviderError reply e : attempt_raises reply e →
    match e with
    | HttpxTimeoutException | HttpxNetworkError | HttpxTransportError | HttpxStatusError _ | HttpxOtherError
    | ValueError | ValidationError => True
    | _ => False
    end → run_ends reply (Err RetrievalProviderError)
| EndsInOther reply e : attempt_raises reply e →
    match e with
    | HttpxTimeoutException | HttpxNetworkError | HttpxTransportError | HttpxStatusError _ | HttpxOtherError
    | ValueError | ValidationError => False
    | _ => True
    end → run_ends reply (Err e).

Lemma envelope_spec reply :
  match read_envelope reply with
  | Ok d => ∃ response, reply = Ok response ∧ (200 ≤ status_code response < 300)%Z ∧ json_body response = Ok (PDict d)
  | Err e => attempt_raises reply e
  end.
Proof.
  destruct reply as [response|e]; cbn [read_envelope mbind result_bind]; [|apply Unanswered].
  destruct (Z.leb_spec 200 (status_code response)); cbn [andb]; [|apply BadStatus; lia].
  destruct (Z.ltb_spec (status_code response) 300); [|apply BadStatus; lia].
  destruct (json_body response) as [v|e] eqn:E; cbn [mbind result_bind]; [|by apply BadJson].
  destruct v; try (by eapply NotAnObject). by exists response.
Qed.

Lemma attempt_raises_fun reply e e' : attempt_raises reply e → attempt_raises reply e' → e = e'.
Proof. intros [] Hr; inversion Hr; subst; try done; try lia; congruence. Qed.

Lemma transient_spec e : transient e = true ↔ worth_retry e.
Proof.
  split.
  - destruct e; try done; try (by constructor). unfold transient. cbn [is_httpx_transport_error orb].
    intros [->%Z.eqb_eq|Hs%Z.leb_le]%orb_true_iff; by constructor.
  - intros []; try done. unfold transient. cbn. rewrite (proj2 (Z.leb_le 500 s)) by done. apply orb_true_r.
Qed.

Lemma failed_transiently_spec reply : failed_transiently reply = true ↔ ∃ e, attempt_raises reply e ∧ worth_retry e.
Proof.
  unfold failed_transiently. pose proof (envelope_spec reply) as He. destruct (read_envelope reply) as [d|e].
  - split; [done|]. destruct He as (response & -> & Hs & Hb). intros (e & Hr & _). inversion Hr; subst; (lia || congruence).
  - rewrite transient_spec. split; [by exists e|]. intros (e' & Hr & Hw).
    by rewrite (attempt_raises_fun _ _ _ He Hr).
Qed.

Lemma final_outcome_ends reply : run_ends reply (final_outcome (Some reply)).
Proof.
  cbn [final_outcome]. pose proof (envelope_spec reply) as He. destruct (read_envelope reply) as [d|e].
  - destruct He as (response & -> & Hs & Hb). by apply EndsWithObject.
  - unfold handled, is_httpx_error. destruct e; cbn [is_httpx_transport_error is_value_error orb];
      first [by eapply EndsInProviderError|by eapply EndsInOther].
Qed.

Lemma replies_retry_trace url payload i rs : replies (retry_trace url payload i rs) = rs.
Proof.
  revert i. induction rs as [|reply rs IH]; intros i; [done|]. destruct rs as [|reply' rs]; [done|].
  cbn [retry_trace]. unfold replies in *. cbn. f_equal. apply IH.
Qed.

Lemma post_loop_trace {W} `{HttpClient W} budget attempts attempt url payload :
  (attempts = attempt + Z.of_nat budget)%Z →
  sat (post_loop budget attempts attempt url payload : eff W http_call exn _)
    (λ t _, ∃ rs, t = retry_trace url payload attempt rs ∧ (1 ≤ budget → rs ≠ [])).
Proof.
  revert attempt. induction budget as [|budget IH]; intros attempt Hat; cbn [post_loop].
  - apply sat_raise. exists []. split; [done|lia].
  - apply sat_bind. eapply sat_conseq; [apply sat_attempt|]. intros t r (reply & -> & ->).
    destruct (read_envelope reply) as [d|e]; [apply sat_ret; by exists [reply]|].
    destruct (handled e); [|apply sat_raise; by exists [reply]].
    destruct (negb (transient e)); cbn [orb]; [apply sat_raise; by exists [reply]|].
    destruct (Z.eqb_spec (attempt + 1) attempts); [apply sat_raise; by exists [reply]|].
    apply sat_bind, sat_invoke_op. intros w w' r. intros [= _ <-].
    eapply sat_conseq; [apply IH; lia|]. intros t r (rs & -> & Hrs). exists (reply :: rs). split; [|done].
    destruct rs as [|reply' rs]; [by destruct Hrs; [lia|]|]. reflexivity.
Qed.

(** C24: [post_json] sends the same request at most [attempts] times and, if
    that is positive, at least once, pausing for min(0.2 * 2^i, 1) seconds
    after attempt [i] and nowhere else.  Every attempt but the last failed in
    the transport, with status 429 or a status from 500, and it stops before
    the last one only at an attempt that did not.  It returns the JSON object
    of a response in the two hundreds; any error of httpx, another status, a
    body that is not JSON and one that is not an object end it with
    RetrievalProviderError, and only what is neither an httpx error nor a
    ValueError escapes. *)
Theorem post_json_bounded : ∀ W (E : HttpClient W) url payload attempts,
  sat (post_json url payload attempts : eff W http_call exn _) (λ t r, ∃ rs,
    t = retry_trace url payload 0 rs ∧
    length rs ≤ Z.to_nat attempts ∧ ((1 ≤ attempts)%Z → rs ≠ []) ∧
    (∀ i reply, rs !! i = Some reply → S i < length rs → ∃ e, attempt_raises reply e ∧ worth_retry e) ∧
    (length rs < Z.to_nat attempts → ∀ reply e, last rs = Some reply → attempt_raises reply e → ¬ worth_retry e) ∧
    match last rs with
    | None => r = Err RetrievalProviderError
    | Some reply => run_ends reply r
    end).
Proof.
  intros W E url payload attempts.
  assert (sat (post_json url payload attempts : eff W http_call exn _)
    (λ t _, ∃ rs, t = retry_trace url payload 0 rs)) as Htrace.
  { unfold post_json. destruct (decide (0 ≤ attempts)%Z).
    - eapply sat_conseq; [apply post_loop_trace; lia|]. intros t r (rs & -> & _). by exists rs.
    - replace (Z.to_nat attempts) with 0 by lia. apply sat_raise. by exists []. }
  eapply sat_conseq; [apply (sat_and _ _ _ (post_json_run W E url payload attempts) Htrace)|].
  intros t r [[[] _] (rs & ->)]. rewrite replies_retry_trace in *. exists rs. split_and!; try done.
  - intros. apply run_some0. lia.
  - intros i reply Hi Hlt. by apply failed_transiently_spec, (run_retried0 i).
  - intros Hlt reply e Hlast He Hw. specialize (run_stopped0 Hlt reply Hlast).
    apply not_true_iff_false in run_stopped0. apply run_stopped0, failed_transiently_spec. by exists e.
  - rewrite run_outcome0. destruct (last rs); [apply final_outcome_ends|done].
Qed.

(** ** What a reranker may change *)

Definition unscored (h : RetrievalHit) : RetrievalHit := {|
  hit_content := hit_content h; hit_citation := hit_citation h;
  hit_lexical_score := hit_lexical_score h; hit_vector_score := hit_vector_score h;
  hit_fused_score := hit_fused_score h; hit_rerank_score := None |}.

(** Scored above or level with. *)
Definition reranked_above (a b : RetrievalHit) : Prop :=
  ∃ x y, hit_rerank_score a = Some x ∧ hit_rerank_score b = Some y ∧ fltb x y = false.

Definition finite_score (h : RetrievalHit) : Prop :=
  ∃ x, hit_rerank_score h = Some x ∧ is_finite x = true.

Lemma complete_indices_perm indices n :
  length indices = n → complete_indices n indices = true →
  map int_index indices ≡ₚ map (Some ∘ Z.of_nat) (seq 0 n).
Proof.
  unfold complete_indices. intros Hn [_ Hset%bool_decide_eq_true]%andb_true_iff.
  symmetry. apply submseteq_length_Permutation; [|by rewrite !length_map, length_seq, Hn].
  apply NoDup_submseteq.
  - change (@map nat (option Z)) with (@fmap list _ nat (option Z)).
    apply NoDup_fmap; [|apply NoDup_seq]. intros a b [= ?%Nat2Z.inj]. done.
  - intros x Hx. apply (elem_of_list_to_set (C := gset (option Z))).
    rewrite Hset. by apply elem_of_list_to_set.
Qed.

Lemma zip_map_fst {A B C} (f : A → C) (l : list A) (k : list B) :
  length l = length k → map (λ p, f p.1) (zip l k) = map f l.
Proof.
  revert k. induction l as [|x l IH]; intros [|y k]; cbn; try done. intros [= ?]. f_equal. by apply IH.
Qed.

Lemma map_lookup_seq {A B} (f : A → B) (l : list A) :
  map (λ i : nat, f <$> l !! i) (seq 0 (length l)) = map (Some ∘ f) l.
Proof.
  apply list_eq. intros i. change @map with (λ A B, @fmap list _ A B). cbn.
  rewrite !list_lookup_fmap. destruct (l !! i) as [x|] eqn:Hx; cbn.
  - rewrite lookup_seq_lt by (by eapply lookup_lt_Some). cbn. by rewrite Hx.
  - rewrite lookup_seq_ge by (by apply lookup_ge_None). done.
Qed.

Lemma map_Some_perm {A} (l k : list A) : map Some l ≡ₚ map Some k → l ≡ₚ k.
Proof.
  intros Hp%(omap_Permutation id).
  assert (∀ m : list A, omap (M:=list) id (map Some m) = m) as Hid.
  { intros m. induction m as [|x m IH]; cbn; [done|]. by f_equal. }
  by rewrite !Hid in Hp.
Qed.

Lemma all_finite_true items :
  all_finite items = Ok true → ∀ item x, item ∈ items → relevance item = Ok x → is_finite x = true.
Proof.
  induction items as [|it items IH]; cbn; [by intros _ item x ?%elem_of_nil|].
  intros (y & Hy & Hr)%result_bind_Ok item x [->|Hin]%elem_of_cons Hx.
  - destruct (is_finite y) eqn:?; [congruence|done].
  - destruct (is_finite y); [by eapply IH|done].
Qed.

Definition scored_hit (hits : list RetrievalHit) (p : pyval * float) : option RetrievalHit :=
  hits !! Z.to_nat (default 0%Z (int_index p.1)).

Lemma rerank_pairs_spec hits (pairs : list (pyval * float)) out :
  map_result (λ '(i, x), match hits !! Z.to_nat (default 0%Z (int_index i)) with
                         | Some h => Ok (with_rerank h x) | None => Err IndexError end) pairs
    = Ok out →
  Forall2 (λ p h, hit_rerank_score h = Some p.2 ∧
                  unscored <$> scored_hit hits p = Some (unscored h)) pairs out.
Proof.
  intros HF%map_result_Ok. eapply Forall2_impl; [exact HF|].
  intros [i x] h. unfold scored_hit; cbn. destruct (hits !! _); [|done]. by intros [= <-].
Qed.

Lemma Forall2_map_eq {A B C} (f : A → C) (g : B → C) l k :
  Forall2 (λ x y, f x = g y) l k → map f l = map g k.
Proof. induction 1; cbn; congruence. Qed.

Lemma Forall2_Sorted {A B} (P : A → A → Prop) (Q : B → B → Prop) (R : A → B → Prop) l k :
  (∀ a a' b b', R a b → R a' b' → P a a' → Q b b') → Forall2 R l k → Sorted P l → Sorted Q k.
Proof.
  intros HR HF. induction HF as [|a b l k Hab HF IH]; [by constructor|].
  intros [Hs Hhd]%Sorted_inv. constructor; [by apply IH|].
  destruct HF; [constructor|]. apply HdRel_inv in Hhd. constructor. by eapply HR.
Qed.

(** The reply of a reranker that is accepted. *)
Lemma rerank_reply_spec hits reply out :
  rerank_reply hits reply = Ok out →
  map unscored out ≡ₚ map unscored hits ∧ Forall finite_score out ∧ Sorted reranked_above out.
Proof.
  unfold rerank_reply. intros (results & _ & Hr)%result_bind_Ok.
  apply result_bind_Ok in Hr as (n & Hn & Hr).
  destruct (negb (n =? length hits)) eqn:En; [done|].
  apply negb_false_iff, Nat.eqb_eq in En as ->.
  apply result_bind_Ok in Hr as (items & Hitems & Hr).
  unfold py_length in Hn. rewrite Hitems in Hn. injection Hn as Hn.
  apply result_bind_Ok in Hr as (indices & Hindices & Hr).
  destruct (negb (complete_indices _ _)) eqn:Ec; [done|]. apply negb_false_iff in Ec.
  apply result_bind_Ok in Hr as ([] & Hfin & Hr); [|done]. cbn [negb] in Hr.
  apply result_bind_Ok in Hr as (scores & Hscores & Hr).
  pose proof (map_result_length _ _ _ Hindices) as Hli.
  pose proof (map_result_length _ _ _ Hscores) as Hls.
  set (pairs := zip indices scores) in Hr. set (lt := λ a b, _) in Hr.
  pose proof (sort_by_perm lt pairs) as Hperm.
  assert (Sorted (λ a b, lt b a = false) (sort_by lt pairs)) as Hsorted.
  { apply sort_by_sorted. intros a b. apply fltb_asym. }
  pose proof (rerank_pairs_spec _ _ _ Hr) as HF. split_and!.
  - apply map_Some_perm. rewrite !map_map.
    rewrite <-(Forall2_map_eq (λ p, unscored <$> scored_hit hits p) (λ h, Some (unscored h))
                (sort_by lt pairs) out)
      by (eapply Forall2_impl; [exact HF|]; by intros p h [_ ?]).
    rewrite Hperm. unfold pairs, scored_hit.
    rewrite (zip_map_fst (λ i, unscored <$> hits !! Z.to_nat (default 0%Z (int_index i))))
      by lia.
    rewrite <-(map_map int_index (λ o, unscored <$> hits !! Z.to_nat (default 0%Z o))).
    rewrite (complete_indices_perm indices (length hits)) by (done || lia).
    rewrite map_map. cbn. change (map (λ x, Some (unscored x)) hits) with (map (Some ∘ unscored) hits).
    rewrite <-(map_lookup_seq unscored hits).
    erewrite map_ext; [done|]. intros i. cbn. by rewrite Nat2Z.id.
  - apply Forall_forall. intros h Hh. apply Forall2_flip in HF.
    destruct (Forall2_in_l _ _ _ _ HF Hh) as ([i x] & Hp & Hx & _). exists x. split; [done|].
    rewrite Hperm in Hp. apply elem_of_zip_r in Hp.
    apply (elem_of_map_result _ _ _ _ Hscores) in Hp as (item & Hitem & Hrel).
    by apply (all_finite_true items Hfin item).
  - eapply Forall2_Sorted; [|exact HF|exact Hsorted].
    intros [i x] [j y] h h' [Hx _] [Hy _] Hlt. exists x, y. split_and!; [done|done|].
    unfold lt in Hlt. cbn in Hlt. by rewrite fltb_fneg in Hlt.
Qed.

(** A reply that ranks every hit once, with finite scores. *)
Definition complete_reply (hits : list RetrievalHit) (d : list (string * pyval)) : Prop :=
  ∃ items indices,
    dict_get "results" d = Some (PList items) ∧
    Forall2 (λ item i, item_get "index" item = Ok (PInt (Z.of_nat i))) items indices ∧
    indices ≡ₚ seq 0 (length hits) ∧
    Forall (λ item, ∃ x, relevance item = Ok x ∧ is_finite x = true) items.

Lemma complete_indices_true n indices :
  indices ≡ₚ seq 0 n → complete_indices n (map (PInt ∘ Z.of_nat) indices) = true.
Proof.
  intros Hp. unfold complete_indices. apply andb_true_iff. split.
  - apply list_forallb_spec. intros v (i & -> & _)%elem_of_map. by apply bool_decide_eq_true.
  - apply bool_decide_eq_true. rewrite map_map. cbn.
    apply set_eq. intros x. rewrite !elem_of_list_to_set.
    change (λ x, Some (Z.of_nat x)) with (Some ∘ Z.of_nat). by rewrite Hp.
Qed.

Lemma all_finite_Ok items :
  Forall (λ item, ∃ x, relevance item = Ok x ∧ is_finite x = true) items → all_finite items = Ok true.
Proof.
  induction 1 as [|item items (x & Hx & Hf) _ IH]; cbn; [done|].
  rewrite Hx. cbn. by rewrite Hf.
Qed.

Lemma rerank_reply_complete hits d :
  complete_reply hits d → ∃ out, rerank_reply hits d = Ok out.
Proof.
  intros (items & indices & Hres & Hidx & Hp & Hsc). unfold rerank_reply. cbn [item_get].
  rewrite Hres. cbn [mbind result_bind py_length py_iter fmap result_fmap].
  pose proof (Forall2_length _ _ _ Hidx) as Hlen.
  pose proof (Permutation_length Hp) as Hn. rewrite length_seq in Hn.
  replace (length items =? length hits) with true by (symmetry; apply Nat.eqb_eq; lia).
  cbn [negb].
  assert (map_result (item_get "index") items = Ok (map (PInt ∘ Z.of_nat) indices)) as ->.
  { apply map_result_Ok. rewrite <-list_fmap_id in Hidx.
    apply Forall2_fmap_r. rewrite list_fmap_id in Hidx. exact Hidx. }
  cbn [mbind result_bind]. rewrite complete_indices_true by done. cbn [negb].
  rewrite all_finite_Ok by done. cbn [mbind result_bind negb].
  destruct (map_result_total relevance items) as [scores Hscores].
  { intros item Hin. rewrite Forall_forall in Hsc. destruct (Hsc _ Hin) as (x & ? & _). eauto. }
  rewrite Hscores. cbn [mbind result_bind].
  apply map_result_total. intros [v x] Hin. rewrite (sort_by_perm _ (zip _ _)) in Hin.
  apply elem_of_zip_l in Hin. apply elem_of_map in Hin as (i & -> & Hi). cbn.
  rewrite Nat2Z.id. rewrite Hp in Hi. apply elem_of_seq in Hi.
  destruct (lookup_lt_is_Some_2 hits i) as [h ->]; [lia|]. by eexists.
Qed.

Lemma sat_beside {S W C E A} (m : eff W C E A) (Q : list C → result E A → Prop) :
  sat m Q → sat (beside m : eff (S * W) C E A) Q.
Proof.
  intros Hm [u w]. specialize (Hm w). unfold trace, outcome, beside in *.
  by destruct (m w) as [[w' t] r].
Qed.

(** [HTTPReranker.rerank] returns the hits it was given and no others,
    each once and changed in [rerank_score] only, with finite scores from the
    highest to the lowest; it does so for every reply that ranks each hit
    once with finite scores; no hits make no request, and every request is
    the one for these hits, at most [attempts] times. *)
Theorem rerank_permutes : ∀ W (E : HttpClient W) p query hits,
  sat (http_rerank p query hits : eff (Z * W) http_call exn _) (λ t r,
    posts_only (rr_url p) (rerank_payload p query hits) t ∧
    length (replies t) ≤ Z.to_nat (rr_attempts p) ∧
    (hits = [] → t = [] ∧ r = Ok []) ∧
    (∀ reply d, hits ≠ [] → last (replies t) = Some reply → read_envelope reply = Ok d →
       complete_reply hits d → is_ok r = true) ∧
    (∀ out, r = Ok out →
       map unscored out ≡ₚ map unscored hits ∧ Forall finite_score out ∧
       Sorted reranked_above out)).
Proof.
  intros W E p query hits. destruct hits as [|h hits]; [apply sat_ret; split_and!; try done|].
  - apply posts_only_nil.
  - cbn; lia.
  - intros out [= <-]. repeat constructor.
  - cbn [http_rerank]. set (hs := h :: hits). apply sat_bind, sat_beside.
    eapply sat_conseq; [apply post_json_run|].
    intros t r [[Hb _ _ _ Hr _] Ht].
    destruct r as [d|e].
    + apply sat_bind, sat_silent_op. intros []. apply sat_lift. rewrite app_nil_r.
      destruct (rerank_reply hs d) as [out|e] eqn:Hout; split_and!; try done.
      * intros out' [= <-]. by apply rerank_reply_spec in Hout.
      * intros reply d' _ Hl Hd Hc. rewrite Hl in Hr. cbn in Hr. rewrite Hd in Hr.
        injection Hr as ->. apply rerank_reply_complete in Hc as [out Hc]. congruence.
    + split_and!; try done. intros reply d _ Hl Hd. rewrite Hl in Hr. cbn in Hr.
      by rewrite Hd in Hr.
Qed.

(** ** One vector per text, in the order of the texts *)

Lemma sorted_range (l : list Z) n :
  Sorted (λ x y, (y <? x)%Z = false) l → l ≡ₚ map Z.of_nat (seq 0 n) →
  l = map Z.of_nat (seq 0 n).
Proof.
  intros Hs Hp. apply (Sorted_unique Z.le); [| |exact Hp].
  - clear Hp. induction Hs as [|x l Hs IH Hhd]; constructor; [done|].
    destruct Hhd; constructor. lia.
  - clear. assert (∀ k, Sorted Z.le (map Z.of_nat (seq k n))) as Hk; [|apply Hk].
    induction n as [|n IH]; intros k; cbn; [constructor|]. constructor; [apply IH|].
    destruct n; cbn; constructor. lia.
Qed.

Definition has_index (i : nat) (item : pyval) : Prop :=
  ∃ v, item_get "index" item = Ok v ∧ index_of v = Ok (Some (Z.of_nat i)).

Lemma zip_Forall2 {A B} (R : A → B → Prop) l k :
  Forall2 R l k → Forall (λ p, R p.1 p.2) (zip l k).
Proof. induction 1; cbn; by constructor. Qed.

Lemma zip_map_snd_eq {A B} (l : list A) (k : list B) :
  length l = length k → map snd (zip l k) = k.
Proof. revert l. induction k as [|y k IH]; intros [|x l]; cbn; try done. intros [= ?]. f_equal. auto. Qed.

Lemma Forall2_map_self {A B} (f : A → B) l : Forall2 (λ x y, y = f x) l (map f l).
Proof. induction l; cbn; by constructor. Qed.

(** Sorting the items of a complete batch puts the [i]-th item at [i]. *)
Lemma items_in_order (n : nat) (items : list pyval) (indexes : list (option Z)) :
  length items = n →
  Forall2 (λ item o, ∃ v, item_get "index" item = Ok v ∧ index_of v = Ok o) items indexes →
  list_to_set indexes =@{gset (option Z)} list_to_set (map (Some ∘ Z.of_nat) (seq 0 n)) →
  let sorted := map snd (sort_by (λ x y, (default 0 x.1 <? default 0 y.1)%Z) (zip indexes items)) in
  sorted ≡ₚ items ∧ Forall2 has_index (seq 0 n) sorted.
Proof.
  intros Hn HF Hset sorted. pose proof (Forall2_length _ _ _ HF) as Hlen.
  set (lt := λ x y : option Z * pyval, (default 0 x.1 <? default 0 y.1)%Z) in sorted.
  pose proof (sort_by_perm lt (zip indexes items)) as Hp.
  assert (sorted ≡ₚ items) as Hperm.
  { unfold sorted. rewrite Hp. by rewrite zip_map_snd_eq by lia. }
  split; [done|].
  assert (indexes ≡ₚ map (Some ∘ Z.of_nat) (seq 0 n)) as Hidx.
  { symmetry. apply submseteq_length_Permutation; [|rewrite length_map, length_seq; lia].
    apply NoDup_submseteq.
    - change (@map nat (option Z)) with (@fmap list _ nat (option Z)).
      apply NoDup_fmap; [|apply NoDup_seq]. intros a b [= ?%Nat2Z.inj]. done.
    - intros x Hx. apply (elem_of_list_to_set (C := gset (option Z))).
      rewrite Hset. by apply elem_of_list_to_set. }
  assert (map (λ p, default 0%Z p.1) (sort_by lt (zip indexes items))
          = map Z.of_nat (seq 0 n)) as Hkeys.
  { apply sorted_range.
    - pose proof (sort_by_sorted lt (zip indexes items)) as Hs.
      eapply Forall2_Sorted; [| |apply Hs; intros; unfold lt in *; lia].
      2:{ apply (Forall2_map_self (λ p : option Z * pyval, default 0%Z p.1)). }
      intros a a' b b' -> -> Hlt. exact Hlt.
    - rewrite Hp, (zip_map_fst (default 0%Z)), Hidx, map_map by lia. done. }
  assert (Forall (λ p : option Z * pyval, is_Some p.1 ∧ ∃ v,
            item_get "index" p.2 = Ok v ∧ index_of v = Ok p.1)
          (sort_by lt (zip indexes items))) as Hall.
  { rewrite Hp. rewrite Forall_forall. intros [o item] Hin. split.
    - apply elem_of_zip_l in Hin. rewrite Hidx in Hin. apply elem_of_map in Hin as (i & -> & _). done.
    - apply Forall2_flip, zip_Forall2 in HF. rewrite Forall_forall in HF. by apply (HF _ Hin). }
  unfold sorted. clear -Hkeys Hall. revert Hkeys. generalize (seq 0 n).
  induction Hall as [|[o item] l [[z Ho] Hv] _ IH]; intros [|i js]; cbn; try done.
  cbn in *. subst o. intros [= -> Hk]. constructor; [exact Hv|]. by apply IH.
Qed.

Lemma Forall2_elem_r {A B} (R : A → B → Prop) l k :
  Forall2 R l k → Forall2 (λ x y, R x y ∧ y ∈ k) l k.
Proof.
  induction 1 as [|x y l k Hxy _ IH]; constructor; [split; [done|by left]|].
  eapply Forall2_impl; [exact IH|]. intros a b [? ?]. split; [done|by right].
Qed.

Lemma Forall2_compose {A B C} (R : A → B → Prop) (S : B → C → Prop) (T : A → C → Prop) l k m :
  (∀ x y z, R x y → S y z → T x z) → Forall2 R l k → Forall2 S k m → Forall2 T l m.
Proof.
  intros HT HR. revert m. induction HR; intros m HS; inversion HS; subst; constructor; eauto.
Qed.

Lemma unit_vector_length dimensions item v :
  unit_vector dimensions item = Ok v → Z.of_nat (length v) = dimensions.
Proof.
  unfold unit_vector. intros (? & _ & (? & _ & (l & _ & Hr)%result_bind_Ok)%result_bind_Ok)%result_bind_Ok.
  destruct (_ =? _)%Z eqn:E; [|done]. destruct (forallb _ _); [|done]. cbn in Hr.
  destruct (feqb _ _); [done|]. injection Hr as <-. rewrite length_map. lia.
Qed.

(** The vectors that are taken from the embedding endpoint's reply are
    those of the texts: one for each text of the batch, the [i]-th made from
    the item of the reply whose index is [i], in whatever order the endpoint
    lists its items, and each of the configured dimension. *)
Theorem batch_vectors_aligned : ∀ dimensions batch reply vectors,
  batch_vectors dimensions batch reply = Ok vectors →
  ∃ items,
    dict_get "data" reply ≠ None ∧ length items = length batch ∧
    Forall2 (λ (i : nat) v, ∃ item, item ∈ items ∧ has_index i item ∧
               unit_vector dimensions item = Ok v ∧ Z.of_nat (length v) = dimensions)
            (seq 0 (length batch)) vectors.
Proof.
  unfold batch_vectors. intros dimensions batch reply vectors (data & Hdata & Hr)%result_bind_Ok.
  apply result_bind_Ok in Hr as (n & Hn & Hr).
  destruct (n =? length batch) eqn:En; [|done]. apply Nat.eqb_eq in En as ->. cbn [negb] in Hr.
  apply result_bind_Ok in Hr as (items & Hitems & Hr).
  unfold py_length in Hn. rewrite Hitems in Hn. injection Hn as Hn.
  apply result_bind_Ok in Hr as (indexes & Hidx & Hr).
  destruct (bool_decide _) eqn:Hset; [|done]. apply bool_decide_eq_true in Hset. cbn [negb] in Hr.
  destruct (items_in_order (length batch) items indexes) as [Hperm HF]; [done| |done|].
  { apply map_result_Ok in Hidx. eapply Forall2_impl; [exact Hidx|].
    intros item o (v & Hv & Ho)%result_bind_Ok. by exists v. }
  exists items. split; [|split; [done|]].
  { cbn in Hdata. intros Hnone. by rewrite Hnone in Hdata. }
  apply map_result_Ok in Hr.
  eapply Forall2_compose; [|exact (Forall2_elem_r _ _ _ HF)|exact Hr]. intros i item v [Hi Hin] Hv.
  exists item. rewrite Hperm in Hin. split_and!; [done|done|done|by eapply unit_vector_length].
Qed.

(** ** Concrete runs *)

(** A client that plays a script of replies. *)
Definition script := list (result exn json_response).
Definition scripted_client : HttpClient script := {|
  http_post := λ _ _ s, match s with [] => ([], Err HttpxNetworkError) | r :: s => (s, r) end;
  time_sleep := λ _ s, s |}.

Definition reply_with (status : Z) (d : list (string * pyval)) : result exn json_response :=
  Ok {| status_code := status; json_body := Ok (PDict d) |}.

Definition demo_hits : list RetrievalHit :=
  match _rank demo_service [demo_ranked "a"; demo_ranked "b"] [] Lexical with
  | Ok hits => hits | Err _ => []
  end.

Definition ranking (scores : list (Z * pyval)) : list (string * pyval) :=
  [("results", PList (map (λ '(i, x), PDict [("index", PInt i); ("relevance_score", x)]) scores))].

Definition demo_reranker : http_reranker :=
  {| rr_url := "http://reranker"; rr_model := "m"; rr_attempts := 3 |}.
Definition demo_rerank (s : script) : eff (Z * script) http_call exn (list RetrievalHit) :=
  @http_rerank _ scripted_client demo_reranker "q" demo_hits.

Example rerank_after_retry :
  let s := [reply_with 503 []; reply_with 200 (ranking [(1, PFloat "0.9"); (0, PFloat "0.4")]%Z)] in
  map hit_content <$> outcome (demo_rerank s) (0%Z, s) = Ok ["content b"; "content a"] ∧
  world (demo_rerank s) (0%Z, s) = (1%Z, []) ∧
  sleeps (trace (demo_rerank s) (0%Z, s)) = [decimal 2 1].
Proof. vm_compute. done. Qed.

(** A relevance score that is an integer beyond the floats: the reply is
    refused with an exception that the adapter does not translate. *)
Example huge_relevance_escapes :
  let s := [reply_with 200 (ranking [(1, PInt (10 ^ 400)); (0, PFloat "0.4")]%Z)] in
  outcome (demo_rerank s) (0%Z, s) = Err OverflowError.
Proof. vm_compute. done. Qed.

Definition embedding_reply (items : list (Z * list pyval)) : list (string * pyval) :=
  [("data", PList (map (λ '(i, v), PDict [("index", PInt i); ("embedding", PList v)]) items))].

Definition demo_provider : embedding_provider :=
  {| ep_url := "http://embeddings"; ep_model := "m"; ep_dimensions := 2; ep_attempts := 3 |}.

(** A reply whose [usage] is a list is an AttributeError, which escapes. *)
Example usage_list_escapes :
  let reply := embedding_reply [(0, [PInt 1; PInt 0])]%Z ++ [("usage", PList [])] in
  let s := [reply_with 200 reply] in
  outcome (@http_embed _ scripted_client demo_provider ["text"])
    ({| input_tokens := 0; provider_requests := 0; usage_known := true |}, s) = Err no_attribute.
Proof. vm_compute. done. Qed.

Lemma batch_vectors_aligned_witness :
  let reply := embedding_reply [(1, [PInt 0; PInt 5]); (0, [PInt 3; PInt 4])]%Z in
  let vectors := [[decimal 6 1; decimal 8 1]; [f_of_Z 0; f_of_Z 1]] in
  batch_vectors 2 ["first"; "second"] reply = Ok vectors ∧
  ∃ items, length items = 2 ∧
    Forall2 (λ (i : nat) v, ∃ item, item ∈ items ∧ has_index i item ∧
               unit_vector 2 item = Ok v ∧ Z.of_nat (length v) = 2%Z) [0; 1] vectors.
Proof.
  intros reply vectors. assert (batch_vectors 2 ["first"; "second"] reply = Ok vectors) as Hr
    by (vm_compute; done).
  split; [exact Hr|].
  destruct (batch_vectors_aligned 2 ["first"; "second"] reply vectors Hr) as (items & _ & Hl & HF).
  exists items. split; [exact Hl|exact HF].
Defined.
