(* ===== verification/JsonText.v ===== *)
(** * [json.dumps] with the default separators

    The encoder of the prompts: [", "] and [": "] between the parts, and
    non-ASCII text either kept ([ensure_ascii=False]) or escaped.  The values
    are JSON values: [POther] does not occur in them. *)

From S2P Require Import Prelude PyStr Json.
From Stdlib Require Import Ascii String.

(** ** Encoding *)

Definition hex4_of (n : N) : string :=
  String (hex_digit (n / 4096 mod 16)) (String (hex_digit (n / 256 mod 16))
    (String (hex_digit (n / 16 mod 16)) (String (hex_digit (n mod 16)) EmptyString))).
Definition u_escape (n : N) : string := String backslash (String "u" (hex4_of n)).

(** [ESCAPE_ASCII]: everything but printable ASCII is escaped. *)
Definition escape_ascii_cp (c : N) : string :=
  if ((c =? 34) || (c =? 92))%N then String backslash (String (byte c) EmptyString)
  else if (c =? 8)%N then String backslash "b"
  else if (c =? 12)%N then String backslash "f"
  else if (c =? 10)%N then String backslash "n"
  else if (c =? 13)%N then String backslash "r"
  else if (c =? 9)%N then String backslash "t"
  else if ((32 <=? c) && (c <=? 126))%N then String (byte c) EmptyString
  else if (c <? 65536)%N then u_escape c
  else u_escape (55296 + (c - 65536) / 1024) +:+ u_escape (56320 + (c - 65536) mod 1024).
Definition quote_ascii (s : string) : string :=
  String dquote (foldr (λ c rest, escape_ascii_cp c +:+ rest) (String dquote EmptyString) (cps s)).

Section Dumps.
Context (q : string → string).

Fixpoint dumps_with (v : pyval) : string :=
  match v with
  | PNone => "null"
  | PBool true => "true"
  | PBool false => "false"
  | PInt z => str_of_Z z
  | PFloat n => n
  | PStr s | POther s => q s
  | PList l => "[" +:+ join ", " (map dumps_with l) +:+ "]"
  | PDict d => "{" +:+ join ", " (map (λ '(k, x), q k +:+ ": " +:+ dumps_with x) d) +:+ "}"
  end.
End Dumps.

(** [json.dumps(value, ensure_ascii=False)] and [json.dumps(value)]. *)
Definition dumps_text : pyval → string := dumps_with quote.
Definition dumps_ascii : pyval → string := dumps_with quote_ascii.

(** [json.dumps(value, ensure_ascii=False, indent=2)]: a line per item. *)
Fixpoint spaces (n : nat) : string :=
  match n with O => EmptyString | S n => String " " (String " " (spaces n)) end.
Definition new_line (level : nat) : string := String (byte 10) (spaces level).

Fixpoint dumps_indent (level : nat) (v : pyval) : string :=
  match v with
  | PList [] => "[]"
  | PDict [] => "{}"
  | PList l =>
      "[" +:+ new_line (S level) +:+ join ("," +:+ new_line (S level)) (map (dumps_indent (S level)) l)
        +:+ new_line level +:+ "]"
  | PDict d =>
      "{" +:+ new_line (S level)
        +:+ join ("," +:+ new_line (S level)) (map (λ '(k, x), quote k +:+ ": " +:+ dumps_indent (S level) x) d)
        +:+ new_line level +:+ "}"
  | v => dumps v
  end.

(** *** Round trips *)

Lemma white_new_line level : white (new_line level) = true.
Proof. cbn. induction level as [|n IH]; [done|exact IH]. Qed.

Lemma quote_entry k v s w :
  white w = true → layout v s → layout_entry (k, v) (quote k +:+ ":" +:+ w +:+ s).
Proof. intros Hw Hs. apply (entry_text k); [apply spells_escape|done|done]. Qed.

Lemma dumps_text_layout v : json_ok v = true → layout v (dumps_text v).
Proof.
  revert v. apply layout_all.
  - intros v Hb Hok. replace (dumps_text v) with (dumps v); [by constructor|]. by destruct v as [|[]| | | | | |].
  - intros s. split; (eapply layout_text; [eauto|]; apply spells_escape).
  - intros l Hl. destruct (decide (l = [])) as [-> |Hne]; [by apply (layout_nil EmptyString)|].
    apply (layout_list EmptyString); [done|]. apply (elems_join " " EmptyString); [done..| |done].
    rewrite <-(map_id l) at 1. by apply forall2_map.
  - intros d Hnd Hd. destruct (decide (d = [])) as [-> |Hne]; [by apply (layout_empty EmptyString)|].
    apply (layout_dict EmptyString); [done..|]. apply (members_join " " EmptyString); [done..| |done].
    rewrite <-(map_id d) at 1. apply forall2_map. eapply Forall_impl; [exact Hd|]. intros [k v] Hv.
    by apply (quote_entry k v _ " ").
Qed.

Lemma dumps_indent_layout v level : json_ok v = true → layout v (dumps_indent level v).
Proof.
  intros Hok. revert level. revert v Hok. apply (layout_all (λ v, ∀ level, layout v (dumps_indent level v))).
  - intros v Hb Hok level. replace (dumps_indent level v) with (dumps v); [by constructor|].
    by destruct v as [|[]| | | | | |].
  - intros s. split; intros level; (eapply layout_text; [eauto|]; apply spells_escape).
  - intros l Hl level. destruct l as [|x l]; [by apply (layout_nil EmptyString)|].
    cbn [dumps_indent]. apply layout_list; [apply white_new_line|].
    apply elems_join; [apply white_new_line..| |done].
    rewrite <-(map_id (x :: l)) at 1. apply forall2_map. eapply Forall_impl; [exact Hl|]. auto.
  - intros d Hnd Hd level. destruct d as [|kv d]; [by apply (layout_empty EmptyString)|].
    cbn [dumps_indent]. apply layout_dict; [apply white_new_line|done|].
    apply members_join; [apply white_new_line..| |done].
    rewrite <-(map_id (kv :: d)) at 1. apply forall2_map. eapply Forall_impl; [exact Hd|]. intros [k v] Hv.
    by apply (quote_entry k v _ " ").
Qed.

(** ** Parts of a text *)

Definition part (t s : string) : Prop := ∃ a b, s = a +:+ t +:+ b.

Lemma prefix_app t b : String.prefix t (t +:+ b) = true.
Proof.
  induction t as [|c t IH]; [by destruct b|]. rewrite str_app_cons. cbn.
  by destruct (ascii_dec c c).
Qed.

Lemma prefix_split t s : String.prefix t s = true → ∃ b, s = t +:+ b.
Proof.
  revert s. induction t as [|c t IH]; intros s; [by exists s|].
  destruct s as [|d s]; [done|]. cbn. destruct (ascii_dec c d) as [->|]; [|done].
  intros (b & ->)%IH. by exists b.
Qed.

(** [t in s]. *)
Lemma contains_part t s : contains t s = true ↔ part t s.
Proof.
  split.
  - induction s as [|c s IH]; cbn [contains]; rewrite orb_true_iff.
    + intros [(b & Hb)%prefix_split|?]; [|done]. exists EmptyString, b. by rewrite str_app_nil.
    + intros [(b & ->)%prefix_split|(a & b & ->)%IH].
      * exists EmptyString, b. by rewrite str_app_nil.
      * exists (String c a), b. by rewrite str_app_cons.
  - intros (a & b & ->). induction a as [|c a IH].
    + rewrite str_app_nil. destruct t as [|c t]; [by destruct b|].
      rewrite str_app_cons. cbn [contains]. apply orb_true_iff; left.
      rewrite <-str_app_cons. apply prefix_app.
    + rewrite str_app_cons. cbn [contains]. rewrite IH. apply orb_true_r.
Qed.

#[export] Instance part_refl : Reflexive part.
Proof. intros s. exists EmptyString, EmptyString. by rewrite str_app_nil, str_app_nil_r. Qed.
#[export] Instance part_trans : Transitive part.
Proof.
  intros s t r (a & b & ->) (c & d & ->). exists (c +:+ a), (b +:+ d). by rewrite !str_app_assoc.
Qed.

Lemma part_app_l t a b : part t a → part t (a +:+ b).
Proof. intros (x & y & ->). exists x, (y +:+ b). by rewrite !str_app_assoc. Qed.
Lemma part_app_r t a b : part t b → part t (a +:+ b).
Proof. intros (x & y & ->). exists (a +:+ x), y. by rewrite !str_app_assoc. Qed.

Lemma part_join sep t l : t ∈ l → part t (join sep l).
Proof.
  induction l as [|x l IH]; [by intros ?%elem_of_nil|]. intros [->|Hin]%elem_of_cons.
  - destruct l; cbn [join]; [done|by apply part_app_l].
  - destruct l as [|y l]; [by apply elem_of_nil in Hin|]. cbn [join] in *.
    apply part_app_r, part_app_r. by apply IH.
Qed.

(** A value's text contains the texts of the values in it. *)
Inductive inside (x : pyval) : pyval → Prop :=
| inside_here : inside x x
| inside_list l v : v ∈ l → inside x v → inside x (PList l)
| inside_dict d k v : (k, v) ∈ d → inside x v → inside x (PDict d).

Lemma entry_part q k v d : (k, v) ∈ d → part (q k +:+ ": " +:+ dumps_with q v) (dumps_with q (PDict d)).
Proof.
  intros Hin. cbn [dumps_with]. apply part_app_r, part_app_l, part_join.
  apply elem_of_map. by exists (k, v).
Qed.

Lemma inside_part q x v : inside x v → part (dumps_with q x) (dumps_with q v).
Proof.
  induction 1 as [|l v Hin _ IH|d k v Hin _ IH]; [done| |].
  - etrans; [exact IH|]. cbn [dumps_with]. apply part_app_r, part_app_l, part_join.
    apply elem_of_map. by exists v.
  - etrans; [exact IH|]. etrans; [|by apply (entry_part q k v)]. by apply part_app_r, part_app_r.
Qed.

(** ** Text without characters to escape *)

Definition plain_char (a : ascii) : bool :=
  negb ((N_of_ascii a =? 34) || (N_of_ascii a =? 92) || (N_of_ascii a <? 32))%N.
Fixpoint plain (s : string) : bool :=
  match s with EmptyString => true | String a s => plain_char a && plain s end.

Lemma escape_plain s r : plain s = true → escape s r = s +:+ r.
Proof.
  induction s as [|a s IH]; [done|]. cbn [plain escape]. intros [Ha Hs]%andb_true_iff.
  rewrite IH, str_app_cons by done. unfold escape_byte, plain_char in *. cbv zeta.
  apply negb_true_iff, orb_false_iff in Ha as [[H1 H2]%orb_false_iff H3]. rewrite H1, H2, H3.
  apply N.ltb_ge in H3.
  repeat match goal with |- context [N.eqb ?x ?y] => destruct (N.eqb_spec x y); [lia|] end.
  done.
Qed.

Lemma quote_plain s : plain s = true → quote s = String dquote (s +:+ String dquote EmptyString).
Proof. intros Hs. unfold quote. by rewrite escape_plain. Qed.

Example dumps_text_spaces :
  dumps_text (PDict [("a", PList [PInt 1; PStr "销售"]); ("b", PNone)])
  = "{" +:+ quote "a" +:+ ": [1, " +:+ quote "销售" +:+ "], " +:+ quote "b" +:+ ": null}".
Proof. reflexivity. Qed.

Example dumps_ascii_escapes :
  dumps_ascii (PStr "销") = String dquote (String backslash "u9500" +:+ String dquote EmptyString).
Proof. vm_compute. reflexivity. Qed.
