(* ===== verification/Utf8.v ===== *)
(** * Lengths of JSON texts

    Code points of concatenated UTF-8 strings, and the length of the encoder's
    output on values whose strings are UTF-8. *)

From S2P Require Import Prelude PyStr Json JsonText.
From Stdlib Require Import Ascii String.

(** ** UTF-8 strings *)

Definition utf8 (s : string) : Prop := ∃ l, Forall valid_cp l ∧ s = encode l.
Definition utf8_b (s : string) : bool :=
  String.eqb (encode (cps s)) s && forallb (λ c, (c <? 1114112)%N) (cps s).

Lemma utf8_b_spec s : utf8_b s = true → utf8 s.
Proof.
  unfold utf8_b. rewrite andb_true_iff, String.eqb_eq, list_forallb_spec. intros [Hs Hc].
  exists (cps s). split; [|done]. apply Forall_forall. intros c Hx. specialize (Hc _ Hx).
  unfold valid_cp. by apply N.ltb_lt.
Qed.

Lemma encode_cp_app c r t : encode_cp c r +:+ t = encode_cp c (r +:+ t).
Proof. unfold encode_cp. repeat case_match; by rewrite ?str_app_cons. Qed.

Lemma encode_app l t : encode l +:+ t = foldr encode_cp t l.
Proof.
  induction l as [|c l IH]; [by rewrite str_app_nil|]. cbn [encode foldr].
  rewrite encode_cp_app. f_equal. exact IH.
Qed.

Lemma cps_app s t : utf8 s → cps (s +:+ t) = cps s ++ cps t.
Proof.
  intros (l & Hl & ->). rewrite cps_encode, encode_app by done.
  induction Hl as [|c l Hc _ IH]; [done|]. cbn [foldr]. rewrite cps_encode_cp by done. by rewrite IH.
Qed.

Lemma py_len_app s t : utf8 s → py_len (s +:+ t) = py_len s + py_len t.
Proof. intros Hs. unfold py_len. by rewrite cps_app, length_app by done. Qed.

Lemma utf8_app s t : utf8 s → utf8 t → utf8 (s +:+ t).
Proof.
  intros (l & Hl & ->) (k & Hk & ->). exists (l ++ k). split; [by apply Forall_app|].
  rewrite encode_app. unfold encode. by rewrite foldr_app.
Qed.

Lemma utf8_nil : utf8 EmptyString.
Proof. exists []. split; [constructor|done]. Qed.

Lemma utf8_cons_ascii a s : (N_of_ascii a < 128)%N → utf8 s → utf8 (String a s).
Proof.
  intros Ha (l & Hl & ->). exists (N_of_ascii a :: l). split.
  - constructor; [unfold valid_cp; lia|done].
  - cbn. unfold encode_cp. destruct (N.ltb_spec (N_of_ascii a) 128); [|lia].
    unfold byte. by rewrite ascii_N_embedding.
Qed.

Lemma py_len_ascii a s : (N_of_ascii a < 128)%N → py_len (String a s) = S (py_len s).
Proof. intros Ha. unfold py_len. cbn [cps]. destruct (N.ltb_spec (N_of_ascii a) 192); [done|lia]. Qed.

(** ** The encoded form of a string *)

(** The bytes and the length of one escaped code point. *)
Definition escape_cp (c : N) (rest : string) : string :=
  if (c <? 128)%N then escape_byte (byte c) rest else encode_cp c rest.
Definition escape_width (c : N) : nat :=
  if ((c =? 34) || (c =? 92) || (c =? 8) || (c =? 12) || (c =? 10) || (c =? 13) || (c =? 9))%N then 2
  else if (c <? 32)%N then 6 else 1.

Lemma escape_byte_high n r : (128 <= n < 256)%N → escape_byte (byte n) r = String (byte n) r.
Proof.
  intros Hn. unfold escape_byte. cbv zeta. rewrite N_of_byte by lia.
  repeat match goal with
  | |- context [N.eqb ?x ?y] => destruct (N.eqb_spec x y); [lia|]
  | |- context [N.ltb ?x ?y] => destruct (N.ltb_spec x y); [lia|]
  end. done.
Qed.

Lemma escape_encode_cp c s r : valid_cp c → escape (encode_cp c s) r = escape_cp c (escape s r).
Proof.
  unfold valid_cp, escape_cp, encode_cp. intros Hc.
  pose proof (N.mod_upper_bound c 64 ltac:(done)).
  pose proof (N.mod_upper_bound (c / 64) 64 ltac:(done)).
  pose proof (N.mod_upper_bound (c / 4096) 64 ltac:(done)).
  assert (c / 262144 < 16)%N by (apply N.Div0.div_lt_upper_bound; lia).
  assert (c < 2048 → c / 64 < 32)%N by (intros; apply N.Div0.div_lt_upper_bound; lia).
  assert (c < 65536 → c / 4096 < 16)%N by (intros; apply N.Div0.div_lt_upper_bound; lia).
  generalize dependent (c mod 64)%N. generalize dependent ((c / 64) mod 64)%N.
  generalize dependent ((c / 4096) mod 64)%N.
  generalize dependent (c / 64)%N. generalize dependent (c / 4096)%N. generalize dependent (c / 262144)%N.
  intros q3 ? q2 Hq2 q1 Hq1 r3 ? r2 ? r1 ?.
  destruct (N.ltb_spec c 128); [done|].
  destruct (N.ltb_spec c 2048); [|destruct (N.ltb_spec c 65536)]; cbn [escape];
    by rewrite !escape_byte_high by lia.
Qed.

Lemma escape_byte_ok a r :
  (N_of_ascii a < 128)%N → utf8 r →
  utf8 (escape_byte a r) ∧ py_len (escape_byte a r) = escape_width (N_of_ascii a) + py_len r.
Proof.
  intros Ha Hr. destruct a as [b0 b1 b2 b3 b4 b5 b6 b7].
  destruct b7; [by destruct b0, b1, b2, b3, b4, b5, b6|clear Ha].
  destruct b0, b1, b2, b3, b4, b5, b6;
    match goal with |- context [escape_byte ?a r] =>
      let e := eval vm_compute in (escape_byte a r) in change (escape_byte a r) with e end;
    (split; [repeat (apply utf8_cons_ascii; [by vm_compute|]); exact Hr
            |rewrite !py_len_ascii by (by vm_compute); reflexivity]).
Qed.

Lemma escape_cp_ok c r :
  valid_cp c → utf8 r → utf8 (escape_cp c r) ∧ py_len (escape_cp c r) = escape_width c + py_len r.
Proof.
  intros Hc Hr. unfold escape_cp. destruct (N.ltb_spec c 128) as [Hlt|Hge].
  - destruct (escape_byte_ok (byte c) r) as [? Hl]; rewrite ?N_of_byte in * by lia; [done|done|].
    by split.
  - destruct Hr as (l & Hl & ->). split; [exists (c :: l); by split; [constructor|]|].
    unfold py_len. rewrite cps_encode_cp by done. cbn [length]. unfold escape_width.
    repeat match goal with
    | |- context [N.eqb ?x ?y] => destruct (N.eqb_spec x y); [lia|]
    end. cbn [orb]. destruct (N.ltb_spec c 32); [lia|done].
Qed.

Definition escaped_len (s : string) : nat := sum_list_with escape_width (cps s).

Lemma escape_ok s r :
  utf8 s → utf8 r → utf8 (escape s r) ∧ py_len (escape s r) = escaped_len s + py_len r.
Proof.
  intros (l & Hl & ->) Hr. unfold escaped_len. rewrite cps_encode by done.
  induction Hl as [|c l Hc _ [IHu IHl]]; [done|]. cbn [encode foldr sum_list_with].
  fold (encode l). rewrite escape_encode_cp by done.
  destruct (escape_cp_ok c (escape (encode l) r) Hc IHu) as [? ->]. split; [done|]. lia.
Qed.

Lemma quote_ok s : utf8 s → utf8 (quote s) ∧ py_len (quote s) = escaped_len s + 2.
Proof.
  intros Hs. unfold quote.
  assert (utf8 (String dquote EmptyString)) as Hq by (apply utf8_cons_ascii; [done|apply utf8_nil]).
  destruct (escape_ok s _ Hs Hq) as [? Hl]. split; [by apply utf8_cons_ascii|].
  rewrite py_len_ascii by done. rewrite Hl. change (py_len (String dquote EmptyString)) with 1. lia.
Qed.

Lemma escaped_len_le s : Forall (λ c, (32 <= c)%N) (cps s) → escaped_len s ≤ 2 * py_len s.
Proof.
  unfold escaped_len, py_len. induction 1 as [|c l Hc _ IH]; cbn; [lia|].
  assert (escape_width c ≤ 2); [|lia]. unfold escape_width.
  destruct (_ || _)%N; [done|]. destruct (N.ltb_spec c 32); lia.
Qed.

(** ** The encoded form of a value *)

(** Values whose strings, keys and numerals are UTF-8. *)
Fixpoint utf8_val (v : pyval) : bool :=
  match v with
  | PFloat s | PStr s | POther s => utf8_b s
  | PList l => forallb utf8_val l
  | PDict d => forallb (λ '(k, x), utf8_b k && utf8_val x) d
  | _ => true
  end.

Fixpoint ascii_only (s : string) : bool :=
  match s with EmptyString => true | String a s => (N_of_ascii a <? 128)%N && ascii_only s end.

Lemma utf8_ascii s : ascii_only s = true → utf8 s.
Proof.
  induction s as [|a s IH]; [intros; apply utf8_nil|]. cbn.
  intros [Ha%N.ltb_lt Hs]%andb_true_iff. apply utf8_cons_ascii; auto.
Qed.

Lemma uint_ascii d : ascii_only (DecimalString.NilZero.string_of_uint d) = true.
Proof.
  assert (∀ d, ascii_only (DecimalString.NilEmpty.string_of_uint d) = true) as Hall.
  { intros d'. induction d'; cbn; auto. }
  destruct d; [done|..]; match goal with |- context [DecimalString.NilZero.string_of_uint ?x] => exact (Hall x) end.
Qed.

Lemma str_of_Z_utf8 z : utf8 (str_of_Z z).
Proof.
  apply utf8_ascii. unfold str_of_Z. destruct (Z.to_int z); apply uint_ascii.
Qed.

Lemma utf8_join sep l : utf8 sep → Forall utf8 l → utf8 (join sep l).
Proof.
  intros Hsep. induction 1 as [|s l Hs Hl IH]; [apply utf8_nil|].
  destruct l; cbn [join] in *; [done|]. by repeat apply utf8_app.
Qed.

Lemma dumps_utf8 v : utf8_val v = true → utf8 (dumps_text v).
Proof.
  unfold dumps_text. induction v as [| | |s|s|l IH|d IH|s] using pyval_ind; cbn [utf8_val dumps_with]; intros Hv.
  - by apply utf8_ascii.
  - destruct b; by apply utf8_ascii.
  - apply str_of_Z_utf8.
  - by apply utf8_b_spec.
  - by apply quote_ok, utf8_b_spec.
  - apply utf8_app; [by apply utf8_ascii|]. apply utf8_app; [|by apply utf8_ascii].
    apply utf8_join; [by apply utf8_ascii|]. rewrite list_forallb_spec in Hv.
    apply Forall_forall. intros s (v & -> & Hin)%elem_of_map. rewrite Forall_forall in IH. auto.
  - apply utf8_app; [by apply utf8_ascii|]. apply utf8_app; [|by apply utf8_ascii].
    apply utf8_join; [by apply utf8_ascii|]. rewrite list_forallb_spec in Hv.
    apply Forall_forall. intros s ([k v] & -> & Hin)%elem_of_map.
    specialize (Hv _ Hin). cbn in Hv. apply andb_true_iff in Hv as [Hk Hv].
    rewrite Forall_forall in IH. specialize (IH _ Hin Hv).
    apply utf8_app; [by apply quote_ok, utf8_b_spec|]. apply utf8_app; [by apply utf8_ascii|done].
  - by apply quote_ok, utf8_b_spec.
Qed.

(** The length of [sep.join(l)]. *)
Lemma py_len_join sep l :
  utf8 sep → Forall utf8 l →
  py_len (join sep l) = sum_list_with py_len l + py_len sep * (List.length l - 1).
Proof.
  intros Hsep. induction 1 as [|s l Hs Hl IH]; [cbn; lia|].
  destruct l as [|t l]; cbn [join sum_list_with List.length] in *; [lia|].
  rewrite !py_len_app by done. cbn [join] in IH. rewrite IH. cbn. lia.
Qed.

(** A dictionary's text: its entries, the separators and the braces. *)
Lemma py_len_dict d :
  forallb (λ '(k, x), utf8_b k && utf8_val x) d = true →
  py_len (dumps_text (PDict d)) =
    sum_list_with (λ kv, escaped_len kv.1 + 4 + py_len (dumps_text kv.2)) d + 2 * (List.length d - 1) + 2.
Proof.
  intros Hd. unfold dumps_text. cbn [dumps_with]. rewrite list_forallb_spec in Hd.
  assert (∀ kv, kv ∈ d → utf8 kv.1 ∧ utf8 (dumps_text kv.2)) as Hkv.
  { intros [k v] Hin. specialize (Hd _ Hin). cbn in Hd. apply andb_true_iff in Hd as [? ?].
    split; [by apply utf8_b_spec|by apply dumps_utf8]. }
  assert (∀ kv, kv ∈ d → utf8 (quote kv.1 +:+ ": " +:+ dumps_with quote kv.2) ∧
    py_len (quote kv.1 +:+ ": " +:+ dumps_with quote kv.2) =
      escaped_len kv.1 + 4 + py_len (dumps_with quote kv.2)) as Hentry.
  { intros [k v] Hin. destruct (Hkv _ Hin) as [Hk Hv]. cbn [fst snd] in *. destruct (quote_ok k Hk) as [Hq Hl]. split.
    - apply utf8_app; [done|]. apply utf8_app; [by apply utf8_ascii|done].
    - rewrite py_len_app by done. rewrite py_len_app by (by apply utf8_ascii).
      rewrite Hl. change (py_len ": ") with 2. lia. }
  assert (Forall utf8 (map (λ '(k, x), quote k +:+ ": " +:+ dumps_with quote x) d)) as Hall.
  { apply Forall_forall. intros s ([k v] & -> & Hin)%elem_of_map. by destruct (Hentry _ Hin). }
  assert (utf8 ", ") as Hsep by (by apply utf8_ascii).
  rewrite py_len_app by (by apply utf8_ascii). rewrite py_len_app by (by apply utf8_join).
  rewrite py_len_join, length_map by done.
  change (py_len "{") with 1. change (py_len "}") with 1. change (py_len ", ") with 2.
  assert (sum_list_with py_len (map (λ '(k, x), quote k +:+ ": " +:+ dumps_with quote x) d) =
    sum_list_with (λ kv, escaped_len kv.1 + 4 + py_len (dumps_with quote kv.2)) d) as ->; [|lia].
  clear Hall Hsep Hkv Hd. induction d as [|[k v] d IH]; cbn [map sum_list_with]; [done|].
  destruct (Hentry (k, v)) as [_ He]; [by left|]. cbn [fst snd] in *. rewrite He, IH; [done|]. intros kv ?. apply Hentry. by right.
Qed.
