(* ===== verification/GraphModels.v ===== *)
(** * Knowledge graph models: [app/knowledge_graph/models.py]

    Drafts, extractions and the stored graph, with the constraints and the
    validators of their pydantic classes. *)

From S2P Require Import Prelude PyStr Floats Errors Json Numbers Metadata Policy SqlGuard.
From S2P Require Import DataSources Executor SafeQuery StructuredLLM QuestionGuard NL2SQL.

Inductive EntityKind := Metric | Table | Column | BusinessTerm | Document | DataSource.
Inductive RelationKind :=
| DEFINED_IN | DERIVED_FROM | USES_COLUMN | BELONGS_TO | RELATED_TO | JOINS_WITH.
#[export] Instance EntityKind_eq_dec : EqDecision EntityKind. Proof. solve_decision. Defined.
#[export] Instance RelationKind_eq_dec : EqDecision RelationKind. Proof. solve_decision. Defined.

Definition entity_kind_name (k : EntityKind) : string :=
  match k with
  | Metric => "Metric" | Table => "Table" | Column => "Column" | BusinessTerm => "BusinessTerm"
  | Document => "Document" | DataSource => "DataSource"
  end.
Definition relation_kind_name (k : RelationKind) : string :=
  match k with
  | DEFINED_IN => "DEFINED_IN" | DERIVED_FROM => "DERIVED_FROM" | USES_COLUMN => "USES_COLUMN"
  | BELONGS_TO => "BELONGS_TO" | RELATED_TO => "RELATED_TO" | JOINS_WITH => "JOINS_WITH"
  end.

(** ** Extractions *)

Record EntityDraft := {
  ed_id : string; ed_name : string; ed_kind : EntityKind; ed_evidence : string;
  ed_confidence : float }.
Record RelationDraft := {
  rd_source : string; rd_target : string; rd_kind : RelationKind; rd_evidence : string;
  rd_confidence : float }.

(** [Field(ge=0, le=1)]. *)
Definition unit_interval (x : float) : bool := fleb fzero x && fleb x (f_of_Z 1).

Definition EntityDraft_ok (e : EntityDraft) : bool :=
  between 1 (py_len (ed_id e)) 80 && between 1 (py_len (ed_name e)) 160
  && between 1 (py_len (ed_evidence e)) 1000 && unit_interval (ed_confidence e).
Definition RelationDraft_ok (r : RelationDraft) : bool :=
  between 1 (py_len (rd_source r)) 80 && between 1 (py_len (rd_target r)) 80
  && between 1 (py_len (rd_evidence r)) 1000 && unit_interval (rd_confidence r).

Record Extraction := { entities : list EntityDraft; relations : list RelationDraft }.

Definition entity_key `{PyUnicode} (e : EntityDraft) : EntityKind * string :=
  (ed_kind e, casefold (ed_name e)).

(** [validate_references]. *)
Definition references_ok `{PyUnicode} (x : Extraction) : bool :=
  let ids := map ed_id (entities x) in
  all_distinct ids && all_distinct (map entity_key (entities x))
  && forallb (λ r, mem (rd_source r) ids && mem (rd_target r) ids) (relations x).

Definition Extraction_ok `{PyUnicode} (x : Extraction) : bool :=
  (length (entities x) <=? 100) && (length (relations x) <=? 200)
  && forallb EntityDraft_ok (entities x) && forallb RelationDraft_ok (relations x)
  && references_ok x.

Definition Extraction_validate `{PyUnicode} (x : Extraction) : result exn Extraction :=
  if Extraction_ok x then Ok x else Err ValidationError.

(** ** The stored graph *)

Record GraphNode := {
  gn_id : string; gn_name : string; gn_kind : EntityKind; gn_source_id : string;
  gn_source_name : string; gn_evidence : string; gn_confidence : float; gn_extracted_at : string }.
Record GraphEdge := {
  ge_id : string; ge_source : string; ge_target : string; ge_kind : RelationKind;
  ge_source_id : string; ge_source_name : string; ge_evidence : string; ge_confidence : float;
  ge_extracted_at : string }.
Record Subgraph := { nodes : list GraphNode; edges : list GraphEdge; truncated : bool }.

Definition empty_subgraph : Subgraph := {| nodes := []; edges := []; truncated := false |}.

(** ** Requests and answers *)

Record ExtractRequest := { xr_source_id : string; xr_source_name : string; xr_text : string }.
Definition ExtractRequest_validate (r : ExtractRequest) : result exn ExtractRequest :=
  if between 1 (py_len (xr_source_name r)) 255
     && (1 <=? py_len (xr_text r)) && (Z.of_nat (py_len (xr_text r)) <=? 20000)%Z
  then Ok r else Err ValidationError.

Record GraphQuery := { gq_query : string; gq_limit : Z; gq_depth : Z }.
Definition GraphQuery_ok (q : GraphQuery) : bool :=
  (py_len (gq_query q) <=? 4000) && within 1 (gq_limit q) 100 && within 0 (gq_depth q) 3.

Record GraphAnswerDraft := { ad_answer : string; ad_citation_ids : list string }.
Record GraphAnswer := {
  ga_answer : string; ga_citations : list pyval; ga_graph : Subgraph; ga_should_answer : bool }.

(** ** Lemmas *)

Lemma references_ok_spec `{PyUnicode} x : references_ok x = true ↔
  NoDup (map ed_id (entities x)) ∧ NoDup (map entity_key (entities x)) ∧
  ∀ r, r ∈ relations x → rd_source r ∈ map ed_id (entities x) ∧ rd_target r ∈ map ed_id (entities x).
Proof.
  unfold references_ok. rewrite !andb_true_iff, !all_distinct_spec, list_forallb_spec.
  setoid_rewrite andb_true_iff. setoid_rewrite mem_spec. tauto.
Qed.

Lemma Extraction_validate_Ok `{PyUnicode} x y :
  Extraction_validate x = Ok y ↔ y = x ∧ Extraction_ok x = true.
Proof. unfold Extraction_validate. destruct (Extraction_ok x); naive_solver. Qed.
