(* ===== verification/GraphStore.v ===== *)
(** * Graph stores: [MemoryGraphStore] of [app/knowledge_graph/repository.py]

    The store's interface, the in-memory store with its neighbourhood search
    and its breadth-first path search.  The search keeps a queue of simple
    paths from the source; its fuel bounds the number of such paths up to the
    depth. *)

From S2P Require Import Prelude PyStr Floats Errors Json StructuredLLM GraphModels.
From stdpp Require Import relations.

(** ** The store as its clients see it *)

Class GraphStore (W : Type) := {
  replace : string → string → Subgraph → op W exn unit;
  subgraph : string → string → Z → Z → op W exn Subgraph;
  path : string → string → string → Z → op W exn Subgraph
}.

(** ** MemoryGraphStore *)

Definition memory_graphs : Type := list (string * string * Subgraph).

Definition memory_replace (tenant source : string) (g : Subgraph) : op memory_graphs exn unit :=
  λ s, (dict_set (tenant, source) g s, Ok tt).

Definition tenant_graphs (tenant : string) (s : memory_graphs) : list Subgraph :=
  map snd (List.filter (λ e, bool_decide (e.1.1 = tenant)) s).
Definition _all (tenant : string) (s : memory_graphs) : list GraphNode * list GraphEdge :=
  (concat (map nodes (tenant_graphs tenant s)), concat (map edges (tenant_graphs tenant s))).

Definition _matches `{PyUnicode} (name query : string) : bool :=
  contains (casefold name) (casefold query) || contains (casefold query) (casefold name).

(** One round of the neighbourhood: the ends of the edges that touch it. *)
Definition grow (es : list GraphEdge) (selected : gset string) : gset string :=
  selected
  ∪ (list_to_set (map ge_target (List.filter (λ e, bool_decide (ge_source e ∈ selected)) es))
     ∪ list_to_set (map ge_source (List.filter (λ e, bool_decide (ge_target e ∈ selected)) es))).

Definition seeds `{PyUnicode} (ns : list GraphNode) (query : string) (limit : Z) : list string :=
  slice_to (limit + 1)
    (map gn_id (List.filter (λ n, String.eqb query EmptyString || _matches (gn_name n) query) ns)).

Definition memory_subgraph `{PyUnicode} (tenant query : string) (depth limit : Z) :
    op memory_graphs exn Subgraph := λ s,
  let '(ns, es) := _all tenant s in
  let selected := Nat.iter (Z.to_nat depth) (grow es) (list_to_set (seeds ns query limit)) in
  let found := List.filter (λ n, bool_decide (gn_id n ∈ selected)) ns in
  let chosen : gset string := list_to_set (map gn_id (slice_to limit found)) in
  (s, Ok {|
    nodes := slice_to limit found;
    edges := slice_to 200 (List.filter (λ e, bool_decide (ge_source e ∈ chosen)
                                              && bool_decide (ge_target e ∈ chosen)) es);
    truncated := (limit <? Z.of_nat (length found))%Z |}).

(** [edge.target if edge.source == node else (edge.source if ... else None)];
    an empty id is falsy. *)
Definition neighbor (node : string) (e : GraphEdge) : option string :=
  truthy (if String.eqb (ge_source e) node then Some (ge_target e)
          else if String.eqb (ge_target e) node then Some (ge_source e) else None).

(** An element of the queue: [(node, route, visited)]. *)
Record frontier := { at_node : string; route : list GraphEdge; visited : gset string }.

Definition extend (it : frontier) (e : GraphEdge) : option frontier :=
  match neighbor (at_node it) e with
  | Some n =>
      if bool_decide (n ∈ visited it) then None
      else Some {| at_node := n; route := route it ++ [e]; visited := visited it ∪ {[n]} |}
  | None => None
  end.

(** The search; the inner [None] is a search that found no path, the outer
    one would be a lack of fuel. *)
Fixpoint path_loop (fuel : nat) (es : list GraphEdge) (target : string) (depth : Z)
    (queue : list frontier) : option (option frontier) :=
  match fuel with
  | O => match queue with [] => Some None | _ => None end
  | S fuel =>
      match queue with
      | [] => Some None
      | it :: queue =>
          if String.eqb (at_node it) target then Some (Some it)
          else if (depth <=? Z.of_nat (length (route it)))%Z then path_loop fuel es target depth queue
          else path_loop fuel es target depth (queue ++ omap (M:=list) (extend it) es)
      end
  end.

(** How many queue elements a route with [remaining] edges to go can give rise to. *)
Fixpoint tree_size (branching remaining : nat) : nat :=
  match remaining with
  | O => 1
  | S remaining => S (branching * tree_size branching remaining)
  end.

Definition path_search (es : list GraphEdge) (source target : string) (depth : Z) :
    option (option frontier) :=
  path_loop (tree_size (length es) (Z.to_nat depth)) es target depth
    [{| at_node := source; route := []; visited := {[source]} |}].

Definition memory_path (tenant source target : string) (depth : Z) :
    op memory_graphs exn Subgraph := λ s,
  let '(ns, es) := _all tenant s in
  let lookup := dict_of (map (λ n, (gn_id n, n)) ns) in
  (s, match dict_get source lookup, dict_get target lookup with
      | Some _, Some _ =>
          match path_search es source target depth with
          | Some (Some it) =>
              found ← map_result (λ key, match dict_get key lookup with
                                         | Some n => Ok n | None => Err KeyError end)
                        (sort_strings (elements (visited it)));
              Ok {| nodes := found; edges := route it; truncated := false |}
          | Some None => Ok empty_subgraph
          | None => Err RuntimeError
          end
      | _, _ => Ok empty_subgraph
      end).

#[export] Instance memory_graph_store `{PyUnicode} : GraphStore memory_graphs := {|
  replace := memory_replace; subgraph := memory_subgraph; path := memory_path |}.

(** ** The neighbourhood of the seeds *)

Definition adjacent (es : list GraphEdge) (x y : string) : Prop :=
  ∃ e, e ∈ es ∧ (ge_source e = x ∧ ge_target e = y ∨ ge_target e = x ∧ ge_source e = y).

Lemma elem_of_filter_bool {A} (f : A → bool) x l : x ∈ List.filter f l ↔ x ∈ l ∧ f x = true.
Proof. rewrite !list_elem_of_In. apply filter_In. Qed.

Lemma elem_of_grow es S x : x ∈ grow es S ↔ x ∈ S ∨ ∃ y, y ∈ S ∧ adjacent es y x.
Proof.
  unfold grow, adjacent. rewrite !elem_of_union, !elem_of_list_to_set, !elem_of_map.
  setoid_rewrite elem_of_filter_bool. setoid_rewrite bool_decide_eq_true. naive_solver.
Qed.

Lemma elem_of_grow_iter es S d x :
  x ∈ Nat.iter d (grow es) S ↔ ∃ y, y ∈ S ∧ bsteps (adjacent es) d y x.
Proof.
  revert x. induction d as [|d IH]; intros x; cbn [Nat.iter nat_rect].
  - split; [intros; by exists x; split; [|apply bsteps_refl]|].
    intros (y & Hy & Hs). by inversion Hs; subst.
  - rewrite elem_of_grow, IH. setoid_rewrite IH. split.
    + intros [(y & Hy & Hs)|(z & (y & Hy & Hs) & Hz)]; exists y; (split; [done|]).
      * by apply bsteps_S.
      * by eapply bsteps_r.
    + intros (y & Hy & (n & Hn & Hs)%bsteps_nsteps).
      destruct n as [|n]; [left; exists y; split; [done|]; apply bsteps_nsteps; exists 0; by split; [lia|]|].
      apply nsteps_inv_r in Hs as (z & Hs & Hz). right. exists z. split; [|done].
      exists y. split; [done|]. apply bsteps_nsteps. exists n. split; [lia|done].
Qed.

Lemma slice_to_elem {A} n (l : list A) x : (0 ≤ n)%Z → x ∈ slice_to n l → x ∈ l.
Proof. intros Hn. rewrite slice_to_nonneg by done. apply subseteq_take. Qed.

Lemma slice_to_length {A} n (l : list A) : (0 ≤ n)%Z → (Z.of_nat (length (slice_to n l)) ≤ n)%Z.
Proof. intros Hn. rewrite slice_to_nonneg, length_take by done. lia. Qed.

Lemma slice_to_all {A} n (l : list A) : (Z.of_nat (length l) ≤ n)%Z → slice_to n l = l.
Proof. intros Hn. rewrite slice_to_nonneg by lia. apply take_ge. lia. Qed.

(** A node of the tenant within [depth] hops of a seed. *)
Definition within_reach `{PyUnicode} (g : list GraphNode * list GraphEdge) (query : string)
    (depth limit : Z) (id : string) : Prop :=
  ∃ seed, seed ∈ seeds g.1 query limit ∧ bsteps (adjacent g.2) (Z.to_nat depth) seed id.

(** The neighbourhood search returns nodes of the tenant within [depth]
    hops of a seed - every one of them unless it says [truncated] - at most
    [limit] nodes and 200 edges, and only edges of the tenant between the
    returned nodes. *)
Theorem memory_subgraph_neighbourhood : ∀ (U : PyUnicode) tenant query depth limit s,
  (0 ≤ limit)%Z →
  ∃ g, memory_subgraph tenant query depth limit s = (s, Ok g) ∧
    (∀ n, n ∈ nodes g → n ∈ (_all tenant s).1 ∧
       within_reach (_all tenant s) query depth limit (gn_id n)) ∧
    (truncated g = false → ∀ n, n ∈ (_all tenant s).1 →
       within_reach (_all tenant s) query depth limit (gn_id n) → n ∈ nodes g) ∧
    (Z.of_nat (length (nodes g)) ≤ limit)%Z ∧ length (edges g) ≤ 200 ∧
    (∀ e, e ∈ edges g → e ∈ (_all tenant s).2 ∧
       ge_source e ∈ map gn_id (nodes g) ∧ ge_target e ∈ map gn_id (nodes g)).
Proof.
  intros U tenant query depth limit s Hl. unfold memory_subgraph, within_reach.
  destruct (_all tenant s) as [ns es]. cbn [fst snd].
  assert (∀ n, n ∈ List.filter (λ n, bool_decide (gn_id n ∈ Nat.iter (Z.to_nat depth) (grow es)
              (list_to_set (seeds ns query limit)))) ns ↔
            n ∈ ns ∧ ∃ seed, seed ∈ seeds ns query limit ∧
              bsteps (adjacent es) (Z.to_nat depth) seed (gn_id n)) as Hfound.
  { intros n. rewrite elem_of_filter_bool, bool_decide_eq_true, elem_of_grow_iter.
    by setoid_rewrite elem_of_list_to_set. }
  eexists. split; [reflexivity|]. cbn [nodes edges truncated]. split_and!.
  - intros n Hn%slice_to_elem; [|done]. by apply Hfound.
  - intros Ht%Z.ltb_ge n Hn Hr. rewrite slice_to_all by done. by apply Hfound.
  - by apply slice_to_length.
  - apply Nat2Z.inj_le. by apply (slice_to_length 200).
  - intros e He%slice_to_elem; [|done].
    rewrite elem_of_filter_bool, andb_true_iff, !bool_decide_eq_true, !elem_of_list_to_set in He.
    tauto.
Qed.

(** ** Routes *)

(** The nodes a route visits after its start. *)
Fixpoint trail (start : string) (r : list GraphEdge) : option (list string) :=
  match r with
  | [] => Some []
  | e :: r => n ← neighbor start e; ns ← trail n r; Some (n :: ns)
  end.
Definition last_node (start : string) (ns : list string) : string := default start (last ns).

Definition connects (es : list GraphEdge) (source target : string) (r : list GraphEdge) : Prop :=
  Forall (λ e, e ∈ es) r ∧ ∃ ns, trail source r = Some ns ∧ last_node source ns = target.

Lemma last_node_snoc start ns n : last_node start (ns ++ [n]) = n.
Proof. unfold last_node. by rewrite last_snoc. Qed.

Lemma last_node_cons start n ns : last_node start (n :: ns) = last_node n ns.
Proof. unfold last_node. destruct ns; [done|]. rewrite last_cons_cons. by destruct (last _) eqn:E; [|apply last_None in E]. Qed.

Lemma last_node_elem start ns : last_node start ns ∈ start :: ns.
Proof.
  unfold last_node. destruct (last ns) as [n|] eqn:E; [|by left].
  right. by apply last_Some_elem_of.
Qed.

Lemma trail_app start r1 r2 :
  trail start (r1 ++ r2) =
    (ns1 ← trail start r1; ns2 ← trail (last_node start ns1) r2; Some (ns1 ++ ns2)).
Proof.
  revert start. induction r1 as [|e r1 IH]; intros start; cbn.
  - by destruct (trail start r2).
  - destruct (neighbor start e) as [n|]; cbn; [|done]. rewrite IH.
    destruct (trail n r1) as [ns1|]; cbn; [|done]. rewrite last_node_cons.
    by destruct (trail (last_node n ns1) r2).
Qed.

Lemma trail_snoc start r e ns :
  trail start (r ++ [e]) = Some ns ↔
  ∃ ns1 n, trail start r = Some ns1 ∧ neighbor (last_node start ns1) e = Some n ∧ ns = ns1 ++ [n].
Proof.
  rewrite trail_app. destruct (trail start r) as [ns1|]; cbn; [|naive_solver].
  destruct (neighbor _ e) as [n|] eqn:E; cbn; naive_solver.
Qed.

(** Cycles can be cut out of a route. *)
Lemma simple_route start r ns :
  trail start r = Some ns →
  ∃ r' ns', trail start r' = Some ns' ∧ NoDup (start :: ns') ∧ (∀ e, e ∈ r' → e ∈ r) ∧
    last_node start ns' = last_node start ns ∧ length r' ≤ length r.
Proof.
  assert (∀ r ns, trail start r = Some ns → ∀ x, x ∈ start :: ns →
    ∃ r1 ns1 r2, r = r1 ++ r2 ∧ trail start r1 = Some ns1 ∧ last_node start ns1 = x ∧
                 ∃ ns2, ns = ns1 ++ ns2) as Hcut.
  { clear. intros r. induction r as [|e r IH] using rev_ind; intros ns.
    - intros [= <-] x ->%list_elem_of_singleton. by exists [], [], []; eauto.
    - intros (ns1 & n & Hr & Hn & ->)%trail_snoc x Hx.
      rewrite app_comm_cons, elem_of_app, list_elem_of_singleton in Hx. destruct Hx as [Hx| ->].
      + destruct (IH _ Hr _ Hx) as (r1 & m & r2 & -> & Hm & Hl & ns2 & ->).
        exists r1, m, (r2 ++ [e]). rewrite <-!app_assoc. split_and!; eauto.
      + exists (r ++ [e]), (ns1 ++ [n]), []. rewrite !app_nil_r. split_and!; [done| | |].
        * apply trail_snoc. eauto.
        * apply last_node_snoc.
        * exists []. by rewrite app_nil_r. }
  revert ns. induction r as [|e r IH] using rev_ind; intros ns.
  - intros [= <-]. exists [], []. split_and!; try done. apply NoDup_singleton.
  - intros (ns1 & n & Hr & Hn & ->)%trail_snoc.
    destruct (IH _ Hr) as (r' & ns' & Hr' & Hnd & Hin & Hl & Hle).
    rewrite length_app, last_node_snoc. cbn. destruct (decide (n ∈ start :: ns')) as [Hx|Hx].
    + destruct (Hcut _ _ Hr' _ Hx) as (r1 & m & r2 & -> & Hm & Hlm & ns2 & ->).
      exists r1, m. rewrite app_comm_cons in Hnd. apply NoDup_app in Hnd as [? _].
      rewrite length_app in Hle. split_and!; [done|done| |done|lia].
      intros x Hx1. rewrite elem_of_app. left. apply Hin. set_solver.
    + exists (r' ++ [e]), (ns' ++ [n]). split_and!.
      * apply trail_snoc. rewrite <-Hl in Hn. eauto.
      * rewrite app_comm_cons. apply NoDup_app. split_and!; [done| |apply NoDup_singleton].
        intros y Hy ->%list_elem_of_singleton. done.
      * intros x. rewrite !elem_of_app. naive_solver.
      * apply last_node_snoc.
      * rewrite length_app. cbn. lia.
Qed.

(** ** The breadth-first search *)

Section Search.
Context (es : list GraphEdge) (source target : string) (depth : Z).

(** A queue element is a simple route from the source. *)
Definition simple (r : list GraphEdge) (ns : list string) : Prop :=
  Forall (λ e, e ∈ es) r ∧ trail source r = Some ns ∧ NoDup (source :: ns).
Definition frontier_ok (it : frontier) : Prop :=
  ∃ ns, simple (route it) ns ∧ at_node it = last_node source ns ∧
        visited it = list_to_set (source :: ns).

Definition steps_taken (it : frontier) : nat := length (route it).

(** Breadth first: the queue holds routes of one length, then of the next. *)
Definition level (k : nat) (queue : list frontier) : Prop :=
  ∃ a b, queue = a ++ b ∧ Forall (λ it, steps_taken it = k) a ∧ Forall (λ it, steps_taken it = S k) b.

Definition goal_route (r : list GraphEdge) : Prop :=
  ∃ ns, simple r ns ∧ last_node source ns = target ∧ (Z.of_nat (length r) ≤ depth)%Z.

(** Every route that the search could return has a prefix in the queue. *)
Definition covers (queue : list frontier) : Prop :=
  ∀ r, goal_route r → ∃ it, it ∈ queue ∧ route it `prefix_of` r.

Definition queue_size (queue : list frontier) : nat :=
  sum_list_with (λ it, tree_size (length es) (Z.to_nat depth - steps_taken it)) queue.

Lemma tree_size_pos b d : 1 ≤ tree_size b d.
Proof. destruct d; cbn; lia. Qed.

Lemma extend_Some it e it' :
  extend it e = Some it' ↔
  ∃ n, neighbor (at_node it) e = Some n ∧ n ∉ visited it ∧
       it' = {| at_node := n; route := route it ++ [e]; visited := visited it ∪ {[n]} |}.
Proof.
  unfold extend. destruct (neighbor _ e) as [n|]; [|naive_solver].
  case_bool_decide; naive_solver.
Qed.

Lemma extend_ok it e it' : frontier_ok it → e ∈ es → extend it e = Some it' → frontier_ok it'.
Proof.
  intros (ns & (Hes & Htr & Hnd) & Hat & Hvis) He (n & Hn & Hnew & ->)%extend_Some.
  exists (ns ++ [n]). unfold simple; cbn [route at_node visited]. rewrite Hat in Hn. split_and!.
  - apply Forall_app. by split; [|apply Forall_singleton].
  - apply trail_snoc. eauto.
  - rewrite app_comm_cons. apply NoDup_app. split_and!; [done| |apply NoDup_singleton].
    intros y Hy ->%list_elem_of_singleton. rewrite Hvis in Hnew. by rewrite elem_of_list_to_set in Hnew.
  - by rewrite last_node_snoc.
  - rewrite Hvis. rewrite app_comm_cons, list_to_set_app_L. cbn. by rewrite union_empty_r_L.
Qed.

Lemma elem_of_extensions it it' : it' ∈ omap (M:=list) (extend it) es ↔ ∃ e, e ∈ es ∧ extend it e = Some it'.
Proof. apply list_elem_of_omap. Qed.

Lemma extensions_level it : Forall (λ it', steps_taken it' = S (steps_taken it)) (omap (M:=list) (extend it) es).
Proof.
  apply Forall_forall. intros it' (e & _ & (n & _ & _ & ->)%extend_Some)%elem_of_extensions.
  unfold steps_taken; cbn. rewrite length_app; cbn; lia.
Qed.

Lemma level_step k it queue :
  level k (it :: queue) → level (steps_taken it) (queue ++ omap (M:=list) (extend it) es).
Proof.
  intros (a & b & Hq & Ha & Hb). pose proof (extensions_level it) as Hx.
  destruct a as [|it' a]; cbn in Hq.
  - subst b. apply Forall_cons in Hb as [Hk Hb]. exists queue, (omap (M:=list) (extend it) es).
    rewrite Hk. by rewrite Hk in Hx.
  - injection Hq as <- ->. apply Forall_cons in Ha as [Hk Ha]. rewrite Hk in *.
    exists a, (b ++ omap (M:=list) (extend it) es). rewrite <-app_assoc.
    split_and!; [done|done|]. by apply Forall_app.
Qed.

Lemma level_tail k it queue : level k (it :: queue) → level (steps_taken it) queue.
Proof.
  intros (a & b & Hq & Ha & Hb). destruct a as [|it' a]; cbn in Hq.
  - subst b. apply Forall_cons in Hb as [Hk Hb]. exists queue, []. rewrite app_nil_r, Hk. done.
  - injection Hq as <- ->. apply Forall_cons in Ha as [Hk Ha]. rewrite Hk. by exists a, b.
Qed.

Lemma level_head k it queue it' :
  level k (it :: queue) → it' ∈ it :: queue → steps_taken it ≤ steps_taken it'.
Proof.
  intros (a & b & Hq & Ha & Hb) Hin.
  assert (∀ it', it' ∈ it :: queue → k ≤ steps_taken it' ≤ S k) as Hall.
  { intros x Hx. rewrite Hq, elem_of_app in Hx. rewrite Forall_forall in Ha, Hb.
    destruct Hx as [Hx|Hx]; [rewrite (Ha _ Hx)|rewrite (Hb _ Hx)]; lia. }
  destruct a as [|it1 a]; cbn in Hq.
  - rewrite Forall_forall in Hb. rewrite <-Hq in Hb. rewrite (Hb it) by (by left).
    rewrite (Hb it') by done. lia.
  - injection Hq as <- ->. apply Forall_cons in Ha as [Hk Ha]. destruct (Hall it' Hin). lia.
Qed.

Lemma covers_step it queue :
  frontier_ok it → at_node it ≠ target → covers (it :: queue) →
  covers (queue ++ omap (M:=list) (extend it) es).
Proof.
  intros (ns & (Hes & Htr & Hnd) & Hat & Hvis) Hne Hc r Hr.
  destruct (Hc r Hr) as (it' & Hin & Hpre). rewrite elem_of_cons in Hin.
  destruct Hin as [->|Hin]; [|exists it'; split; [by apply elem_of_app; left|done]].
  destruct Hr as (ms & (Hes' & Htr' & Hnd') & Hl & _). destruct Hpre as [[|e r'] ->].
  - rewrite app_nil_r in *. rewrite Htr in Htr'. injection Htr' as <-. by rewrite Hat in Hne.
  - rewrite cons_middle, app_assoc in Htr'. rewrite trail_app in Htr'.
    destruct (trail source (route it ++ [e])) as [ns'|] eqn:Hs; [|done]. cbn in Htr'.
    destruct (trail _ r') as [ns2|]; [|done]. injection Htr' as <-.
    apply trail_snoc in Hs as (ns1 & n & Hs & Hn & ->). rewrite Htr in Hs. injection Hs as <-.
    rewrite <-Hat in Hn.
    exists {| at_node := n; route := route it ++ [e]; visited := visited it ∪ {[n]} |}.
    split; [|exists r'; cbn [route]; by rewrite <-app_assoc].
    apply elem_of_app; right. apply elem_of_extensions. exists e. split.
    + apply Forall_app in Hes' as [_ [? _]%Forall_cons]. done.
    + apply extend_Some. exists n. split_and!; [done| |done].
      rewrite Hvis, elem_of_list_to_set. intros Hx.
      rewrite <-app_assoc, app_comm_cons in Hnd'. apply NoDup_app in Hnd' as (_ & Hd & _).
      apply (Hd n); [done|]. apply elem_of_app. left. by apply list_elem_of_singleton.
Qed.

Lemma covers_tail it queue :
  at_node it ≠ target → frontier_ok it → (depth ≤ Z.of_nat (steps_taken it))%Z →
  covers (it :: queue) → covers queue.
Proof.
  intros Hne Hok Hd Hc r Hr. destruct (covers_step it queue Hok Hne Hc r Hr) as (it' & Hin & Hpre).
  apply elem_of_app in Hin as [?|Hx]; [by exists it'|]. exfalso.
  pose proof (extensions_level it) as Hlev. rewrite Forall_forall in Hlev.
  specialize (Hlev _ Hx). apply prefix_length in Hpre.
  destruct Hr as (? & _ & _ & Hlen). unfold steps_taken in *. lia.
Qed.

Lemma queue_size_app q1 q2 : queue_size (q1 ++ q2) = queue_size q1 + queue_size q2.
Proof. unfold queue_size. induction q1 as [|it q1 IH]; cbn; [done|]. rewrite IH. lia. Qed.

Lemma extensions_size it :
  queue_size (omap (M:=list) (extend it) es)
    ≤ length es * tree_size (length es) (Z.to_nat depth - S (steps_taken it)).
Proof.
  pose proof (extensions_level it) as Hlev.
  assert (length (omap (M:=list) (extend it) es) ≤ length es) as Hlen.
  { clear. induction es as [|e l IH]; cbn; [done|]. destruct (extend it e); cbn; lia. }
  etrans; [|apply Nat.mul_le_mono_r, Hlen]. revert Hlev. unfold queue_size.
  generalize (omap (M:=list) (extend it) es) as l. intros l Hlev.
  induction Hlev as [|it' l Hk _ IH]; cbn; [done|]. rewrite Hk. lia.
Qed.

Lemma queue_size_step it queue :
  (Z.of_nat (steps_taken it) < depth)%Z →
  queue_size (queue ++ omap (M:=list) (extend it) es) < queue_size (it :: queue).
Proof.
  intros Hd. rewrite queue_size_app. pose proof (extensions_size it). unfold queue_size at 3.
  cbn [sum_list_with]. fold (queue_size queue).
  replace (Z.to_nat depth - steps_taken it) with (S (Z.to_nat depth - S (steps_taken it))) by lia.
  cbn [tree_size]. lia.
Qed.

(** What the search returns: a shortest simple route, or that there is none. *)
Definition search_spec (found : option frontier) : Prop :=
  match found with
  | Some it => frontier_ok it ∧ at_node it = target ∧ steps_taken it ≤ Z.to_nat depth ∧
      ∀ r, goal_route r → steps_taken it ≤ length r
  | None => ∀ r, ¬ goal_route r
  end.

Lemma path_loop_spec fuel k queue :
  queue_size queue ≤ fuel → Forall frontier_ok queue → level k queue → covers queue →
  Forall (λ it, steps_taken it ≤ Z.to_nat depth) queue →
  ∃ found, path_loop fuel es target depth queue = Some found ∧ search_spec found.
Proof.
  revert k queue. induction fuel as [|fuel IH]; intros k [|it queue] Hsize Hok Hlev Hcov Hdep.
  1,3: exists None; split; [done|]; intros r Hr; destruct (Hcov r Hr) as (? & ?%elem_of_nil & _); done.
  { unfold queue_size in Hsize. cbn in Hsize.
    pose proof (tree_size_pos (length es) (Z.to_nat depth - steps_taken it)). lia. }
  apply Forall_cons in Hok as [Hit Hok]. apply Forall_cons in Hdep as [Hd Hdep]. cbn [path_loop].
  destruct (String.eqb_spec (at_node it) target) as [Heq|Hne].
  - exists (Some it). split; [done|]. split_and!; [done|done|done|]. intros r Hr.
    destruct (Hcov r Hr) as (it' & Hin & Hpre). etrans; [by eapply level_head|].
    by apply prefix_length.
  - destruct (Z.leb_spec depth (Z.of_nat (length (route it)))) as [Hle|Hlt].
    + apply (IH (steps_taken it)); try done; [|by eapply level_tail|by eapply covers_tail].
      unfold queue_size in *. cbn in Hsize.
      pose proof (tree_size_pos (length es) (Z.to_nat depth - steps_taken it)). lia.
    + apply (IH (steps_taken it)).
      * pose proof (queue_size_step it queue Hlt). lia.
      * apply Forall_app. split; [done|]. apply Forall_forall.
        intros it' (e & He & Hx)%elem_of_extensions. by eapply extend_ok.
      * by eapply level_step.
      * by apply covers_step.
      * apply Forall_app. split; [done|]. eapply Forall_impl; [apply extensions_level|].
        intros it' ->. unfold steps_taken in *. lia.
Qed.

Lemma path_search_spec :
  ∃ found, path_search es source target depth = Some found ∧ search_spec found.
Proof.
  unfold path_search. apply (path_loop_spec _ 0).
  - unfold queue_size. cbn. unfold steps_taken. cbn. rewrite Nat.sub_0_r. lia.
  - apply Forall_singleton. exists []. unfold simple. cbn [route at_node visited].
    split_and!; [constructor|done|apply NoDup_singleton|done|]. cbn. by rewrite union_empty_r_L.
  - exists [{| at_node := source; route := []; visited := {[source]} |}], [].
    split_and!; [done|by apply Forall_singleton|constructor].
  - intros r _. eexists. split; [by left|]. apply prefix_nil.
  - apply Forall_singleton. unfold steps_taken. cbn. lia.
Qed.
End Search.

(** ** The path of a tenant's graph *)

(** Edges join nodes of the graph. *)
Definition closed (g : list GraphNode * list GraphEdge) : Prop :=
  ∀ e, e ∈ g.2 → ge_source e ∈ map gn_id g.1 ∧ ge_target e ∈ map gn_id g.1.

Definition node_lookup (ns : list GraphNode) : list (string * GraphNode) :=
  dict_of (map (λ n, (gn_id n, n)) ns).

Lemma node_lookup_Some ns key n :
  dict_get key (node_lookup ns) = Some n → n ∈ ns ∧ gn_id n = key.
Proof.
  intros (-> & ?)%dict_get_elem%dict_by_elem; [done|]. apply NoDup_dict_of.
Qed.

Lemma node_lookup_is_Some ns key : is_Some (dict_get key (node_lookup ns)) ↔ key ∈ map gn_id ns.
Proof.
  rewrite <-(map_pair_keys gn_id id ns), <-dict_of_keys, <-not_eq_None_Some, dict_get_None.
  split; [apply dec_stable|by intros ? ?].
Qed.

Lemma trail_in_graph g start r ns x :
  closed g → Forall (λ e, e ∈ g.2) r → trail start r = Some ns → x ∈ ns → x ∈ map gn_id g.1.
Proof.
  intros Hc Hr. revert start ns. induction Hr as [|e r He Hr IH]; intros start ns; cbn.
  - by intros [= <-] ?%elem_of_nil.
  - destruct (neighbor start e) as [n|] eqn:Hn; cbn; [|done].
    destruct (trail n r) as [ns'|] eqn:Ht; cbn; [|done]. intros [= <-] [->|Hx]%elem_of_cons; [|by eapply IH].
    destruct (Hc e He). unfold neighbor, truthy in Hn. repeat case_match; simplify_eq; done.
Qed.

Lemma goal_route_iff es source target depth r :
  goal_route es source target depth r →
  connects es source target r ∧ (Z.of_nat (length r) ≤ depth)%Z.
Proof. intros (ns & (? & ? & _) & ? & ?). unfold connects. eauto. Qed.

Lemma connects_goal es source target depth r :
  connects es source target r → (Z.of_nat (length r) ≤ depth)%Z →
  ∃ r', goal_route es source target depth r' ∧ length r' ≤ length r.
Proof.
  intros (Hes & ns & Ht & Hl) Hd. destruct (simple_route _ _ _ Ht) as (r' & ns' & Ht' & Hnd & Hin & Hl' & Hle).
  exists r'. split; [|done]. exists ns'. unfold simple. split_and!; [|done|done|congruence|lia].
  rewrite Forall_forall in *. auto.
Qed.

(** C13: on a graph whose edges join its nodes the path search always answers:
    with a route of edges of the tenant from [source] to [target] of at most
    [depth] edges, shortest among all routes that connect them, together
    with the nodes it visits - or with the empty graph, and then no route of
    at most [depth] edges connects them. *)
Theorem memory_path_shortest : ∀ tenant source target depth s,
  closed (_all tenant s) →
  source ∈ map gn_id (_all tenant s).1 → target ∈ map gn_id (_all tenant s).1 →
  ∃ g, memory_path tenant source target depth s = (s, Ok g) ∧
    (g = empty_subgraph ∧
       (∀ r, connects (_all tenant s).2 source target r → (depth < Z.of_nat (length r))%Z)
     ∨ connects (_all tenant s).2 source target (edges g) ∧
       length (edges g) ≤ Z.to_nat depth ∧
       (∀ r, connects (_all tenant s).2 source target r → length (edges g) ≤ length r) ∧
       (∀ x, x ∈ map gn_id (nodes g) ↔
          ∃ ns, trail source (edges g) = Some ns ∧ x ∈ source :: ns)).
Proof.
  intros tenant source target depth s Hc Hs Ht. unfold memory_path.
  destruct (_all tenant s) as [ns es] eqn:Hall. cbn [fst snd] in *. fold (node_lookup ns).
  apply node_lookup_is_Some in Hs as [sn Hsn]. pose proof Ht as [tn Htn]%node_lookup_is_Some.
  rewrite Hsn, Htn.
  destruct (path_search_spec es source target depth) as ([it|] & -> & Hspec); cbn in Hspec.
  2:{ exists empty_subgraph. split; [done|left]. split; [done|]. intros r Hr.
      destruct (decide (Z.of_nat (length r) ≤ depth)%Z) as [Hle|]; [|lia].
      destruct (connects_goal _ _ _ _ _ Hr Hle) as (r' & Hg & _). by destruct (Hspec r'). }
  destruct Hspec as ((ms & Hsimple & Hat & Hvis) & Hto & Hle & Hmin).
  pose proof Hsimple as (Hes & Htr & Hnd).
  destruct (map_result_total (λ key, match dict_get key (node_lookup ns) with
      | Some n => Ok n | None => Err KeyError end) (sort_strings (elements (visited it)))) as [found Hf].
  { intros key Hkey. rewrite elem_of_sort_strings, elem_of_elements, Hvis, elem_of_list_to_set in Hkey.
    assert (key ∈ map gn_id ns) as [n ->]%node_lookup_is_Some; [|by eexists].
    apply elem_of_cons in Hkey as [->|Hkey]; [by apply node_lookup_is_Some|].
    by eapply (trail_in_graph (ns, es)). }
  rewrite Hf. cbn. eexists. split; [reflexivity|right]. cbn [edges nodes]. unfold steps_taken in *.
  split_and!; [| |intros r Hr|intros x].
  - split; [done|]. exists ms. split; [done|congruence].
  - done.
  - destruct (decide (Z.of_nat (length r) ≤ depth)%Z) as [Hd|]; [|lia].
    destruct (connects_goal _ _ _ _ _ Hr Hd) as (r' & Hg & ?). specialize (Hmin r' Hg). lia.
  - rewrite elem_of_map. assert (∀ n, n ∈ found → gn_id n ∈ source :: ms) as Hin.
    { intros n Hn. apply (elem_of_map_result _ _ _ _ Hf) in Hn as (key & Hkey & Hn).
      rewrite elem_of_sort_strings, elem_of_elements, Hvis, elem_of_list_to_set in Hkey.
      destruct (dict_get key _) eqn:E; [|done]. injection Hn as ->. apply node_lookup_Some in E as [_ ->]. done. }
    split.
    + intros (n & -> & Hn). exists ms. auto.
    + intros (ms' & Htr' & Hx). assert (ms' = ms) as -> by congruence.
      assert (x ∈ sort_strings (elements (visited it))) as Hk.
      { rewrite elem_of_sort_strings, elem_of_elements, Hvis, elem_of_list_to_set. done. }
      apply map_result_Ok in Hf. destruct (Forall2_in_l _ _ _ _ Hf Hk) as (n & Hn & E).
      destruct (dict_get x _) eqn:E'; [|done]. injection E as ->. apply node_lookup_Some in E' as [_ <-]. eauto.
Qed.

(** ** Replacing a source *)

Lemma filter_dict_set_other {K V} `{EqDecision K} (f : K * V → bool) k v (d : list (K * V)) :
  (∀ v', f (k, v') = false) → List.filter f (dict_set k v d) = List.filter f d.
Proof.
  intros Hf. induction d as [|[k' v'] d IH]; cbn; [by rewrite Hf|].
  case_decide; subst; cbn; [by rewrite !Hf|]. by rewrite IH.
Qed.

Lemma all_replace_other tenant tenant' source g s :
  tenant ≠ tenant' → _all tenant (dict_set (tenant', source) g s) = _all tenant s.
Proof.
  intros Hne. unfold _all, tenant_graphs. rewrite filter_dict_set_other; [done|].
  intros v. cbn. by rewrite bool_decide_eq_false.
Qed.

(** Replacing a source of one tenant's graph changes no search of another
    tenant. *)
Theorem memory_graph_isolated : ∀ (U : PyUnicode) tenant tenant' source g s query from to depth limit,
  tenant ≠ tenant' →
  let s' := (memory_replace tenant' source g s).1 in
  (memory_subgraph tenant query depth limit s').2 = (memory_subgraph tenant query depth limit s).2 ∧
  (memory_path tenant from to depth s').2 = (memory_path tenant from to depth s).2.
Proof.
  intros U tenant tenant' source g s query from to depth limit Hne s'.
  unfold memory_subgraph, memory_path, s', memory_replace; cbn [fst].
  rewrite all_replace_other by done. by destruct (_all tenant s).
Qed.

(** ** Concrete graphs *)

Definition demo_node (id name : string) : GraphNode := {|
  gn_id := id; gn_name := name; gn_kind := Metric; gn_source_id := "s"; gn_source_name := "doc";
  gn_evidence := name; gn_confidence := f_of_Z 1; gn_extracted_at := "now" |}.
Definition demo_edge (source target : string) : GraphEdge := {|
  ge_id := source +:+ target; ge_source := source; ge_target := target; ge_kind := RELATED_TO;
  ge_source_id := "s"; ge_source_name := "doc"; ge_evidence := "evidence";
  ge_confidence := f_of_Z 1; ge_extracted_at := "now" |}.
(** A square with one long side: b is two hops from a either way. *)
Definition demo_graph : Subgraph := {|
  nodes := [demo_node "a" "Revenue"; demo_node "b" "Orders"; demo_node "c" "Customers";
            demo_node "d" "Products"];
  edges := [demo_edge "a" "c"; demo_edge "c" "d"; demo_edge "d" "b"; demo_edge "b" "c"];
  truncated := false |}.
Definition demo_graphs : memory_graphs := (memory_replace "t1" "s" demo_graph []).1.

Example demo_subgraph : (memory_subgraph "t1" "revenue" 1 60 demo_graphs).2 =
  Ok {| nodes := [demo_node "a" "Revenue"; demo_node "c" "Customers"];
        edges := [demo_edge "a" "c"]; truncated := false |}.
Proof. vm_compute. done. Qed.

Lemma memory_subgraph_neighbourhood_witness :
  ∃ g, memory_subgraph "t1" "revenue" 1 60 demo_graphs = (demo_graphs, Ok g) ∧
       (Z.of_nat (length (nodes g)) ≤ 60)%Z.
Proof.
  destruct (memory_subgraph_neighbourhood demo_unicode "t1" "revenue" 1 60 demo_graphs ltac:(lia))
    as (g & Hg & _ & _ & Hl & _).
  exists g. split; [exact Hg|exact Hl].
Defined.

Lemma demo_closed : closed (_all "t1" demo_graphs).
Proof.
  intros e He. change (_all "t1" demo_graphs).2 with (edges demo_graph) in He.
  cbn in *. repeat (apply elem_of_cons in He as [->|He]; [cbn; split; set_solver|]).
  by apply elem_of_nil in He.
Qed.

Lemma memory_path_shortest_witness :
  ∃ g, memory_path "t1" "a" "b" 3 demo_graphs = (demo_graphs, Ok g) ∧
       map ge_id (edges g) = ["ac"; "bc"] ∧ (g = empty_subgraph ∨ length (edges g) ≤ 3).
Proof.
  destruct (memory_path_shortest "t1" "a" "b" 3 demo_graphs demo_closed
    ltac:(vm_compute; by left) ltac:(vm_compute; right; by left)) as (g & Hg & Hcase).
  exists g. split; [exact Hg|]. split; [|destruct Hcase as [[? _]|(_ & ? & _)]; [by left|by right]].
  revert Hg. vm_compute. by intros [= <-].
Defined.

Lemma memory_graph_isolated_witness :
  let s' := (memory_replace "t2" "s" demo_graph demo_graphs).1 in
  (memory_subgraph "t1" "revenue" 1 60 s').2 = (memory_subgraph "t1" "revenue" 1 60 demo_graphs).2 ∧
  (memory_path "t1" "a" "b" 1 s').2 = (memory_path "t1" "a" "b" 1 demo_graphs).2.
Proof.
  exact (memory_graph_isolated demo_unicode "t1" "t2" "s" demo_graph demo_graphs
    "revenue" "a" "b" 1 60 ltac:(done)).
Defined.

(** Dropped edges are not reported here: [truncated] looks at the nodes only,
    where the Neo4j store also counts the edges. *)
Example memory_drops_edges_silently :
  let g := {| nodes := [demo_node "a" "A"; demo_node "b" "B"];
              edges := repeat (demo_edge "a" "b") 201; truncated := false |} in
  match (memory_subgraph "t1" "" 1 60 (memory_replace "t1" "s" g []).1).2 with
  | Ok found => length (edges found) = 200 ∧ truncated found = false
  | Err _ => False
  end.
Proof. vm_compute. done. Qed.
