(* ===== verification/GraphImport.v ===== *)
(** * Catalog import: [app/knowledge_graph/metadata.py]

    A schema snapshot as an extraction: one entity per table and column,
    belonging relations and foreign keys, each with a quote from the JSON
    text of the snapshot. *)

From S2P Require Import Prelude PyStr Floats Errors Json Metadata JsonText GraphModels GraphStore.
From S2P Require Import GraphService.

Definition one : float := f_of_Z 1.

Definition entity (id : string) (k : EntityKind) (name quoted : string) : EntityDraft := {|
  ed_id := id; ed_name := name; ed_kind := k; ed_evidence := quoted; ed_confidence := one |}.
Definition relation (source target : string) (k : RelationKind) (quoted : string) : RelationDraft := {|
  rd_source := source; rd_target := target; rd_kind := k; rd_evidence := quoted;
  rd_confidence := one |}.

(** [f'"name": "{name}"']: the name as it is, between quotes. *)
Definition name_quote (name : string) : string :=
  String dquote ("name" +:+ String dquote (": " +:+ String dquote (name +:+ String dquote EmptyString))).

Definition numbered {A} (l : list A) : list (nat * A) := zip (seq 0 (length l)) l.

Definition table_key (i : nat) : string := "table_" +:+ str_of_nat i.
Definition column_key (table_id : string) (i : nat) : string :=
  table_id +:+ "_column_" +:+ str_of_nat i.

Definition table_ids (s : SchemaSnapshot) : list (string * string) :=
  dict_of (map (λ '(i, t), (table_name t, table_key i)) (numbered (tables s))).

Definition column_entities (table_id : string) (t : TableMetadata) : list EntityDraft :=
  map (λ '(i, c), entity (column_key table_id i) Column (table_name t +:+ "." +:+ col_name c)
                    (name_quote (col_name c))) (numbered (columns t)).
Definition column_relations (table_id : string) (t : TableMetadata) : list RelationDraft :=
  map (λ '(i, c), relation (column_key table_id i) table_id BELONGS_TO (name_quote (col_name c)))
    (numbered (columns t)).
Definition key_relations (ids : list (string * string)) (table_id : string) (t : TableMetadata) :
    list RelationDraft :=
  omap (M:=list) (λ k,
    target ← dict_get (referenced_table k) ids;
    Some (relation table_id target JOINS_WITH (dumps_text (dump_foreign_key k)))) (foreign_keys t).

(** The two lists that the loop over the tables appends to. *)
Definition table_entities (ids : list (string * string)) (t : TableMetadata) : list EntityDraft :=
  let id := default "" (dict_get (table_name t) ids) in
  entity id Table (table_name t) (table_name t) :: column_entities id t.
Definition table_relations (ids : list (string * string)) (t : TableMetadata) : list RelationDraft :=
  let id := default "" (dict_get (table_name t) ids) in
  relation id "source" BELONGS_TO (name_quote (table_name t))
    :: column_relations id t ++ key_relations ids id t.

Definition catalog_extraction (s : SchemaSnapshot) : Extraction := {|
  entities := entity "source" DataSource (source_id s) (source_id s)
                :: concat (map (table_entities (table_ids s)) (tables s));
  relations := concat (map (table_relations (table_ids s)) (tables s)) |}.

Definition metadata_extraction `{PyUnicode} `{Uuid} (s : SchemaSnapshot) (tenant : string) :
    result exn (ExtractRequest * Extraction) :=
  let text := dumps_text (dump_snapshot s) in
  if (20000 <? Z.of_nat (py_len text))%Z then Err ValueError
  else
    r ← ExtractRequest_validate {|
      xr_source_id := uuid5 tenant ("schema:" +:+ source_id s);
      xr_source_name := source_id s +:+ "-metadata.json"; xr_text := text |};
    x ← Extraction_validate (catalog_extraction s);
    Ok (r, x).

(** ** The quotes are in the text *)

Definition plain_names (s : SchemaSnapshot) : bool :=
  plain (source_id s)
  && forallb (λ t, plain (table_name t) && forallb (λ c, plain (col_name c)) (columns t)) (tables s).

Lemma inside_tables s t : t ∈ tables s → inside (dump_table t) (dump_snapshot s).
Proof.
  intros Ht. eapply inside_dict; [do 5 right; by left|].
  eapply inside_list; [|apply inside_here]. apply elem_of_map. by exists t.
Qed.

Lemma inside_columns t c : c ∈ columns t → inside (dump_column c) (dump_table t).
Proof.
  intros Hc. eapply inside_dict; [do 2 right; by left|].
  eapply inside_list; [|apply inside_here]. apply elem_of_map. by exists c.
Qed.

Lemma inside_keys t k : k ∈ foreign_keys t → inside (dump_foreign_key k) (dump_table t).
Proof.
  intros Hk. eapply inside_dict; [do 4 right; by left|].
  eapply inside_list; [|apply inside_here]. apply elem_of_map. by exists k.
Qed.

Lemma name_quote_part d name :
  plain name = true → ("name", PStr name) ∈ d → part (name_quote name) (dumps_text (PDict d)).
Proof.
  intros Hn Hin. pose proof (entry_part quote _ _ _ Hin) as Hp.
  cbn [dumps_with] in Hp. rewrite (quote_plain "name"), (quote_plain name) in Hp by done.
  unfold name_quote, dumps_text. etrans; [|exact Hp]. cbn. by rewrite !str_app_cons, !str_app_nil.
Qed.

Lemma name_part name : part name (name_quote name).
Proof. unfold name_quote. exists (String dquote ("name" +:+ String dquote (": " +:+ String dquote EmptyString))), (String dquote EmptyString). cbn. by rewrite !str_app_cons, !str_app_nil. Qed.

Lemma elem_of_numbered {A} (l : list A) i x : (i, x) ∈ numbered l → x ∈ l.
Proof. apply elem_of_zip_r. Qed.

(** Every quote of the catalog's extraction is in the catalog's text. *)
Lemma catalog_quotes s e :
  plain_names s = true →
  e ∈ map ed_evidence (entities (catalog_extraction s)) ++ map rd_evidence (relations (catalog_extraction s)) →
  part e (dumps_text (dump_snapshot s)).
Proof.
  unfold plain_names. rewrite andb_true_iff, list_forallb_spec. intros [Hs Ht].
  setoid_rewrite andb_true_iff in Ht. setoid_rewrite list_forallb_spec in Ht.
  assert (∀ t, t ∈ tables s → part (name_quote (table_name t)) (dumps_text (dump_snapshot s))) as Htable.
  { intros t Hin. etrans; [|by apply inside_part, inside_tables].
    destruct (Ht t Hin) as [Htn _].
    apply name_quote_part; [done|by left]. }
  assert (∀ t c, t ∈ tables s → c ∈ columns t →
            part (name_quote (col_name c)) (dumps_text (dump_snapshot s))) as Hcolumn.
  { intros t c Hin Hc. etrans; [|by apply inside_part, inside_tables].
    etrans; [|by apply inside_part, inside_columns]. destruct (Ht t Hin) as [_ Hcs].
    apply name_quote_part; [by apply Hcs|by left]. }
  rewrite elem_of_app, !elem_of_map. cbn [catalog_extraction entities relations].
  intros [(x & -> & Hx)|(x & -> & Hx)].
  - apply elem_of_cons in Hx as [->|Hx]; cbn [ed_evidence entity].
    + assert (part (quote (source_id s)) (dumps_text (dump_snapshot s))) as Hq.
      { apply (inside_part quote (PStr (source_id s))). eapply inside_dict; [right; by left|apply inside_here]. }
      rewrite quote_plain in Hq by done. etrans; [|exact Hq].
      exists (String dquote EmptyString), (String dquote EmptyString). by rewrite str_app_cons.
    + apply list_elem_of_In, in_concat in Hx as (l & Hl & Hx). apply list_elem_of_In in Hl, Hx.
      apply elem_of_map in Hl as (t & -> & Hin). apply elem_of_cons in Hx as [->|Hx].
      * etrans; [apply name_part|by apply Htable].
      * apply elem_of_map in Hx as ([i c] & -> & Hc%elem_of_numbered). by eapply Hcolumn.
  - apply list_elem_of_In, in_concat in Hx as (l & Hl & Hx). apply list_elem_of_In in Hl, Hx.
    apply elem_of_map in Hl as (t & -> & Hin).
    apply elem_of_cons in Hx as [->|[Hx|Hx]%elem_of_app]; [by apply Htable| |].
    + apply elem_of_map in Hx as ([i c] & -> & Hc%elem_of_numbered). by eapply Hcolumn.
    + apply list_elem_of_omap in Hx as (k & Hk & Hx). destruct (dict_get (referenced_table k) _) as [target|]; [|done].
      injection Hx as <-. change (part (dumps_text (dump_foreign_key k)) (dumps_text (dump_snapshot s))).
      etrans; [by apply (inside_part quote), inside_keys|by apply (inside_part quote), inside_tables].
Qed.

Lemma metadata_extraction_Ok `{PyUnicode} `{Uuid} s tenant r x :
  metadata_extraction s tenant = Ok (r, x) →
  x = catalog_extraction s ∧ Extraction_ok x = true ∧ xr_text r = dumps_text (dump_snapshot s).
Proof.
  unfold metadata_extraction. destruct (_ <? _)%Z; [done|].
  intros (r' & Hr & (x' & (-> & Hx)%Extraction_validate_Ok & [= <- <-])%result_bind_Ok)%result_bind_Ok.
  unfold ExtractRequest_validate in Hr. destruct (_ && _); [|done]. injection Hr as <-. done.
Qed.

(** The names of the catalog: the source, each table and its columns. *)
Definition catalog_names (s : SchemaSnapshot) : list string :=
  source_id s :: concat (map (λ tb, table_name tb
    :: map (λ c, table_name tb +:+ "." +:+ col_name c) (columns tb)) (tables s)).

Lemma catalog_graph_names `{PyUnicode} `{Uuid} tenant r now s g :
  faithful_graph tenant r now (catalog_extraction s) g → map gn_name (nodes g) = catalog_names s.
Proof.
  intros [Hn _]. rewrite Hn, map_map. unfold catalog_names. cbn. f_equal.
  rewrite concat_map, map_map. f_equal. apply map_ext. intros tb. cbn. f_equal.
  unfold column_entities. rewrite map_map.
  assert (∀ n, map (λ x : nat * ColumnMetadata, ed_name (let '(i, c) := x in
     entity (column_key (default "" (dict_get (table_name tb) (table_ids s))) i) Column
       (table_name tb +:+ "." +:+ col_name c) (name_quote (col_name c)))) (zip (seq n (length (columns tb))) (columns tb))
     = map (λ c, table_name tb +:+ "." +:+ col_name c) (columns tb)) as Hmap; [|apply (Hmap 0)].
  clear. induction (columns tb) as [|c l IH]; intros n; cbn; [done|]. f_equal. apply IH.
Qed.

Lemma catalog_quotes_exact s r :
  plain_names s = true → xr_text r = dumps_text (dump_snapshot s) →
  quotes_exact r (catalog_extraction s) = true.
Proof.
  intros Hs Htext. unfold quotes_exact. apply list_forallb_spec. intros e' He'. apply contains_part. rewrite Htext.
  by apply catalog_quotes.
Qed.

(** What the catalog import builds from a snapshot whose names need no
    JSON escape is never refused by [persist]: the graph is stored with one
    node for the source, each table and each column, unless the store itself
    raises. *)
Theorem catalog_import_persists : ∀ (U : PyUnicode) (I : Uuid) W (E : GraphEnv W) s tenant r x,
  plain_names s = true → metadata_extraction s tenant = Ok (r, x) →
  sat (persist tenant r x) (λ t reply,
    match reply with
    | Ok g => t = [CallReplace tenant (xr_source_id r) g] ∧ map gn_name (nodes g) = catalog_names s
    | Err e => ∃ g w1 w2, replace tenant (xr_source_id r) g w1 = (w2, Err e)
    end).
Proof.
  intros U I W E s tenant r x Hs Hx. apply metadata_extraction_Ok in Hx as (-> & Hok & Htext).
  eapply sat_conseq; [apply persist_run|]. intros t [g|e].
  - intros (_ & -> & now & Hg). split; [done|]. by eapply catalog_graph_names.
  - intros [(_ & Hf & _)|[(_ & Hq & _)|(g & w1 & w2 & Hr & _)]]; [congruence| |by exists g, w1, w2].
    by rewrite catalog_quotes_exact in Hq.
Qed.

(** ** Concrete imports *)

#[export] Instance demo_uuid5 : Uuid := {| uuid5 namespace name := namespace +:+ "/" +:+ name |}.
#[export] Instance demo_graph_env : GraphEnv memory_graphs := {|
  graph_store := memory_graph_store;
  graph_llm := λ _ _ _ w, (w, Err LLMUnavailableError);
  graph_retrieve := λ _ _ _ w, (w, Err RetrievalStoreError);
  utc_now := λ w, (w, "now") |}.

Definition catalog_column (name : string) (i : Z) : ColumnMetadata := {|
  col_name := name; ordinal_position := i; data_type := "integer"; nullable := false;
  col_comment := None |}.
Definition catalog_table (name : string) (cols : list ColumnMetadata) (keys : list ForeignKeyMetadata) :
    TableMetadata := {|
  table_name := name; table_comment := None; columns := cols; primary_key := None;
  foreign_keys := keys |}.
Definition demo_catalog (order_column : string) : SchemaSnapshot := {|
  format_version := "1.0"; source_id := "northwind"; schema_name := "public";
  schema_version := "v"; dataset_version := "1";
  tables := [catalog_table "customers" [catalog_column "id" 1] [];
             catalog_table "orders" [catalog_column "id" 1; catalog_column order_column 2]
               [{| fk_name := "fk"; fk_columns := ["customer_id"]; referenced_schema := "public";
                   referenced_table := "customers"; referenced_columns := ["id"] |}]] |}.

Definition demo_import : result exn (ExtractRequest * Extraction) :=
  metadata_extraction (demo_catalog "customer_id") "t1".
Definition demo_request : ExtractRequest := match demo_import with Ok (r, _) => r | Err _ =>
  {| xr_source_id := ""; xr_source_name := ""; xr_text := "" |} end.

Lemma catalog_import_persists_witness :
  let m := persist "t1" demo_request (catalog_extraction (demo_catalog "customer_id")) in
  ∃ g, outcome m [] = Ok g ∧ map gn_name (nodes g) =
      ["northwind"; "customers"; "customers.id"; "orders"; "orders.id"; "orders.customer_id"].
Proof.
  intros m. assert (metadata_extraction (demo_catalog "customer_id") "t1"
          = Ok (demo_request, catalog_extraction (demo_catalog "customer_id"))) as Hx
    by (vm_compute; reflexivity).
  assert (sat m (λ t reply, ∀ g, reply = Ok g → map gn_name (nodes g) =
      ["northwind"; "customers"; "customers.id"; "orders"; "orders.id"; "orders.customer_id"])) as Hp.
  { eapply sat_conseq; [exact (catalog_import_persists demo_unicode demo_uuid5 memory_graphs
      demo_graph_env (demo_catalog "customer_id") "t1" demo_request _ eq_refl Hx)|].
    intros t reply Hr g ->. exact (proj2 Hr). }
  assert (∃ g, outcome m [] = Ok g) as [g Hg] by (eexists; vm_compute; reflexivity).
  exists g. split; [exact Hg|exact (Hp [] g Hg)].
Defined.

(** A name that JSON escapes is quoted differently in the text: the import
    of the whole catalog is refused. *)
Example quoted_name_refused :
  let s := demo_catalog ("amount " +:+ String dquote "USD") in
  match metadata_extraction s "t1" with
  | Ok (r, x) => outcome (persist "t1" r x) [] = Err ValueError
  | Err _ => False
  end.
Proof. vm_compute. reflexivity. Qed.

(** Two columns whose names differ in case only are one entity key: refused. *)
Example case_variants_refused :
  metadata_extraction (demo_catalog "ID") "t1" = Err ValidationError.
Proof. vm_compute. reflexivity. Qed.
