(* ===== verification/Neo4jStore.v ===== *)
(** * The production graph store: [Neo4jGraphStore] of
      [app/knowledge_graph/repository.py]

    The sessions, statements and parameters the store sends, and what it
    makes of the records.  The driver and pydantic's validation of the
    records are the class [Neo4j]; what the driver documents of a managed
    transaction, [session.execute_write], is the class [ManagedWrites]. *)

From S2P Require Import Prelude PyStr Floats Errors Json StructuredLLM GraphModels GraphStore.

Inductive neo4j_call :=
| CallOpen (database : string)
| CallRun (cypher : string) (parameters : list (string * pyval))
| CallBegin
| CallEnd (commit : bool)
| CallClose.

(** [execute_write] takes the transaction function and runs it, as often as
    the driver decides, between a beginning and a commit or rollback. *)
Class Neo4j (W : Type) := {
  open_session : string → op W exn unit;
  close_session : op W exn unit;
  execute_write : eff W neo4j_call exn unit → eff W neo4j_call exn unit;
  run : string → list (string * pyval) → op W exn (list (list (string * pyval)));
  node_validate : pyval → result exn GraphNode;
  edge_validate : pyval → result exn GraphEdge;
  subgraph_validate : list (string * pyval) → result exn Subgraph
}.

(** One attempt of the driver at a transaction function: a transaction that
    could not begin, or one run of the function in some world, committed only
    when the function returned. *)
Definition attempt {W} (function : eff W neo4j_call exn unit) (t : list neo4j_call) : Prop :=
  t = [CallBegin] ∨
  ∃ w ok, t = CallBegin :: trace function w ++ [CallEnd ok] ∧
          (ok = true → is_ok (outcome function w) = true).

(** The documented behaviour of a managed transaction: a number of attempts
    (transient failures are retried), each in a transaction of its own; it
    returns only when the last attempt was committed. *)
Class ManagedWrites (W : Type) `{Neo4j W} :=
  managed_write : ∀ function : eff W neo4j_call exn unit, sat (execute_write function) (λ t r,
    ∃ attempts, t = concat attempts ∧ Forall (attempt function) attempts ∧
      (is_ok r = true → ∃ w, is_ok (outcome function w) = true ∧
         last attempts = Some (CallBegin :: trace function w ++ [CallEnd true]))).

Section Store.
Context {W : Type} `{Neo4j W} (database : string) (casefold : string → string)
        (float_text : float → string).
Notation M := (eff W neo4j_call exn).

(** [model_dump(mode="json")]. *)
Definition dump_node (n : GraphNode) : pyval :=
  PDict [("id", PStr (gn_id n)); ("name", PStr (gn_name n));
         ("kind", PStr (entity_kind_name (gn_kind n))); ("source_id", PStr (gn_source_id n));
         ("source_name", PStr (gn_source_name n)); ("evidence", PStr (gn_evidence n));
         ("confidence", PFloat (float_text (gn_confidence n)));
         ("extracted_at", PStr (gn_extracted_at n))].
Definition dump_edge (e : GraphEdge) : pyval :=
  PDict [("id", PStr (ge_id e)); ("source", PStr (ge_source e)); ("target", PStr (ge_target e));
         ("kind", PStr (relation_kind_name (ge_kind e))); ("source_id", PStr (ge_source_id e));
         ("source_name", PStr (ge_source_name e)); ("evidence", PStr (ge_evidence e));
         ("confidence", PFloat (float_text (ge_confidence e)));
         ("extracted_at", PStr (ge_extracted_at e))].

(** [with driver.session(database=...) as session: body]. *)
Definition in_session {A} (body : M A) : M A :=
  _ ← invoke (CallOpen database) (open_session database);
  finally body (λ _, invoke CallClose close_session).

Definition run_query (cypher : string) (parameters : list (string * pyval)) :
    M (list (list (string * pyval))) :=
  invoke (CallRun cypher parameters) (run cypher parameters).

(** ** setup *)

Definition setup_statements : list string :=
  ["CREATE CONSTRAINT graph_source_identity IF NOT EXISTS " +:+
   "FOR (n:GraphSource) REQUIRE (n.tenant_id, n.id) IS UNIQUE";
   "CREATE CONSTRAINT entity_identity IF NOT EXISTS " +:+
   "FOR (n:Entity) REQUIRE (n.tenant_id, n.id) IS UNIQUE";
   "CREATE INDEX entity_source IF NOT EXISTS " +:+
   "FOR (n:Entity) ON (n.tenant_id, n.source_id)"].

Fixpoint run_all (l : list (string * list (string * pyval))) : M unit :=
  match l with
  | [] => mret tt
  | (cypher, parameters) :: l => _ ← run_query cypher parameters; run_all l
  end.

Definition setup : M unit := in_session (run_all (map (λ c, (c, [])) setup_statements)).

(** ** replace *)

Definition LOCK_SOURCE : string :=
  "MERGE (s:GraphSource {tenant_id:$tenant, id:$source}) SET s.updated_at=datetime()".
Definition DELETE_SOURCE : string :=
  "MATCH (n:Entity {tenant_id:$tenant, source_id:$source}) DETACH DELETE n".
Definition CREATE_NODES : string :=
  "UNWIND $nodes AS node CREATE (n:Entity) SET n = node, n.tenant_id = $tenant".
Definition CREATE_EDGES : string :=
  "UNWIND $edges AS edge " +:+
  "MATCH (a:Entity {tenant_id:$tenant, id:edge.source}), " +:+
  "(b:Entity {tenant_id:$tenant, id:edge.target}) " +:+
  "CREATE (a)-[r:RELATION]->(b) SET r = edge, r.tenant_id = $tenant".

Definition write_statements (tenant source : string) (g : Subgraph) :
    list (string * list (string * pyval)) :=
  [(LOCK_SOURCE, [("tenant", PStr tenant); ("source", PStr source)]);
   (DELETE_SOURCE, [("tenant", PStr tenant); ("source", PStr source)]);
   (CREATE_NODES, [("tenant", PStr tenant); ("nodes", PList (map dump_node (nodes g)))]);
   (CREATE_EDGES, [("tenant", PStr tenant); ("edges", PList (map dump_edge (edges g)))])].

Definition neo4j_replace (tenant source : string) (g : Subgraph) : M unit :=
  in_session (execute_write (run_all (write_statements tenant source g))).

(** ** subgraph *)

Definition subgraph_cypher (depth : Z) : string :=
  "MATCH (seed:Entity {tenant_id:$tenant}) " +:+
  "WHERE $q = '' OR toLower(seed.name) CONTAINS $q OR $q CONTAINS toLower(seed.name) " +:+
  "WITH seed ORDER BY seed.id LIMIT $seed_limit " +:+
  "MATCH p=(seed)-[:RELATION*0.." +:+ str_of_Z depth +:+ "]-(n:Entity) " +:+
  "WHERE all(x IN nodes(p) WHERE x.tenant_id=$tenant) " +:+
  "AND all(r IN relationships(p) WHERE r.tenant_id=$tenant) " +:+
  "RETURN DISTINCT properties(n) AS node ORDER BY node.id LIMIT $limit".
Definition EDGES_CYPHER : string :=
  "MATCH (a:Entity {tenant_id:$tenant})-[r:RELATION {tenant_id:$tenant}]->" +:+
  "(b:Entity {tenant_id:$tenant}) WHERE a.id IN $ids AND b.id IN $ids " +:+
  "RETURN properties(r) AS edge ORDER BY edge.id LIMIT 201".

(** [record[key]], validated. *)
Definition column {A} (validate : pyval → result exn A) (key : string)
    (record : list (string * pyval)) : result exn A :=
  match dict_get key record with Some v => validate v | None => Err KeyError end.

Definition within_bounds (lo x hi : Z) : bool := ((lo <=? x) && (x <=? hi))%Z.

Definition neo4j_subgraph (tenant query : string) (depth limit : Z) : M Subgraph :=
  if negb (within_bounds 0 depth 3) || negb (within_bounds 1 limit 100) then raise ValueError
  else
    '(ns, es) ← in_session (
      records ← run_query (subgraph_cypher depth)
        [("tenant", PStr tenant); ("q", PStr (casefold query)); ("limit", PInt (limit + 1));
         ("seed_limit", PInt (if String.eqb query EmptyString then limit + 1
                              else Z.min 10 (limit + 1)))];
      ns ← lift_result (map_result (column node_validate "node") records);
      records ← run_query EDGES_CYPHER
        [("tenant", PStr tenant); ("ids", str_list (map gn_id (slice_to limit ns)))];
      es ← lift_result (map_result (column edge_validate "edge") records);
      mret (ns, es));
    mret {| nodes := slice_to limit ns; edges := slice_to 200 es;
            truncated := (limit <? Z.of_nat (length ns))%Z || (200 <? Z.of_nat (length es))%Z |}.

(** ** path *)

Definition path_cypher (depth : Z) : string :=
  "MATCH (a:Entity {tenant_id:$tenant, id:$source}), " +:+
  "(b:Entity {tenant_id:$tenant, id:$target}) " +:+
  "MATCH p=shortestPath((a)-[:RELATION*.." +:+ str_of_Z depth +:+ "]-(b)) " +:+
  "WHERE all(n IN nodes(p) WHERE n.tenant_id=$tenant) " +:+
  "AND all(r IN relationships(p) WHERE r.tenant_id=$tenant) " +:+
  "RETURN [n IN nodes(p) | properties(n)] AS nodes, " +:+
  "[r IN relationships(p) | properties(r)] AS edges LIMIT 1".

(** [single()]: the record, or nothing ([LIMIT 1]). *)
Definition neo4j_path (tenant source target : string) (depth : Z) : M Subgraph :=
  if negb (within_bounds 1 depth 3) then raise ValueError
  else
    in_session (
      records ← run_query (path_cypher depth)
        [("tenant", PStr tenant); ("source", PStr source); ("target", PStr target)];
      match records with
      | [] => mret empty_subgraph
      | row :: _ => lift_result (subgraph_validate row)
      end).

Definition neo4j_graph_store : GraphStore W := {|
  replace := λ tenant source g, as_op (neo4j_replace tenant source g);
  subgraph := λ tenant query depth limit, as_op (neo4j_subgraph tenant query depth limit);
  path := λ tenant source target depth, as_op (neo4j_path tenant source target depth) |}.
End Store.

(** ** Statements and parameters *)

(** The Cypher texts the store can send: none depends on a user's text. *)
Definition known_texts : list string :=
  [LOCK_SOURCE; DELETE_SOURCE; CREATE_NODES; CREATE_EDGES; EDGES_CYPHER]
  ++ map subgraph_cypher [0; 1; 2; 3]%Z ++ map path_cypher [1; 2; 3]%Z.

Definition scoped_call (tenant : string) (c : neo4j_call) : Prop :=
  match c with
  | CallRun cypher parameters =>
      cypher ∈ known_texts ∧ dict_get "tenant" parameters = Some (PStr tenant)
  | _ => True
  end.

Section Scoped.
Context {W : Type} `{Neo4j W} (database : string) (casefold : string → string)
        (float_text : float → string).

Lemma calls_session {A} P (body : eff W neo4j_call exn A) :
  P (CallOpen database) → P CallClose → calls P body → calls P (in_session database body).
Proof. intros Ho Hc Hb. unfold in_session. by repeat (calls_step || exact Ho || exact Hc). Qed.

Lemma calls_run_all P (l : list (string * list (string * pyval))) :
  (∀ c ps, (c, ps) ∈ l → P (CallRun c ps)) → calls P (run_all l : eff W neo4j_call exn unit).
Proof.
  induction l as [|[c ps] l IH]; intros Hl; cbn [run_all]; [apply calls_ret|].
  apply calls_bind; [apply calls_invoke, Hl; by left|]. intros _. apply IH. intros. apply Hl. by right.
Qed.

Lemma calls_execute_write `{!ManagedWrites W} P (body : eff W neo4j_call exn unit) :
  P CallBegin → (∀ ok, P (CallEnd ok)) → calls P body → calls P (execute_write body).
Proof.
  intros Hb He Hbody. refine (sat_conseq _ _ _ (managed_write body) _).
  intros t r (attempts & -> & Ha & _). apply Forall_concat. eapply Forall_impl; [exact Ha|].
  intros l [->|(w & ok & -> & _)]; [by apply Forall_singleton|].
  apply Forall_cons_2; [done|]. apply Forall_app. split; [apply Hbody|by apply Forall_singleton].
Qed.
End Scoped.

(** Every statement that the Neo4j store runs for a tenant is one of a
    fixed list of texts, with the tenant as a parameter: names, queries and
    ids only ever travel as parameters. *)
Theorem neo4j_scoped : ∀ W (N : Neo4j W) (L : ManagedWrites W) database casefold float_text tenant source target query g depth limit,
  calls (scoped_call tenant) (neo4j_replace database float_text tenant source g) ∧
  calls (scoped_call tenant) (neo4j_subgraph database casefold tenant query depth limit) ∧
  calls (scoped_call tenant) (neo4j_path database tenant source target depth).
Proof.
  intros W N L database casefold float_text tenant source target query g depth limit. split_and!.
  - apply calls_session; [done|done|]. apply calls_execute_write; [done|done|].
    apply calls_run_all. intros c ps Hin. unfold write_statements in Hin.
    repeat (apply elem_of_cons in Hin as [[= -> ->]|Hin]; [by split; [set_solver|]|]).
    by apply elem_of_nil in Hin.
  - unfold neo4j_subgraph, within_bounds. destruct (_ || _) eqn:Hb; [apply calls_raise|].
    apply orb_false_iff in Hb as [Hd _]. apply negb_false_iff, andb_true_iff in Hd as [Hlo Hhi].
    apply Z.leb_le in Hlo, Hhi. assert (subgraph_cypher depth ∈ known_texts) as Htext.
    { apply elem_of_app; right; apply elem_of_app; left. apply elem_of_map. exists depth.
      split; [done|]. assert (depth = 0 ∨ depth = 1 ∨ depth = 2 ∨ depth = 3)%Z by lia. set_solver. }
    apply calls_bind; [|intros [ns es]; apply calls_ret]. apply calls_session; [done|done|].
    unfold run_query. repeat calls_step; split; done || set_solver.
  - unfold neo4j_path, within_bounds. destruct (negb _) eqn:Hb; [apply calls_raise|].
    apply negb_false_iff, andb_true_iff in Hb as [Hlo Hhi]. apply Z.leb_le in Hlo, Hhi.
    assert (path_cypher depth ∈ known_texts) as Htext.
    { do 2 (apply elem_of_app; right). apply elem_of_map. exists depth. split; [done|].
      assert (depth = 1 ∨ depth = 2 ∨ depth = 3)%Z by lia. set_solver. }
    apply calls_session; [done|done|]. unfold run_query. repeat calls_step; by split.
Qed.

(** ** Bounds of a search *)

(** The records of a query that the database answered. *)
Definition answered `{Neo4j W} {A} (cypher : string) (parameters : list (string * pyval))
    (validate : pyval → result exn A) (key : string) (rows : list A) : Prop :=
  ∃ w w' records, run cypher parameters w = (w', Ok records) ∧
    map_result (column validate key) records = Ok rows.

(** A search out of bounds is refused before a session is opened; a
    subgraph has at most [limit] nodes and 200 edges, taken in the
    database's order, and [truncated] says whether the database had more. *)
Theorem neo4j_subgraph_bounded : ∀ W (N : Neo4j W) database casefold tenant query depth limit,
  sat (neo4j_subgraph database casefold tenant query depth limit) (λ t reply,
    ((depth < 0 ∨ 3 < depth ∨ limit < 1 ∨ 100 < limit)%Z → t = [] ∧ reply = Err ValueError) ∧
    ∀ g, reply = Ok g →
      (Z.of_nat (length (nodes g)) ≤ limit)%Z ∧ length (edges g) ≤ 200 ∧
      ∃ ns es parameters, answered (subgraph_cypher depth) parameters node_validate "node" ns ∧
        answered EDGES_CYPHER [("tenant", PStr tenant); ("ids", str_list (map gn_id (nodes g)))]
          edge_validate "edge" es ∧
        nodes g `prefix_of` ns ∧ edges g `prefix_of` es ∧
        (truncated g = false → nodes g = ns ∧ edges g = es)).
Proof.
  intros W N database casefold tenant query depth limit. unfold neo4j_subgraph, within_bounds.
  destruct (_ || _) eqn:Hb.
  { apply sat_raise. split; [done|]. intros g [=]. }
  assert (0 ≤ depth ≤ 3 ∧ 1 ≤ limit ≤ 100)%Z as [Hd Hl] by lia.
  apply sat_bind, sat_bind, sat_invoke. intros [[]|e]; [|split; [lia|done]].
  apply sat_finally, sat_bind, sat_invoke_op. intros w w' [records|e] Hrun1;
    [|apply sat_invoke; intros [|]; (split; [lia|done])].
  apply sat_bind, sat_lift. destruct (map_result _ records) as [ns|e] eqn:Hns;
    [|apply sat_invoke; intros [|]; (split; [lia|done])].
  apply sat_bind, sat_invoke_op. intros w2 w2' [records2|e] Hrun2;
    [|apply sat_invoke; intros [|]; (split; [lia|done])].
  apply sat_bind, sat_lift. destruct (map_result _ records2) as [es|e] eqn:Hes;
    [|apply sat_invoke; intros [|]; (split; [lia|done])].
  apply sat_ret, sat_invoke. intros [[]|e]; [|split; [lia|done]].
  apply sat_ret. split; [lia|]. intros g [= <-]. cbn [nodes edges truncated].
  rewrite (slice_to_nonneg limit ns), (slice_to_nonneg 200 es) by lia.
  split_and!; [rewrite length_take; lia|rewrite length_take; lia|].
  rewrite slice_to_nonneg in Hrun2 by lia.
  exists ns, es. eexists. split_and!; [by exists w, w', records|by exists w2, w2', records2| | |].
  - exists (drop (Z.to_nat limit) ns). by rewrite take_drop.
  - exists (drop (Z.to_nat 200) es). by rewrite take_drop.
  - intros [? ?]%orb_false_iff. rewrite !take_ge by lia. done.
Qed.

(** ** Replacing a source is one transaction *)

Definition statement_call (s : string * list (string * pyval)) : neo4j_call := CallRun s.1 s.2.

(** One attempt at [l]: nothing but its beginning, or statements of [l] from
    the first on in their order and the end, which commits only after all of
    them. *)
Definition transaction (l : list (string * list (string * pyval))) (t : list neo4j_call) : Prop :=
  t = [CallBegin] ∨
  ∃ ran ok, ran `prefix_of` l ∧ t = CallBegin :: map statement_call ran ++ [CallEnd ok] ∧
            (ok = true → ran = l).
Definition committed (l : list (string * list (string * pyval))) : list neo4j_call :=
  CallBegin :: map statement_call l ++ [CallEnd true].

(** What the replacement of a source by a graph comes to: the record of the
    source is locked, its old entities are deleted, the new ones created,
    then the relations between them. *)
Definition replacement (float_text : float → string) (tenant source : string) (g : Subgraph) :
    list (string * list (string * pyval)) :=
  let fact id kind source_id source_name evidence confidence extracted_at more :=
    PDict ([("id", PStr id)] ++ more ++
           [("kind", PStr kind); ("source_id", PStr source_id); ("source_name", PStr source_name);
            ("evidence", PStr evidence); ("confidence", PFloat (float_text confidence));
            ("extracted_at", PStr extracted_at)]) in
  [("MERGE (s:GraphSource {tenant_id:$tenant, id:$source}) SET s.updated_at=datetime()",
    [("tenant", PStr tenant); ("source", PStr source)]);
   ("MATCH (n:Entity {tenant_id:$tenant, source_id:$source}) DETACH DELETE n",
    [("tenant", PStr tenant); ("source", PStr source)]);
   ("UNWIND $nodes AS node CREATE (n:Entity) SET n = node, n.tenant_id = $tenant",
    [("tenant", PStr tenant);
     ("nodes", PList (map (λ n, fact (gn_id n) (entity_kind_name (gn_kind n)) (gn_source_id n) (gn_source_name n)
        (gn_evidence n) (gn_confidence n) (gn_extracted_at n) [("name", PStr (gn_name n))]) (nodes g)))]);
   ("UNWIND $edges AS edge MATCH (a:Entity {tenant_id:$tenant, id:edge.source}), (b:Entity {tenant_id:$tenant, id:edge.target}) CREATE (a)-[r:RELATION]->(b) SET r = edge, r.tenant_id = $tenant",
    [("tenant", PStr tenant);
     ("edges", PList (map (λ e, fact (ge_id e) (relation_kind_name (ge_kind e)) (ge_source_id e) (ge_source_name e)
        (ge_evidence e) (ge_confidence e) (ge_extracted_at e)
        [("source", PStr (ge_source e)); ("target", PStr (ge_target e))]) (edges g)))])].

Section Transactions.
Context {W : Type} `{Neo4j W}.

Lemma run_all_prefix (l : list (string * list (string * pyval))) :
  sat (run_all l : eff W neo4j_call exn unit) (λ t r,
    ∃ ran, ran `prefix_of` l ∧ t = map statement_call ran ∧ (is_ok r = true → ran = l)).
Proof.
  induction l as [|[c ps] l IH]; cbn [run_all].
  { apply sat_ret. by exists []. }
  apply sat_bind, sat_invoke. intros [rows|e].
  - refine (sat_conseq _ _ _ IH _). intros t r (ran & Hp & -> & Hr).
    exists ((c, ps) :: ran). split_and!; [by apply prefix_cons|done|]. intros Hok. f_equal. auto.
  - exists [(c, ps)]. split_and!; [apply prefix_cons, prefix_nil|done|done].
Qed.

(** An attempt at statements is one of their transactions. *)
Lemma attempt_transaction l t : attempt (run_all l : eff W neo4j_call exn unit) t → transaction l t.
Proof.
  intros [->|(w & ok & -> & Hok)]; [by left|]. destruct (run_all_prefix l w) as (ran & Hp & Ht & Hr).
  rewrite Ht. right. exists ran, ok. split_and!; [done|done|auto].
Qed.

Lemma execute_write_spec `{!ManagedWrites W} l :
  sat (execute_write (run_all l) : eff W neo4j_call exn unit) (λ t r,
    ∃ attempts, t = concat attempts ∧ Forall (transaction l) attempts ∧
      (is_ok r = true → last attempts = Some (committed l))).
Proof.
  refine (sat_conseq _ _ _ (managed_write (run_all l)) _). intros t r (attempts & -> & Ha & Hl).
  exists attempts. split; [done|]. split; [eapply Forall_impl; [exact Ha|apply attempt_transaction]|].
  intros Hok. destruct (Hl Hok) as (w & Hw & ->). destruct (run_all_prefix l w) as (ran & _ & Ht & Hr).
  by rewrite Ht, Hr.
Qed.

(** The session that sets the store up. *)
Definition setup_calls (database : string) : list neo4j_call :=
  CallOpen database :: map (λ c, CallRun c []) setup_statements ++ [CallClose].
Lemma setup_run database :
  sat (setup database : eff W neo4j_call exn unit) (λ t r, is_ok r = true → t = setup_calls database).
Proof.
  apply sat_bind, sat_invoke. intros [[]|e]; [|done]. apply sat_finally.
  refine (sat_conseq _ _ _ (run_all_prefix _) _). intros t r (ran & _ & -> & Hr).
  apply sat_invoke. intros r' Hok. destruct r' as [[]|]; [|done]. by rewrite Hr.
Qed.
End Transactions.

(** C37: replacing a source opens one session and closes it again whatever
    fails.  Within it the driver makes any number of attempts, each in a
    transaction of its own that runs, in this order and from the first on, the
    statements that lock the source's record, delete the entities of the
    tenant's source, create those of the new graph and then its relations, with
    all their fields as parameters; it commits only after all four, and a
    successful call ends with a committed attempt. *)
Theorem neo4j_replace_transactional :
  ∀ W (N : Neo4j W) (L : ManagedWrites W) database float_text tenant source g,
  sat (neo4j_replace database float_text tenant source g) (λ t r,
    let l := replacement float_text tenant source g in
    (t = [CallOpen database] ∧ is_ok r = false) ∨
    ∃ attempts, t = CallOpen database :: concat attempts ++ [CallClose] ∧
      Forall (transaction l) attempts ∧ (is_ok r = true → last attempts = Some (committed l))).
Proof.
  intros W N L database float_text tenant source g. apply sat_bind, sat_invoke.
  intros [[]|e]; [|by left]. apply sat_finally.
  refine (sat_conseq _ _ _ (execute_write_spec (replacement float_text tenant source g)) _). intros t r (attempts & -> & Ha & Hl).
  apply sat_invoke. intros r'. right. exists attempts. split_and!; [done|done|].
  intros Hok. destruct r'; [auto|done].
Qed.

(** A driver that tries a transaction once more after a failure; its world
    counts the statements, of which the first of all fails. *)
Definition demo_once (function : eff nat neo4j_call exn unit) : eff nat neo4j_call exn unit :=
  _ ← log_call CallBegin; finally function (λ ok, log_call (CallEnd ok)).
Definition retrying_driver : Neo4j nat := {|
  open_session _ w := (w, Ok tt); close_session w := (w, Ok tt);
  execute_write function := try_except (demo_once function) (λ _, demo_once function);
  run _ _ w := (S w, match w with O => Err Neo4jServiceUnavailable | _ => Ok [] end);
  node_validate _ := Err ValidationError; edge_validate _ := Err ValidationError;
  subgraph_validate _ := Err ValidationError |}.

Lemma demo_once_run function : sat (demo_once function) (λ t r, ∃ w, t = CallBegin :: trace function w ++ [CallEnd (is_ok r)] ∧
  outcome function w = r).
Proof.
  intros w. unfold demo_once, finally, trace, outcome, mbind, eff_bind, log_call.
  exists w. destruct (function w) as [[w' t] [u|e]] ; by cbn.
Qed.

Lemma demo_attempt (function : eff nat neo4j_call exn unit) w r : outcome function w = r →
  attempt function (CallBegin :: trace function w ++ [CallEnd (is_ok r)]).
Proof. intros <-. right. by eexists w, _. Qed.

Lemma retrying_managed : ManagedWrites nat (H := retrying_driver).
Proof.
  intros function. apply sat_try. refine (sat_conseq _ _ _ (demo_once_run function) _).
  intros t r (w & -> & Hr). destruct r as [[]|e].
  - exists [CallBegin :: trace function w ++ [CallEnd true]]. cbn [concat]. rewrite app_nil_r.
    split; [done|]. split; [apply Forall_singleton, (demo_attempt function w (Ok tt) Hr)|].
    intros _. exists w. by rewrite Hr.
  - refine (sat_conseq _ _ _ (demo_once_run function) _). intros t' r' (w' & -> & Hr').
    exists [CallBegin :: trace function w ++ [CallEnd false]; CallBegin :: trace function w' ++ [CallEnd (is_ok r')]].
    cbn [concat]. rewrite app_nil_r. split; [done|]. split.
    + apply Forall_cons_2; [apply (demo_attempt function w (Err e) Hr)|].
      by apply Forall_singleton, demo_attempt.
    + intros Hok. exists w'. rewrite Hr', Hok. done.
Qed.

(** The first attempt fails at its first statement, the second is committed. *)
Example retried_replacement :
  let m := neo4j_replace (H := retrying_driver) "neo4j" (λ _, "1.0") "t1" "s1" empty_subgraph in
  outcome m 0 = Ok tt ∧ length (trace m 0) = 11 ∧ trace m 0 !! 3 = Some (CallEnd false) ∧
  trace m 0 !! 9 = Some (CallEnd true).
Proof. vm_compute. done. Qed.

Lemma neo4j_replace_transactional_witness :
  sat (neo4j_replace (H := retrying_driver) "neo4j" (λ _, "1.0") "t1" "s1" empty_subgraph) (λ t r,
    let l := replacement (λ _, "1.0") "t1" "s1" empty_subgraph in
    (t = [CallOpen "neo4j"] ∧ is_ok r = false) ∨
    ∃ attempts, t = CallOpen "neo4j" :: concat attempts ++ [CallClose] ∧
      Forall (transaction l) attempts ∧ (is_ok r = true → last attempts = Some (committed l))).
Proof. apply (neo4j_replace_transactional nat retrying_driver retrying_managed). Defined.
