(* ===== verification/PyText.v ===== *)
(** * [str(value)] and [repr(value)] of row values

    The values a row holds are those [json.loads] returns.  Whether a
    non-ASCII code point is printable, and which non-ASCII code points are
    decimal digits, are facts of the Unicode database: class [PyText]. *)

From S2P Require Import Prelude PyStr Json.
From Stdlib Require Import Ascii String.

Class PyText := {
  isprintable : N → bool;
  unicode_digit : N → option N;
  unicode_digit_lt : ∀ c d, unicode_digit c = Some d → (d < 10)%N
}.

(** An instance that knows the CJK block and the full-width digits. *)
#[export] Program Instance demo_text : PyText := {|
  isprintable c := is_cjk c;
  unicode_digit c := if ((65296 <=? c) && (c <=? 65305))%N then Some (c - 65296)%N else None
|}.
Next Obligation.
  intros c d. cbn. destruct (N.leb_spec 65296 c), (N.leb_spec c 65305); cbn; [|done..].
  intros [= <-]. lia.
Qed.

Definition squote : N := 39.

Fixpoint hex_cps (width : nat) (n : N) : list N :=
  match width with
  | O => []
  | S w => hex_cps w (n / 16) ++ [N_of_ascii (hex_digit (n mod 16))]
  end.
Definition backslash_cp : N := 92.

Section Text.
Context `{PyText}.

(** One code point of [repr] of a text between [quote]s. *)
Definition repr_cp (quote c : N) : list N :=
  if (c =? quote)%N || (c =? backslash_cp)%N then [backslash_cp; c]
  else if (c =? 9)%N then [backslash_cp; 116%N]
  else if (c =? 10)%N then [backslash_cp; 110%N]
  else if (c =? 13)%N then [backslash_cp; 114%N]
  else if (c <? 32)%N || (c =? 127)%N then backslash_cp :: 120%N :: hex_cps 2 c
  else if (c <? 127)%N || isprintable c then [c]
  else if (c <? 256)%N then backslash_cp :: 120%N :: hex_cps 2 c
  else if (c <? 65536)%N then backslash_cp :: 117%N :: hex_cps 4 c
  else backslash_cp :: 85%N :: hex_cps 8 c.

Definition has_cp (c : N) (l : list N) : bool := existsb (N.eqb c) l.
Definition repr_str (s : string) : string :=
  let l := cps s in
  let q := if has_cp squote l && negb (has_cp 34 l) then 34%N else squote in
  encode (q :: List.concat (map (repr_cp q) l) ++ [q]).

(** A float prints as its JSON numeral, but for the three names. *)
Definition str_of_float (numeral : string) : string :=
  if String.eqb numeral "NaN" then "nan"
  else if String.eqb numeral "Infinity" then "inf"
  else if String.eqb numeral "-Infinity" then "-inf"
  else numeral.

Fixpoint py_repr (v : pyval) : string :=
  match v with
  | PNone => "None"
  | PBool b => if b then "True" else "False"
  | PInt z => str_of_Z z
  | PFloat numeral => str_of_float numeral
  | PStr s => repr_str s
  | PList l => "[" +:+ join ", " (map py_repr l) +:+ "]"
  | PDict d => "{" +:+ join ", " (map (λ kv, repr_str kv.1 +:+ ": " +:+ py_repr kv.2) d) +:+ "}"
  | POther text => text
  end.

Definition py_str (v : pyval) : string :=
  match v with PStr s => s | v => py_repr v end.
End Text.

Example repr_quotes :
  py_repr (PList [PStr "it's"; PStr (encode [39; 34; 10; 27; 19968; 233]%N); PDict [("k", PNone)]])
    = "[" +:+ encode (34 :: cps "it's" ++ [34])%N +:+ ", '" +:+
      encode ([92; 39; 34; 92; 110; 92]%N ++ cps "x1b" ++ [19968; 92]%N ++ cps "xe9") +:+ "', {'k': None}]".
Proof. vm_compute. reflexivity. Qed.
