(* ===== verification/Decimal.v ===== *)
(** * Python's [decimal] as [app/agent/answering.py] and [charting.py] use it

    Finite decimals with the default context: 28 digits, half-even rounding,
    exponents up to 999999, where an overflow raises and an underflow rounds.
    The constructor reads exactly or refuses. *)

From S2P Require Import Prelude PyStr Json Numbers Utf8 PyText.
From Stdlib Require DecimalString DecimalPos.

(** [(-1)^neg * coef * 10^exp] with [0 <= coef]. *)
Record dec := { d_neg : bool; d_coef : Z; d_exp : Z }.

Definition precision : Z := 28.
Definition e_max : Z := 999999.
Definition e_min : Z := -999999.
Definition e_tiny : Z := e_min - precision + 1.
Definition e_top : Z := e_max - precision + 1.

(** The number of digits of a coefficient; zero has one. *)
Fixpoint count_digits (fuel : nat) (c : Z) : Z :=
  match fuel with
  | O => 1
  | S fuel => if (c <? 10)%Z then 1 else (1 + count_digits fuel (c / 10))%Z
  end.
Definition ndigits (c : Z) : Z := count_digits (Z.to_nat (Z.log2 c)) c.

(** ** The constructor *)

(** The limits of the exact conversion. *)
Definition max_emax : Z := 999999999999999999.
Definition min_etiny : Z := -1999999999999999997.
Definition dec_representable (d : dec) : bool :=
  ((min_etiny <=? d_exp d)
   && (if d_coef d =? 0 then d_exp d <=? max_emax
       else d_exp d + ndigits (d_coef d) - 1 <=? max_emax))%Z.

(** [value.strip().replace("_", "")] with every decimal digit as ASCII. *)
Definition numeral_cps `{PyText} (s : string) : list N :=
  List.filter (λ c, negb (c =? 95)%N)
    (map (λ c, match unicode_digit c with
               | Some d => if (c <? 128)%N then c else (48 + d)%N
               | None => c
               end) (strip_cps (cps s))).

Definition finite (neg : bool) (coef exp : Z) : option dec :=
  let d := {| d_neg := neg; d_coef := coef; d_exp := exp |} in
  if dec_representable d then Some d else None.

(** What [Decimal(text)] is: [inl d] finite, [inr tt] an infinity or a NaN;
    [None] is InvalidOperation. *)
Definition dec_of_cps (l : list N) : option (dec + unit) :=
  let '(neg, l) := sign l in
  if bool_decide (lower_cps l ∈ [cps "inf"; cps "infinity"]) then Some (inr tt)
  else if bool_decide (take 3 (lower_cps l) = cps "nan") && forallb is_digit (drop 3 l) then Some (inr tt)
  else if bool_decide (take 4 (lower_cps l) = cps "snan") && forallb is_digit (drop 4 l) then Some (inr tt)
  else
    let '(a, n, r) := digits l 0 0 in
    let '(b, k, r) := match r with
      | c :: r' => if (c =? 46)%N then let '(b, k, r'') := digits r' a 0 in (b, k, r'') else (a, 0%Z, r)
      | [] => (a, 0%Z, [])
      end in
    if (0 <? n + k)%Z then
      e ← exponent r;
      d ← finite neg b (e - k);
      Some (inl d)
    else None.

Definition Decimal `{PyText} (s : string) : option (dec + unit) := dec_of_cps (numeral_cps s).

(** ** Rounding to the context: [_fix] *)

(** [coef / 10^drop], half-even. *)
Definition round_half_even (coef drop : Z) : Z :=
  let unit := (10 ^ drop)%Z in
  let q := (coef / unit)%Z in
  let r := (coef mod unit)%Z in
  if (2 * r <? unit)%Z then q
  else if (unit <? 2 * r)%Z then (q + 1)%Z
  else if Z.even q then q else (q + 1)%Z.

(** [None] is the signal Overflow. *)
Definition fix_dec (d : dec) : option dec :=
  if (d_coef d =? 0)%Z
  then Some {| d_neg := d_neg d; d_coef := 0; d_exp := Z.min (Z.max (d_exp d) e_tiny) e_max |}
  else
    let exp_min := (ndigits (d_coef d) + d_exp d - precision)%Z in
    if (e_top <? exp_min)%Z then None
    else
      let exp_min := Z.max exp_min e_tiny in
      if (d_exp d <? exp_min)%Z then
        let c := round_half_even (d_coef d) (exp_min - d_exp d) in
        let '(c, exp_min) := if (precision <? ndigits c)%Z then (c / 10, exp_min + 1)%Z else (c, exp_min) in
        if (e_top <? exp_min)%Z then None
        else Some {| d_neg := d_neg d; d_coef := c; d_exp := exp_min |}
      else Some d.

(** ** Arithmetic *)

Definition signed (d : dec) : Z := if d_neg d then (- d_coef d)%Z else d_coef d.
(** The value in units of [10^e], for [e <= d_exp d]. *)
Definition scaled (d : dec) (e : Z) : Z := (signed d * 10 ^ (d_exp d - e))%Z.
Definition common (a b : dec) : Z := Z.min (d_exp a) (d_exp b).
Definition dec_of (z e : Z) : dec := {| d_neg := (z <? 0)%Z; d_coef := Z.abs z; d_exp := e |}.

Definition dec_leb (a b : dec) : bool :=
  (scaled a (common a b) <=? scaled b (common a b))%Z.
Definition dec_ltb (a b : dec) : bool := negb (dec_leb b a).
Definition is_zero (d : dec) : bool := (d_coef d =? 0)%Z.

Definition dec_sub (a b : dec) : option dec :=
  fix_dec (dec_of (scaled a (common a b) - scaled b (common a b)) (common a b)).

(** [while exp < ideal_exp and coeff % 10 == 0]: a coefficient has fewer
    trailing zeros than digits. *)
Fixpoint toward_ideal (fuel : nat) (coef exp ideal : Z) : Z * Z :=
  match fuel with
  | O => (coef, exp)
  | S fuel =>
      if ((exp <? ideal) && (coef mod 10 =? 0))%Z then toward_ideal fuel (coef / 10)%Z (exp + 1)%Z ideal
      else (coef, exp)
  end.

(** Division by a non-zero divisor. *)
Definition dec_div (a b : dec) : option dec :=
  let neg := xorb (d_neg a) (d_neg b) in
  if is_zero a then fix_dec {| d_neg := neg; d_coef := 0; d_exp := d_exp a - d_exp b |}
  else
    let shift := (ndigits (d_coef b) - ndigits (d_coef a) + precision + 1)%Z in
    let ideal := (d_exp a - d_exp b)%Z in
    let exp := (ideal - shift)%Z in
    let num := if (0 <=? shift)%Z then (d_coef a * 10 ^ shift)%Z else d_coef a in
    let den := if (0 <=? shift)%Z then d_coef b else (d_coef b * 10 ^ (- shift))%Z in
    let q := (num / den)%Z in
    let '(c, exp) :=
      if (num mod den =? 0)%Z then toward_ideal (Z.to_nat (ndigits q)) q exp ideal
      else ((if (q mod 5 =? 0)%Z then q + 1 else q)%Z, exp) in
    fix_dec {| d_neg := neg; d_coef := c; d_exp := exp |}.

Definition dec_mul_int (a : dec) (n : Z) : option dec :=
  fix_dec {| d_neg := xorb (d_neg a) (n <? 0)%Z; d_coef := d_coef a * Z.abs n; d_exp := d_exp a |}.

Definition dec_abs (a : dec) : option dec :=
  fix_dec {| d_neg := false; d_coef := d_coef a; d_exp := d_exp a |}.

(** [normalize()]: no trailing zeros. *)
Definition normalize (a : dec) : option dec :=
  d ← fix_dec a;
  if is_zero d then Some {| d_neg := d_neg d; d_coef := 0; d_exp := 0 |}
  else
    let '(c, e) := toward_ideal (Z.to_nat (ndigits (d_coef d))) (d_coef d) (d_exp d) e_max in
    Some {| d_neg := d_neg d; d_coef := c; d_exp := e |}.

(** ** Fixed-point text *)

Definition sign_text (d : dec) : string := if d_neg d then "-" else "".

(** The last [width] digits of [n], zero-filled. *)
Fixpoint padded (width : nat) (n : Z) : list N :=
  match width with
  | O => []
  | S w => padded w (n / 10)%Z ++ [Z.to_N (48 + n mod 10)]
  end.

(** [format(d, "f")]. *)
Definition format_f (d : dec) : string :=
  if (0 <=? d_exp d)%Z
  then sign_text d +:+ str_of_Z (if is_zero d then 0 else d_coef d * 10 ^ d_exp d)%Z
  else
    let unit := (10 ^ (- d_exp d))%Z in
    sign_text d +:+ str_of_Z (d_coef d / unit) +:+ "." +:+
      encode (padded (Z.to_nat (- d_exp d)) (d_coef d mod unit)).

(** [format(d, ".2f")]: rescaled to two places, half-even. *)
Definition rescale (d : dec) (e : Z) : dec := {|
  d_neg := d_neg d;
  d_coef := if (d_exp d <? e)%Z then round_half_even (d_coef d) (e - d_exp d)
            else (d_coef d * 10 ^ (d_exp d - e))%Z;
  d_exp := e |}.
Definition format_2f (d : dec) : string := format_f (rescale d (-2)).

Definition demo_dec (s : string) : dec :=
  match dec_of_cps (cps s) with Some (inl d) => d | _ => dec_of 0 0 end.

Example decimal_texts :
  Decimal " +1_0.50 " = Some (inl {| d_neg := false; d_coef := 1050; d_exp := -2 |}) ∧
  Decimal "1e3" = Some (inl {| d_neg := false; d_coef := 1; d_exp := 3 |}) ∧
  Decimal "-Infinity" = Some (inr tt) ∧ Decimal "nan12" = Some (inr tt) ∧
  Decimal "." = None ∧ Decimal "2024-01" = None ∧ Decimal "1e1000000000000000000" = None ∧
  Decimal (encode [65297; 65298]%N) = Some (inl {| d_neg := false; d_coef := 12; d_exp := 0 |}).
Proof. split_and!; vm_compute; reflexivity. Qed.

Example decimal_arithmetic :
  (format_f <$> dec_sub (demo_dec "12.50") (demo_dec "1e1")) = Some "2.50" ∧
  (format_f <$> (normalize (demo_dec "1200.00"))) = Some "1200" ∧
  (format_2f <$> (q ← dec_div (demo_dec "1") (demo_dec "3"); dec_mul_int q 100)) = Some "33.33" ∧
  format_2f (demo_dec "2.345") = "2.34" ∧ format_2f (demo_dec "0.001") = "0.00" ∧
  (format_f <$> dec_sub (demo_dec "9999999999999999999999999999.5") (demo_dec "0"))
    = Some "10000000000000000000000000000" ∧
  dec_sub (demo_dec "9e999999") (demo_dec "-9e999999") = None.
Proof. split_and!; vm_compute; reflexivity. Qed.

(** ** The text of a decimal reads back *)

(** The value of a run of digits after those read into [acc]. *)
Definition digit_value (w : list N) (acc : Z) : Z :=
  fold_left (λ a c, (10 * a + (Z.of_N c - 48))%Z) w acc.

Lemma digit_value_app w w' acc : digit_value (w ++ w') acc = digit_value w' (digit_value w acc).
Proof. apply fold_left_app. Qed.

Lemma digits_run w r acc n :
  forallb is_digit w = true →
  digits (w ++ r) acc n = digits r (digit_value w acc) (n + Z.of_nat (length w)).
Proof.
  revert acc n. induction w as [|c w IH]; intros acc n; cbn [forallb app digits length].
  - intros _. by rewrite Z.add_0_r.
  - intros [-> Hw]%andb_true_iff. rewrite IH by done. cbn [digit_value fold_left]. f_equal. lia.
Qed.

(** Where a run of digits ends. *)
Definition ends_digits (r : list N) : Prop :=
  match r with [] => True | c :: _ => is_digit c = false ∧ (c =? 95)%N = false end.

Lemma digits_end r acc n : ends_digits r → digits r acc n = (acc, n, r).
Proof.
  destruct r as [|c r]; [done|]. cbn. intros [-> Hu]. by destruct r; [|rewrite Hu].
Qed.

Lemma cps_cons_ascii a s : (Ascii.N_of_ascii a < 128)%N → cps (String a s) = Ascii.N_of_ascii a :: cps s.
Proof. intros Ha. cbn [cps]. by rewrite (proj2 (N.ltb_lt _ 192)) by lia. Qed.

Lemma uint_cps d : ∃ w, cps (DecimalString.NilEmpty.string_of_uint d) = w ∧ forallb is_digit w = true ∧
  (∀ p, digit_value w (Zpos p) = Zpos (Pos.of_uint_acc d p)) ∧
  digit_value w 0 = Z.of_N (Pos.of_uint d).
Proof.
  induction d as [|d IH|d IH|d IH|d IH|d IH|d IH|d IH|d IH|d IH|d IH];
    [exists []; done|destruct IH as (w & Hw & Hd & Hp & H0)..].
  all: cbn [DecimalString.NilEmpty.string_of_uint]; rewrite cps_cons_ascii by (vm_compute; done); rewrite Hw.
  all: match goal with |- context [Ascii.N_of_ascii ?a] =>
         let v := eval vm_compute in (Ascii.N_of_ascii a) in change (Ascii.N_of_ascii a) with v end.
  all: eexists; split; [reflexivity|]; split; [by cbn; rewrite Hd|]; split.
  all: try (intros p); cbn [digit_value fold_left Pos.of_uint_acc Pos.of_uint].
  all: first [exact H0 | rewrite <-Hp | cbn [Z.of_N]; rewrite <-Hp]; unfold digit_value; f_equal; lia.
Qed.

Lemma str_of_Z_cps z : (0 ≤ z)%Z → ∃ w, cps (str_of_Z z) = w ∧ forallb is_digit w = true ∧ w ≠ [] ∧
  digit_value w 0 = z.
Proof.
  intros Hz. unfold str_of_Z. destruct z as [|p|p]; [by exists [48%N]| |lia].
  cbn [Z.to_int DecimalString.NilZero.string_of_int].
  destruct (uint_cps (Pos.to_uint p)) as (w & Hw & Hd & _ & H0). exists w.
  assert (Z.of_N (Pos.of_uint (Pos.to_uint p)) = Zpos p) as Hp by by rewrite DecimalPos.Unsigned.of_to.
  rewrite Hp in H0. assert (w ≠ []) by (intros ->; cbn in H0; lia).
  split_and!; try done. rewrite <-Hw. destruct (Pos.to_uint p); done.
Qed.

Lemma padded_value width n acc :
  (0 ≤ n)%Z → forallb is_digit (padded width n) = true ∧ length (padded width n) = width ∧
  digit_value (padded width n) acc = (acc * 10 ^ Z.of_nat width + n mod 10 ^ Z.of_nat width)%Z.
Proof.
  revert n. induction width as [|w IH]; intros n Hn.
  { cbn. split_and!; [done|done|]. rewrite Z.mod_1_r. lia. }
  pose proof (Z.mod_pos_bound n 10 ltac:(lia)). pose proof (Z.div_pos n 10 Hn ltac:(lia)) as Hdiv.
  destruct (IH (n / 10)%Z Hdiv) as (Hd & Hl & Hv). cbn [padded].
  rewrite forallb_app, Hd, length_app, Hl, digit_value_app, Hv. split_and!.
  - unfold is_digit. cbn. rewrite !(proj2 (N.leb_le _ _)); [done|lia|lia].
  - cbn. lia.
  - cbn [digit_value fold_left]. rewrite Z2N.id by lia.
    rewrite Nat2Z.inj_succ, Z.pow_succ_r by lia. rewrite Z.rem_mul_r by lia. lia.
Qed.

(** ** [format(d, "f")] reads back *)

(** The decimal that the text denotes: no positive exponent. *)
Definition fixed_point (d : dec) : dec :=
  if (0 <=? d_exp d)%Z then {| d_neg := d_neg d; d_coef := d_coef d * 10 ^ d_exp d; d_exp := 0 |} else d.

Lemma sign_cps (neg : bool) c w :
  is_digit c = true → sign ((if neg then [45%N] else []) ++ c :: w) = (neg, c :: w).
Proof.
  intros Hc. destruct neg; [done|]. cbn. unfold is_digit in Hc.
  apply andb_true_iff in Hc as [H1%N.leb_le H2%N.leb_le].
  destruct (N.eqb_spec c 45), (N.eqb_spec c 43); subst; done.
Qed.

Definition sign_cps_of (neg : bool) : list N := if neg then [45%N] else [].

Lemma cps_sign_text d s : cps (sign_text d +:+ s) = sign_cps_of (d_neg d) ++ cps s.
Proof. unfold sign_text. destruct (d_neg d); [|done]. by rewrite cps_app by (by apply utf8_ascii). Qed.

Lemma digits_valid w : forallb is_digit w = true → Forall valid_cp w.
Proof.
  rewrite list_forallb_spec, Forall_forall. intros Hw c Hc. specialize (Hw c Hc). unfold is_digit in Hw.
  apply andb_true_iff in Hw as [_ H2%N.leb_le]. unfold valid_cp. lia.
Qed.

(** The fixed-point text: a sign, the whole part, and the digits after the point. *)
Lemma format_f_cps d :
  (0 ≤ d_coef d)%Z →
  ∃ w, forallb is_digit w = true ∧ w ≠ [] ∧
    if (0 <=? d_exp d)%Z
    then cps (format_f d) = sign_cps_of (d_neg d) ++ w ∧ digit_value w 0 = (d_coef d * 10 ^ d_exp d)%Z
    else ∃ f, forallb is_digit f = true ∧ Z.of_nat (length f) = (- d_exp d)%Z ∧
         cps (format_f d) = sign_cps_of (d_neg d) ++ w ++ 46%N :: f ∧
         digit_value f (digit_value w 0) = d_coef d.
Proof.
  intros Hc. unfold format_f. destruct (Z.leb_spec 0 (d_exp d)) as [He|He].
  - set (v := (d_coef d * 10 ^ d_exp d)%Z). assert (0 ≤ v)%Z as Hv by (unfold v; nia).
    assert ((if is_zero d then 0 else v) = v)%Z as ->.
    { unfold is_zero, v. by destruct (Z.eqb_spec (d_coef d) 0) as [->|]. }
    destruct (str_of_Z_cps v Hv) as (w & Hw & Hd & Hn & Hval). exists w. rewrite cps_sign_text, Hw. done.
  - assert (0 < 10 ^ (- d_exp d))%Z as Hu by (apply Z.pow_pos_nonneg; lia).
    set (unit := (10 ^ (- d_exp d))%Z) in *.
    destruct (str_of_Z_cps (d_coef d / unit) ltac:(by apply Z.div_pos)) as (w & Hw & Hd & Hn & Hval).
    pose proof (Z.mod_pos_bound (d_coef d) unit Hu) as Hm.
    destruct (padded_value (Z.to_nat (- d_exp d)) (d_coef d mod unit) (d_coef d / unit) ltac:(lia))
      as (Hpd & Hpl & Hpv).
    exists w. split; [done|]. split; [done|]. exists (padded (Z.to_nat (- d_exp d)) (d_coef d mod unit)).
    split; [done|]. split; [lia|]. split.
    + rewrite cps_sign_text, cps_app, Hw by apply str_of_Z_utf8. f_equal. f_equal.
      rewrite cps_app by by apply utf8_ascii. rewrite cps_encode by by apply digits_valid. done.
    + rewrite Hval, Hpv, Z2Nat.id by lia. fold unit. rewrite (Z.mod_small (_ mod _)) by lia.
      rewrite (Z.div_mod (d_coef d) unit) at 3 by lia. lia.
Qed.

(** A text that starts with a digit is no name of a special value. *)
Lemma digit_not_letter c n : is_digit c = true → (57 < n)%N → Some (ascii_lower c) ≠ Some n.
Proof.
  unfold is_digit, ascii_lower, is_upper_latin. rewrite andb_true_iff, !N.leb_le. intros [? ?] Hn [= He].
  destruct (N.leb_spec 65 c); cbn in He; lia.
Qed.

Lemma dec_of_cps_digits (neg : bool) w f :
  forallb is_digit w = true → w ≠ [] → forallb is_digit f = true →
  dec_of_cps (sign_cps_of neg ++ w) = (d ← finite neg (digit_value w 0) 0; Some (inl d)) ∧
  dec_of_cps (sign_cps_of neg ++ w ++ 46%N :: f)
    = (d ← finite neg (digit_value f (digit_value w 0)) (- Z.of_nat (length f)); Some (inl d)).
Proof.
  intros Hw Hne Hf. destruct w as [|c w]; [done|].
  assert (is_digit c = true) as Hc by (by apply andb_true_iff in Hw as [? _]).
  assert (∀ l, dec_of_cps (sign_cps_of neg ++ (c :: w) ++ l) =
    let '(a, n, r) := digits ((c :: w) ++ l) 0 0 in
    let '(b, k, r) := match r with
      | c :: r' => if (c =? 46)%N then let '(b, k, r'') := digits r' a 0 in (b, k, r'') else (a, 0%Z, r)
      | [] => (a, 0%Z, [])
      end in
    if (0 <? n + k)%Z then e ← exponent r; d ← finite neg b (e - k); Some (inl d) else None) as Hread.
  { intros l. unfold dec_of_cps, sign_cps_of. cbn [app]. rewrite sign_cps by done.
    assert (∀ (l' name : list N) n, head name = Some n → (57 < n)%N → head l' = Some (ascii_lower c) →
      bool_decide (l' = name) = false) as Hno.
    { intros l' name n Hh Hlt Hl. apply bool_decide_eq_false_2. intros ->.
      rewrite Hl in Hh. by eapply digit_not_letter. }
    rewrite (Hno _ (cps "nan") 110%N) by (vm_compute; done).
    rewrite (Hno _ (cps "snan") 115%N) by (vm_compute; done).
    rewrite bool_decide_eq_false_2; [done|]. intros Hin. rewrite !elem_of_cons, elem_of_nil in Hin.
    destruct Hin as [He|[He|[]]]; apply (f_equal head) in He; revert He; by apply digit_not_letter. }
  assert (∀ n, (0 <? 0 + Z.of_nat (length (c :: w)) + n)%Z = true ↔ (0 < Z.of_nat (S (length w)) + n)%Z) as Hpos
    by (intros n; rewrite Z.ltb_lt; done).
  split.
  - rewrite <-(app_nil_r (c :: w)) at 1. rewrite Hread, digits_run, digits_end by done.
    lazy beta iota zeta. rewrite (proj2 (Hpos 0%Z)) by lia. done.
  - rewrite Hread, digits_run by done. rewrite digits_end by done.
    change (46 =? 46)%N with true. lazy beta iota zeta.
    rewrite <-(app_nil_r f) at 1. rewrite digits_run, digits_end by done. lazy beta iota zeta.
    rewrite (proj2 (Hpos _)) by lia. cbn [exponent mbind option_bind].
    by rewrite Z.add_0_l, Z.sub_0_l.
Qed.

(** The text of a decimal without rounding reads back as its fixed-point form. *)
Lemma format_f_reads d :
  (0 ≤ d_coef d)%Z → dec_representable (fixed_point d) = true →
  dec_of_cps (cps (format_f d)) = Some (inl (fixed_point d)).
Proof.
  intros Hc Hrep. destruct (format_f_cps d Hc) as (w & Hw & Hne & H). unfold fixed_point in *.
  destruct (0 <=? d_exp d)%Z.
  - destruct H as [-> Hv]. destruct (dec_of_cps_digits (d_neg d) w [] Hw Hne eq_refl) as [-> _].
    rewrite Hv. unfold finite. by rewrite Hrep.
  - destruct H as (f & Hf & Hl & -> & Hv).
    destruct (dec_of_cps_digits (d_neg d) w f Hw Hne Hf) as [_ ->].
    rewrite Hv, Hl, Z.opp_involutive. unfold finite. destruct d as [neg c e]. cbn in *. by rewrite Hrep.
Qed.

(** ** The number of digits *)

Lemma count_digits_spec fuel c :
  (0 < c)%Z → (c < 10 ^ (Z.of_nat fuel + 1))%Z →
  (0 < count_digits fuel c ∧ 10 ^ (count_digits fuel c - 1) ≤ c < 10 ^ count_digits fuel c)%Z.
Proof.
  revert c. induction fuel as [|fuel IH]; intros c Hc Hlt.
  { cbn [count_digits]. change (10 ^ (Z.of_nat 0 + 1))%Z with 10%Z in Hlt. lia. }
  cbn [count_digits]. destruct (Z.ltb_spec c 10); [lia|].
  pose proof (Z.div_mod c 10 ltac:(lia)) as Hdm. pose proof (Z.mod_pos_bound c 10 ltac:(lia)).
  assert (10 ^ (Z.of_nat (S fuel) + 1) = 10 * 10 ^ (Z.of_nat fuel + 1))%Z as Hpow
    by (rewrite <-Z.pow_succ_r by lia; f_equal; lia).
  destruct (IH (c / 10)%Z) as (Hn & Hlo & Hhi); [lia|lia|].
  set (n := count_digits fuel (c / 10)) in *.
  replace (1 + n - 1)%Z with (Z.succ (n - 1)) by lia. replace (1 + n)%Z with (Z.succ n) by lia.
  rewrite !Z.pow_succ_r by lia. lia.
Qed.

Lemma ndigits_spec c :
  (0 < c)%Z → (0 < ndigits c ∧ 10 ^ (ndigits c - 1) ≤ c < 10 ^ ndigits c)%Z.
Proof.
  intros Hc. apply count_digits_spec; [done|]. pose proof (Z.log2_spec c Hc) as [_ Hlt].
  pose proof (Z.log2_nonneg c). rewrite Z2Nat.id by done.
  eapply Z.lt_le_trans; [exact Hlt|]. rewrite <-Z.add_1_r. apply Z.pow_le_mono_l. lia.
Qed.

Lemma ndigits_le c k : (0 < c < 10 ^ k)%Z → (ndigits c ≤ k)%Z.
Proof.
  intros [Hc Hk]. destruct (ndigits_spec c Hc) as (Hn & Hlo & _).
  destruct (Z.le_gt_cases (ndigits c) k) as [?|Hgt]; [done|].
  assert (0 ≤ k)%Z by (destruct (Z.neg_nonneg_cases k); [rewrite Z.pow_neg_r in Hk by done; lia|done]).
  assert (10 ^ k ≤ 10 ^ (ndigits c - 1))%Z by (apply Z.pow_le_mono_r; lia). lia.
Qed.

(** ** Exact values *)

(** A decimal that the context holds without rounding. *)
Definition exact (d : dec) : Prop :=
  (0 ≤ d_coef d < 10 ^ precision)%Z ∧ (e_tiny ≤ d_exp d ≤ e_top)%Z.

Lemma fix_exact d : exact d → fix_dec d = Some d.
Proof.
  intros [[Hc Hp] He]. unfold fix_dec. destruct (Z.eqb_spec (d_coef d) 0) as [H0|H0].
  - destruct d as [neg c e]. cbn in *. subst. do 2 f_equal. unfold e_tiny, e_top, e_max, precision in *. lia.
  - pose proof (ndigits_le (d_coef d) precision ltac:(lia)) as Hn.
    destruct (Z.ltb_spec e_top (ndigits (d_coef d) + d_exp d - precision)); [lia|].
    destruct (Z.ltb_spec (d_exp d) (Z.max (ndigits (d_coef d) + d_exp d - precision) e_tiny)); [lia|done].
Qed.

(** ** Order *)

Lemma scaled_shift d e e' : (e ≤ e' ≤ d_exp d)%Z → scaled d e = (scaled d e' * 10 ^ (e' - e))%Z.
Proof.
  intros He. unfold scaled. rewrite <-Z.mul_assoc, <-Z.pow_add_r by lia. do 2 f_equal. lia.
Qed.

(** The order in any common unit. *)
Lemma dec_leb_spec a b e :
  (e ≤ common a b)%Z → dec_leb a b = true ↔ (scaled a e ≤ scaled b e)%Z.
Proof.
  intros He. unfold dec_leb. rewrite Z.leb_le.
  assert (common a b ≤ d_exp a ∧ common a b ≤ d_exp b)%Z as [Ha Hb] by (unfold common; lia).
  rewrite (scaled_shift a e (common a b)), (scaled_shift b e (common a b)) by lia.
  assert (0 < 10 ^ (common a b - e))%Z by (apply Z.pow_pos_nonneg; lia). nia.
Qed.

Lemma dec_le_total a b : dec_leb a b = true ∨ dec_leb b a = true.
Proof.
  assert (common a b = common b a) as Hc by (unfold common; lia).
  rewrite (dec_leb_spec a b (common a b)), (dec_leb_spec b a (common a b)) by lia. lia.
Qed.

Lemma dec_le_trans a b c : dec_leb a b = true → dec_leb b c = true → dec_leb a c = true.
Proof.
  set (e := Z.min (d_exp a) (Z.min (d_exp b) (d_exp c))).
  rewrite (dec_leb_spec a b e), (dec_leb_spec b c e), (dec_leb_spec a c e)
    by (unfold common, e; lia). lia.
Qed.

Lemma dec_lt_le a b : dec_ltb a b = true → dec_leb a b = true.
Proof. unfold dec_ltb. intros H%negb_true_iff. destruct (dec_le_total a b); congruence. Qed.

Definition dec_eq (a b : dec) : Prop := dec_leb a b = true ∧ dec_leb b a = true.

Lemma dec_eq_spec a b e : (e ≤ common a b)%Z → dec_eq a b ↔ scaled a e = scaled b e.
Proof.
  intros He. unfold dec_eq. rewrite (dec_leb_spec a b e), (dec_leb_spec b a e)
    by (unfold common in *; lia). lia.
Qed.

(** ** Exact arithmetic *)

Lemma exact_dec_of z e :
  (Z.abs z < 10 ^ precision)%Z → (e_tiny ≤ e ≤ e_top)%Z → exact (dec_of z e).
Proof. intros Hz He. split; cbn; [|done]. split; [apply Z.abs_nonneg|done]. Qed.

Lemma dec_sub_exact a b :
  let e := common a b in let z := (scaled a e - scaled b e)%Z in
  (Z.abs z < 10 ^ precision)%Z → (e_tiny ≤ e ≤ e_top)%Z → dec_sub a b = Some (dec_of z e).
Proof. intros e z Hz He. unfold dec_sub. by apply fix_exact, exact_dec_of. Qed.

Lemma signed_dec_of z e : signed (dec_of z e) = z.
Proof. unfold signed. cbn. destruct (Z.ltb_spec z 0); lia. Qed.

(** The sign of a decimal is its order with zero. *)
Lemma zero_leb d : dec_leb (dec_of 0 0) d = true ↔ (0 ≤ signed d)%Z.
Proof.
  set (e := common (dec_of 0 0) d). rewrite (dec_leb_spec _ _ e) by done. unfold scaled at 1.
  rewrite signed_dec_of, Z.mul_0_l. unfold scaled.
  assert (0 < 10 ^ (d_exp d - e))%Z by (apply Z.pow_pos_nonneg; unfold e, common; lia). nia.
Qed.

Lemma leb_zero d : dec_leb d (dec_of 0 0) = true ↔ (signed d ≤ 0)%Z.
Proof.
  set (e := common d (dec_of 0 0)). rewrite (dec_leb_spec _ _ e) by done. unfold scaled at 2.
  rewrite signed_dec_of, Z.mul_0_l. unfold scaled.
  assert (0 < 10 ^ (d_exp d - e))%Z by (apply Z.pow_pos_nonneg; unfold e, common; lia). nia.
Qed.

Lemma toward_ideal_spec fuel c e ideal c' e' :
  toward_ideal fuel c e ideal = (c', e') → (0 < c)%Z → (e ≤ ideal)%Z →
  (0 < c' ≤ c ∧ e ≤ e' ≤ ideal ∧ c = c' * 10 ^ (e' - e))%Z.
Proof.
  revert c e. induction fuel as [|fuel IH]; intros c e; cbn [toward_ideal].
  - intros [= <- <-]. rewrite Z.sub_diag. cbn. lia.
  - destruct (_ && _)%Z eqn:E; [|intros [= <- <-]; rewrite Z.sub_diag; cbn; lia].
    apply andb_true_iff in E as [He%Z.ltb_lt Hm%Z.eqb_eq]. intros Hr Hc Hle.
    pose proof (Z.div_mod c 10 ltac:(lia)) as Hdm.
    destruct (IH _ _ Hr) as (Hc' & He' & Heq); [lia|lia|].
    split; [lia|]. split; [lia|]. replace (e' - e)%Z with (Z.succ (e' - (e + 1))) by lia.
    rewrite Z.pow_succ_r by lia. lia.
Qed.

(** [normalize] keeps an exact value. *)
Lemma normalize_exact d :
  exact d → ∃ n, normalize d = Some n ∧ d_neg n = d_neg d ∧ dec_eq n d ∧
    (0 ≤ d_coef n < 10 ^ precision)%Z ∧ (e_tiny ≤ d_exp n ≤ e_max)%Z.
Proof.
  intros Hd. pose proof Hd as [[Hc Hp] He]. unfold normalize. rewrite fix_exact by done.
  cbn [mbind option_bind]. unfold is_zero. destruct (Z.eqb_spec (d_coef d) 0) as [H0|H0].
  - eexists. split; [reflexivity|]. cbn. split_and!; try done; try lia.
    apply (dec_eq_spec _ _ (Z.min 0 (d_exp d))); [done|]. unfold scaled, signed. cbn. rewrite H0.
    by destruct (d_neg d).
  - destruct (toward_ideal _ _ _ _) as [c e] eqn:Ht. eexists. split; [reflexivity|]. cbn.
    apply toward_ideal_spec in Ht as (Hcc & Hee & Heq); [|lia|unfold e_top, precision in He; lia].
    split_and!; try done; try lia.
    apply (dec_eq_spec _ _ (d_exp d)); [unfold common; cbn; lia|].
    unfold scaled, signed. cbn. rewrite Heq, Z.sub_diag. destruct (d_neg d); lia.
Qed.

Lemma fixed_point_eq d : (0 ≤ d_coef d)%Z → dec_eq (fixed_point d) d.
Proof.
  intros _. unfold fixed_point. destruct (Z.leb_spec 0 (d_exp d)).
  - apply (dec_eq_spec _ _ 0%Z); [unfold common; cbn; lia|]. unfold scaled, signed. cbn.
    rewrite !Z.sub_0_r. destruct (d_neg d); cbn; lia.
  - split; apply (dec_leb_spec _ _ (common d d)); lia.
Qed.

Lemma fixed_point_representable d :
  (0 ≤ d_coef d < 10 ^ precision)%Z → (e_tiny ≤ d_exp d ≤ e_max)%Z →
  dec_representable (fixed_point d) = true.
Proof.
  intros Hc He. unfold e_tiny, e_min in He. unfold dec_representable, fixed_point.
  assert (min_etiny ≤ -1000026 ∧ 1000027 ≤ max_emax)%Z as [Hmin Hmax] by (unfold min_etiny, max_emax; lia).
  destruct (Z.leb_spec 0 (d_exp d)); cbn [d_coef d_exp]; rewrite andb_true_iff, Z.leb_le.
  - split; [lia|]. destruct (Z.eqb_spec (d_coef d * 10 ^ d_exp d) 0); [apply Z.leb_le; lia|].
    assert (0 < 10 ^ d_exp d)%Z as Hpow by (apply Z.pow_pos_nonneg; lia).
    pose proof (ndigits_le (d_coef d * 10 ^ d_exp d) (precision + d_exp d)) as Hn.
    rewrite Z.pow_add_r in Hn by (unfold precision; lia). apply Z.leb_le.
    assert (0 < d_coef d * 10 ^ d_exp d < 10 ^ precision * 10 ^ d_exp d)%Z as Hb by nia.
    specialize (Hn Hb). unfold precision, e_max in *. lia.
  - unfold precision in He. split; [lia|]. destruct (Z.eqb_spec (d_coef d) 0); [apply Z.leb_le; lia|].
    pose proof (ndigits_le (d_coef d) precision ltac:(lia)). apply Z.leb_le. unfold precision in *. lia.
Qed.

(** ** No overflow below the limits *)

Lemma round_half_even_bound c drop k :
  (0 ≤ c < 10 ^ (drop + k))%Z → (0 ≤ drop)%Z → (0 ≤ k)%Z → (0 ≤ round_half_even c drop ≤ 10 ^ k)%Z.
Proof.
  intros Hc Hd Hk. rewrite Z.pow_add_r in Hc by done.
  assert (0 < 10 ^ drop)%Z as Hu by (apply Z.pow_pos_nonneg; lia). unfold round_half_even.
  set (u := (10 ^ drop)%Z) in *.
  assert (0 ≤ c / u)%Z by (by apply Z.div_pos; lia).
  assert (c / u < 10 ^ k)%Z by (by apply Z.div_lt_upper_bound; lia).
  repeat (case_match; try lia).
Qed.

(** The largest exponent of the inputs that the lemmas below allow. *)
Definition safe_bound : Z := 999900.

Lemma fix_total d k B :
  (0 ≤ d_coef d < 10 ^ k)%Z → (k + d_exp d ≤ B)%Z → (d_exp d ≤ B)%Z → (0 ≤ B ≤ safe_bound)%Z →
  ∃ d', fix_dec d = Some d' ∧ (0 ≤ d_coef d' < 10 ^ precision)%Z ∧ (d_exp d' ≤ B)%Z.
Proof.
  intros Hc Hk He HB. unfold safe_bound in HB. unfold fix_dec.
  assert (e_top = 999972 ∧ e_tiny = -1000026 ∧ e_max = 999999)%Z as (Htop & Htiny & Hmax) by done.
  assert (0 < 10 ^ precision)%Z as Hp by done.
  destruct (Z.eqb_spec (d_coef d) 0) as [H0|H0]; [eexists; split; [reflexivity|]; cbn; lia|].
  pose proof (ndigits_le (d_coef d) k ltac:(lia)) as Hn.
  destruct (ndigits_spec (d_coef d)) as (Hpos & _ & Hlt); [lia|].
  destruct (Z.ltb_spec e_top (ndigits (d_coef d) + d_exp d - precision)) as [Hover|_];
    [unfold precision in Hover; lia|].
  set (m := Z.max (ndigits (d_coef d) + d_exp d - precision) e_tiny).
  assert (m < B)%Z as Hm by (unfold m, precision; lia).
  destruct (Z.ltb_spec (d_exp d) m) as [Hdrop|Hkeep].
  - pose proof (round_half_even_bound (d_coef d) (m - d_exp d) precision) as Hr.
    assert (10 ^ ndigits (d_coef d) ≤ 10 ^ (m - d_exp d + precision))%Z
      by (apply Z.pow_le_mono_r; unfold m; lia).
    specialize (Hr ltac:(lia) ltac:(lia) ltac:(done)).
    set (c := round_half_even _ _) in *.
    destruct (Z.ltb_spec precision (ndigits c)) as [Hbig|Hsmall]; cbv beta iota.
    + destruct (Z.ltb_spec e_top (m + 1)); [lia|]. eexists. split; [reflexivity|]. cbn [d_coef d_exp].
      assert (0 ≤ c / 10)%Z by (apply Z.div_pos; lia).
      assert (c / 10 < 10 ^ precision)%Z by (apply Z.div_lt_upper_bound; lia). lia.
    + destruct (Z.ltb_spec e_top m); [lia|]. eexists. split; [reflexivity|]. cbn [d_coef d_exp].
      split; [|lia]. split; [lia|]. destruct (Z.eqb_spec c 0) as [->|]; [done|].
      destruct (ndigits_spec c) as (_ & _ & Hc2); [lia|].
      eapply Z.lt_le_trans; [exact Hc2|]. apply Z.pow_le_mono_r; [lia|done].
  - eexists. split; [reflexivity|]. split; [|done]. split; [lia|].
    eapply Z.lt_le_trans; [exact Hlt|]. apply Z.pow_le_mono_r; [lia|unfold m in Hkeep; lia].
Qed.

(** Every value of PostgreSQL's [numeric] and of a binary64 is in these limits. *)
Definition digit_limit : Z := 150000.
Definition ordinary (d : dec) : Prop :=
  (0 ≤ d_coef d < 10 ^ digit_limit)%Z ∧ (- digit_limit ≤ d_exp d ≤ digit_limit)%Z.

Lemma digit_limit_val : digit_limit = 150000%Z.
Proof. done. Qed.

Lemma scaled_bound d e k :
  (0 ≤ d_coef d < 10 ^ k)%Z → (0 ≤ k)%Z → (e ≤ d_exp d)%Z → (Z.abs (scaled d e) < 10 ^ (k + (d_exp d - e)))%Z.
Proof.
  intros Hc Hk He. unfold scaled, signed. rewrite Z.pow_add_r by lia.
  assert (0 < 10 ^ (d_exp d - e))%Z by (apply Z.pow_pos_nonneg; lia).
  rewrite Z.abs_mul, (Z.abs_eq (10 ^ _)) by lia. destruct (d_neg d); nia.
Qed.

Lemma dec_sub_total a b :
  ordinary a → ordinary b →
  ∃ d, dec_sub a b = Some d ∧ (0 ≤ d_coef d < 10 ^ precision)%Z ∧ (d_exp d ≤ 600001)%Z.
Proof.
  intros [Ha Hea] [Hb Heb]. unfold dec_sub. set (e := common a b). pose proof digit_limit_val as HL.
  set (L := digit_limit) in *.
  assert (e ≤ d_exp a ∧ e ≤ d_exp b ∧ - L ≤ e)%Z as (H1 & H2 & H3) by (unfold e, common; lia).
  pose proof (scaled_bound a e L Ha ltac:(lia) H1) as Hsa.
  pose proof (scaled_bound b e L Hb ltac:(lia) H2) as Hsb.
  assert (10 ^ (L + (d_exp a - e)) ≤ 10 ^ (3 * L))%Z as Hla by (apply Z.pow_le_mono_r; lia).
  assert (10 ^ (L + (d_exp b - e)) ≤ 10 ^ (3 * L))%Z as Hlb by (apply Z.pow_le_mono_r; lia).
  apply (fix_total _ (Z.succ (3 * L)) 600001); cbn [dec_of d_coef d_exp]; try (unfold safe_bound; lia).
  rewrite Z.pow_succ_r by lia. lia.
Qed.

Lemma dec_div_total a b :
  (0 ≤ d_coef a < 10 ^ precision)%Z → (d_exp a ≤ 600001)%Z → ordinary b → is_zero b = false →
  ∃ d, dec_div a b = Some d ∧ (0 ≤ d_coef d < 10 ^ precision)%Z ∧ (d_exp d ≤ 999800)%Z.
Proof.
  intros Ha Hea [Hb Heb] Hz. pose proof digit_limit_val as HL. set (L := digit_limit) in *.
  unfold is_zero in Hz. apply Z.eqb_neq in Hz. unfold dec_div.
  assert (0 < precision)%Z as Hp by done. unfold is_zero. destruct (Z.eqb_spec (d_coef a) 0) as [H0|H0].
  { apply (fix_total _ 1 999800); cbn [d_coef d_exp]; try (unfold safe_bound; lia). }
  pose proof (ndigits_le (d_coef a) precision ltac:(lia)) as Hna.
  destruct (ndigits_spec (d_coef a)) as (Hna0 & _); [lia|].
  pose proof (ndigits_le (d_coef b) L ltac:(lia)) as Hnb.
  destruct (ndigits_spec (d_coef b)) as (Hnb0 & _); [lia|].
  set (shift := (ndigits (d_coef b) - ndigits (d_coef a) + precision + 1)%Z).
  assert (0 < shift ≤ L + 28)%Z as Hs by (unfold shift; unfold precision in Hna |- *; lia).
  rewrite !(proj2 (Z.leb_le 0 shift)) by lia.
  set (ideal := (d_exp a - d_exp b)%Z). assert (ideal ≤ 750001)%Z as Hi by (unfold ideal; lia).
  set (q := (d_coef a * 10 ^ shift / d_coef b)%Z).
  assert (0 < 10 ^ shift)%Z as Hpow by (apply Z.pow_pos_nonneg; lia).
  assert (0 ≤ q)%Z as Hq0 by (apply Z.div_pos; nia).
  assert (q < 10 ^ (precision + shift))%Z as Hq.
  { rewrite Z.pow_add_r by lia. apply Z.div_lt_upper_bound; [lia|].
    assert (d_coef a * 10 ^ shift < 10 ^ precision * 10 ^ shift)%Z by (apply Z.mul_lt_mono_pos_r; lia).
    assert (0 < 10 ^ precision * 10 ^ shift)%Z as HT by (apply Z.mul_pos_pos; done).
    eapply Z.lt_le_trans; [eassumption|]. rewrite <-(Z.mul_1_l (10 ^ precision * _)) at 1.
    apply Z.mul_le_mono_nonneg_r; lia. }
  assert (10 ^ (precision + shift) ≤ 10 ^ (L + 57))%Z as Hle
    by (apply Z.pow_le_mono_r; [lia|unfold precision; lia]).
  assert (∀ neg c e, (0 ≤ c ≤ q + 1)%Z → (e ≤ ideal)%Z → 
    ∃ d, fix_dec {| d_neg := neg; d_coef := c; d_exp := e |} = Some d ∧
      (0 ≤ d_coef d < 10 ^ precision)%Z ∧ (d_exp d ≤ 999800)%Z) as Hfix.
  { intros neg c e Hc He. apply (fix_total _ (Z.succ (L + 57)) 999800); cbn [d_coef d_exp];
      try (unfold safe_bound; lia). rewrite Z.pow_succ_r by lia.
    assert (0 < 10 ^ (L + 57))%Z by (apply Z.pow_pos_nonneg; lia). lia. }
  destruct (_ =? 0)%Z eqn:Hex.
  - destruct (toward_ideal _ _ _ _) as [c e] eqn:Ht.
    destruct (Z.eqb_spec q 0) as [Hq1|Hq1].
    { exfalso. apply Z.eqb_eq in Hex. pose proof (Z.div_mod (d_coef a * 10 ^ shift) (d_coef b) ltac:(lia)) as Hdm.
      fold q in Hdm. rewrite Hex, Hq1 in Hdm.
      assert (0 < d_coef a * 10 ^ shift)%Z by (apply Z.mul_pos_pos; lia). lia. }
    apply toward_ideal_spec in Ht as (Hc & He & _); [|lia|lia]. apply Hfix; lia.
  - apply Hfix; [|lia]. fold q. destruct (q mod 5 =? 0)%Z; lia.
Qed.

Lemma dec_scale_total a n :
  (0 ≤ d_coef a < 10 ^ precision)%Z → (d_exp a ≤ 999800)%Z → (0 < n ≤ 100)%Z →
  ∃ d, dec_mul_int a n = Some d ∧ (0 ≤ d_coef d < 10 ^ precision)%Z ∧ (d_exp d ≤ 999850)%Z.
Proof.
  intros Ha He Hn. unfold dec_mul_int.
  apply (fix_total _ 30 999850); cbn [d_coef d_exp]; try (unfold safe_bound; lia).
  change (10 ^ 30)%Z with (10 ^ precision * 100)%Z. nia.
Qed.

Lemma dec_abs_total a B :
  (0 ≤ d_coef a < 10 ^ precision)%Z → (d_exp a ≤ B)%Z → (0 ≤ B ≤ 999850)%Z →
  ∃ d, dec_abs a = Some d ∧ (0 ≤ d_coef d < 10 ^ precision)%Z.
Proof.
  intros Ha He HB. unfold dec_abs.
  destruct (fix_total {| d_neg := false; d_coef := d_coef a; d_exp := d_exp a |} precision (B + 28))
    as (d & Hd & Hc & _); cbn [d_coef d_exp];
    [done|unfold precision; lia|lia|unfold safe_bound; lia|by exists d].
Qed.

(** ** Reading the text with [Decimal] *)

Definition numeral_char (c : N) : bool := is_digit c || (c =? 45)%N || (c =? 46)%N.

Lemma numeral_char_plain c : numeral_char c = true → is_space c = false ∧ (c < 128)%N ∧ (c =? 95)%N = false.
Proof.
  unfold numeral_char, is_digit. rewrite !orb_true_iff, andb_true_iff, !N.leb_le, !N.eqb_eq.
  intros Hc. assert (45 ≤ c ≤ 57)%N as Hr by lia. unfold is_space. split; [|split; [lia|apply N.eqb_neq; lia]].
  repeat match goal with
  | |- context [(?x <=? ?y)%N] => destruct (N.leb_spec x y); [|]; try lia
  | |- context [(?x =? ?y)%N] => destruct (N.eqb_spec x y); [|]; try lia
  end; done.
Qed.

Lemma drop_while_none p l : forallb (λ c, negb (p c)) l = true → drop_while p l = l.
Proof. destruct l as [|c l]; [done|]. cbn. intros [->%negb_true_iff _]%andb_true_iff. done. Qed.

Lemma numeral_cps_plain `{PyText} s : forallb numeral_char (cps s) = true → numeral_cps s = cps s.
Proof.
  rewrite list_forallb_spec. intros Hs. unfold numeral_cps.
  assert (strip_cps (cps s) = cps s) as ->.
  { unfold strip_cps. rewrite !drop_while_none, rev_involutive; [done| |]; apply list_forallb_spec; intros c Hc;
      apply negb_true_iff, numeral_char_plain, Hs; try done.
    rewrite drop_while_none in Hc; [by rewrite list_elem_of_In, <-in_rev, <-list_elem_of_In in Hc|].
    apply list_forallb_spec. intros c' Hc'. by apply negb_true_iff, numeral_char_plain, Hs. }
  assert (∀ l, (∀ c, c ∈ l → c ∈ cps s) →
    List.filter (λ c, negb (c =? 95)%N)
      (map (λ c, match unicode_digit c with Some d => if (c <? 128)%N then c else (48 + d)%N | None => c end) l) = l)
    as Hall; [|by apply Hall].
  induction l as [|c l IH]; intros Hl; [done|]. cbn [map].
  destruct (numeral_char_plain c) as (_ & Hlt & Hu); [apply Hs, Hl; by left|].
  rewrite (proj2 (N.ltb_lt c 128)) by done.
  assert (match unicode_digit c with Some _ => c | None => c end = c) as -> by by destruct (unicode_digit c).
  cbn [List.filter]. rewrite Hu. cbn [negb]. f_equal. apply IH. intros c' Hc'. apply Hl. by right.
Qed.

Lemma format_f_chars d : (0 ≤ d_coef d)%Z → forallb numeral_char (cps (format_f d)) = true.
Proof.
  intros Hc. assert (∀ l, forallb is_digit l = true → forallb numeral_char l = true) as Hd.
  { intros l. rewrite !list_forallb_spec. intros Hl c Hin. unfold numeral_char. by rewrite (Hl c Hin). }
  assert (forallb numeral_char (sign_cps_of (d_neg d)) = true) as Hs by by destruct (d_neg d).
  destruct (format_f_cps d Hc) as (w & Hw & _ & H). destruct (0 <=? d_exp d)%Z.
  - destruct H as [-> _]. by rewrite forallb_app, Hs, Hd.
  - destruct H as (f & Hf & _ & -> & _). rewrite !forallb_app, Hs, Hd by done. cbn [forallb andb].
    by rewrite Hd.
Qed.

(** A decimal without rounding survives [format] and [Decimal]. *)
Lemma format_f_Decimal `{PyText} d :
  (0 ≤ d_coef d < 10 ^ precision)%Z → (e_tiny ≤ d_exp d ≤ e_max)%Z →
  Decimal (format_f d) = Some (inl (fixed_point d)).
Proof.
  intros Hc He. unfold Decimal. rewrite numeral_cps_plain by (apply format_f_chars; lia).
  apply format_f_reads; [lia|]. by apply fixed_point_representable.
Qed.

Lemma dec_eq_trans a b c : dec_eq a b → dec_eq b c → dec_eq a c.
Proof. intros [? ?] [? ?]. split; by eapply dec_le_trans. Qed.
