(* ===== verification/Answering.v ===== *)
(** * Descriptions and charts of a result:
      [app/agent/answering.py], [app/agent/charting.py]

    Rows are dicts of the values [json.loads] returns.  A decimal overflow is
    the only exception these functions raise of their own. *)

From S2P Require Import Prelude PyStr Errors Json Policy NL2SQL PyText Decimal.

Notation row := (list (string * pyval)).

Section Answering.
Context `{PyUnicode, PyText}.

(** ** answering.py *)

(** [row.get(column)]. *)
Definition cell (r : row) (column : string) : pyval := default PNone (dict_get column r).

Definition _number (v : pyval) : option dec :=
  match v with
  | PBool _ | PNone => None
  | v => match Decimal (py_str v) with Some (inl d) => Some d | _ => None end
  end.

Definition has_marker (markers : list string) (column : string) : bool :=
  existsb (λ m, contains m (lower column)) markers.
Definition _dimension (column : string) : bool :=
  has_marker ["_id"; "id_"; "year"; "month"; "quarter"; "date"; "time"; "rank";
              "年份"; "月份"; "季度"; "日期"] column.

Definition _text (v : pyval) : string := encode (take 80 (cps (normalize_ws (py_str v)))).

Definition _label (columns : list string) (r : row) (metric : string) : string :=
  let dimensions := map (λ c, c +:+ "=" +:+ _text (cell r c))
    (List.filter (λ c, negb (String.eqb c metric)) columns) in
  match dimensions with [] => "" | _ => join "、" (take 2 dimensions) +:+ "的" end.

Definition _first_row (columns : list string) (r : row) : string :=
  let fields := join "、" (map (λ c, c +:+ "=" +:+ _text (cell r c)) (take 3 columns)) in
  if String.eqb fields "" then "" else "首行：" +:+ fields +:+ "。".

(** The first column that is no dimension and a number in every row. *)
Definition is_metric (rs : list row) (column : string) : bool :=
  negb (_dimension column) && forallb (λ r, if _number (cell r column) is Some _ then true else false) rs.
Definition find_metric (columns : list string) (rs : list row) : option string :=
  List.find (is_metric rs) columns.

(** [_number(row[metric]) or Decimal(0)]. *)
Definition metric_value (metric : string) (r : row) : dec :=
  default (dec_of 0 0) (_number (cell r metric)).

(** [max(rows, key=...)] and [min(rows, key=...)]: the first of the extremes. *)
Definition pick (better : dec → dec → bool) (key : row → dec) (first : row) (rs : list row) : row :=
  fold_left (λ best r, if better (key r) (key best) then r else best) rs first.
Definition pick_max : (row → dec) → row → list row → row := pick (λ a b, dec_ltb b a).
Definition pick_min : (row → dec) → row → list row → row := pick dec_ltb.

(** ** _period_change *)

Definition period_columns (columns : list string) : list string :=
  List.filter (has_marker ["year"; "month"; "quarter"; "date"; "年份"; "月份"; "季度"; "日期"]) columns.
Definition period_key (periods : list string) (r : row) : list string :=
  map (λ c, py_str (default (PStr "") (dict_get c r))) periods.

(** The order of tuples of texts. *)
Fixpoint tuple_leb (a b : list string) : bool :=
  match a, b with
  | [], _ => true
  | _, [] => false
  | x :: a, y :: b => if String.eqb x y then tuple_leb a b else str_leb x y
  end.
Definition sorted_keys (keys : list (list string)) : list (list string) :=
  sort_by (λ a b, negb (tuple_leb b a)) keys.

Definition decimal_overflow : exn := OtherException "Overflow".
Definition or_overflow {A} (o : option A) : result exn A :=
  match o with Some a => Ok a | None => Err decimal_overflow end.

Definition direction (change : dec) : string :=
  if dec_ltb (dec_of 0 0) change then "增长"
  else if dec_ltb change (dec_of 0 0) then "下降" else "持平".

Definition absolute_text (change : dec) : result exn string :=
  a ← or_overflow (dec_abs change);
  n ← or_overflow (normalize a);
  Ok (format_f n).

Definition relative_text (change first : dec) : result exn string :=
  if is_zero first then Ok ""
  else
    q ← or_overflow (dec_div change first);
    p ← or_overflow (dec_mul_int q 100);
    a ← or_overflow (dec_abs p);
    Ok ("，约 " +:+ format_2f a +:+ "%").

Definition change_text (metric : string) (first last : dec) : result exn string :=
  change ← or_overflow (dec_sub last first);
  absolute ← absolute_text change;
  relative ← relative_text change first;
  Ok ("从首期到末期，" +:+ metric +:+ direction change +:+ " " +:+ absolute +:+ relative
      +:+ "（仅比较返回的首末期）。").

Definition _period_change (columns : list string) (first_row : row) (rest : list row)
    (metric : string) : result exn string :=
  let periods := period_columns columns in
  let last_row := List.last rest first_row in
  let keys := map (period_key periods) (first_row :: rest) in
  if bool_decide (periods = []) then Ok ""
  else if negb (bool_decide (keys = sorted_keys keys))
          || bool_decide (period_key periods first_row = period_key periods last_row) then Ok ""
  else
    match _number (cell first_row metric), _number (cell last_row metric) with
    | Some first, Some last => change_text metric first last
    | _, _ => Ok ""
    end.

(** ** describe_sql_result *)

Definition rows_text (n : nat) : string := "查询返回 " +:+ str_of_nat n +:+ " 行".

Definition metric_text (columns : list string) (metric : string) (r : row) : string :=
  _label columns r metric +:+ metric +:+ "为 " +:+ _text (cell r metric).

Definition metric_answer (columns : list string) (metric : string) (first : row) (rest : list row) : string :=
  let n := S (length rest) in
  match rest with
  | [] => rows_text 1 +:+ "：" +:+ metric_text columns metric first +:+ "。"
  | _ =>
      if (n <=? 4)
      then rows_text n +:+ "：" +:+ join "；" (map (metric_text columns metric) (first :: rest)) +:+ "。"
      else
        let highest := pick_max (metric_value metric) first rest in
        let lowest := pick_min (metric_value metric) first rest in
        rows_text n +:+ "。在已返回数据中，" +:+ metric +:+ "最高的是"
          +:+ _label columns highest metric +:+ _text (cell highest metric) +:+ "，最低的是"
          +:+ _label columns lowest metric +:+ _text (cell lowest metric) +:+ "。"
  end.

Definition describe_sql_result (columns : list string) (rs : list row) (truncated : bool) :
    result exn string :=
  match rs with
  | [] =>
      Ok (if truncated
          then "查询已执行，但结果在返回第一行前触及大小上限，无法判断是否有符合条件的数据。"
          else "查询已完成，但没有符合条件的数据。")
  | first :: rest =>
      answer ← match find_metric columns rs with
        | None => Ok (rows_text (length rs) +:+ "。" +:+ _first_row columns first)
        | Some metric =>
            change ← (if rest is [] then Ok "" else _period_change columns first rest metric);
            Ok (metric_answer columns metric first rest +:+ change)
        end;
      Ok (if truncated
          then answer +:+ "结果已截断，上述描述仅基于返回的 " +:+ str_of_nat (length rs)
               +:+ " 行，不代表完整结果。"
          else answer)
  end.

(** ** charting.py *)

Inductive chart_type := Bar | Line | Pie | TableChart.
Record ChartSpec := {
  chart_kind : chart_type; chart_title : string; chart_x : option string; chart_series : list string }.
Definition chart_name (t : chart_type) : string :=
  match t with Bar => "bar" | Line => "line" | Pie => "pie" | TableChart => "table" end.

Definition ChartSpec_validate (c : ChartSpec) : result exn ChartSpec :=
  if between 1 (py_len (chart_title c)) 160
     && default true ((λ x, py_len x <=? 160) <$> chart_x c) && (length (chart_series c) <=? 3)
  then Ok c else Err ValidationError.

(** [isinstance(value, Number)] holds for numbers, not for texts. *)
Definition _is_number (v : pyval) : bool :=
  match v with
  | PInt _ | PFloat _ => true
  | PStr s => negb (is_blank s) && if Decimal s is Some (inl _) then true else false
  | _ => false
  end.

Definition numeric_columns (columns : list string) (rs : list row) : list string :=
  take 3 (List.filter (λ c, existsb (λ r, _is_number (cell r c)) (take 50 rs)) (drop 1 columns)).

Definition table_chart : ChartSpec := {|
  chart_kind := TableChart; chart_title := "查询结果"; chart_x := None; chart_series := [] |}.

Definition build_chart_spec (columns : list string) (rs : list row) : result exn ChartSpec :=
  match columns with
  | x :: _ :: _ =>
      if bool_decide (rs = []) then ChartSpec_validate table_chart
      else
        match numeric_columns columns rs with
        | [] => ChartSpec_validate table_chart
        | numeric =>
            let kind :=
              if has_marker ["date"; "time"; "month"; "year"; "quarter"; "日期"; "月份"; "季度"] x then Line
              else if (length rs <=? 8) && (length numeric =? 1) then Pie
              else Bar in
            ChartSpec_validate {| chart_kind := kind; chart_title := "分析结果"; chart_x := Some x;
                                  chart_series := numeric |}
        end
  | _ => ChartSpec_validate table_chart
  end.

(** [model_dump(mode="json")]. *)
Definition dump_chart (c : ChartSpec) : pyval :=
  PDict [("type", PStr (chart_name (chart_kind c))); ("title", PStr (chart_title c));
         ("x", opt_str (chart_x c)); ("series", str_list (chart_series c))].
End Answering.

(** ** The period change *)

Section Change.
Context `{PyText}.

Lemma absolute_exact z e :
  (Z.abs z < 10 ^ precision)%Z → (e_tiny ≤ e ≤ e_top)%Z →
  ∃ text shown, absolute_text (dec_of z e) = Ok text ∧ Decimal text = Some (inl shown) ∧
    dec_eq shown (dec_of (Z.abs z) e).
Proof.
  intros Hz He. unfold absolute_text, dec_abs.
  assert (exact {| d_neg := false; d_coef := Z.abs z; d_exp := e |}) as Hx
    by (split; [split; [apply Z.abs_nonneg|done]|done]).
  cbn [dec_of d_coef d_exp]. rewrite fix_exact by done. cbn [or_overflow mbind result_bind].
  destruct (normalize_exact _ Hx) as (n & -> & _ & Heq & Hn & Hen). cbn [or_overflow mbind result_bind].
  exists (format_f n), (fixed_point n). split; [done|]. split; [by apply format_f_Decimal|].
  eapply dec_eq_trans; [apply fixed_point_eq; lia|]. unfold dec_of.
  rewrite (proj2 (Z.ltb_ge (Z.abs z) 0)) by apply Z.abs_nonneg. by rewrite Z.abs_involutive.
Qed.

Lemma direction_spec z e :
  direction (dec_of z e) = if (0 <? z)%Z then "增长" else if (z <? 0)%Z then "下降" else "持平".
Proof.
  assert (dec_leb (dec_of z e) (dec_of 0 0) = (z <=? 0)%Z) as Hn
    by (apply Bool.eq_iff_eq_true; by rewrite leb_zero, signed_dec_of, Z.leb_le).
  assert (dec_leb (dec_of 0 0) (dec_of z e) = (0 <=? z)%Z) as Hp
    by (apply Bool.eq_iff_eq_true; by rewrite zero_leb, signed_dec_of, Z.leb_le).
  unfold direction, dec_ltb. rewrite Hn, Hp.
  destruct (Z.leb_spec z 0), (Z.leb_spec 0 z), (Z.ltb_spec 0 z), (Z.ltb_spec z 0); done || lia.
Qed.

Lemma ltb_scaled a b : dec_ltb a b = true ↔ (scaled a (common a b) < scaled b (common a b))%Z.
Proof.
  unfold dec_ltb. rewrite negb_true_iff, <-not_true_iff_false.
  assert (common b a = common a b) as Hc by (unfold common; lia).
  rewrite (dec_leb_spec b a (common a b)) by lia. lia.
Qed.

Lemma change_total metric first last :
  ordinary first → ordinary last → ∃ text, change_text metric first last = Ok text.
Proof.
  intros Hf Hl. unfold change_text. destruct (dec_sub_total last first Hl Hf) as (c & -> & Hc & He).
  cbn [or_overflow mbind result_bind]. unfold absolute_text, normalize.
  destruct (dec_abs_total c 600001) as (a & Ha & Hac); [done|lia|lia|].
  assert (∃ n, normalize a = Some n) as [n Hn].
  { unfold dec_abs in Ha. unfold normalize.
    destruct (fix_total {| d_neg := false; d_coef := d_coef c; d_exp := d_exp c |} precision 600100)
      as (a' & Ha' & _ & Hea); cbn [d_coef d_exp]; [done|unfold precision; lia|lia|unfold safe_bound; lia|].
    assert (a' = a) as -> by congruence.
    destruct (fix_total a precision 600200) as (n & -> & _); [done|unfold precision; lia|lia|unfold safe_bound; lia|].
    cbn [mbind option_bind]. destruct (is_zero n); [eauto|]. destruct (toward_ideal _ _ _ _). eauto. }
  unfold normalize in Hn. rewrite Ha. cbn [or_overflow mbind result_bind]. rewrite Hn.
  cbn [or_overflow mbind result_bind]. unfold relative_text.
  destruct (is_zero first) eqn:Hz; cbn [mbind result_bind]; [eauto|].
  destruct (dec_div_total c first Hc He Hf Hz) as (q & -> & Hq & Heq). cbn [or_overflow mbind result_bind].
  destruct (dec_scale_total q 100 Hq Heq) as (p & -> & Hp & Hep); [lia|]. cbn [or_overflow mbind result_bind].
  destruct (dec_abs_total p 999850) as (b & -> & _); [done|lia|lia|]. cbn [or_overflow mbind result_bind]. eauto.
Qed.
End Change.

(** C38: the change from the first to the last period is stated exactly: when
    the difference fits 28 digits, the sentence says growth, fall or no
    change as the numbers are ordered, and the amount it prints, read back
    with [Decimal], equals the absolute difference. *)
Theorem period_change_exact : ∀ (T : PyText) metric first last text,
  let e := common last first in
  let z := (scaled last e - scaled first e)%Z in
  (Z.abs z < 10 ^ precision)%Z → (e_tiny ≤ e ≤ e_top)%Z →
  change_text metric first last = Ok text →
  ∃ word amount shown relative,
    text = "从首期到末期，" +:+ metric +:+ word +:+ " " +:+ amount +:+ relative +:+ "（仅比较返回的首末期）。" ∧
    (word = "增长" ↔ dec_ltb first last = true) ∧ (word = "下降" ↔ dec_ltb last first = true) ∧
    (word = "持平" ↔ dec_eq first last) ∧
    Decimal amount = Some (inl shown) ∧ dec_eq shown (dec_of (Z.abs z) e).
Proof.
  intros T metric first last text e z Hz He. unfold change_text. rewrite dec_sub_exact by done.
  fold e z. cbn [or_overflow mbind result_bind].
  destruct (absolute_exact z e Hz He) as (amount & shown & -> & Hread & Heq). cbn [mbind result_bind].
  destruct (relative_text _ _) as [relative|x]; [|done]. intros [= <-].
  exists (direction (dec_of z e)), amount, shown, relative. split; [done|].
  assert (common first last = e) as Hc by (unfold e, common; lia).
  rewrite direction_spec, !ltb_scaled, (dec_eq_spec first last e), Hc by (rewrite Hc; done).
  change (common last first) with e. split_and!; try done;
    destruct (Z.ltb_spec 0 z), (Z.ltb_spec z 0); unfold z in *;
    split; intros Hx; first [done|lia|exfalso; lia|discriminate Hx].
Qed.

(** ** The metric and the extremes *)

Section Extremes.
Context `{PyUnicode, PyText}.

Lemma find_metric_spec columns rs metric :
  find_metric columns rs = Some metric →
  metric ∈ columns ∧ _dimension metric = false ∧
  ∀ r, r ∈ rs → ∃ d, _number (cell r metric) = Some d ∧ metric_value metric r = d.
Proof.
  intros Hf. apply List.find_some in Hf as [Hin%list_elem_of_In Hm].
  unfold is_metric in Hm. apply andb_true_iff in Hm as [Hd%negb_true_iff Hall].
  split; [done|]. split; [done|]. rewrite list_forallb_spec in Hall. intros r Hr. specialize (Hall r Hr).
  unfold metric_value. destruct (_number _) as [d|]; [|done]. by exists d.
Qed.

(** [better] picks an element that no other one beats. *)
Lemma pick_spec better key first rs :
  (∀ a b c, better a b = false → better b c = false → better a c = false) →
  (∀ a b, better a b = true → better b a = false) → (∀ a, better a a = false) →
  pick better key first rs ∈ first :: rs ∧
  ∀ r, r ∈ first :: rs → better (key r) (key (pick better key first rs)) = false.
Proof.
  intros Htr Has Hir. induction rs as [|x rs IH] using rev_ind.
  { cbn. split; [by left|]. by intros r ->%list_elem_of_singleton. }
  destruct IH as [Hin Hall]. unfold pick in *. rewrite fold_left_app. cbn [fold_left].
  set (best := fold_left _ rs first) in *.
  destruct (better (key x) (key best)) eqn:Hb; rewrite app_comm_cons; (split; [set_solver|]);
    intros r [Hr | ->%list_elem_of_singleton]%elem_of_app; try done; [|by auto].
  eapply Htr; [by apply Hall|]. by apply Has.
Qed.

Lemma ltb_false_trans a b c : dec_ltb a b = false → dec_ltb b c = false → dec_ltb a c = false.
Proof.
  unfold dec_ltb. rewrite !negb_false_iff. intros ? ?. by eapply dec_le_trans.
Qed.

Lemma ltb_asym a b : dec_ltb a b = true → dec_ltb b a = false.
Proof. intros Hlt. unfold dec_ltb. apply negb_false_iff, dec_lt_le, Hlt. Qed.

Lemma ltb_irrefl a : dec_ltb a a = false.
Proof. unfold dec_ltb. apply negb_false_iff. by destruct (dec_le_total a a). Qed.

Lemma pick_max_spec key first rs :
  pick_max key first rs ∈ first :: rs ∧
  ∀ r, r ∈ first :: rs → dec_leb (key r) (key (pick_max key first rs)) = true.
Proof.
  destruct (pick_spec (λ a b, dec_ltb b a) key first rs) as [Hin Hall].
  - intros a b c ? ?. by eapply ltb_false_trans.
  - intros a b. apply ltb_asym.
  - apply ltb_irrefl.
  - split; [done|]. intros r Hr. specialize (Hall r Hr). unfold dec_ltb in Hall.
    by apply negb_false_iff in Hall.
Qed.

Lemma pick_min_spec key first rs :
  pick_min key first rs ∈ first :: rs ∧
  ∀ r, r ∈ first :: rs → dec_leb (key (pick_min key first rs)) (key r) = true.
Proof.
  destruct (pick_spec dec_ltb key first rs ltb_false_trans ltb_asym ltb_irrefl) as [Hin Hall].
  split; [done|]. intros r Hr. specialize (Hall r Hr). unfold dec_ltb in Hall.
  by apply negb_false_iff in Hall.
Qed.

Lemma period_change_total columns first rest metric :
  (∀ r d, r ∈ first :: rest → _number (cell r metric) = Some d → ordinary d) →
  ∃ text, _period_change columns first rest metric = Ok text.
Proof.
  intros Hord. unfold _period_change. case_bool_decide; [eauto|]. destruct (_ || _); [eauto|].
  destruct (_number (cell first metric)) as [f|] eqn:Hf; [|eauto].
  destruct (_number (cell (List.last rest first) metric)) as [l|] eqn:Hl; [|eauto].
  apply change_total; [by eapply Hord, Hf; left|]. eapply Hord, Hl.
  destruct (rest) as [|x rest'] eqn:Hrest; [by left|]. right. rewrite <-Hrest in *.
  apply list_elem_of_In. assert (rest ≠ []) as Hne by congruence.
  destruct (exists_last Hne) as (l' & y & ->). rewrite List.last_last. apply in_or_app. right. by left.
Qed.
End Extremes.

(** C21: a description never raises for numbers of PostgreSQL's range, and
    with five rows or more it names as highest and lowest two of the returned
    rows that no other returned row exceeds or undercuts in the metric, which
    is a number in every row. *)
Theorem description_grounded : ∀ (U : PyUnicode) (T : PyText) columns rs truncated,
  (∀ r c d, r ∈ rs → c ∈ columns → _number (cell r c) = Some d → ordinary d) →
  ∃ text, describe_sql_result columns rs truncated = Ok text ∧
  ∀ metric first rest, rs = first :: rest → 4 < length rs → find_metric columns rs = Some metric →
    ∃ highest lowest change,
      highest ∈ rs ∧ lowest ∈ rs ∧
      (∀ r, r ∈ rs → ∃ d, _number (cell r metric) = Some d ∧
         dec_leb d (metric_value metric highest) = true ∧ dec_leb (metric_value metric lowest) d = true) ∧
      _period_change columns first rest metric = Ok change ∧
      text = "查询返回 " +:+ str_of_nat (length rs) +:+ " 行" +:+ "。在已返回数据中，" +:+ metric +:+ "最高的是"
        +:+ _label columns highest metric +:+ _text (cell highest metric) +:+ "，最低的是"
        +:+ _label columns lowest metric +:+ _text (cell lowest metric) +:+ "。" +:+ change +:+
        (if truncated then "结果已截断，上述描述仅基于返回的 " +:+ str_of_nat (length rs)
           +:+ " 行，不代表完整结果。" else "").
Proof.
  intros U T columns rs truncated Hord. unfold describe_sql_result. destruct rs as [|first rest].
  { eexists. split; [reflexivity|]. by intros. }
  set (rs := first :: rest) in *. destruct (find_metric columns rs) as [metric|] eqn:Hm.
  2:{ cbn [mbind result_bind]. eexists. split; [reflexivity|]. by intros. }
  pose proof (find_metric_spec _ _ _ Hm) as (Hin & _ & Hnum).
  destruct (period_change_total columns first rest metric) as [change Hchange].
  { intros r d Hr. by apply Hord. }
  assert (∃ c, (if rest is [] then Ok "" else _period_change columns first rest metric) = Ok c ∧
    (rest ≠ [] → c = change)) as (c & -> & Hc).
  { destruct rest; [by exists ""|]. exists change. by rewrite Hchange. }
  cbn [mbind result_bind]. eexists. split; [reflexivity|].
  intros metric' first' rest' [= <- <-] Hlen [= <-].
  destruct (pick_max_spec (metric_value metric) first rest) as [Hhi Hmax].
  destruct (pick_min_spec (metric_value metric) first rest) as [Hlo Hmin].
  exists (pick_max (metric_value metric) first rest), (pick_min (metric_value metric) first rest), change.
  split; [done|]. split; [done|]. split.
  { intros r Hr. destruct (Hnum r Hr) as (d & Hd & Hv). exists d. split; [done|]. rewrite <-Hv. auto. }
  split; [done|]. unfold rs in *. cbn [length] in *.
  rewrite Hc by (intros ->; cbn in Hlen; lia). unfold metric_answer.
  destruct rest as [|x rest]; [cbn in Hlen; lia|]. cbn [length] in *.
  destruct (Nat.leb_spec (S (S (length rest))) 4); [lia|]. unfold rows_text.
  destruct truncated; by rewrite ?str_app_assoc, ?str_app_nil_r.
Qed.

Lemma sublist_filter_bool {A} (f : A → bool) l : sublist (List.filter f l) l.
Proof. induction l as [|x l IH]; cbn; [constructor|]. destruct (f x); by constructor. Qed.

(** A chart is a table exactly when there is nothing to plot; otherwise its
    axis is the first column and its series are numeric columns of the rest. *)
Theorem chart_spec_sound : ∀ (U : PyUnicode) (T : PyText) columns rs,
  Forall (λ c, py_len c ≤ 160) columns →
  ∃ spec, build_chart_spec columns rs = Ok spec ∧
  (chart_kind spec = TableChart ↔ length columns < 2 ∨ rs = [] ∨ numeric_columns columns rs = []) ∧
  (chart_kind spec ≠ TableChart →
    chart_x spec = head columns ∧ chart_series spec ≠ [] ∧ length (chart_series spec) ≤ 3 ∧
    sublist (chart_series spec) (drop 1 columns) ∧
    (∀ c, c ∈ chart_series spec → ∃ r, r ∈ take 50 rs ∧ _is_number (cell r c) = true) ∧
    (chart_kind spec = Pie → length rs ≤ 8 ∧ length (chart_series spec) = 1)).
Proof.
  intros U T columns rs Hlen. unfold build_chart_spec.
  assert (ChartSpec_validate table_chart = Ok table_chart) as Htab by reflexivity.
  destruct columns as [|x [|y cols]]; [by rewrite Htab; eexists; split; [reflexivity|]; split;
    [split; [intros; left; cbn; lia|done]|done]..|].
  case_bool_decide as Hrs; [rewrite Htab; eexists; split; [reflexivity|]; split;
    [split; [intros; right; by left|done]|done]|].
  destruct (numeric_columns (x :: y :: cols) rs) as [|n ns] eqn:Hnum;
    [rewrite Htab; eexists; split; [reflexivity|]; split; [split; [intros; by repeat right|done]|done]|].
  apply Forall_cons in Hlen as [Hx _].
  assert (length (n :: ns) ≤ 3) as Hn3 by (rewrite <-Hnum; unfold numeric_columns; rewrite length_take; lia).
  set (kind := if has_marker _ x then Line else _).
  assert (ChartSpec_validate {| chart_kind := kind; chart_title := "分析结果"; chart_x := Some x; chart_series := n :: ns |}
    = Ok {| chart_kind := kind; chart_title := "分析结果"; chart_x := Some x; chart_series := n :: ns |}) as ->.
  { unfold ChartSpec_validate. cbn [chart_title chart_x chart_series fmap option_fmap option_map default].
    rewrite (proj2 (Nat.leb_le (py_len x) 160)) by done.
    rewrite (proj2 (Nat.leb_le (length (n :: ns)) 3)) by done. reflexivity. }
  eexists. split; [reflexivity|]. cbn [chart_kind chart_x chart_series head].
  assert (kind ≠ TableChart) as Hk by (unfold kind; destruct (has_marker _ _); [done|]; by destruct (_ && _)).
  split. { split; [done|]. intros [Hs|[?|?]]; [cbn in Hs; lia|done|done]. }
  intros _. split; [done|]. split; [done|]. split; [done|].
  assert (sublist (n :: ns) (List.filter (λ c, existsb (λ r, _is_number (cell r c)) (take 50 rs)) (y :: cols))) as Hsub.
  { rewrite <-Hnum. unfold numeric_columns. apply sublist_take. }
  split; [etrans; [exact Hsub|]; apply sublist_filter_bool|]. split.
  - intros c Hc. assert (c ∈ List.filter (λ c, existsb (λ r, _is_number (cell r c)) (take 50 rs)) (y :: cols)) as Hin
      by by eapply elem_of_sublist.
    apply list_elem_of_In, List.filter_In in Hin as [_ Hex]. apply existsb_exists in Hex as (r & Hr & Hv).
    exists r. by rewrite list_elem_of_In.
  - unfold kind. destruct (has_marker _ _); [done|]. destruct (_ && _) eqn:E; [|done]. intros _.
    apply andb_true_iff in E as [E1%Nat.leb_le E2%Nat.eqb_eq]. done.
Qed.

Definition demo_row (month : string) (total : pyval) : row := [("order_month", PStr month); ("total", total)].
Definition demo_rows : list row :=
  [demo_row "2024-01" (PStr "100.00"); demo_row "2024-02" (PInt 80); demo_row "2024-03" (PFloat "12.5");
   demo_row "2024-04" (PStr "250"); demo_row "2024-05" (PStr "133.333")].

Example describe_five_rows :
  describe_sql_result ["order_month"; "total"] demo_rows true =
  Ok ("查询返回 5 行。在已返回数据中，total最高的是order_month=2024-04的250，最低的是order_month=2024-03的12.5。" +:+
      "从首期到末期，total增长 33.333，约 33.33%（仅比较返回的首末期）。" +:+
      "结果已截断，上述描述仅基于返回的 5 行，不代表完整结果。").
Proof. vm_compute. reflexivity. Qed.

Example chart_five_rows :
  build_chart_spec ["order_month"; "total"] demo_rows =
  Ok {| chart_kind := Line; chart_title := "分析结果"; chart_x := Some "order_month"; chart_series := ["total"] |}.
Proof. vm_compute. reflexivity. Qed.

Lemma small_ordinary d :
  (0 ≤ d_coef d < 10 ^ precision)%Z → (-100 ≤ d_exp d ≤ 100)%Z → ordinary d.
Proof.
  intros Hc He. split; [|unfold digit_limit; lia]. split; [lia|].
  eapply Z.lt_le_trans; [apply Hc|]. apply Z.pow_le_mono_r; [lia|]. unfold digit_limit, precision. lia.
Qed.

Definition small_dec (d : dec) : bool :=
  ((0 <=? d_coef d) && (d_coef d <? 10 ^ precision) && (-100 <=? d_exp d) && (d_exp d <=? 100))%Z.

Lemma small_dec_ordinary d : small_dec d = true → ordinary d.
Proof.
  unfold small_dec. rewrite !andb_true_iff, Z.ltb_lt, !Z.leb_le. intros [[[? ?] ?] ?]. by apply small_ordinary.
Qed.

Definition small_cells (columns : list string) (rs : list row) : bool :=
  forallb (λ r, forallb (λ c, if _number (cell r c) is Some d then small_dec d else true) columns) rs.

Lemma small_cells_ordinary columns rs :
  small_cells columns rs = true →
  ∀ r c d, r ∈ rs → c ∈ columns → _number (cell r c) = Some d → ordinary d.
Proof.
  unfold small_cells. rewrite list_forallb_spec. intros Hall r c d Hr Hc Hd.
  specialize (Hall r Hr). rewrite list_forallb_spec in Hall. specialize (Hall c Hc).
  rewrite Hd in Hall. by apply small_dec_ordinary.
Qed.

Lemma description_grounded_witness :
  ∃ text highest lowest, describe_sql_result ["order_month"; "total"] demo_rows false = Ok text ∧
    highest ∈ demo_rows ∧ lowest ∈ demo_rows ∧
    dec_leb (metric_value "total" lowest) (metric_value "total" highest) = true.
Proof.
  destruct (description_grounded demo_unicode demo_text ["order_month"; "total"] demo_rows false
    ltac:(apply small_cells_ordinary; vm_compute; reflexivity)) as (text & Htext & Hext).
  assert (find_metric ["order_month"; "total"] demo_rows = Some "total") as Hm by (vm_compute; reflexivity).
  assert (4 < length demo_rows) as Hn by (vm_compute; lia).
  destruct (Hext "total" (List.hd [] demo_rows) (List.tl demo_rows)) as (hi & lo & change & Hhi & Hlo & Hall & _);
    [reflexivity|exact Hn|exact Hm|].
  exists text, hi, lo. split; [exact Htext|]. split; [exact Hhi|]. split; [exact Hlo|].
  destruct (Hall hi Hhi) as (d & Hd & _ & H). unfold metric_value at 2. rewrite Hd. exact H.
Defined.

Lemma period_change_exact_witness :
  let text := "从首期到末期，total增长 33.333，约 33.33%（仅比较返回的首末期）。" in
  change_text "total" (demo_dec "100.00") (demo_dec "133.333") = Ok text ∧
  ∃ word amount shown relative,
    text = "从首期到末期，" +:+ "total" +:+ word +:+ " " +:+ amount +:+ relative +:+ "（仅比较返回的首末期）。" ∧
    (word = "增长" ↔ dec_ltb (demo_dec "100.00") (demo_dec "133.333") = true) ∧
    Decimal amount = Some (inl shown).
Proof.
  intros text. assert (change_text "total" (demo_dec "100.00") (demo_dec "133.333") = Ok text) as Ht
    by (vm_compute; reflexivity).
  split; [exact Ht|].
  destruct (period_change_exact demo_text "total" (demo_dec "100.00") (demo_dec "133.333") text
    ltac:(vm_compute; reflexivity) ltac:(vm_compute; split; discriminate) Ht)
    as (word & amount & shown & relative & H1 & H2 & _ & _ & H5 & _).
  exists word, amount, shown, relative. split; [exact H1|]. split; [exact H2|exact H5].
Defined.

Lemma chart_spec_sound_witness :
  ∃ spec, build_chart_spec ["order_month"; "total"] demo_rows = Ok spec ∧ chart_series spec = ["total"] ∧
    sublist (chart_series spec) ["total"].
Proof.
  destruct (chart_spec_sound demo_unicode demo_text ["order_month"; "total"] demo_rows) as (spec & Hs & _ & Hk).
  { apply (bool_decide_unpack _). vm_compute. exact I. }
  exists spec. rewrite chart_five_rows in Hs. injection Hs as <-.
  split; [exact chart_five_rows|]. split; [reflexivity|]. by apply Hk.
Defined.

(** A text column can hold a numeral that [Decimal] reads but that the
    context cannot subtract: the overflow is not caught. *)
Example huge_numerals_overflow :
  describe_sql_result ["order_month"; "total"]
    [demo_row "2024-01" (PStr "-9e999999"); demo_row "2024-02" (PStr "9e999999")] false
  = Err decimal_overflow.
Proof. vm_compute. reflexivity. Qed.
