(* ===== verification/NorthwindActions.v ===== *)
(** * The production actions: [NorthwindAgentActions] of [app/agent/actions.py]

    The eight actions of the workflow over the model client, the retrieval
    service, the introspector, the guard, the planner and the executor, as an
    instance of the interface that the graph runs.  The nodes run in worker
    threads, so [_run] finds no running event loop.  Snapshots, policies,
    plans and guarded queries are kept in the state as the models they dump
    and validate back to; a policy and a guarded query are validated again
    where the code does. *)

From S2P Require Import Prelude PyStr Floats Errors Json Metadata Policy SqlGuard Numbers.
From S2P Require Import DataSources Executor SafeQuery StructuredLLM QuestionGuard NL2SQL.
From S2P Require Import AgentState AgentGraph.
From S2P Require Import Parsing Embeddings KnowledgeRepository RetrievalService JsonText GraphService.
From S2P Require Import PyText Decimal Answering.

(** ** The collaborators *)

Class NorthwindEnv (W : Type) := {
  nw_llm :: ModelClient W;
  nw_retrieve : string → string → RetrievalMode → op W exn RetrievalResult;
  nw_introspect : DataSourceConfig → op W exn SchemaSnapshot;
  nw_estimate : GuardedQuery → DataSourceConfig → op W exn QueryCostEstimate;
  nw_execute : GuardedQuery → DataSourceConfig → QueryPolicy → op W exn QueryExecutionResult
}.

Inductive nw_call :=
| CallModel (messages : list LLMMessage)
| CallRetrieve (tenant query : string) (mode : RetrievalMode)
| CallInspect (source : DataSourceConfig)
| CallEstimate (query : GuardedQuery)
| CallExecute (query : GuardedQuery) (policy : QueryPolicy).

Record ConfidentTableSelection := { cs_tables : list string; cs_confidence : float }.

Record northwind := {
  nw_data_source : DataSourceConfig; nw_max_total_cost : float; nw_max_plan_rows : Z;
  nw_minimum_confidence : float; nw_controlled_columns : list string }.

Definition default_controlled_columns : list string :=
  ["customers.contact_name"; "employees.first_name"; "employees.last_name"].

(** [state[key]]. *)
Definition state_key {A} (o : option A) : result exn A :=
  match o with Some a => Ok a | None => Err KeyError end.

Section Actions.
Context `{PyUnicode, PyText, Digests, SqlGlot} {W : Type} `{NorthwindEnv W} (nw : northwind).
(** The pydantic classes of the two model replies, and [uuid.UUID(text)]. *)
Context (draft_model : ResponseModel NL2SQLDraft)
        (confident_model : list string → ResponseModel ConfidentTableSelection)
        (parse_uuid : string → result exn string).
Notation M := (eff W nw_call exn).
Implicit Types (s : AgentState).

Definition ask_actions {A} (rm : ResponseModel A) (items : prompt) : M (StructuredLLMResult A) :=
  ms ← lift_result (_messages items);
  invoke (CallModel ms) (ask rm ms).

(** ** classify *)

Definition knowledge_markers : list string := ["定义"; "口径"; "什么是"; "how is"; "definition"].

Definition blocked_update (reason : string) : update := {|
  up_intent := None; up_candidate_tables := None; up_selection_confidence := None;
  up_schema_snapshot := None; up_query_policy := None; up_metric_context := None;
  up_analysis_plan := None; up_sql := None; up_sql_fingerprint := None; up_guarded_query := None;
  up_sql_risk := Some Blocked; up_risk_reasons := Some [reason]; up_approval_decision := None;
  up_rows := None; up_columns := None; up_result_truncated := None; up_attempts := None;
  up_answer := None; up_citations := None; up_chart_spec := None;
  up_error_code := Some (Some reason) |}.

Definition intent_update (i : intent) : update := {|
  up_intent := Some i; up_candidate_tables := None; up_selection_confidence := None;
  up_schema_snapshot := None; up_query_policy := None; up_metric_context := None;
  up_analysis_plan := None; up_sql := None; up_sql_fingerprint := None; up_guarded_query := None;
  up_sql_risk := None; up_risk_reasons := None; up_approval_decision := None;
  up_rows := None; up_columns := None; up_result_truncated := None; up_attempts := None;
  up_answer := None; up_citations := None; up_chart_spec := None; up_error_code := Some None |}.

Definition nw_classify s : M update :=
  match QuestionGuard.inspect (st_question s) with
  | Err (NL2SQLPolicyError reason) => mret (blocked_update reason)
  | Err e => raise e
  | Ok question =>
      mret (intent_update (if existsb (λ m, contains m (lower question)) knowledge_markers
                           then IntentKnowledge else IntentHybrid))
  end.

(** ** retrieve_metrics *)

Definition context_entry (h : RetrievalHit) : pyval :=
  PDict [("content", PStr (hit_content h)); ("citation", PDict (dump_citation (hit_citation h)))].

Definition retrieve_update (context citations : list pyval) (error : option string) : update := {|
  up_intent := None; up_candidate_tables := None; up_selection_confidence := None;
  up_schema_snapshot := None; up_query_policy := None; up_metric_context := Some context;
  up_analysis_plan := None; up_sql := None; up_sql_fingerprint := None; up_guarded_query := None;
  up_sql_risk := None; up_risk_reasons := None; up_approval_decision := None;
  up_rows := None; up_columns := None; up_result_truncated := None; up_attempts := None;
  up_answer := None; up_citations := Some citations; up_chart_spec := None;
  up_error_code := Some error |}.

Definition nw_retrieve_metrics s : M update :=
  tenant ← lift_result (parse_uuid (st_tenant_id s));
  r ← invoke (CallRetrieve tenant (st_question s) Hybrid) (nw_retrieve tenant (st_question s) Hybrid);
  mret (retrieve_update (map context_entry (res_hits r))
    (map (λ c, PDict (dump_citation c)) (res_citations r))
    (if bool_decide (st_intent s = Some IntentKnowledge) && negb (res_should_answer r)
     then Some "RAG_INSUFFICIENT_EVIDENCE" else None)).

(** ** select_schema *)

Definition CONFIDENCE_REQUEST : string :=
  " Return a confidence number from 0 to 1 alongside the selected tables.".
Definition confident_messages (question : string) (snap : SchemaSnapshot) : prompt :=
  match selection_messages question snap with
  | (r, text) :: rest => (r, text +:+ CONFIDENCE_REQUEST) :: rest
  | [] => []
  end.

Definition CORRECTION : string :=
  dumps_ascii (PDict [("safe_error_code", PStr "NL2SQL_SCHEMA_SELECTION_FAILED");
    ("instruction", PStr ("Return unique exact unqualified table names " +:+
                          "from the original table_catalog, with a confidence number."))]).

(** The tables of one reply, or [SchemaSelectionError]. *)
Definition selected_tables_of (p : QueryPolicy) (selection : ConfidentTableSelection) :
    result exn (list string) :=
  selected ← normalize_reported_tables (cs_tables selection) (allowed_schema p);
  if bool_decide (selected = [])
     || negb (bool_decide ((list_to_set selected : gset string) ⊆ allowed_tables p))
  then Err SchemaSelectionError else Ok selected.

Definition selection_error (e : exn) : exn :=
  match e with LLMInvalidResponseError _ => SchemaSelectionError | e => e end.

(** [for attempt in range(2)]: [corrections] attempts follow this one. *)
Fixpoint select_loop (corrections : nat) (rm : ResponseModel ConfidentTableSelection)
    (p : QueryPolicy) (items : prompt) : M (list string * float) :=
  reply ← try_except (ask_actions rm items) (λ e, raise (selection_error e));
  match selected_tables_of p (output reply) with
  | Ok selected => mret (selected, cs_confidence (output reply))
  | Err SchemaSelectionError =>
      match corrections with
      | O => raise SchemaSelectionError
      | S corrections => select_loop corrections rm p (items ++ [(User, CORRECTION)])
      end
  | Err e => raise e
  end.

Definition policy_limits : limits := {|
  l_max_rows := l_max_rows default_limits; l_max_columns := l_max_columns default_limits;
  l_max_result_bytes := l_max_result_bytes default_limits;
  l_max_total_cost := nw_max_total_cost nw; l_max_plan_rows := nw_max_plan_rows nw |}.

Definition schema_update (selected : list string) (confidence : float) (snap : SchemaSnapshot)
    (p : QueryPolicy) : update := {|
  up_intent := None; up_candidate_tables := Some selected;
  up_selection_confidence := Some confidence;
  up_schema_snapshot := Some snap; up_query_policy := Some p; up_metric_context := None;
  up_analysis_plan := None; up_sql := None; up_sql_fingerprint := None; up_guarded_query := None;
  up_sql_risk := None; up_risk_reasons := None; up_approval_decision := None;
  up_rows := None; up_columns := None; up_result_truncated := None; up_attempts := None;
  up_answer := None; up_citations := None; up_chart_spec := None; up_error_code := None |}.

Definition nw_select_schema s : M update :=
  snap ← invoke (CallInspect (nw_data_source nw)) (nw_introspect (nw_data_source nw));
  p ← lift_result (from_snapshot snap policy_limits);
  literals ← lift_result (selection_names (allowed_tables p) (allowed_schema p));
  '(selected, confidence) ←
    select_loop 1 (confident_model literals) p (confident_messages (st_question s) snap);
  restricted ← lift_result (restrict_to_tables p (list_to_set selected));
  mret (schema_update selected confidence snap restricted).

(** ** generate_sql *)

Definition sql_update (d : NL2SQLDraft) (attempts : Z) : update := {|
  up_intent := None; up_candidate_tables := None; up_selection_confidence := None;
  up_schema_snapshot := None; up_query_policy := None; up_metric_context := None;
  up_analysis_plan := Some (analysis_plan d); up_sql := Some (draft_sql d);
  up_sql_fingerprint := None; up_guarded_query := None;
  up_sql_risk := None; up_risk_reasons := None; up_approval_decision := None;
  up_rows := None; up_columns := None; up_result_truncated := None; up_attempts := Some attempts;
  up_answer := None; up_citations := None; up_chart_spec := None; up_error_code := Some None |}.

Definition generation_prompt s (base : prompt) : prompt :=
  match truthy (st_sql s), truthy (st_error_code s) with
  | Some previous, Some error => repair_messages base previous error
  | _, _ => base
  end.

Definition nw_generate_sql s : M update :=
  snap ← lift_result (state_key (st_schema_snapshot s));
  p ← lift_result (state_key (st_query_policy s) ≫= QueryPolicy_validate);
  base ← lift_result (generation_messages (st_question s) snap (st_candidate_tables s) p);
  reply ← ask_actions draft_model (generation_prompt s base);
  reported ← lift_result (normalize_reported_tables (tables_used (output reply)) (allowed_schema p));
  if forallb (λ t, mem t (st_candidate_tables s)) reported
  then mret (sql_update (output reply) (st_attempts s + 1))
  else raise SchemaSelectionError.

(** ** guard_sql *)

(** [parse_one(sql, read="postgres")]: the first statement of [parse], a
    [ParseError] when there is none. *)
Definition parse_one (q : string) : result exn SqlGuard.node :=
  l ← parse q;
  match l with Some n :: _ => Ok n | _ => Err (OtherException "ParseError") end.

(** [{table.alias_or_name: table.name for table in ...}]. *)
Definition table_aliases (statement : SqlGuard.node) : list (string * string) :=
  dict_of (map (λ t, (alias_or_name (node_attrs t), name (node_attrs t))) (find_all Table statement)).
Definition column_reference (aliases : list (string * string)) (c : SqlGuard.node) : string :=
  let a := node_attrs c in
  let t := default (column_table a) (dict_get (column_table a) aliases) in
  if String.eqb t "" then "" else t +:+ "." +:+ name a.
Definition controlled_in (statement : SqlGuard.node) : list string :=
  List.filter (λ q, mem q (nw_controlled_columns nw))
    (map (column_reference (table_aliases statement)) (find_all Column statement)).
Definition _controlled_references (q : string) : result exn (gset string) :=
  statement ← parse_one q;
  Ok (list_to_set (controlled_in statement)).

Definition repair_update (reason : string) : update := {|
  up_intent := None; up_candidate_tables := None; up_selection_confidence := None;
  up_schema_snapshot := None; up_query_policy := None; up_metric_context := None;
  up_analysis_plan := None; up_sql := None; up_sql_fingerprint := None; up_guarded_query := None;
  up_sql_risk := Some Repair; up_risk_reasons := Some [reason]; up_approval_decision := None;
  up_rows := None; up_columns := None; up_result_truncated := None; up_attempts := None;
  up_answer := None; up_citations := None; up_chart_spec := None;
  up_error_code := Some (Some reason) |}.

Definition guarded_update (g : GuardedQuery) (reasons : list string) : update := {|
  up_intent := None; up_candidate_tables := None; up_selection_confidence := None;
  up_schema_snapshot := None; up_query_policy := None; up_metric_context := None;
  up_analysis_plan := None; up_sql := None; up_sql_fingerprint := Some (query_fingerprint g);
  up_guarded_query := Some g;
  up_sql_risk := Some (match reasons with [] => Safe | _ => Approval end);
  up_risk_reasons := Some reasons; up_approval_decision := None;
  up_rows := None; up_columns := None; up_result_truncated := None; up_attempts := None;
  up_answer := None; up_citations := None; up_chart_spec := None; up_error_code := Some None |}.

Definition when (b : bool) (reason : string) : list string := if b then [reason] else [].
Definition low_confidence s : bool :=
  fltb (default (f_of_Z 1) (st_selection_confidence s)) (nw_minimum_confidence nw).
Definition approval_reasons s (p : QueryPolicy) (e : QueryCostEstimate) (controlled : gset string) :
    list string :=
  when (fltb (max_total_cost p) (total_cost e)) "TOTAL_COST_LIMIT_EXCEEDED"
  ++ when (max_plan_rows p <? plan_rows e)%Z "PLAN_ROWS_LIMIT_EXCEEDED"
  ++ when (negb (bool_decide (controlled = ∅))) "CONTROLLED_SENSITIVE_COLUMN"
  ++ when (low_confidence s) "LOW_MODEL_CONFIDENCE".

Definition nw_guard_sql s : M update :=
  p ← lift_result (state_key (st_query_policy s) ≫= QueryPolicy_validate);
  q ← lift_result (state_key (st_sql s));
  match SqlGuard.inspect q p with
  | Err (SQLPolicyViolationError reason) => mret (repair_update reason)
  | Err e => raise e
  | Ok g =>
      controlled ← lift_result (_controlled_references (normalized_sql g));
      e ← invoke (CallEstimate g) (nw_estimate g (nw_data_source nw));
      mret (guarded_update g (approval_reasons s p e controlled))
  end.

(** ** execute_sql, verify, compose *)

Definition result_update (r : QueryExecutionResult) : update := {|
  up_intent := None; up_candidate_tables := None; up_selection_confidence := None;
  up_schema_snapshot := None; up_query_policy := None; up_metric_context := None;
  up_analysis_plan := None; up_sql := None; up_sql_fingerprint := None; up_guarded_query := None;
  up_sql_risk := None; up_risk_reasons := None; up_approval_decision := None;
  up_rows := Some (rows r); up_columns := Some (result_columns r);
  up_result_truncated := Some (truncated r); up_attempts := None;
  up_answer := None; up_citations := None; up_chart_spec := None; up_error_code := Some None |}.

Definition nw_execute_sql s : M update :=
  g ← lift_result (state_key (st_guarded_query s) ≫= GuardedQuery_validate);
  p ← lift_result (state_key (st_query_policy s) ≫= QueryPolicy_validate);
  r ← invoke (CallExecute g p) (nw_execute g (nw_data_source nw) p);
  mret (result_update r).

Definition expected_of s : list string := from_option expected_columns [] (st_analysis_plan s).
Definition nw_verify s : M update :=
  mret (set_error
    (if negb (bool_decide (expected_of s = [])) && negb (forallb (λ c, mem c (st_columns s)) (expected_of s))
     then Some "RESULT_COLUMNS_MISMATCH" else None)).

Definition answer_update (answer : string) (chart : option pyval) (error : option (option string)) : update := {|
  up_intent := None; up_candidate_tables := None; up_selection_confidence := None;
  up_schema_snapshot := None; up_query_policy := None; up_metric_context := None;
  up_analysis_plan := None; up_sql := None; up_sql_fingerprint := None; up_guarded_query := None;
  up_sql_risk := None; up_risk_reasons := None; up_approval_decision := None;
  up_rows := None; up_columns := None; up_result_truncated := None; up_attempts := None;
  up_answer := Some answer; up_citations := None; up_chart_spec := chart; up_error_code := error |}.

Definition INSUFFICIENT_EVIDENCE : string :=
  "The metric knowledge base does not contain enough evidence to answer.".

(** [evidence[0]["content"] if evidence else ""]; [retrieve_metrics] stores
    texts there. *)
Definition first_content (evidence : list pyval) : result exn string :=
  match evidence with
  | [] => Ok ""
  | PDict d :: _ =>
      match dict_get "content" d with
      | Some (PStr t) => Ok t
      | Some _ => Err TypeError
      | None => Err KeyError
      end
  | _ :: _ => Err TypeError
  end.

Definition composed_answer s : result exn string :=
  if bool_decide (st_intent s = Some IntentKnowledge) then first_content (st_metric_context s)
  else describe_sql_result (st_columns s) (st_rows s) (st_result_truncated s).

Definition nw_compose s : M update :=
  if bool_decide (st_error_code s = Some "RAG_INSUFFICIENT_EVIDENCE")
  then mret (answer_update INSUFFICIENT_EVIDENCE None (Some None))
  else if truthy (st_error_code s) is Some _ then mret (answer_update "" None None)
  else
    answer ← lift_result (composed_answer s);
    spec ← lift_result (build_chart_spec (st_columns s) (st_rows s));
    mret (answer_update answer (Some (dump_chart spec)) None).

#[export] Instance NorthwindAgentActions : AgentActions W := {|
  classify s := as_op (nw_classify s);
  retrieve_metrics s := as_op (nw_retrieve_metrics s);
  select_schema s := as_op (nw_select_schema s);
  generate_sql s := as_op (nw_generate_sql s);
  guard_sql s := as_op (nw_guard_sql s);
  execute_sql s := as_op (nw_execute_sql s);
  verify s := as_op (nw_verify s);
  compose s := as_op (nw_compose s)
|}.
End Actions.

(** ** The contract of the graph *)

Lemma yields_as_op {W C A} (P : A → Prop) (m : eff W C exn A) w w' a :
  yields P (λ _, True) m → as_op m w = (w', Ok a) → P a.
Proof.
  intros Hm. specialize (Hm w). unfold as_op, outcome in *. destruct (m w) as [[w1 t] r]. cbn in Hm.
  by intros [= _ ->].
Qed.

Lemma yields_any {W C A} (m : eff W C exn A) : yields (λ _, True) (λ _, True) m.
Proof. intros w. by destruct (outcome m w). Qed.

Lemma yields_lift {W C A} (r : result exn A) (P : A → Prop) :
  (∀ a, r = Ok a → P a) → yields P (λ _, True) (lift_result r : eff W C exn A).
Proof. intros HP. apply sat_lift. destruct r; auto. Qed.

Lemma yields_step {W C A B} (m : eff W C exn A) (f : A → eff W C exn B) (P : B → Prop) :
  (∀ a, yields P (λ _, True) (f a)) → yields P (λ _, True) (m ≫= f).
Proof. intros Hf. eapply yields_bind; [apply yields_any|]. auto. Qed.

Section Contract.
Context `{PyUnicode, PyText, Digests, SqlGlot} {W : Type} `{NorthwindEnv W} (nw : northwind).
Context (draft_model : ResponseModel NL2SQLDraft)
        (confident_model : list string → ResponseModel ConfidentTableSelection)
        (parse_uuid : string → result exn string).
Notation M := (eff W nw_call exn).
Implicit Types (s : AgentState).

(** What the guard node has established about a query it lets through: the
    policy and the SQL of the state, and the planner's reply. *)
Definition guard_vetted s (u : update) : Prop :=
  ∃ p q g controlled e w w',
    st_query_policy s = Some p ∧ policy_valid p = true ∧ st_sql s = Some q ∧
    SqlGuard.inspect q p = Ok g ∧ _controlled_references nw (normalized_sql g) = Ok controlled ∧
    nw_estimate g (nw_data_source nw) w = (w', Ok e) ∧
    u = guarded_update g (approval_reasons nw s p e controlled).

Lemma QueryPolicy_validate_Ok p p' : QueryPolicy_validate p = Ok p' ↔ p' = p ∧ policy_valid p = true.
Proof. unfold QueryPolicy_validate. destruct (policy_valid p); naive_solver. Qed.

Lemma state_policy s p :
  (state_key (st_query_policy s) ≫= QueryPolicy_validate) = Ok p →
  st_query_policy s = Some p ∧ policy_valid p = true.
Proof.
  unfold state_key. destruct (st_query_policy s) as [p0|]; [|done]. cbn.
  by intros [-> ?]%QueryPolicy_validate_Ok.
Qed.

Lemma guard_yields s :
  yields (λ u, up_attempts u = None ∧ up_approval_decision u = None ∧
     (up_sql_risk u = Some Repair ∨
      (up_sql_risk u = Some Safe ∨ up_sql_risk u = Some Approval) ∧ guard_vetted s u))
    (λ _, True) (nw_guard_sql (W := W) nw s).
Proof.
  unfold nw_guard_sql. eapply yields_bind; [apply yields_lift, state_policy|]. intros p [Hp Hv].
  eapply yields_bind; [apply (yields_lift _ (λ q, st_sql s = Some q))|].
  { intros q. unfold state_key. destruct (st_sql s); by intros [= <-]. }
  intros q Hq. destruct (SqlGuard.inspect q p) as [g|e] eqn:Hg.
  - eapply yields_bind; [apply (yields_lift _ (λ c, _controlled_references nw (normalized_sql g) = Ok c)); auto|].
    intros controlled Hc. unfold yields. apply sat_bind, sat_invoke_op. intros w w' [e|e] He; [|done].
    apply sat_ret. split_and!; [done|done|]. right. split; [cbn; destruct (approval_reasons _ _ _ _ _); auto|].
    exists p, q, g, controlled, e, w, w'. done.
  - destruct e; try by apply yields_raise. apply yields_ret. cbn. auto.
Qed.

Lemma quiet_yields_ret (u : update) : quiet u → yields quiet (λ _, True) (mret u : M update).
Proof. intros Hu. by apply yields_ret. Qed.

Lemma classify_yields s :
  yields (λ u, up_attempts u = None ∧ up_approval_decision u = None ∧
     (up_sql_risk u = Some Blocked ∨ up_sql_risk u = None)) (λ _, True) (nw_classify (W := W) s).
Proof.
  unfold nw_classify. destruct (QuestionGuard.inspect _) as [q|e]; [apply yields_ret; cbn; auto|].
  destruct e; first [by apply yields_raise|apply yields_ret; cbn; auto].
Qed.

Lemma generate_yields s :
  yields (λ u, up_attempts u = Some (st_attempts s + 1)%Z ∧ up_sql_risk u = None ∧
     up_approval_decision u = None) (λ _, True) (nw_generate_sql (W := W) draft_model s).
Proof.
  unfold nw_generate_sql. do 5 (apply yields_step; intros ?). destruct (forallb _ _); [by apply yields_ret|].
  by apply yields_raise.
Qed.

Lemma select_yields s :
  yields quiet (λ _, True) (nw_select_schema (W := W) nw confident_model s).
Proof.
  unfold nw_select_schema. do 3 (apply yields_step; intros ?). apply yields_step. intros [selected confidence].
  apply yields_step. intros restricted. by apply quiet_yields_ret.
Qed.

#[export] Instance NorthwindActionsOk :
  @AgentActionsOk W (NorthwindAgentActions nw draft_model confident_model parse_uuid).
Proof.
  refine {| vetted := guard_vetted |}; cbn; intros s w w' u Hu.
  - exact (yields_as_op _ _ _ _ _ (classify_yields s) Hu).
  - refine (yields_as_op quiet _ _ _ _ _ Hu). unfold nw_retrieve_metrics.
    do 2 (apply yields_step; intros ?). by apply quiet_yields_ret.
  - exact (yields_as_op _ _ _ _ _ (select_yields s) Hu).
  - exact (yields_as_op _ _ _ _ _ (generate_yields s) Hu).
  - exact (yields_as_op _ _ _ _ _ (guard_yields s) Hu).
  - refine (yields_as_op quiet _ _ _ _ _ Hu). unfold nw_execute_sql.
    do 3 (apply yields_step; intros ?). by apply quiet_yields_ret.
  - by injection Hu as _ <-.
  - refine (yields_as_op quiet _ _ _ _ _ Hu). unfold nw_compose.
    case_bool_decide; [by apply quiet_yields_ret|]. destruct (truthy _); [by apply quiet_yields_ret|].
    do 2 (apply yields_step; intros ?). by apply quiet_yields_ret.
Defined.
End Contract.

(** ** Executed queries *)

Lemma when_nil b reason : when b reason = [] ↔ b = false.
Proof. by destruct b. Qed.

Lemma app_nil_iff {A} (l k : list A) : l ++ k = [] ↔ l = [] ∧ k = [].
Proof. split; [by intros [-> ->]%app_nil|by intros [-> ->]]. Qed.

(** No reason for an approval: the estimate is within the policy, no
    controlled column is read and the selection was confident. *)
Definition within_limits (nw : northwind) (s : AgentState) (p : QueryPolicy) (e : QueryCostEstimate)
    (controlled : gset string) : Prop :=
  fltb (max_total_cost p) (total_cost e) = false ∧ (plan_rows e ≤ max_plan_rows p)%Z ∧
  controlled = ∅ ∧ low_confidence nw s = false.

Lemma approval_reasons_nil nw s p e controlled :
  approval_reasons nw s p e controlled = [] ↔ within_limits nw s p e controlled.
Proof.
  unfold approval_reasons, within_limits. rewrite !app_nil_iff, !when_nil, Z.ltb_ge, negb_false_iff.
  by rewrite bool_decide_eq_true.
Qed.

(** What is known of a state in which SQL is executed. *)
Definition executable `{PyUnicode, Digests, SqlGlot} {W} `{NorthwindEnv W} (nw : northwind) (s : AgentState) : Prop :=
  ∃ p q g controlled e w w',
    st_query_policy s = Some p ∧ policy_valid p = true ∧
    st_sql s = Some q ∧ SqlGuard.inspect q p = Ok g ∧ st_guarded_query s = Some g ∧
    st_sql_fingerprint s = Some (query_fingerprint g) ∧
    _controlled_references nw (normalized_sql g) = Ok controlled ∧
    nw_estimate g (nw_data_source nw) w = (w', Ok e) ∧
    (st_approval_decision s = Some Approved ∨ within_limits nw s p e controlled) ∧
    sat (nw_execute_sql (W := W) nw s) (λ t _, ∀ c, c ∈ t → c = CallExecute g p).

Lemma execute_calls `{PyUnicode, Digests, SqlGlot} {W} `{NorthwindEnv W} nw s p g :
  st_query_policy s = Some p → st_guarded_query s = Some g →
  sat (nw_execute_sql (W := W) nw s) (λ t _, ∀ c, c ∈ t → c = CallExecute g p).
Proof.
  intros Hp Hg. unfold nw_execute_sql. rewrite Hp, Hg. cbn [state_key mbind result_bind].
  apply sat_guard; [|by intros e _ c ?%elem_of_nil]. unfold GuardedQuery_validate.
  intros g' Hg'. destruct (_ && _)%Z; [|done]. injection Hg' as <-.
  apply sat_guard; [|by intros e _ c ?%elem_of_nil]. intros p' [-> _]%QueryPolicy_validate_Ok.
  apply sat_bind, sat_invoke. intros [r|e].
  - apply sat_ret. by intros c ->%list_elem_of_singleton.
  - by intros c ->%list_elem_of_singleton.
Qed.

Lemma cleared_executable `{PyUnicode, PyText, Digests, SqlGlot} {W} `{NorthwindEnv W} nw dm cm pu s :
  @cleared W _ (NorthwindActionsOk (W := W) nw dm cm pu) s → executable (W := W) nw s.
Proof.
  intros (s0 & u & (p & q & g & controlled & e & w & w' & Hp & Hv & Hq & Hg & Hc & He & ->) & Hs).
  exists p, q, g, controlled, e, w, w'.
  assert (st_query_policy s = Some p ∧ st_sql s = Some q ∧ st_guarded_query s = Some g ∧
    st_sql_fingerprint s = Some (query_fingerprint g) ∧
    (st_approval_decision s = Some Approved ∨ within_limits nw s p e controlled))
    as (Hp' & Hq' & Hg' & Hf' & Hd); [|split_and!; try done; by apply execute_calls].
  destruct Hs as [[Hr ->]|[Hr ->]]; cbn; rewrite Hp, Hq; split_and!; try done; [|by left].
  right. cbn in Hr. destruct (approval_reasons _ _ _ _ _) eqn:Ha; [|done].
  by apply approval_reasons_nil in Ha.
Qed.

(** C6: in a run of the production actions, whichever node it starts or
    resumes at, the executor is given nothing but the query the guard made of
    the state's SQL under the state's policy; the policy is valid, and the
    planner's estimate, the controlled columns and the model's confidence were
    within their limits, or an administrator approved. *)
Theorem northwind_executes_guarded : ∀ (U : PyUnicode) (T : PyText) (D : Digests) (S : SqlGlot) W
    (E : AgentEnv W) (N : NorthwindEnv W) nw dm cm pu max_repairs n s payload w state,
  max_repairs_ok max_repairs = true →
  @node_inv W _ (NorthwindActionsOk (W := W) nw dm cm pu) max_repairs n s →
  CallAction "execute_sql" state ∈
    trace (@run_graph D W E (NorthwindAgentActions (W := W) nw dm cm pu) max_repairs recursion_limit payload n s) w →
  executable (W := W) nw state.
Proof.
  intros U T D S W E N nw dm cm pu max_repairs n s payload w state Hm Hinv Hin.
  unfold max_repairs_ok, within in Hm. split_bools.
  pose proof (@run_graph_ok D W E _ (NorthwindActionsOk (W := W) nw dm cm pu) max_repairs ltac:(lia)
    recursion_limit payload n s Hinv w) as [Hcalls _ _].
  rewrite Forall_forall in Hcalls. apply (cleared_executable nw dm cm pu), (Hcalls _ Hin eq_refl).
Qed.

(** ** Table selection *)

Definition is_model_call (c : nw_call) : bool := match c with CallModel _ => true | _ => false end.

Section Selection.
Context `{PyUnicode, Digests} {W : Type} `{NorthwindEnv W}.
Notation M := (eff W nw_call exn).

Definition chosen (p : QueryPolicy) (selected : list string) : Prop :=
  selected ≠ [] ∧ NoDup selected ∧ (list_to_set selected : gset string) ⊆ allowed_tables p.

Lemma selected_tables_of_spec p selection :
  match selected_tables_of p selection with
  | Ok selected => chosen p selected
  | Err e => e = SchemaSelectionError
  end.
Proof.
  unfold selected_tables_of. destruct (normalize_reported_tables _ _) as [l|e] eqn:Hn; cbn [mbind result_bind].
  - destruct (_ || _) eqn:E; [done|]. apply orb_false_iff in E as [Hne Hsub].
    apply bool_decide_eq_false in Hne. apply negb_false_iff, bool_decide_eq_true in Hsub.
    split; [done|]. split; [|done]. unfold normalize_reported_tables in Hn.
    destruct (map_result _ _) as [l'|?]; [|done]. cbn in Hn.
    destruct (all_distinct l') eqn:Hd; [|done]. injection Hn as <-. by apply all_distinct_spec.
  - revert Hn. unfold normalize_reported_tables. destruct (map_result _ _) as [l'|e'] eqn:Hm; cbn.
    + destruct (all_distinct l'); [done|]. by intros [= <-].
    + intros [= <-]. apply map_result_Err in Hm as (t & _ & Ht). unfold normalize_table in Ht.
      destruct (split_on _ _) as [|x [|y [|]]]; [by injection Ht| | |by injection Ht].
      * destruct (String.eqb _ _); by simplify_eq.
      * destruct (_ && _); by simplify_eq.
Qed.

Lemma select_loop_spec rm p corrections : ∀ items,
  sat (select_loop (W := W) corrections rm p items) (λ t r,
    Forall (λ c, is_model_call c = true) t ∧ length t ≤ S corrections ∧
    ∀ selected confidence, r = Ok (selected, confidence) → chosen p selected).
Proof.
  assert (∀ items, sat (ask_actions (W := W) rm items) (λ t _, Forall (λ c, is_model_call c = true) t ∧ length t ≤ 1))
    as Hask.
  { intros items. unfold ask_actions. apply sat_guard; [|intros; split; [constructor|cbn; lia]].
    intros ms _. apply sat_invoke. intros r. split; [by repeat constructor|done]. }
  induction corrections as [|n IH]; intros items; cbn [select_loop]; apply sat_bind, sat_try;
    refine (sat_conseq _ _ _ (Hask items) _); intros t [reply|e] [Ht Hlen];
    try (apply sat_raise; rewrite app_nil_r; split_and!; [done|lia|done]);
    pose proof (selected_tables_of_spec p (output reply)) as Hsel;
    destruct (selected_tables_of p (output reply)) as [selected|e].
  - apply sat_ret. rewrite app_nil_r. split_and!; [done|lia|]. by intros ? ? [= <- <-].
  - subst e. apply sat_raise. rewrite app_nil_r. split_and!; [done|lia|done].
  - apply sat_ret. rewrite app_nil_r. split_and!; [done|lia|]. by intros ? ? [= <- <-].
  - subst e. refine (sat_conseq _ _ _ (IH _) _). intros t' r (Ht' & Hlen' & Hr).
    split_and!; [by apply Forall_app|rewrite length_app; lia|done].
Qed.
End Selection.

(** Schema selection asks the model at most twice; what it stores is a
    non-empty list of distinct tables of the catalog's policy, and the policy
    it stores is that policy restricted to them: the restriction never
    fails. *)
Theorem select_schema_spec : ∀ (U : PyUnicode) (D : Digests) W (N : NorthwindEnv W) nw cm s,
  sat (nw_select_schema (W := W) nw cm s) (λ t r,
    (∃ asked, t = CallInspect (nw_data_source nw) :: asked ∧
       Forall (λ c, is_model_call c = true) asked ∧ length asked ≤ 2) ∧
    ∀ u, r = Ok u → ∃ snap p restricted selected confidence,
      from_snapshot snap (policy_limits nw) = Ok p ∧ chosen p selected ∧
      restrict_to_tables p (list_to_set selected) = Ok restricted ∧
      u = schema_update selected confidence snap restricted).
Proof.
  intros U D W N nw cm s. unfold nw_select_schema. apply sat_bind, sat_invoke.
  assert (∀ (t : list nw_call) (r : result exn update) e, t = [] → r = Err e →
    (∃ asked, [CallInspect (nw_data_source nw)] ++ t = CallInspect (nw_data_source nw) :: asked ∧
       Forall (λ c, is_model_call c = true) asked ∧ length asked ≤ 2) ∧
    ∀ u, r = Ok u → ∃ snap p restricted selected confidence,
      from_snapshot snap (policy_limits nw) = Ok p ∧ chosen p selected ∧
      restrict_to_tables p (list_to_set selected) = Ok restricted ∧
      u = schema_update selected confidence snap restricted) as Hstop.
  { intros t r e -> ->. split; [|done]. exists []. split; [done|]. split; [constructor|cbn; lia]. }
  intros [snap|e]; [|by apply (Hstop [] (Err e) e)].
  apply sat_guard; [|intros e _; by apply (Hstop [] (Err e) e)]. intros p Hp.
  apply sat_guard; [|intros e _; by apply (Hstop [] (Err e) e)]. intros literals _.
  apply sat_bind. refine (sat_conseq _ _ _ (select_loop_spec _ p 1 _) _).
  intros t [[selected confidence]|e] (Ht & Hlen & Hsel).
  2:{ split; [|done]. exists t. by split. }
  specialize (Hsel _ _ eq_refl). apply sat_guard.
  - intros restricted Hr. apply sat_ret. rewrite app_nil_r. split; [exists t; by split|].
    intros u [= <-]. by exists snap, p, restricted, selected, confidence.
  - intros e He. exfalso. destruct Hsel as (Hne & _ & Hsub). unfold restrict_to_tables in He.
    rewrite bool_decide_eq_false_2 in He; [|destruct selected; [done|set_solver]].
    by rewrite bool_decide_eq_true_2 in He.
Qed.

(** ** A run *)

Definition nw_demo_select : SqlGuard.node :=
  Node (plain_attrs [Query] EmptyString)
    [Node (plain_attrs [Table] "customers") [];
     Node {| classes := [Column]; name := "customer_id"; alias_or_name := "customer_id";
             sql_name := EmptyString; SqlGuard.db := EmptyString; catalog := EmptyString;
             column_table := "customers"; SqlGuard.kind := None; on_arg := None; has_using := false;
             with_recursive := None |} []].
#[program] Definition nw_demo_sqlglot : SqlGlot := {|
  parse _ := Ok [Some nw_demo_select]; qualify t _ _ := Ok t;
  sql _ := Ok "SELECT customers.customer_id FROM public.customers" |}.
Next Obligation. done. Qed.
Next Obligation. done. Qed.
Next Obligation. done. Qed.

Definition nw_demo_snapshot : SchemaSnapshot := {|
  format_version := "1.0"; source_id := "northwind"; Metadata.schema_name := "public"; Metadata.schema_version := "v";
  dataset_version := "1"; tables := [{| table_name := "customers"; table_comment := None;
    columns := [{| col_name := "customer_id"; ordinal_position := 1; data_type := "text";
                   nullable := false; col_comment := None |}];
    primary_key := None; foreign_keys := [] |}] |}.

Definition nw_demo_northwind : northwind := {|
  nw_data_source := demo_config; nw_max_total_cost := f_of_Z 10000; nw_max_plan_rows := 100000;
  nw_minimum_confidence := f_of_Z 0; nw_controlled_columns := default_controlled_columns |}.

(** The model replies with the value its class makes of the empty text. *)
Definition nw_demo_ask : ModelClient nat := λ A rm _ w, (w,
  match model_validate_json rm "" with
  | inl a => Ok {| output := a; provider := "demo"; model := "demo"; request_id := None;
                   attempts := 1; usage := no_usage |}
  | inr issues => Err (LLMInvalidResponseError issues)
  end).
Definition nw_demo_draft : ResponseModel NL2SQLDraft := {|
  model_name := "NL2SQLDraft"; model_json_schema := PDict [];
  model_validate_json _ := inl {| analysis_plan := {| summary := "list"; steps := ["list customers"];
      expected_columns := ["customer_id"] |};
    tables_used := ["customers"]; draft_sql := "SELECT customer_id FROM customers" |} |}.
Definition nw_demo_selection (names : list string) : ResponseModel ConfidentTableSelection := {|
  model_name := "ConfidentTableSelection"; model_json_schema := PDict [];
  model_validate_json _ := inl {| cs_tables := ["public.customers"]; cs_confidence := f_of_Z 1 |} |}.

Definition nw_demo_env : NorthwindEnv nat := {|
  nw_llm := nw_demo_ask;
  nw_retrieve _ q m w := (w, Ok {| res_query := q; res_mode := m; res_corpus_revision := "r";
    res_hits := []; res_citations := []; res_should_answer := false |});
  nw_introspect _ w := (w, Ok nw_demo_snapshot);
  nw_estimate _ _ w := (w, Ok {| total_cost := f_of_Z 10; plan_rows := 5 |});
  nw_execute _ _ _ w := (S w, Ok {| result_columns := ["customer_id"];
    rows := [[("customer_id", PStr "ALFKI")]; [("customer_id", PStr "ANATR")]];
    returned_row_count := 2; serialized_bytes := 100; truncated := false |}) |}.

Definition nw_demo_actions : AgentActions nat :=
  @NorthwindAgentActions demo_unicode demo_text demo_digests nw_demo_sqlglot nat nw_demo_env
    nw_demo_northwind nw_demo_draft nw_demo_selection Ok.
Definition nw_demo_state : AgentState := initial_state {|
  sr_run_id := "run"; sr_tenant_id := "tenant"; sr_user_id := "user"; sr_role := "ANALYST";
  sr_data_source_id := "source"; sr_trace_id := "0123456789abcdef"; sr_question := "list the customers" |}.
Definition nw_demo_run := @run_graph demo_digests nat demo_agent_env nw_demo_actions 2 recursion_limit
  None Classify nw_demo_state.

Example northwind_run :
  option_map st_answer (match outcome nw_demo_run 0 with Ok (Finished s) => Some s | _ => None end)
    = Some (Some "查询返回 2 行。首行：customer_id=ALFKI。") ∧
  world nw_demo_run 0 = 1.
Proof. split; vm_compute; reflexivity. Qed.

(** The states that the run executes SQL in. *)
Definition executed_states (t : list agent_call) : list AgentState :=
  omap (λ c, match c with CallAction n s => if String.eqb n "execute_sql" then Some s else None
                        | _ => None end) t.

Lemma northwind_executes_guarded_witness :
  length (executed_states (trace nw_demo_run 0)) = 1 ∧
  ∀ s, CallAction "execute_sql" s ∈ trace nw_demo_run 0 →
    @executable demo_unicode demo_digests nw_demo_sqlglot nat nw_demo_env nw_demo_northwind s.
Proof.
  split; [vm_compute; reflexivity|]. intros s Hs.
  apply (northwind_executes_guarded demo_unicode demo_text demo_digests nw_demo_sqlglot nat demo_agent_env
    nw_demo_env nw_demo_northwind nw_demo_draft nw_demo_selection Ok 2 Classify nw_demo_state None 0 s eq_refl).
  - split; [|reflexivity]. unfold attempts_within. cbn. lia.
  - exact Hs.
Defined.

(** Aliases are collected over the whole statement, the last one visited
    winning: in [SELECT c.contact_name FROM customers AS c WHERE EXISTS
    (SELECT 1 FROM orders AS c)] the inner [c] hides the outer one, and the
    controlled column is not noticed. *)
Definition aliased (cs : list node_class) (nm alias table : string) : attrs := {|
  classes := cs; name := nm; alias_or_name := alias; sql_name := EmptyString; SqlGuard.db := EmptyString;
  catalog := EmptyString; column_table := table; SqlGuard.kind := None; on_arg := None;
  has_using := false; with_recursive := None |}.
Definition shadowed_alias : SqlGuard.node :=
  Node (plain_attrs [Query] EmptyString)
    [Node (aliased [Column] "contact_name" "contact_name" "c") [];
     Node (aliased [Table] "customers" "c" EmptyString) [];
     Node (plain_attrs [Query] EmptyString) [Node (aliased [Table] "orders" "c" EmptyString) []]].

Example alias_shadowing_unnoticed :
  controlled_in nw_demo_northwind shadowed_alias = [] ∧
  controlled_in nw_demo_northwind
    (Node (plain_attrs [Query] EmptyString) (take 2 (children shadowed_alias))) = ["customers.contact_name"].
Proof. split; vm_compute; reflexivity. Qed.
