(* ===== verification/Base64.v ===== *)
(** * Base 64: [base64.b64decode(..., validate=True)] as [app/retrieval/api.py] uses it

    The strict decoder of the standard library: the alphabet of RFC 3548,
    complete groups of four, padding at the end only.  The encoder is the
    reference for the round trip. *)

From S2P Require Import Prelude PyStr Utf8.
From Stdlib Require Import Ascii String.

Definition pad_char : ascii := byte 61.

Definition sextet_of (c : ascii) : option N :=
  let n := N_of_ascii c in
  if is_upper_latin n then Some (n - 65)%N
  else if is_lower_latin n then Some (n - 71)%N
  else if is_digit n then Some (n + 4)%N
  else if (n =? 43)%N then Some 62%N
  else if (n =? 47)%N then Some 63%N
  else None.

Definition bytes2 (a b : N) : ascii := byte (a * 4 + b / 16).
Definition bytes3 (b c : N) : ascii := byte ((b mod 16) * 16 + c / 4).
Definition bytes4 (c d : N) : ascii := byte ((c mod 4) * 64 + d).

(** [None]: [binascii.Error]. *)
Fixpoint b64decode (s : string) : option string :=
  match s with
  | EmptyString => Some EmptyString
  | String c0 (String c1 (String c2 (String c3 rest))) =>
      a ← sextet_of c0;
      b ← sextet_of c1;
      match rest with
      | EmptyString =>
          if bool_decide (c3 = pad_char) then
            if bool_decide (c2 = pad_char) then Some (String (bytes2 a b) EmptyString)
            else c ← sextet_of c2; Some (String (bytes2 a b) (String (bytes3 b c) EmptyString))
          else
            c ← sextet_of c2;
            d ← sextet_of c3;
            Some (String (bytes2 a b) (String (bytes3 b c) (String (bytes4 c d) EmptyString)))
      | _ =>
          c ← sextet_of c2;
          d ← sextet_of c3;
          tail ← b64decode rest;
          Some (String (bytes2 a b) (String (bytes3 b c) (String (bytes4 c d) tail)))
      end
  | _ => None
  end.

(** ** The encoder *)

Definition char_of (n : N) : ascii :=
  if (n <? 26)%N then byte (n + 65)
  else if (n <? 52)%N then byte (n + 71)
  else if (n <? 62)%N then byte (n - 4)
  else if (n =? 62)%N then byte 43
  else byte 47.

Definition code0 (x : ascii) : ascii := char_of (N_of_ascii x / 4).
Definition code1 (x y : ascii) : ascii := char_of ((N_of_ascii x mod 4) * 16 + N_of_ascii y / 16).
Definition code2 (y z : ascii) : ascii := char_of ((N_of_ascii y mod 16) * 4 + N_of_ascii z / 64).
Definition code3 (z : ascii) : ascii := char_of (N_of_ascii z mod 64).

Fixpoint b64encode (p : string) : string :=
  match p with
  | EmptyString => EmptyString
  | String x EmptyString =>
      String (code0 x) (String (code1 x zero) (String pad_char (String pad_char EmptyString)))
  | String x (String y EmptyString) =>
      String (code0 x) (String (code1 x y) (String (code2 y zero) (String pad_char EmptyString)))
  | String x (String y (String z p)) =>
      String (code0 x) (String (code1 x y) (String (code2 y z) (String (code3 z) (b64encode p))))
  end.

(** ** Lemmas *)

Local Ltac div_lia := zify; Z.to_euclidean_division_equations; lia.

Lemma byte_N_of x : byte (N_of_ascii x) = x.
Proof. apply ascii_N_embedding. Qed.

Lemma byte_bound x : (N_of_ascii x < 256)%N.
Proof. destruct x as [[] [] [] [] [] [] [] []]; vm_compute; reflexivity. Qed.

Lemma sextets_below (P : N → bool) :
  forallb P (map N.of_nat (seq 0 64)) = true → ∀ n, (n < 64)%N → P n = true.
Proof.
  rewrite list_forallb_spec. intros Hall n Hn. apply Hall, elem_of_map. exists (N.to_nat n).
  split; [lia|]. apply elem_of_seq. lia.
Qed.

Lemma sextet_char n : (n < 64)%N → sextet_of (char_of n) = Some n.
Proof.
  intros Hn. apply (bool_decide_unpack _), Is_true_eq_left.
  revert n Hn. apply sextets_below. vm_compute. reflexivity.
Qed.

Lemma char_not_pad n : (n < 64)%N → char_of n ≠ pad_char.
Proof.
  intros Hn He. pose proof (sextet_char n Hn) as Hs. rewrite He in Hs. by vm_compute in Hs.
Qed.

Lemma code_bounds x y z :
  (N_of_ascii x / 4 < 64)%N ∧ ((N_of_ascii x mod 4) * 16 + N_of_ascii y / 16 < 64)%N ∧
  ((N_of_ascii y mod 16) * 4 + N_of_ascii z / 64 < 64)%N ∧ (N_of_ascii z mod 64 < 64)%N.
Proof.
  pose proof (byte_bound x). pose proof (byte_bound y). pose proof (byte_bound z).
  split_and!; div_lia.
Qed.

Lemma bytes2_code x y :
  bytes2 (N_of_ascii x / 4) ((N_of_ascii x mod 4) * 16 + N_of_ascii y / 16) = x.
Proof.
  unfold bytes2. rewrite <-(byte_N_of x) at 3. f_equal. pose proof (byte_bound y).
  div_lia.
Qed.

Lemma bytes3_code x y z :
  bytes3 ((N_of_ascii x mod 4) * 16 + N_of_ascii y / 16) ((N_of_ascii y mod 16) * 4 + N_of_ascii z / 64) = y.
Proof.
  unfold bytes3. rewrite <-(byte_N_of y) at 3. f_equal. pose proof (byte_bound y).
  pose proof (byte_bound z). div_lia.
Qed.

Lemma bytes4_code y z :
  bytes4 ((N_of_ascii y mod 16) * 4 + N_of_ascii z / 64) (N_of_ascii z mod 64) = z.
Proof.
  unfold bytes4. rewrite <-(byte_N_of z) at 3. f_equal. pose proof (byte_bound z).
  div_lia.
Qed.

Lemma sextet_pad : sextet_of pad_char = None.
Proof. reflexivity. Qed.

(** The unit of the decoder on a full group that is not the last one. *)
Lemma b64decode_group x y z p tail :
  b64decode p = Some tail →
  b64decode (String (code0 x) (String (code1 x y) (String (code2 y z) (String (code3 z) p))))
    = Some (String x (String y (String z tail))).
Proof.
  destruct (code_bounds x y z) as (H0 & H1 & H2 & H3). intros Hp.
  cbn [b64decode]. unfold code0, code1, code2, code3. rewrite !sextet_char by done. cbn [mbind option_bind].
  destruct p as [|c p].
  - injection Hp as <-. rewrite bool_decide_eq_false_2 by by apply char_not_pad.
    by rewrite bytes2_code, bytes3_code, bytes4_code.
  - rewrite Hp. cbn [mbind option_bind]. by rewrite bytes2_code, bytes3_code, bytes4_code.
Qed.

Lemma string_ind3 (P : string → Prop) :
  P EmptyString → (∀ x, P (String x EmptyString)) → (∀ x y, P (String x (String y EmptyString))) →
  (∀ x y z p, P p → P (String x (String y (String z p)))) → ∀ p, P p.
Proof.
  intros H0 H1 H2 H3. fix IH 1. intros [|x [|y [|z p]]]; [exact H0|apply H1|apply H2|apply H3, IH].
Qed.

Lemma decode_encode p : b64decode (b64encode p) = Some p.
Proof.
  induction p as [|x|x y|x y z p IH] using string_ind3.
  - done.
  - destruct (code_bounds x zero zero) as (H0 & H1 & _ & _).
    cbn [b64encode b64decode]. unfold code0, code1. rewrite !sextet_char by done. cbn [mbind option_bind].
    by rewrite !bool_decide_eq_true_2, bytes2_code.
  - destruct (code_bounds x y zero) as (H0 & H1 & H2 & _).
    cbn [b64encode b64decode]. unfold code0, code1, code2. rewrite !sextet_char by done.
    cbn [mbind option_bind]. rewrite bool_decide_eq_true_2 by done.
    rewrite bool_decide_eq_false_2 by by apply char_not_pad. by rewrite bytes2_code, bytes3_code.
  - cbn [b64encode]. by apply b64decode_group.
Qed.

(** Four characters carry at most three bytes. *)
Lemma b64decode_length s p :
  b64decode s = Some p → 4 * String.length p ≤ 3 * String.length s.
Proof.
  revert p. induction s as [s IH] using (induction_ltof1 _ String.length). unfold ltof in IH.
  destruct s as [|c0 [|c1 [|c2 [|c3 rest]]]]; try (intros p [=]; subst; cbn; lia).
  intros p. cbn [b64decode]. destruct (sextet_of c0), (sextet_of c1); cbn [mbind option_bind]; try done.
  destruct rest as [|c4 rest].
  - destruct (bool_decide (c3 = pad_char)), (bool_decide (c2 = pad_char));
      destruct (sextet_of c2), (sextet_of c3); cbn; intros [= <-]; cbn; lia.
  - destruct (sextet_of c2), (sextet_of c3); cbn [mbind option_bind]; try done.
    destruct (b64decode (String c4 rest)) as [tail|] eqn:E; [|done].
    intros [= <-]. apply IH in E; [|cbn; lia]. cbn [String.length] in *. lia.
Qed.

(** What decodes is ASCII, so it has as many characters as bytes. *)
Lemma sextet_ascii c n : sextet_of c = Some n → (N_of_ascii c < 128)%N.
Proof. destruct c as [[] [] [] [] [] [] [] []]; vm_compute; done. Qed.

Lemma py_len_ascii_only s : ascii_only s = true → py_len s = String.length s.
Proof.
  induction s as [|c s IH]; [done|]. cbn [ascii_only]. intros [Hc%N.ltb_lt Hs]%andb_true_iff.
  rewrite py_len_ascii by done. cbn [String.length]. by rewrite IH.
Qed.

Lemma b64decode_ascii s p : b64decode s = Some p → ascii_only s = true.
Proof.
  revert p. induction s as [s IH] using (induction_ltof1 _ String.length). unfold ltof in IH.
  destruct s as [|c0 [|c1 [|c2 [|c3 rest]]]]; try done. intros p. cbn [b64decode].
  destruct (sextet_of c0) eqn:E0, (sextet_of c1) eqn:E1; cbn [mbind option_bind]; try done.
  apply sextet_ascii, N.ltb_lt in E0, E1. cbn [ascii_only]. rewrite E0, E1. cbn [andb].
  assert (∀ n, sextet_of c2 = Some n → (N_of_ascii c2 <? 128)%N = true) as H2
    by (intros ? ?; by eapply N.ltb_lt, sextet_ascii).
  assert (∀ n, sextet_of c3 = Some n → (N_of_ascii c3 <? 128)%N = true) as H3
    by (intros ? ?; by eapply N.ltb_lt, sextet_ascii).
  destruct rest as [|c4 rest].
  - cbn [ascii_only]. rewrite andb_true_r.
    destruct (bool_decide_reflect (c3 = pad_char)) as [->|_].
    + destruct (bool_decide_reflect (c2 = pad_char)) as [->|_]; [done|].
      destruct (sextet_of c2); [|done]. intros _. by rewrite (H2 _ eq_refl).
    + destruct (sextet_of c2), (sextet_of c3); try done. intros _. by rewrite (H2 _ eq_refl), (H3 _ eq_refl).
  - destruct (sextet_of c2), (sextet_of c3); cbn [mbind option_bind]; try done.
    rewrite (H2 _ eq_refl), (H3 _ eq_refl). cbn [andb].
    destruct (b64decode (String c4 rest)) as [tail|] eqn:E; [|done]. intros _.
    by eapply IH; [cbn; lia|].
Qed.

Lemma b64decode_py_len s p : b64decode s = Some p → py_len s = String.length s.
Proof. intros H. by eapply py_len_ascii_only, b64decode_ascii. Qed.

Example b64decode_strict :
  b64decode "aGk=" = Some "hi" ∧ b64decode "aGk" = None ∧ b64decode "aG=k" = None
  ∧ b64decode "=aGk" = None ∧ b64decode "aGk=aGk=" = None ∧ b64decode "aGkh=" = None.
Proof. repeat split; reflexivity. Qed.
