(* ===== verification/KnowledgeApi.v ===== *)
(** * The HTTP handlers of the knowledge base and the graph:
      [app/retrieval/api.py], [app/knowledge_graph/api.py]

    Every endpoint with the dependencies FastAPI runs before it, in their
    order; a body that fails its model is the framework's 422.  An
    [HTTPException] keeps its status code; its detail text is fixed per
    handler and not modelled. *)

From S2P Require Import Prelude PyStr Errors Json Metadata Policy NL2SQL StructuredLLM AgentService.
From S2P Require Import Parsing Embeddings KnowledgeRepository RetrievalService.
From S2P Require Import GraphModels GraphStore GraphService Base64.

(** A request body against its model. *)
Definition body_ok {A} (ok : A → bool) (a : A) : result exn A :=
  if ok a then Ok a else Err (HTTPException 422).

(** [getattr(request.app.state, ..., None)], or 503. *)
Definition get_service {A} (service : option A) : result exn A :=
  match service with Some s => Ok s | None => Err (HTTPException 503) end.

Definition require_graph_admin (role : string) : result exn unit :=
  ensure (String.eqb role "ADMIN") (HTTPException 403).

(** ** Bodies *)

Record PathQuery := { pq_query : GraphQuery; pq_source : string; pq_target : string; pq_depth : Z }.
Definition PathQuery_ok (q : PathQuery) : bool :=
  GraphQuery_ok (pq_query q) && between 1 (py_len (pq_source q)) 80
  && between 1 (py_len (pq_target q)) 80 && within 1 (pq_depth q) 3
  && negb (String.eqb (pq_source q) (pq_target q)).

(** [SearchRequest]: a [GraphQuery] with a narrower limit. *)
Record SearchRequest := { se_query : string; se_mode : RetrievalMode; se_limit : Z; se_depth : Z }.
Definition SearchRequest_ok (q : SearchRequest) : bool :=
  (py_len (se_query q) <=? 4000) && within 1 (se_limit q) 20 && within 0 (se_depth q) 3.

Record KnowledgeIngestRequest := {
  in_title : string; in_source_name : string; in_source_type : SourceType; in_content_base64 : string }.
Definition KnowledgeIngestRequest_ok (b : KnowledgeIngestRequest) : bool :=
  between 1 (py_len (in_title b)) 240 && between 1 (py_len (in_source_name b)) 255
  && within 1 (Z.of_nat (py_len (in_content_base64 b))) 14000000.

Definition extract_body_ok (r : ExtractRequest) : bool := is_ok (ExtractRequest_validate r).

(** ** The graph endpoints *)

Record KnowledgeGraphService := {
  extraction_model : ResponseModel Extraction; answer_model : ResponseModel GraphAnswerDraft }.

(** [except <caught> as error: raise HTTPException(status)], tried in order. *)
Fixpoint map_errors (handlers : list ((exn → bool) * Z)) (e : exn) : exn :=
  match handlers with
  | [] => e
  | (caught, status) :: handlers => if caught e then HTTPException status else map_errors handlers e
  end.
Definition with_errors {W C A} (handlers : list ((exn → bool) * Z)) (m : eff W C exn A) : eff W C exn A :=
  try_except m (λ e, raise (map_errors handlers e)).

Definition graph_or_model_error (e : exn) : bool := is_neo4j_error e || is_llm_error e.
Definition answer_error (e : exn) : bool := graph_or_model_error e || is_retrieval_error e.

Section GraphApi.
Context `{PyUnicode} `{Uuid} {W : Type} `{GraphEnv W}.
Context (service_token : string) (graph_service : option KnowledgeGraphService).
Notation M := (eff W graph_call exn).

Definition extract_endpoint (authorization role tenant : string) (body : ExtractRequest) : M Subgraph :=
  _ ← lift_result (authorize_service service_token authorization);
  _ ← lift_result (require_graph_admin role);
  service ← lift_result (get_service graph_service);
  b ← lift_result (body_ok extract_body_ok body);
  with_errors [(is_value_error, 422%Z); (graph_or_model_error, 502%Z)]
    (extract (extraction_model service) tenant b).

Definition search_endpoint (authorization tenant : string) (body : GraphQuery) : M Subgraph :=
  _ ← lift_result (authorize_service service_token authorization);
  _ ← lift_result (get_service graph_service);
  b ← lift_result (body_ok GraphQuery_ok body);
  with_errors [(is_neo4j_error, 503%Z)]
    (invoke (CallSubgraph tenant (gq_query b) (gq_depth b) (gq_limit b))
       (subgraph tenant (gq_query b) (gq_depth b) (gq_limit b))).

Definition path_endpoint (authorization tenant : string) (body : PathQuery) : M Subgraph :=
  _ ← lift_result (authorize_service service_token authorization);
  _ ← lift_result (get_service graph_service);
  b ← lift_result (body_ok PathQuery_ok body);
  invoke (CallPath tenant (pq_source b) (pq_target b) (pq_depth b))
    (path tenant (pq_source b) (pq_target b) (pq_depth b)).

Definition answer_endpoint (authorization tenant : string) (body : GraphQuery) : M GraphAnswer :=
  _ ← lift_result (authorize_service service_token authorization);
  service ← lift_result (get_service graph_service);
  b ← lift_result (body_ok GraphQuery_ok body);
  if is_blank (gq_query b) then raise (HTTPException 422)
  else
    with_errors [(is_value_error, 422%Z); (answer_error, 502%Z)]
      (answer (answer_model service) tenant (gq_query b)).
End GraphApi.

(** ** The retrieval endpoints *)

(** [JSONResponse(status_code=..., content=...)] beside the plain result. *)
Inductive search_reply :=
| Found (r : RetrievalResult)
| JSONResponse (status : Z) (content : list (string * string)).

Definition search_error (e : exn) : search_reply :=
  let c := default EmptyString (code e) in
  JSONResponse (if String.eqb c "RAG_REINDEX_REQUIRED" then 409 else 502)
    [("code", c); ("message", public_message e)].

Section RetrievalApi.
Context `{PyUnicode, Digests} {W : Type} `{RetrievalEnv W}.
Context (service_token : string) (retrieval_service : option service).
Context (trace_id_from_traceparent : string → result exn string).
Notation M := (eff (RetrievalCache * W) retrieval_call exn).

Definition knowledge_search (authorization tenant : string) (body : SearchRequest) : M search_reply :=
  _ ← lift_result (authorize_service service_token authorization);
  s ← lift_result (get_service retrieval_service);
  b ← lift_result (body_ok SearchRequest_ok body);
  try_except
    (r ← retrieve s tenant (se_query b) (se_mode b) (Some (se_limit b)); mret (Found r))
    (λ e, if is_value_error e then raise (HTTPException 422)
          else if is_retrieval_error e then mret (search_error e)
          else raise e).

(** [base64.b64decode(..., validate=True)]: [binascii.Error] is a ValueError,
    and so is the refusal of a text that is not ASCII. *)
Definition payload_of (text : string) : result exn string :=
  match b64decode text with Some p => Ok p | None => Err ValueError end.

Definition ingest_document (authorization tenant user traceparent : string)
    (body : KnowledgeIngestRequest) : M StoredMetricDocument :=
  _ ← lift_result (authorize_service service_token authorization);
  s ← lift_result (get_service retrieval_service);
  b ← lift_result (body_ok KnowledgeIngestRequest_ok body);
  _ ← lift_result (trace_id trace_id_from_traceparent traceparent);
  with_errors [(is_value_error, 422%Z); (is_retrieval_error, 422%Z)]
    (payload ← lift_result (payload_of (in_content_base64 b));
     ingest s tenant (in_title b) (in_source_name b) (in_source_type b) payload (Some user)).
End RetrievalApi.

(** ** Authorization *)

(** The calls that concern one tenant only. *)
Definition graph_call_of (tenant : string) (c : graph_call) : Prop :=
  match c with
  | CallGenerate _ => True
  | GraphService.CallReplace t _ _ | CallSubgraph t _ _ _ | CallPath t _ _ _ | CallRetrieve t _ _ => t = tenant
  end.
Definition retrieval_call_of (tenant : string) (c : retrieval_call) : Prop :=
  match c with
  | CallEmbed _ | CallRerank _ _ => True
  | CallRevision t _ | CallLexicalSearch t _ _ | CallVectorSearch t _ _
  | RetrievalService.CallReplace t _ _ => t = tenant
  end.

(** A handler that calls its collaborators only when [allowed], and only in
    ways that satisfy [own]. *)
Definition guarded {W C A} (allowed : Prop) (own : C → Prop) (m : eff W C exn A) : Prop :=
  sat m (λ t _, (t ≠ [] → allowed) ∧ Forall own t).

Lemma guarded_calls {W C A} (allowed : Prop) own (m : eff W C exn A) :
  allowed → calls own m → guarded allowed own m.
Proof. intros Ha Hm. eapply sat_conseq; [exact Hm|]. by intros. Qed.

Lemma guarded_check {W C A B} (allowed : Prop) own (r : result exn A) (f : A → eff W C exn B) :
  (∀ a, r = Ok a → guarded allowed own (f a)) → guarded allowed own (lift_result r ≫= f).
Proof. intros Hf. by apply sat_guard. Qed.

Lemma body_ok_Ok {A} (ok : A → bool) a b : body_ok ok a = Ok b ↔ b = a ∧ ok a = true.
Proof. unfold body_ok. destruct (ok a); naive_solver. Qed.

Lemma get_service_Ok {A} (service : option A) s : get_service service = Ok s ↔ service = Some s.
Proof. destruct service; cbn; naive_solver. Qed.

Lemma calls_with_errors {W C A} own handlers (m : eff W C exn A) :
  calls own m → calls own (with_errors handlers m).
Proof. intros Hm. apply calls_try; [done|]. intros e. apply calls_raise. Qed.

Lemma persist_calls `{PyUnicode, Uuid} {W} `{GraphEnv W} tenant r x :
  calls (graph_call_of tenant) (persist (W := W) tenant r x).
Proof. unfold persist. by repeat calls_step. Qed.

Lemma answer_calls {W} `{GraphEnv W} am tenant query :
  calls (graph_call_of tenant) (answer (W := W) am tenant query).
Proof. unfold answer. by repeat calls_step. Qed.

Lemma retrieve_calls {W} `{RetrievalEnv W} s tenant query mode limit :
  calls (retrieval_call_of tenant) (retrieve (W := W) s tenant query mode limit).
Proof.
  unfold retrieve, search, embed_query, rerank_hits, cache_get, cache_put. by repeat calls_step.
Qed.

Lemma ingest_calls `{PyUnicode, Digests} {W} `{RetrievalEnv W} s tenant title name type payload by_ :
  calls (retrieval_call_of tenant) (ingest (W := W) s tenant title name type payload by_).
Proof. unfold ingest, cache_invalidate. by repeat calls_step. Qed.

(** Splits the checks before a handler's work, keeping what each established. *)
Ltac checks :=
  repeat (apply guarded_check; intros ? ?);
  repeat match goal with
  | H : body_ok _ _ = Ok _ |- _ => apply body_ok_Ok in H as [-> ?]
  | H : get_service _ = Ok _ |- _ => apply get_service_Ok in H; subst
  | H : require_graph_admin _ = Ok _ |- _ => apply ensure_Ok, String.eqb_eq in H; subst
  | u : unit |- _ => destruct u
  end.

(** C19: no endpoint of the knowledge base or the graph reaches the store, the
    model or the retrieval service without the service credential, an enabled
    service and a valid body; extraction also needs an administrator, and
    ingestion a valid trace context.  Every call names the tenant of the
    request. *)
Theorem knowledge_calls_authorized : ∀ (U : PyUnicode) (I : Uuid) (D : Digests) Wg (G : GraphEnv Wg)
    Wr (R : RetrievalEnv Wr) token gs rs parse authorization role tenant user traceparent
    (xb : ExtractRequest) (gb : GraphQuery) (pb : PathQuery) (sb : SearchRequest) (ib : KnowledgeIngestRequest),
  let credential := authorize_service token authorization = Ok tt in
  guarded (credential ∧ role = "ADMIN" ∧ is_Some gs ∧ extract_body_ok xb = true) (graph_call_of tenant)
    (extract_endpoint (W := Wg) token gs authorization role tenant xb) ∧
  guarded (credential ∧ is_Some gs ∧ GraphQuery_ok gb = true) (graph_call_of tenant)
    (search_endpoint (W := Wg) token gs authorization tenant gb) ∧
  guarded (credential ∧ is_Some gs ∧ PathQuery_ok pb = true) (graph_call_of tenant)
    (path_endpoint (W := Wg) token gs authorization tenant pb) ∧
  guarded (credential ∧ is_Some gs ∧ GraphQuery_ok gb = true ∧ is_blank (gq_query gb) = false)
    (graph_call_of tenant) (answer_endpoint (W := Wg) token gs authorization tenant gb) ∧
  guarded (credential ∧ is_Some rs ∧ SearchRequest_ok sb = true) (retrieval_call_of tenant)
    (knowledge_search (W := Wr) token rs authorization tenant sb) ∧
  guarded (credential ∧ is_Some rs ∧ KnowledgeIngestRequest_ok ib = true ∧ is_ok (parse traceparent) = true)
    (retrieval_call_of tenant)
    (ingest_document (W := Wr) token rs parse authorization tenant user traceparent ib).
Proof.
  intros. unfold extract_endpoint, search_endpoint, path_endpoint, answer_endpoint, knowledge_search,
    ingest_document. split_and!; checks.
  - apply guarded_calls; [done|]. apply calls_with_errors. unfold extract. repeat calls_step; [done|].
    apply persist_calls.
  - apply guarded_calls; [done|]. by apply calls_with_errors, calls_invoke.
  - apply guarded_calls; [done|]. by apply calls_invoke.
  - destruct (is_blank _) eqn:Hb; [by apply sat_raise|].
    apply guarded_calls; [done|]. apply calls_with_errors, answer_calls.
  - apply guarded_calls; [done|]. apply calls_try; [|intros e; by repeat calls_step].
    apply calls_bind; [apply retrieve_calls|]. intros. apply calls_ret.
  - apply guarded_calls.
    + unfold trace_id in *. destruct (parse traceparent) as [?|e]; [done|]. by destruct (is_value_error e).
    + apply calls_with_errors, calls_bind; [apply calls_lift|]. intros p. apply ingest_calls.
Qed.

(** ** Errors *)

Lemma map_errors_sound handlers e e' :
  map_errors handlers e = e' →
  (∃ status, e' = HTTPException status ∧ status ∈ handlers.*2) ∨
  (e' = e ∧ ∀ caught, caught ∈ handlers.*1 → caught e = false).
Proof.
  induction handlers as [|[caught status] handlers IH]; cbn; [intros ->; right; set_solver|].
  destruct (caught e) eqn:Hc; [intros <-; left; exists status; split; [done|left]|].
  intros [(s & -> & Hs)|[-> Hall]]%IH; [left; exists s; split; [done|by right]|right].
  split; [done|]. by intros c [->|Hin]%elem_of_cons; [|apply Hall].
Qed.

(** What an endpoint answers: a value, one of its status codes, or an error
    outside the classes it handles. *)
Definition answers_with {W C A} (statuses : list Z) (handled : exn → bool) (m : eff W C exn A) : Prop :=
  sat m (λ _ r, ∀ e, r = Err e →
    (∃ status, e = HTTPException status ∧ status ∈ statuses) ∨ handled e = false).

Lemma answers_check {W C A B} statuses handled (r : result exn A) (f : A → eff W C exn B) :
  (∀ a, answers_with statuses handled (f a)) →
  (∀ e, r = Err e → (∃ status, e = HTTPException status ∧ status ∈ statuses) ∨ handled e = false) →
  answers_with statuses handled (lift_result r ≫= f).
Proof.
  intros Hf He. unfold answers_with. apply sat_guard; [exact (λ a _, Hf a)|].
  intros e Hr e' [= <-]. by apply He.
Qed.

Lemma answers_with_errors {W C A} statuses (handled : exn → bool) handlers (m : eff W C exn A) :
  (∀ status, status ∈ handlers.*2 → status ∈ statuses) →
  (∀ e, handled e = true → ∃ caught, caught ∈ handlers.*1 ∧ caught e = true) →
  answers_with statuses handled (with_errors handlers m).
Proof.
  intros Hs Hh. unfold answers_with, with_errors. apply sat_try. intros w.
  destruct (outcome m w) as [a|e]; [by intros|]. apply sat_raise. intros e' [= <-].
  destruct (map_errors_sound handlers e _ eq_refl) as [(s & -> & Hin)|[-> Hall]]; [left; eauto|right].
  destruct (handled e) eqn:He; [|done]. destruct (Hh e He) as (caught & Hin & Hc).
  specialize (Hall caught Hin). congruence.
Qed.

Lemma authorize_error token authorization e :
  ∀ `{PyUnicode}, authorize_service token authorization = Err e → e = HTTPException 401 ∨ e = TypeError.
Proof.
  intros ?. unfold authorize_service, compare_digest. destruct (partition_space _) as [scheme t].
  destruct (_ || _); [intros [= <-]; by left|]. destruct (_ && _); cbn; [|intros [= <-]; by right].
  destruct (String.eqb _ _); [done|]. intros [= <-]. by left.
Qed.

Lemma get_service_Err {A} (s : option A) e : get_service s = Err e → e = HTTPException 503.
Proof. by destruct s; intros [= <-]. Qed.

Lemma body_ok_Err {A} (ok : A → bool) a e : body_ok ok a = Err e → e = HTTPException 422.
Proof. unfold body_ok. by destruct (ok a); intros [= <-]. Qed.

Definition value_or (other : exn → bool) (e : exn) : bool := is_value_error e || other e.

(** Closes the error of one of the checks before a handler. *)
Ltac check_error :=
  intros ? Hcheck;
  first [ apply authorize_error in Hcheck as [->| ->] | apply get_service_Err in Hcheck as ->
        | apply body_ok_Err in Hcheck as -> | apply ensure_Err in Hcheck as [_ ->] ];
  first [ by right | left; eexists; split; [reflexivity|set_solver] ].

(** The errors of the endpoints: a missing credential, role or service is
    a 401, 403 or 503 and an invalid body a 422; the graph endpoints turn the
    store's and the model's errors into 502 (503 for a search) and invalid
    evidence into 422; a knowledge search answers a retrieval error with a
    409 when the index is out of date and with a 502 otherwise, and carries
    its code; nothing these handlers name escapes. *)
Theorem knowledge_errors_mapped : ∀ (U : PyUnicode) (I : Uuid) (D : Digests) Wg (G : GraphEnv Wg)
    Wr (R : RetrievalEnv Wr) token gs rs authorization role tenant xb gb sb,
  answers_with [401; 403; 503; 422; 502]%Z (value_or graph_or_model_error)
    (extract_endpoint (W := Wg) token gs authorization role tenant xb) ∧
  answers_with [401; 503; 422]%Z is_neo4j_error
    (search_endpoint (W := Wg) token gs authorization tenant gb) ∧
  answers_with [401; 503; 422; 502]%Z (value_or answer_error)
    (answer_endpoint (W := Wg) token gs authorization tenant gb) ∧
  answers_with [401; 503; 422]%Z (value_or is_retrieval_error)
    (knowledge_search (W := Wr) token rs authorization tenant sb) ∧
  sat (knowledge_search (W := Wr) token rs authorization tenant sb) (λ _ r, ∀ status content,
    r = Ok (JSONResponse status content) →
    ∃ e, is_retrieval_error e = true ∧ dict_get "code" content = code e ∧
         (e = EmbeddingProfileError ∧ status = 409%Z ∨ e ≠ EmbeddingProfileError ∧ status = 502%Z)).
Proof.
  intros. unfold extract_endpoint, search_endpoint, answer_endpoint, knowledge_search. split_and!.
  - do 4 (apply answers_check; [intros ?|check_error]). apply answers_with_errors; [set_solver|].
    unfold value_or. intros e [He|He]%orb_true_iff; eexists; (split; [|exact He]); set_solver.
  - do 3 (apply answers_check; [intros ?|check_error]). apply answers_with_errors; [set_solver|].
    intros e He; eexists; (split; [|exact He]); set_solver.
  - do 3 (apply answers_check; [intros ?|check_error]).
    destruct (is_blank _); [apply sat_raise; intros ? [= <-]; left; eexists; split; [done|set_solver]|].
    apply answers_with_errors; [set_solver|].
    unfold value_or. intros e [He|He]%orb_true_iff; eexists; (split; [|exact He]); set_solver.
  - do 3 (apply answers_check; [intros ?|check_error]). apply sat_try. intros w.
    destruct (outcome _ _) as [r|e]; [by intros|].
    destruct (is_value_error e) eqn:Hv; [apply sat_raise; intros ? [= <-]; left; eexists; split; [done|set_solver]|].
    destruct (is_retrieval_error e) eqn:Hr; [by apply sat_ret; intros|].
    apply sat_raise. intros ? [= <-]. right. unfold value_or. by rewrite Hv, Hr.
  - do 3 (apply sat_guard; [intros ? _|by intros]). apply sat_try. intros w.
    destruct (outcome _ _) as [r|e] eqn:Ho.
    + intros status content [= ->]. exfalso. revert Ho. unfold outcome, mbind, eff_bind.
      destruct (retrieve _ _ _ _ _ _) as [[? ?] [?|?]]; by intros.
    + destruct (is_value_error e); [by apply sat_raise; intros|].
      destruct (is_retrieval_error e) eqn:Hr; [|by apply sat_raise; intros].
      apply sat_ret. intros status content [= <- <-]. exists e.
      destruct e; try discriminate Hr; (split_and!; [done|done|]); try (by right); by left.
Qed.

(** ** Uploaded documents *)

(** An upload carries every payload unchanged: what a client encodes is
    what [ingest] receives, and the 14,000,000-character limit on the body
    bounds the payload by 10,500,000 bytes. *)
Theorem uploaded_payload : ∀ body,
  (∀ p, payload_of (b64encode p) = Ok p) ∧
  (∀ p, KnowledgeIngestRequest_ok body = true → payload_of (in_content_base64 body) = Ok p →
        (Z.of_nat (byte_len p) ≤ 10500000)%Z).
Proof.
  intros body. split.
  - intros p. unfold payload_of. by rewrite decode_encode.
  - intros p [_ Hlen]%andb_true_iff Hp. unfold payload_of in Hp.
    destruct (b64decode _) as [p'|] eqn:Hd; [|done]. injection Hp as ->.
    pose proof (b64decode_length _ _ Hd) as Hb. pose proof (b64decode_py_len _ _ Hd) as Hpy.
    unfold within in Hlen. rewrite andb_true_iff, !Z.leb_le in Hlen. unfold byte_len. lia.
Qed.

(** ** A store that is down *)

#[export] Instance down_graph_env : GraphEnv unit := {|
  graph_store := {|
    replace _ _ _ w := (w, Err Neo4jServiceUnavailable);
    subgraph _ _ _ _ w := (w, Err Neo4jServiceUnavailable);
    path _ _ _ _ w := (w, Err Neo4jServiceUnavailable) |};
  graph_llm _ _ _ w := (w, Err LLMUnavailableError);
  graph_retrieve _ _ _ w := (w, Err RetrievalStoreError);
  utc_now w := (w, EmptyString) |}.

Definition unanswered {A} : ResponseModel A := {|
  model_name := EmptyString; model_json_schema := PNone; model_validate_json _ := inr [] |}.

(** The path endpoint, unlike the other three, does not map the driver's
    errors: a store that is down escapes as the driver's exception. *)
Example path_error_escapes :
  let query := {| gq_query := ""; gq_limit := 60; gq_depth := 1 |} in
  let ends := {| pq_query := query; pq_source := "a"; pq_target := "b"; pq_depth := 3 |} in
  let up := Some {| extraction_model := unanswered; answer_model := unanswered |} in
  outcome (path_endpoint "token" up "Bearer token" "t" ends) () = Err Neo4jServiceUnavailable ∧
  outcome (search_endpoint "token" up "Bearer token" "t" query) () = Err (HTTPException 503).
Proof. split; vm_compute; reflexivity. Qed.

(** An ingestion that fails because the store or the embedding provider is
    down is answered with the 422 of an unprocessable document; a search in
    the same state is a 502. *)
Example outage_is_unprocessable :
  map_errors [(is_value_error, 422%Z); (is_retrieval_error, 422%Z)] RetrievalStoreError = HTTPException 422 ∧
  ∃ content, search_error RetrievalStoreError = JSONResponse 502 content.
Proof. split; [done|]. eexists. vm_compute. reflexivity. Qed.
