(* ===== verification/FloatText.v ===== *)
(** * Python's [format(x, ".Ng")] for binary64 numbers

    The general format that [app/retrieval/repository.py] writes vector
    components with: [N] significant digits, half-even on the exact value,
    trailing zeros removed, exponent notation outside [10^-4 .. 10^N].  The
    text reads back within half a unit of the last digit. *)

From S2P Require Import Prelude PyStr Floats Errors Json Numbers Utf8 PyText Decimal.
From Stdlib Require Import SpecFloat QArith Qabs Qpower Lqa.
#[local] Open Scope nat_scope.

(** ** The digits *)

(** The greatest [x] with [10 ^ x <= num / den]. *)
Definition decimal_exponent (num den : Z) : Z :=
  if (den <=? num)%Z then ndigits (num / den) - 1 else - ndigits ((den - 1) / num).

(** [n / d] to the nearest integer, half-even. *)
Definition round_quotient (n d : Z) : Z :=
  let q := (n / d)%Z in
  let r := (n mod d)%Z in
  if (2 * r <? d)%Z then q
  else if (d <? 2 * r)%Z then (q + 1)%Z
  else if Z.even q then q else (q + 1)%Z.

(** The [p] significant digits of [num / den], and the exponent of the first. *)
Definition significant (p num den : Z) : Z * Z :=
  let x := decimal_exponent num den in
  let c := round_quotient (num * 10 ^ Z.max (p - 1 - x) 0) (den * 10 ^ Z.max (x - p + 1) 0) in
  if (c <? 10 ^ p)%Z then (c, x) else (c / 10, x + 1)%Z.

(** ** The text *)

Definition zero_cp (c : N) : bool := (c =? 48)%N.
Definition drop_trailing_zeros (l : list N) : list N := rev (drop_while zero_cp (rev l)).

Definition point_cps (fraction : list N) : list N :=
  match drop_trailing_zeros fraction with [] => [] | f => 46%N :: f end.

(** The exponent has a sign and at least two digits. *)
Definition exponent_cps (x : Z) : list N :=
  101%N :: (if (x <? 0)%Z then 45%N else 43%N) :: padded (Z.to_nat (Z.max 2 (ndigits (Z.abs x)))) (Z.abs x).

(** Where the point goes: whole part, fraction, exponent suffix. *)
Definition placed (p x : Z) (ds : list N) : list N * list N * list N :=
  if ((-4 <=? x) && (x <? p))%Z then
    if (0 <=? x)%Z then (take (Z.to_nat (x + 1)) ds, drop (Z.to_nat (x + 1)) ds, [])
    else ([48%N], repeat 48%N (Z.to_nat (- x - 1)) ++ ds, [])
  else (take 1 ds, drop 1 ds, exponent_cps x).

Definition unsigned_cps (p : Z) (m : positive) (e : Z) : list N :=
  let '(c, x) := significant p (Zpos m * 2 ^ Z.max e 0) (2 ^ Z.max (- e) 0) in
  let '(whole, fraction, suffix) := placed p x (padded (Z.to_nat p) c) in
  whole ++ point_cps fraction ++ suffix.

Definition general_cps (p : Z) (x : float) : list N :=
  match x with
  | S754_nan => cps "nan"
  | S754_infinity s => sign_cps_of s ++ cps "inf"
  | S754_zero s => sign_cps_of s ++ [48%N]
  | S754_finite s m e => sign_cps_of s ++ unsigned_cps p m e
  end.

(** [format(x, ".pg")]. *)
Definition format_g (p : Z) (x : float) : string := encode (general_cps p x).

Example general_texts :
  map (format_g 10) [decimal 1 1; decimal (-25) 1; f_of_Z 0; fneg (f_of_Z 0); f_of_Z 10000000000;
    f_of_Z 9999999999; decimal 99999999999 1; decimal 1 5; decimal 12345 8; decimal 2 1;
    fdiv (f_of_Z 2) (f_of_Z 3); f_of_Z 1200000; S754_nan; S754_infinity true]
  = ["0.1"; "-2.5"; "0"; "-0"; "1e+10"; "9999999999"; "1e+10"; "1e-05"; "0.00012345"; "0.2";
     "0.6666666667"; "1200000"; "nan"; "-inf"].
Proof. vm_compute. reflexivity. Qed.

(** ** The text reads back *)

Lemma drop_trailing_zeros_spec l :
  ∃ k, l = drop_trailing_zeros l ++ repeat 48%N k.
Proof.
  enough (∀ l, ∃ k, rev l = rev (drop_while zero_cp l) ++ repeat 48%N k) as E.
  { destruct (E (rev l)) as [k Hk]. exists k. by rewrite rev_involutive in Hk. }
  clear l. induction l as [|c l (k & Hk)]; [by exists 0|].
  cbn [rev drop_while]. unfold zero_cp at 1. destruct (N.eqb_spec c 48) as [->|Hc].
  - exists (S k). rewrite Hk at 1. rewrite <-app_assoc. f_equal. clear.
    induction k as [|k IH]; [done|]. cbn [repeat app]. by rewrite IH.
  - exists 0. by rewrite app_nil_r.
Qed.

Lemma digit_value_zeros k acc : digit_value (repeat 48%N k) acc = (acc * 10 ^ Z.of_nat k)%Z.
Proof.
  revert acc. induction k as [|k IH]; intros acc; [cbn; lia|].
  cbn [repeat digit_value fold_left]. fold (digit_value (repeat 48%N k) (10 * acc + (Z.of_N 48 - 48))).
  rewrite IH, Nat2Z.inj_succ, Z.pow_succ_r by lia. lia.
Qed.

Lemma padded_exact w n :
  (0 ≤ n < 10 ^ Z.of_nat w)%Z →
  forallb is_digit (padded w n) = true ∧ length (padded w n) = w ∧ digit_value (padded w n) 0 = n.
Proof.
  intros [H0 Hlt]. destruct (padded_value w n 0 H0) as (Hd & Hl & Hv). split_and!; [done|done|].
  rewrite Hv, Z.mod_small by lia. lia.
Qed.

Lemma abs_digits_bound x : (Z.abs x < 10 ^ Z.max 2 (ndigits (Z.abs x)))%Z.
Proof.
  destruct (Z.eq_dec (Z.abs x) 0) as [->|Hx]; [done|].
  destruct (ndigits_spec (Z.abs x)) as (_ & _ & Hlt); [lia|].
  eapply Z.lt_le_trans; [exact Hlt|]. apply Z.pow_le_mono_r; lia.
Qed.

Lemma exponent_cps_reads x : exponent (exponent_cps x) = Some x.
Proof.
  unfold exponent_cps. set (w := Z.to_nat (Z.max 2 (ndigits (Z.abs x)))).
  destruct (padded_exact w (Z.abs x)) as (Hd & Hl & Hv).
  { unfold w. rewrite Z2Nat.id by lia. split; [lia|apply abs_digits_bound]. }
  assert (digits (padded w (Z.abs x)) 0 0 = (Z.abs x, Z.of_nat w, [])) as Hdig.
  { rewrite <-(app_nil_r (padded w _)), digits_run, digits_end by done. by rewrite Hv, Hl. }
  cbn [exponent]. change ((101 =? 101)%N || (101 =? 69)%N) with true. cbv iota.
  assert (0 <? Z.of_nat w = true)%Z as Hw by (apply Z.ltb_lt; unfold w; lia).
  destruct (Z.ltb_spec x 0); cbn -[padded digits Z.abs Z.of_nat Z.ltb]; fold w; rewrite Hdig; cbv iota beta; rewrite Hw; f_equal; lia.
Qed.

(** The suffix is absent or an exponent. *)
Definition suffix_of (ex : Z) (s : list N) : Prop := s = [] ∧ ex = 0%Z ∨ s = exponent_cps ex.

Lemma suffix_reads ex s : suffix_of ex s → exponent s = Some ex ∧ ends_digits s.
Proof. intros [[-> ->]| ->]; [done|]. by rewrite exponent_cps_reads. Qed.

Lemma digit_not_space c : is_digit c = true → is_space c = false.
Proof.
  unfold is_digit, is_space. rewrite andb_true_iff, !N.leb_le. intros [? ?].
  repeat match goal with |- context [(?a <=? ?b)%N] => destruct (N.leb_spec a b) end; try lia;
  repeat match goal with |- context [(?a =? ?b)%N] => destruct (N.eqb_spec a b) end; try lia; done.
Qed.

Definition number_cp (c : N) : bool :=
  is_digit c || (c =? 43)%N || (c =? 45)%N || (c =? 46)%N || (c =? 101)%N.

Lemma number_cp_spec c :
  number_cp c = true → is_space c = false ∧ (c < 128)%N ∧ (c ≠ 44 ∧ c ≠ 91 ∧ c ≠ 93)%N.
Proof.
  unfold number_cp. rewrite !orb_true_iff, !N.eqb_eq.
  intros [[[[Hd| ->]| ->]| ->]| ->]; try (by vm_compute).
  split; [by apply digit_not_space|]. unfold is_digit in Hd.
  apply andb_true_iff in Hd as [?%N.leb_le ?%N.leb_le]. lia.
Qed.

Lemma digits_number l : forallb is_digit l = true → forallb number_cp l = true.
Proof. rewrite !list_forallb_spec. intros Hl c Hc. unfold number_cp. by rewrite Hl. Qed.

Lemma strip_cps_solid l : (∀ c, c ∈ l → is_space c = false) → strip_cps l = l.
Proof.
  intros Hl. assert (∀ k, (∀ c, c ∈ k → c ∈ l) → drop_while is_space k = k) as E.
  { intros k Hk. apply drop_while_none, list_forallb_spec. intros c Hc. by rewrite Hl by auto. }
  unfold strip_cps. rewrite (E l), (E (rev l)), rev_involutive; [done| |done].
  intros c. by rewrite !list_elem_of_In, <-in_rev.
Qed.

Lemma lower_head_not (c : N) l name n :
  is_digit c = true → head name = Some n → (57 < n)%N → bool_decide (lower_cps (c :: l) = name) = false.
Proof.
  intros Hc Hh Hn. apply bool_decide_eq_false_2. intros <-. cbn in Hh.
  by eapply digit_not_letter.
Qed.

(** [float()] of a sign, digits, an optional point with digits, and a suffix. *)
Lemma float_of_digits neg w f s ex text :
  forallb is_digit w = true → w ≠ [] → forallb is_digit f = true → suffix_of ex s →
  cps text = sign_cps_of neg ++ w ++ (match f with [] => [] | _ => 46%N :: f end) ++ s →
  forallb number_cp (cps text) = true →
  float_of_str text = Some (signed_nearest neg (digit_value (w ++ f) 0) (ex - Z.of_nat (length f))).
Proof.
  intros Hw Hne Hf Hs Ht Hnum. destruct w as [|c w]; [done|].
  assert (is_digit c = true) as Hc by (by apply andb_true_iff in Hw as [? _]).
  destruct (suffix_reads _ _ Hs) as [Hex Hend].
  unfold float_of_str. rewrite strip_cps_solid, Ht.
  2:{ intros c' Hc'. rewrite list_forallb_spec in Hnum. by apply number_cp_spec, Hnum. }
  unfold sign_cps_of. cbn [app]. rewrite sign_cps by done.
  rewrite bool_decide_eq_false_2.
  2:{ rewrite !elem_of_cons, elem_of_nil. intros [He|[He|[]]]; revert He;
      eapply bool_decide_eq_false_1, (lower_head_not _ _ _ 105%N); done || by vm_compute. }
  rewrite (lower_head_not _ _ _ 110%N) by (done || by vm_compute).
  rewrite (app_comm_cons w _ c), digits_run by done.
  rewrite digits_end by (by destruct f).
  assert (0 <? 0 + Z.of_nat (length (c :: w)) = true)%Z as Hpos by (apply Z.ltb_lt; cbn; lia).
  destruct f as [|d f]; cbn [app].
  - rewrite app_nil_r, Hpos. destruct Hs as [[-> ->]| ->].
    + by rewrite Z.sub_0_l.
    + unfold exponent_cps at 1. cbn [app]. change (101 =? 46)%N with false. cbv iota.
      rewrite exponent_cps_reads. cbn. by rewrite Z.sub_0_r.
  - change (46 =? 46)%N with true. cbv iota.
    assert (is_digit d = true) as Hd by (by apply andb_true_iff in Hf as [? _]).
    rewrite Hd. rewrite (app_comm_cons f s d), digits_run, digits_end by done.
    assert (0 <? 0 + Z.of_nat (length (c :: w)) + (0 + Z.of_nat (length (d :: f))) = true)%Z as ->
      by (apply Z.ltb_lt; cbn; lia).
    rewrite Hex. cbn [mbind option_bind]. by rewrite (app_comm_cons w (d :: f) c), digit_value_app, Z.add_0_l.
Qed.

(** The three places of the point keep the digits and the value. *)
Lemma placed_spec p x ds :
  forallb is_digit ds = true → Z.of_nat (length ds) = p → (0 < p)%Z →
  let '(w, f, s) := placed p x ds in
  ∃ ex, forallb is_digit w = true ∧ w ≠ [] ∧ forallb is_digit f = true ∧ suffix_of ex s ∧
    digit_value (w ++ f) 0 = digit_value ds 0 ∧ (ex - Z.of_nat (length f) = x - p + 1)%Z.
Proof.
  intros Hd Hl Hp. unfold placed.
  assert (∀ n, forallb is_digit (take n ds) = true ∧ forallb is_digit (drop n ds) = true) as Hcut.
  { intros n. rewrite <-(take_drop n ds), forallb_app in Hd. by apply andb_true_iff in Hd. }
  assert (∀ n, 0 < n → take n ds ≠ []) as Hn by (intros [|n] ?; [lia|]; destruct ds; cbn in *; [lia|done]).
  destruct (Z.leb_spec (-4) x), (Z.ltb_spec x p); cbn [andb].
  1: destruct (Z.leb_spec 0 x).
  1: exists 0%Z; destruct (Hcut (Z.to_nat (x + 1))); split_and!;
       [done|apply Hn; lia|done|by left|by rewrite take_drop|rewrite length_drop; lia].
  1: exists 0%Z; split_and!; try done;
       [|by left| |rewrite length_app, repeat_length; lia].
  1: rewrite forallb_app, Hd, andb_true_r; apply list_forallb_spec; intros c;
       rewrite list_elem_of_In; by intros ->%repeat_spec.
  1: change [48%N] with (repeat 48%N 1); rewrite !digit_value_app, !digit_value_zeros; f_equal; lia.
  all: exists x; destruct (Hcut 1); split_and!;
    [done|apply Hn; lia|done|by right|by rewrite take_drop|rewrite length_drop; lia].
Qed.

(** ** The digits are the nearest ones *)

(** [10 ^ e] as a rational. *)
Definition ten (e : Z) : Q := Qpower (inject_Z 10) e.
Definition ratio (a b : Z) : Q := (inject_Z a / inject_Z b)%Q.

#[local] Open Scope Q_scope.

Lemma ratio_le a b c d : (0 < b)%Z → (0 < d)%Z → (ratio a b <= ratio c d ↔ (a * d <= c * b)%Z).
Proof.
  intros Hb Hd. destruct b as [|b|b], d as [|d|d]; try lia. unfold ratio.
  rewrite <-!Qmake_Qdiv. done.
Qed.

Lemma ratio_lt a b c d : (0 < b)%Z → (0 < d)%Z → (ratio a b < ratio c d ↔ (a * d < c * b)%Z).
Proof.
  intros Hb Hd. destruct b as [|b|b], d as [|d|d]; try lia. unfold ratio.
  rewrite <-!Qmake_Qdiv. done.
Qed.

Lemma inject_nonzero z : (0 < z)%Z → ~ inject_Z z == 0.
Proof. intros Hz He. unfold inject_Z, Qeq in He. cbn in He. lia. Qed.

Lemma ten_add a b : ten (a + b) == ten a * ten b.
Proof. unfold ten. apply Qpower_plus. by apply inject_nonzero. Qed.

Lemma ten_Z k : (0 <= k)%Z → inject_Z (10 ^ k) == ten k.
Proof. intros Hk. unfold ten. by apply Zpower_Qpower. Qed.

Lemma ten_pos e : 0 < ten e.
Proof. unfold ten. apply Qpower_0_lt. done. Qed.

Lemma pow10_pos k : (0 < 10 ^ Z.max k 0)%Z.
Proof. apply Z.pow_pos_nonneg; lia. Qed.

Lemma ten_ratio e : ten e == ratio (10 ^ Z.max e 0) (10 ^ Z.max (- e) 0).
Proof.
  unfold ratio. rewrite !ten_Z by lia.
  assert (ten (Z.max e 0) == ten e * ten (Z.max (- e) 0)) as ->.
  { rewrite <-ten_add. replace (e + Z.max (- e) 0)%Z with (Z.max e 0) by lia. reflexivity. }
  rewrite Qdiv_mult_l; [reflexivity|]. pose proof (ten_pos (Z.max (- e) 0)). lra.
Qed.

Lemma decimal_exponent_spec num den :
  (0 < num)%Z → (0 < den)%Z →
  ten (decimal_exponent num den) <= ratio num den < ten (decimal_exponent num den + 1).
Proof.
  intros Hn Hd. unfold decimal_exponent. rewrite !ten_ratio, ratio_le, ratio_lt by (done || apply pow10_pos).
  destruct (Z.leb_spec den num) as [Hle|Hlt].
  - assert (0 < num / den)%Z as Hq by (apply Z.div_str_pos; lia).
    destruct (ndigits_spec _ Hq) as (Hpos & Hlo & Hhi). set (k := ndigits (num / den)) in *.
    replace (k - 1 + 1)%Z with k by lia.
    rewrite (Z.max_l (k - 1)), (Z.max_l k), !Z.max_r by lia.
    pose proof (Z.div_mod num den ltac:(lia)). pose proof (Z.mod_pos_bound num den ltac:(lia)).
    pose proof (Z.mul_le_mono_nonneg_r _ _ den ltac:(lia) Hlo).
    pose proof (Z.mul_le_mono_nonneg_r (num / den + 1) _ den ltac:(lia) (proj2 (Z.le_succ_l _ _) Hhi)). lia.
  - assert (0 < (den - 1) / num)%Z as Hq by (apply Z.div_str_pos; lia).
    destruct (ndigits_spec _ Hq) as (Hpos & Hlo & Hhi). set (k := ndigits ((den - 1) / num)) in *.
    replace (- (- k + 1))%Z with (k - 1)%Z by lia.
    rewrite Z.opp_involutive, (Z.max_l k), (Z.max_l (k - 1)), !Z.max_r by lia.
    pose proof (Z.div_mod (den - 1) num ltac:(lia)). pose proof (Z.mod_pos_bound (den - 1) num ltac:(lia)).
    pose proof (Z.mul_le_mono_nonneg_r _ _ num ltac:(lia) Hlo).
    pose proof (Z.mul_le_mono_nonneg_r ((den - 1) / num + 1) _ num ltac:(lia) (proj2 (Z.le_succ_l _ _) Hhi)). lia.
Qed.

Lemma round_quotient_spec n d : (0 < d)%Z → (2 * Z.abs (n - round_quotient n d * d) <= d)%Z.
Proof.
  intros Hd. unfold round_quotient. pose proof (Z.div_mod n d ltac:(lia)) as Hdm.
  pose proof (Z.mod_pos_bound n d Hd). set (q := (n / d)%Z) in *. set (r := (n mod d)%Z) in *.
  destruct (Z.ltb_spec (2 * r) d), (Z.ltb_spec d (2 * r)); try destruct (Z.even q); nia.
Qed.

(** The quotient [n' / d'] that is rounded, and how close its rounding is. *)
Lemma rounded_close n d lo hi :
  (0 < d)%Z → (lo * d <= n < hi * d)%Z →
  (lo <= round_quotient n d <= hi)%Z ∧
  Qabs (ratio n d - inject_Z (round_quotient n d)) <= 1 # 2.
Proof.
  intros Hd Hn. pose proof (round_quotient_spec n d Hd) as Hr. set (c := round_quotient n d) in *.
  split; [nia|]. assert (ratio n d - inject_Z c == ratio (n - c * d) d) as ->.
  { unfold ratio. unfold Z.sub. rewrite inject_Z_plus, inject_Z_opp, inject_Z_mult. field. by apply inject_nonzero. }
  unfold ratio. destruct d as [|d|d]; try lia. rewrite <-Qmake_Qdiv.
  unfold Qabs, Qle. cbn. lia.
Qed.

(** Scaled to [p] digits before the point. *)
Lemma scaled_digits p num den x n d :
  (0 < p)%Z → (0 < den)%Z → ten x <= ratio num den < ten (x + 1) →
  n = (num * 10 ^ Z.max (p - 1 - x) 0)%Z → d = (den * 10 ^ Z.max (x - p + 1) 0)%Z →
  (0 < d)%Z ∧ (10 ^ (p - 1) * d <= n < 10 ^ p * d)%Z ∧ ratio n d == ratio num den * ten (p - 1 - x).
Proof.
  intros Hp Hd [Hlo Hhi] Hn' Hd'. pose proof (pow10_pos (p - 1 - x)). pose proof (pow10_pos (x - p + 1)).
  assert (0 < d)%Z as Hpos by lia.
  assert (ratio n d == ratio num den * ten (p - 1 - x)) as HV.
  { rewrite ten_ratio. replace (- (p - 1 - x))%Z with (x - p + 1)%Z by lia. unfold ratio. subst.
    rewrite !inject_Z_mult. field. split; by apply inject_nonzero. }
  assert (∀ k, (0 <= k)%Z → ratio (10 ^ k) 1 == ten k) as Hone
    by (intros k Hk; unfold ratio; rewrite ten_Z by done; field).
  pose proof (ten_pos (p - 1 - x)) as Hs.
  assert (ratio (10 ^ (p - 1)) 1 <= ratio n d) as H1.
  { rewrite HV, Hone by lia. replace (p - 1)%Z with (x + (p - 1 - x))%Z at 1 by lia.
    rewrite ten_add. apply Qmult_le_compat_r; [done|lra]. }
  assert (ratio n d < ratio (10 ^ p) 1) as H2.
  { rewrite HV, Hone by lia. replace p with (x + 1 + (p - 1 - x))%Z at 2 by lia.
    rewrite (ten_add (x + 1)). by apply Qmult_lt_compat_r. }
  rewrite ratio_le in H1 by lia. rewrite ratio_lt in H2 by lia. split_and!; [done|lia|lia|done].
Qed.

(** Half a unit of the scaled value is that part of the value itself. *)
Lemma unscaled_error p x X V c :
  ten x <= X → V == X * ten (p - 1 - x) → Qabs (V - c) <= 1 # 2 →
  Qabs (X - c * ten (x - p + 1)) <= (1 # 2) * ten (1 - p) * X.
Proof.
  intros Hlo HV Hclose.
  assert (X - c * ten (x - p + 1) == (V - c) * ten (x - p + 1)) as ->.
  { assert (ten (p - 1 - x) * ten (x - p + 1) == 1) as Hinv
      by (rewrite <-ten_add; replace (p - 1 - x + (x - p + 1))%Z with 0%Z by lia; reflexivity).
    rewrite HV. transitivity (X * (ten (p - 1 - x) * ten (x - p + 1)) - c * ten (x - p + 1)); [|ring].
    rewrite Hinv. ring. }
  rewrite Qabs_Qmult. pose proof (ten_pos (x - p + 1)) as Hs. rewrite (Qabs_pos (ten _)) by lra.
  assert (ten (x - p + 1) <= ten (1 - p) * X) as Hle.
  { replace (x - p + 1)%Z with (1 - p + x)%Z by lia. rewrite ten_add, !(Qmult_comm (ten (1 - p))).
    apply Qmult_le_compat_r; [done|]. pose proof (ten_pos (1 - p)). lra. }
  assert (Qabs (V - c) * ten (x - p + 1) <= (1 # 2) * ten (x - p + 1)) as Hm
    by (apply Qmult_le_compat_r; [done|lra]). lra.
Qed.

(** Exactly [p] digits, within half a unit of the last one. *)
Lemma significant_spec p num den :
  (0 < p)%Z → (0 < num)%Z → (0 < den)%Z →
  let '(c, y) := significant p num den in
  (10 ^ (p - 1) <= c < 10 ^ p)%Z ∧
  Qabs (ratio num den - inject_Z c * ten (y - p + 1)) <= (1 # 2) * ten (1 - p) * ratio num den.
Proof.
  intros Hp Hn Hd. unfold significant. pose proof (decimal_exponent_spec num den Hn Hd) as Hx.
  set (x := decimal_exponent num den) in *.
  destruct (scaled_digits p num den x _ _ Hp Hd Hx eq_refl eq_refl) as (Hd' & Hbounds & HV).
  destruct (rounded_close _ _ _ _ Hd' Hbounds) as [Hc Hclose].
  set (c := round_quotient _ _) in *. pose proof (unscaled_error p x _ _ _ (proj1 Hx) HV Hclose) as Herr.
  destruct (Z.ltb_spec c (10 ^ p)) as [Hlt|Hge]; [split; [lia|exact Herr]|].
  assert (10 ^ p = 10 * 10 ^ (p - 1))%Z as Hpp by (rewrite <-Z.pow_succ_r by lia; f_equal; lia).
  assert (c = 10 ^ (p - 1) * 10)%Z as Hcarry by lia.
  rewrite Hcarry at 1 2 3. rewrite Z.div_mul by done.
  assert (0 < 10 ^ (p - 1))%Z by (apply Z.pow_pos_nonneg; lia).
  split; [lia|]. refine (Qle_trans _ _ _ _ Herr). rewrite Hcarry, inject_Z_mult.
  assert (ten (x + 1 - p + 1) == inject_Z 10 * ten (x - p + 1)) as ->.
  { replace (x + 1 - p + 1)%Z with (1 + (x - p + 1))%Z by lia. rewrite ten_add. reflexivity. }
  rewrite Qmult_assoc. apply Qle_refl.
Qed.

(** ** The whole text *)

Definition magnitude (m : positive) (e : Z) : Q := inject_Z (Zpos m) * Qpower (inject_Z 2) e.

Lemma magnitude_ratio m e :
  magnitude m e == ratio (Zpos m * 2 ^ Z.max e 0) (2 ^ Z.max (- e) 0).
Proof.
  unfold magnitude, ratio. rewrite inject_Z_mult, !Zpower_Qpower by lia.
  assert (~ inject_Z 2 == 0) as H2 by by apply inject_nonzero.
  assert (Qpower (inject_Z 2) (Z.max e 0) == Qpower (inject_Z 2) e * Qpower (inject_Z 2) (Z.max (- e) 0)) as ->.
  { rewrite <-Qpower_plus by done. replace (e + Z.max (- e) 0)%Z with (Z.max e 0) by lia. reflexivity. }
  field. by apply Qpower_not_0.
Qed.

Lemma unsigned_cps_spec p m e :
  (0 < p)%Z → ∃ w f s ex, unsigned_cps p m e = w ++ (match f with [] => [] | _ => 46%N :: f end) ++ s ∧
    forallb is_digit w = true ∧ w ≠ [] ∧ forallb is_digit f = true ∧ suffix_of ex s ∧
    Qabs (magnitude m e - inject_Z (digit_value (w ++ f) 0) * ten (ex - Z.of_nat (length f)))
      <= (1 # 2) * ten (1 - p) * magnitude m e.
Proof.
  intros Hp. unfold unsigned_cps. set (num := (Zpos m * _)%Z). set (den := (2 ^ _)%Z).
  assert (0 < den)%Z as Hden by (apply Z.pow_pos_nonneg; lia).
  assert (0 < num)%Z as Hnum by (unfold num; assert (0 < 2 ^ Z.max e 0)%Z by (apply Z.pow_pos_nonneg; lia); lia).
  pose proof (significant_spec p num den Hp Hnum Hden) as Hs. destruct (significant p num den) as [c y].
  destruct Hs as [Hc Herr]. assert (0 < 10 ^ (p - 1))%Z by (apply Z.pow_pos_nonneg; lia).
  destruct (padded_exact (Z.to_nat p) c) as (Hd & Hl & Hv); [rewrite Z2Nat.id; lia|].
  pose proof (placed_spec p y (padded (Z.to_nat p) c) Hd ltac:(lia) Hp) as Hplaced.
  destruct (placed p y _) as [[w f] s]. destruct Hplaced as (ex & Hw & Hne & Hf & Hsuf & Hval & Hex).
  destruct (drop_trailing_zeros_spec f) as [k Hk]. unfold point_cps. set (f' := drop_trailing_zeros f) in *.
  exists w, f', s, ex. split; [by destruct f'|]. split; [done|]. split; [done|].
  split. { rewrite Hk, forallb_app in Hf. by apply andb_true_iff in Hf as [? _]. }
  split; [done|]. rewrite magnitude_ratio. fold num den. refine (Qle_trans _ _ _ _ Herr).
  rewrite <-Hv, <-Hval, <-Hex, Hk, app_assoc, (digit_value_app (w ++ f')), digit_value_zeros, length_app, repeat_length.
  rewrite inject_Z_mult, ten_Z, <-Qmult_assoc, <-ten_add by lia.
  replace (Z.of_nat k + (ex - Z.of_nat (length f' + k)))%Z with (ex - Z.of_nat (length f'))%Z by lia.
  apply Qle_refl.
Qed.

Lemma exponent_cps_chars x : forallb number_cp (exponent_cps x) = true.
Proof.
  unfold exponent_cps. destruct (padded_exact (Z.to_nat (Z.max 2 (ndigits (Z.abs x)))) (Z.abs x)) as (Hd & _).
  { rewrite Z2Nat.id by lia. split; [lia|apply abs_digits_bound]. }
  cbn [forallb]. rewrite digits_number by done. by destruct (x <? 0)%Z.
Qed.

Lemma unsigned_cps_chars p m e : (0 < p)%Z → forallb number_cp (unsigned_cps p m e) = true.
Proof.
  intros Hp. destruct (unsigned_cps_spec p m e Hp) as (w & f & s & ex & -> & Hw & _ & Hf & Hs & _).
  rewrite !forallb_app, digits_number by done. cbn.
  assert (forallb number_cp s = true) as -> by (destruct Hs as [[-> _]| ->]; [done|apply exponent_cps_chars]).
  rewrite andb_true_r. destruct f as [|c f]; [done|]. by apply (digits_number (c :: f)).
Qed.

(** No character of the text separates or encloses a list of numbers. *)
Definition literal_cp (c : N) : Prop := (c < 128 ∧ c ≠ 44 ∧ c ≠ 91 ∧ c ≠ 93)%N.

Lemma general_cps_chars p x : (0 < p)%Z → Forall literal_cp (general_cps p x).
Proof.
  intros Hp. assert (∀ s, Forall literal_cp (sign_cps_of s)) as Hsign by (intros []; repeat constructor; lia).
  destruct x as [s|s| |s m e]; cbn [general_cps].
  1-3: rewrite ?Forall_app; split_and?; [apply Hsign|] || idtac; repeat constructor; vm_compute; done.
  rewrite Forall_app. split; [apply Hsign|]. apply Forall_forall. intros c Hc.
  pose proof (unsigned_cps_chars p m e Hp) as Hn. rewrite list_forallb_spec in Hn.
  destruct (number_cp_spec c (Hn c Hc)) as (_ & ? & ?). done.
Qed.

Lemma literal_valid l : Forall literal_cp l → Forall valid_cp l.
Proof. intros Hl. eapply Forall_impl; [exact Hl|]. unfold literal_cp, valid_cp. intros c. lia. Qed.

(** A text of [p] digits reads back as the double nearest to a decimal within
    half a unit of the [p]th digit of the exact value. *)
Lemma format_g_reads p s m e :
  (0 < p)%Z → ∃ b q, float_of_str (format_g p (S754_finite s m e)) = Some (signed_nearest s b q) ∧
    Qabs (magnitude m e - inject_Z b * ten q) <= (1 # 2) * ten (1 - p) * magnitude m e.
Proof.
  intros Hp. destruct (unsigned_cps_spec p m e Hp) as (w & f & su & ex & Hu & Hw & Hne & Hf & Hs & Herr).
  eexists _, _. split; [|exact Herr].
  assert (cps (format_g p (S754_finite s m e)) = sign_cps_of s ++ unsigned_cps p m e) as Hcps.
  { unfold format_g. rewrite cps_encode; [done|]. apply literal_valid, general_cps_chars, Hp. }
  apply (float_of_digits s w f su); try done; rewrite Hcps.
  - by rewrite Hu.
  - rewrite forallb_app, unsigned_cps_chars by done. by destruct s.
Qed.
