(* ===== verification/PostgresKnowledge.v ===== *)
(** * The PostgreSQL knowledge repository: [app/retrieval/repository.py]

    [PlatformKnowledgeDatabaseConfig], [PostgresMetricKnowledgeRepository],
    [_vector_literal] and [_parse_vector] over the driver calls of
    [DataSources].  What the statements compute is the database's; their
    texts, parameters and order, the transactions and the errors are the
    code's.  Identifiers and times reach the driver as values; they are
    written as their texts here. *)

From S2P Require Import Prelude PyStr Floats Errors Json Metadata Numbers DataSources Executor.
From S2P Require Import Parsing Embeddings KnowledgeRepository Utf8 PyText Decimal FloatText.

(** ** The configuration *)

Record PlatformKnowledgeDatabaseConfig := {
  pk_host : string; pk_port : Z; pk_database : string; pk_username : string; pk_password : string;
  pk_schema : string; pk_connect_timeout_seconds : Z }.

Definition PlatformKnowledgeDatabaseConfig_post_init (c : PlatformKnowledgeDatabaseConfig) :
    result exn PlatformKnowledgeDatabaseConfig :=
  if simple_identifier (pk_schema c) then Ok c else Err ValueError.

Definition platform_parameters (c : PlatformKnowledgeDatabaseConfig) : list (string * pyval) :=
  [("host", PStr (pk_host c)); ("port", PInt (pk_port c)); ("dbname", PStr (pk_database c));
   ("user", PStr (pk_username c)); ("password", PStr (pk_password c));
   ("connect_timeout", PInt (pk_connect_timeout_seconds c))].

(** [connect( **parameters, row_factory=dict_row)]. *)
Definition row_parameters (c : PlatformKnowledgeDatabaseConfig) : list (string * pyval) :=
  platform_parameters c ++ [("row_factory", POther "dict_row")].

Record postgres_repository := {
  pg_config : PlatformKnowledgeDatabaseConfig; embedding_profile : string; vector_search_mode : string }.

Definition PostgresMetricKnowledgeRepository (c : PlatformKnowledgeDatabaseConfig)
    (profile mode : string) : result exn postgres_repository :=
  if mem mode ["exact"; "approximate"]
  then Ok {| pg_config := c; embedding_profile := profile; vector_search_mode := mode |}
  else Err ValueError.

Definition _documents (r : postgres_repository) : string := pk_schema (pg_config r) +:+ ".metric_documents".
Definition _chunks (r : postgres_repository) : string := pk_schema (pg_config r) +:+ ".metric_chunks".

(** ** Vectors as text *)

Definition _vector_literal (values : list float) : string :=
  "[" +:+ join "," (map (format_g 10) values) +:+ "]".

(** [s.strip("[]")] and [s.split(",")], on ASCII characters. *)
Definition bracket (a : Ascii.ascii) : bool := Ascii.eqb a (byte 91) || Ascii.eqb a (byte 93).
Fixpoint lstrip_chars (p : Ascii.ascii → bool) (s : string) : string :=
  match s with
  | EmptyString => EmptyString
  | String a t => if p a then lstrip_chars p t else s
  end.
Fixpoint rstrip_chars (p : Ascii.ascii → bool) (s : string) : string :=
  match s with
  | EmptyString => EmptyString
  | String a t => match rstrip_chars p t with
                  | EmptyString => if p a then EmptyString else String a EmptyString
                  | t' => String a t'
                  end
  end.
Definition comma : Ascii.ascii := byte 44.

Definition _parse_vector (v : pyval) : result exn (list float) :=
  match v with
  | PStr s => map_result (λ item, py_float (PStr item))
                (List.filter (λ item, negb (String.eqb item ""))
                   (split_on comma (rstrip_chars bracket (lstrip_chars bracket s))))
  | PList l => map_result py_float l
  | PDict d => map_result (λ kv, py_float (PStr kv.1)) d
  | _ => Err TypeError
  end.

Example vector_texts :
  _vector_literal [decimal 1 1; f_of_Z (-2)] = "[0.1,-2]" ∧
  _parse_vector (PStr "[0.1,-2]") = Ok [decimal 1 1; f_of_Z (-2)] ∧
  _parse_vector (PStr (_vector_literal [])) = Ok [].
Proof. vm_compute. done. Qed.

(** ** The statements *)

Definition select_current (r : postgres_repository) : string :=
  "SELECT id, version FROM " +:+ _documents r +:+
  " WHERE tenant_id = %s AND title = %s AND status = 'ACTIVE' FOR UPDATE".
Definition supersede_current (r : postgres_repository) : string :=
  "UPDATE " +:+ _documents r +:+ " SET status = 'SUPERSEDED', updated_at = %s WHERE id = %s".
Definition delete_chunks (r : postgres_repository) : string :=
  "DELETE FROM " +:+ _chunks r +:+ " WHERE document_id = %s".
Definition insert_document (r : postgres_repository) : string :=
  "INSERT INTO " +:+ _documents r +:+
  " (id, tenant_id, title, version, status, source_type, source_name, content_sha256, created_by, created_at, updated_at) VALUES (%s, %s, %s, %s, 'ACTIVE', %s, %s, %s, %s, %s, %s)".
Definition insert_chunks (r : postgres_repository) : string :=
  "INSERT INTO " +:+ _chunks r +:+
  " (id, tenant_id, document_id, document_version, section_key, section_title, source_locator, ordinal, content, embedding, created_at, embedding_profile) VALUES (%s, %s, %s, %s, %s, %s, %s, %s, %s, %s::vector, %s, %s)".
Definition lexical_sql (r : postgres_repository) : string :=
  "SELECT c.*, d.title AS document_title, ts_rank_cd(c.search_vector, websearch_to_tsquery('simple', %s)) AS score FROM "
  +:+ _chunks r +:+ " c JOIN " +:+ _documents r +:+
  " d ON d.id = c.document_id WHERE c.tenant_id = %s AND d.status = 'ACTIVE' AND c.search_vector @@ websearch_to_tsquery('simple', %s) ORDER BY score DESC, c.ordinal ASC LIMIT %s".
Definition mixed_profiles_sql (r : postgres_repository) : string :=
  "SELECT EXISTS (SELECT 1 FROM " +:+ _chunks r +:+ " c JOIN " +:+ _documents r +:+
  " d ON d.id=c.document_id WHERE c.tenant_id=%s AND d.status='ACTIVE' AND c.embedding_profile<>%s)".
Definition distance_sql (dimensions : Z) : string :=
  "c.embedding::vector(" +:+ str_of_Z dimensions +:+ ") <=> %s::vector(" +:+ str_of_Z dimensions +:+ ")".
Definition exact_sql (r : postgres_repository) (dimensions : Z) : string :=
  "WITH candidates AS MATERIALIZED (SELECT c.*, d.title AS document_title FROM " +:+ _chunks r +:+
  " c JOIN " +:+ _documents r +:+
  " d ON d.id=c.document_id AND d.tenant_id=c.tenant_id WHERE c.tenant_id=%s AND d.status='ACTIVE' AND c.embedding_profile=%s AND vector_dims(c.embedding)="
  +:+ str_of_Z dimensions +:+ ") SELECT c.*, 1-(" +:+ distance_sql dimensions +:+
  ") AS score FROM candidates c ORDER BY " +:+ distance_sql dimensions +:+ ", c.ordinal ASC LIMIT %s".
Definition approximate_sql (r : postgres_repository) (dimensions : Z) : string :=
  "SELECT c.*, d.title AS document_title, 1 - (" +:+ distance_sql dimensions +:+ ") AS score FROM "
  +:+ _chunks r +:+ " c JOIN " +:+ _documents r +:+
  " d ON d.id = c.document_id WHERE c.tenant_id = %s AND d.status = 'ACTIVE' AND c.embedding_profile = %s AND vector_dims(c.embedding) = "
  +:+ str_of_Z dimensions +:+ " ORDER BY " +:+ distance_sql dimensions +:+ ", c.ordinal ASC LIMIT %s".
Definition revision_sql (r : postgres_repository) : string :=
  "SELECT count(*) AS count, COALESCE(sum(version), 0) AS versions, COALESCE(max(updated_at)::text, '') AS updated FROM "
  +:+ _documents r +:+ " WHERE tenant_id = %s AND status = 'ACTIVE'".
Definition iterative_scan_sql : string := "SET LOCAL hnsw.iterative_scan = 'strict_order'".
Definition search_timeout_sql : string := "SET LOCAL statement_timeout = '5s'".

(** ** The operations *)

(** [uuid4()] and [datetime.now(UTC)]. *)
Class PgEnv (W : Type) := {
  pg_uuid4 : W → W * string;
  pg_now : W → W * string
}.

(** pydantic's reading of a database value as a UUID, a text, an integer. *)
Class RowFields := {
  uuid_field : pyval → result exn string;
  text_field : pyval → result exn string;
  int_field : pyval → result exn Z
}.

Definition source_type_text (t : SourceType) : string :=
  match t with MARKDOWN => "MARKDOWN" | PDF => "PDF" end.
Definition opt_value (o : option string) : pyval := match o with Some s => PStr s | None => PNone end.

Definition row_field (row : list (string * pyval)) (k : string) : result exn pyval := get_key (PDict row) k.

Section Repository.
Context {W : Type} `{Psycopg W} `{PgEnv W} `{RowFields} `{PyText} `{Digests}.
Variable r : postgres_repository.

(** [except psycopg.Error]. *)
Definition store_error {A} (e : exn) : eff W db_call exn A :=
  if is_psycopg_error e then raise RetrievalStoreError else raise e.

Definition connected {A} (parameters : list (string * pyval)) (body : eff W db_call exn A) :
    eff W db_call exn A :=
  with_block (db (Connect parameters)) (λ ok, db (CloseConnection ok)) (λ _, body).

Definition version_after (current : option (list (string * pyval))) : result exn Z :=
  match current with
  | None => Ok 1%Z
  | Some row => v ← row_field row "version"; z ← py_int v; Ok (z + 1)%Z
  end.

Definition retire (now : string) (current : option (list (string * pyval))) : eff W db_call exn unit :=
  match current with
  | None => mret tt
  | Some row =>
      id ← lift_result (row_field row "id");
      _ ← db (Execute (supersede_current r) [PStr now; id]);
      _ ← db (Execute (delete_chunks r) [id]);
      mret tt
  end.

Definition chunk_arguments (tenant document_id now : string) (version : Z) (c : PendingMetricChunk)
    (id : string) : list pyval :=
  [PStr id; PStr tenant; PStr document_id; PInt version; PStr (pc_section_key c);
   PStr (pc_section_title c); PStr (pc_source_locator c); PInt (pc_ordinal c); PStr (pc_content c);
   PStr (_vector_literal (pc_embedding c)); PStr now; PStr (embedding_profile r)].

Fixpoint chunk_rows (tenant document_id now : string) (version : Z) (chunks : list PendingMetricChunk) :
    eff W db_call exn (list (list pyval)) :=
  match chunks with
  | [] => mret []
  | c :: chunks =>
      id ← silent pg_uuid4;
      rows ← chunk_rows tenant document_id now version chunks;
      mret (chunk_arguments tenant document_id now version c id :: rows)
  end.

Definition document_arguments (tenant title document_id now : string) (version : Z) (type : SourceType)
    (source_name sha : string) (created_by : option string) : list pyval :=
  [PStr document_id; PStr tenant; PStr title; PInt version; PStr (source_type_text type);
   PStr source_name; PStr sha; opt_value created_by; PStr now; PStr now].

Definition replace_body (tenant title document_id now : string) (type : SourceType)
    (source_name sha : string) (chunks : list PendingMetricChunk) (created_by : option string) :
    eff W db_call exn Z :=
  _ ← db (Execute (select_current r) [PStr tenant; PStr title]);
  current ← db FetchOneRow;
  version ← lift_result (version_after current);
  _ ← retire now current;
  _ ← db (Execute (insert_document r)
            (document_arguments tenant title document_id now version type source_name sha created_by));
  _ ← with_block (db OpenCursor) (λ ok, db (CloseCursor ok)) (λ _,
        rows ← chunk_rows tenant document_id now version chunks;
        db (ExecuteMany (insert_chunks r) rows));
  mret version.

Definition pg_replace_document (tenant title : string) (type : SourceType) (source_name sha : string)
    (chunks : list PendingMetricChunk) (created_by : option string) :
    eff W db_call exn StoredMetricDocument :=
  match chunks with
  | [] => raise ValueError
  | _ =>
      document_id ← silent pg_uuid4;
      now ← silent pg_now;
      version ← try_except
        (connected (row_parameters (pg_config r))
          (with_block (db BeginTransaction) (λ ok, db (EndTransaction ok)) (λ _,
             replace_body tenant title document_id now type source_name sha chunks created_by)))
        store_error;
      lift_result (StoredMetricDocument_make {|
        sd_id := document_id; sd_tenant_id := tenant; sd_title := title; sd_version := version;
        sd_status := ACTIVE; sd_source_type := type; sd_source_name := source_name;
        sd_content_sha256 := sha; sd_chunk_count := Z.of_nat (length chunks);
        sd_created_at := now; sd_updated_at := now |})
  end.

Definition ranked_row (row : list (string * pyval)) : result exn RankedChunk :=
  id ← row_field row "id"; tenant ← row_field row "tenant_id"; document_id ← row_field row "document_id";
  title ← row_field row "document_title"; version ← row_field row "document_version";
  key ← row_field row "section_key"; section ← row_field row "section_title";
  locator ← row_field row "source_locator"; ordinal ← row_field row "ordinal";
  content ← row_field row "content"; text ← row_field row "embedding";
  embedding ← _parse_vector text;
  id ← uuid_field id; tenant ← uuid_field tenant; document_id ← uuid_field document_id;
  title ← text_field title; version ← int_field version; key ← text_field key;
  section ← text_field section; locator ← text_field locator; ordinal ← int_field ordinal;
  content ← text_field content;
  c ← MetricChunk_make {|
    mc_id := id; mc_tenant_id := tenant; mc_document_id := document_id; mc_document_title := title;
    mc_document_version := version; mc_section_key := key; mc_section_title := section;
    mc_source_locator := locator; mc_ordinal := ordinal; mc_content := content;
    mc_embedding := embedding |};
  raw ← row_field row "score";
  s ← py_float raw;
  Ok {| chunk := c; score := s |}.

Definition approximate : bool := String.eqb (vector_search_mode r) "approximate".

Definition _search (sql : string) (parameters : list pyval) : eff W db_call exn (list RankedChunk) :=
  rows ← try_except
    (connected (row_parameters (pg_config r))
      (_ ← (if approximate then _ ← db (Execute iterative_scan_sql []); mret tt else mret tt);
       _ ← db (Execute search_timeout_sql []);
       _ ← db (Execute sql parameters);
       db FetchAllRows))
    store_error;
  lift_result (map_result ranked_row rows).

Definition pg_lexical_search (tenant query : string) (limit : Z) : eff W db_call exn (list RankedChunk) :=
  _search (lexical_sql r) [PStr query; PStr tenant; PStr query; PInt limit].

(** The truth value of a column value. *)
Definition truthy_value (v : pyval) : bool :=
  match v with
  | PNone => false
  | PBool b => b
  | PInt z => negb (z =? 0)%Z
  | PStr s => negb (String.eqb s "")
  | PList l => if l is [] then false else true
  | PDict d => if d is [] then false else true
  | PFloat t => match float_of_str t with Some x => negb (feqb x fzero) | None => true end
  | POther _ => true
  end.

Definition reject_mixed_profiles (tenant : string) : eff W db_call exn unit :=
  try_except
    (connected (platform_parameters (pg_config r))
      (_ ← db (Execute (mixed_profiles_sql r) [PStr tenant; PStr (embedding_profile r)]);
       row ← db FetchOne;
       match row with
       | None => raise TypeError
       | Some [] => raise IndexError
       | Some (mixed :: _) => if truthy_value mixed then raise EmbeddingProfileError else mret tt
       end))
    store_error.

Definition pg_vector_search (tenant : string) (embedding : list float) (limit : Z) :
    eff W db_call exn (list RankedChunk) :=
  let literal := PStr (_vector_literal embedding) in
  _ ← reject_mixed_profiles tenant;
  let dimensions := Z.of_nat (length embedding) in
  if ((16 <=? dimensions) && (dimensions <=? 2048))%Z then
    if String.eqb (vector_search_mode r) "exact"
    then _search (exact_sql r dimensions)
           [PStr tenant; PStr (embedding_profile r); literal; literal; PInt limit]
    else _search (approximate_sql r dimensions)
           [literal; PStr tenant; PStr (embedding_profile r); literal; PInt limit]
  else raise ValueError.

(** [row[key]] on the fetched row, [None] included. *)
Definition subscript (row : option (list (string * pyval))) (k : string) : result exn pyval :=
  match row with Some d => row_field d k | None => Err TypeError end.

Definition pg_corpus_revision (tenant : string) : eff W db_call exn string :=
  row ← try_except
    (connected (row_parameters (pg_config r))
      (_ ← db (Execute (revision_sql r) [PStr tenant]); db FetchOneRow))
    store_error;
  lift_result (count ← subscript row "count"; versions ← subscript row "versions";
               updated ← subscript row "updated";
               Ok ("sha256:" +:+ sha256_hex (py_str count +:+ ":" +:+ py_str versions +:+ ":" +:+ py_str updated))).
End Repository.

(** The repository as [MetricRetrievalService] sees it. *)
Definition postgres_store {W} `{Psycopg W} `{PgEnv W} `{RowFields} `{PyText} `{Digests}
    (r : postgres_repository) : MetricKnowledgeRepository W := {|
  replace_document t title ty n sha cs u := as_op (pg_replace_document r t title ty n sha cs u);
  lexical_search t q l := as_op (pg_lexical_search r t q l);
  vector_search t e l := as_op (pg_vector_search r t e l);
  corpus_revision t := as_op (pg_corpus_revision r t)
|}.

(** ** Vectors read back *)

(** What a component is read as: special values and zeros exactly, a finite
    value as the double nearest to a decimal within half a unit of its tenth
    significant digit. *)
Definition reads_as (x y : float) : Prop :=
  match x with
  | SpecFloat.S754_finite s m e => ∃ b q, y = signed_nearest s b q ∧
      (QArith_base.Qle (Qabs.Qabs (QArith_base.Qminus (magnitude m e)
         (QArith_base.Qmult (QArith_base.inject_Z b) (ten q))))
       (QArith_base.Qmult (QArith_base.Qmult (QArith_base.Qmake 1 2) (ten (-9))) (magnitude m e)))
  | x => y = x
  end.

Lemma format_g_read x : ∃ y, py_float (PStr (format_g 10 x)) = Ok y ∧ reads_as x y.
Proof.
  destruct x as [s|s| |s m e].
  1-3: try destruct s; by eexists; split; [vm_compute; reflexivity|].
  destruct (format_g_reads 10 s m e ltac:(done)) as (b & q & Hr & He).
  eexists. cbn [py_float]. rewrite Hr. split; [done|]. by exists b, q.
Qed.

Fixpoint str_forallb (p : Ascii.ascii → bool) (s : string) : bool :=
  match s with
  | EmptyString => true
  | String a s => p a && str_forallb p s
  end.

Lemma str_forallb_app p s t : str_forallb p (s +:+ t) = str_forallb p s && str_forallb p t.
Proof. induction s as [|a s IH]; [done|]. rewrite str_app_cons. cbn. by rewrite IH, andb_assoc. Qed.

Lemma str_forallb_join p sep l :
  str_forallb p sep = true → Forall (λ s, str_forallb p s = true) l → str_forallb p (join sep l) = true.
Proof.
  intros Hsep. induction 1 as [|s l Hs Hl IH]; [done|]. destruct l; [done|].
  cbn [join] in *. by rewrite !str_forallb_app, Hs, Hsep, IH.
Qed.

Lemma str_forallb_impl (p q : Ascii.ascii → bool) s :
  (∀ a, p a = true → q a = true) → str_forallb p s = true → str_forallb q s = true.
Proof. intros Hpq. induction s as [|a s IH]; [done|]. cbn. rewrite !andb_true_iff. naive_solver. Qed.

Definition plain_char (a : Ascii.ascii) : bool := negb (bracket a) && negb (Ascii.eqb a comma).

Lemma encode_literal l : Forall literal_cp l → str_forallb plain_char (encode l) = true.
Proof.
  induction 1 as [|c l (Hlt & H44 & H91 & H93) _ IH]; [done|].
  assert (Ascii.N_of_ascii (byte c) = c) as Hb by (apply Ascii.N_ascii_embedding; lia).
  assert (∀ k, (k < 256)%N → c ≠ k → Ascii.eqb (byte c) (byte k) = false) as Hk.
  { intros k Hk Hne. apply Ascii.eqb_neq. intros He. apply (f_equal Ascii.N_of_ascii) in He.
    unfold byte in He. rewrite !Ascii.N_ascii_embedding in He by lia. done. }
  cbn [encode foldr]. fold (encode l). unfold encode_cp. rewrite (proj2 (N.ltb_lt c 128)) by done.
  cbn [str_forallb]. unfold plain_char at 1, bracket, comma. by rewrite !Hk, IH by done.
Qed.

Lemma plain_no_comma s : str_forallb plain_char s = true → char_in comma s = false.
Proof.
  induction s as [|a s IH]; [done|]. cbn [str_forallb char_in]. unfold plain_char at 1. rewrite !andb_true_iff.
  intros [[_ ->%negb_true_iff] Hs]. by apply IH.
Qed.

Definition no_bracket (a : Ascii.ascii) : bool := negb (bracket a).

Lemma strip_brackets s :
  str_forallb no_bracket s = true →
  rstrip_chars bracket (lstrip_chars bracket ("[" +:+ s +:+ "]")) = s.
Proof.
  intros Hs. rewrite str_app_cons, str_app_nil. cbn [lstrip_chars]. change (bracket _) with true. cbv iota.
  assert (∀ u, str_forallb no_bracket u = true → rstrip_chars bracket (u +:+ "]") = u) as Hr.
  { induction u as [|a u IH]; [done|]. rewrite str_app_cons. cbn. rewrite andb_true_iff.
    intros [Ha%negb_true_iff Hu]. rewrite IH by done. destruct u; [by rewrite Ha|done]. }
  destruct s as [|a s]; [done|]. rewrite str_app_cons. cbn [lstrip_chars].
  cbn in Hs. apply andb_true_iff in Hs as Hs'. destruct Hs' as [Ha%negb_true_iff _]. rewrite Ha.
  rewrite <-str_app_cons. by apply Hr.
Qed.

Lemma split_on_joined c l :
  l ≠ [] → Forall (λ w, char_in c w = false) l → split_on c (join (String c EmptyString) l) = l.
Proof.
  intros Hne Hl. induction Hl as [|w l Hw Hl IH]; [done|]. destruct l as [|w' l].
  { by apply split_on_absent. }
  cbn [join] in *. rewrite str_app_cons, str_app_nil, split_on_app by done. by rewrite IH.
Qed.

Lemma format_g_plain x : str_forallb plain_char (format_g 10 x) = true.
Proof. by apply encode_literal, general_cps_chars. Qed.

Lemma format_g_not_empty x : String.eqb (format_g 10 x) EmptyString = false.
Proof.
  destruct (format_g_read x) as (y & Hy & _). destruct (format_g 10 x); [|done].
  vm_compute in Hy. discriminate.
Qed.

(** C33: Writing an embedding as a vector literal and reading it back returns a
    vector of the same length in which every component is the double nearest
    to a decimal within half a unit of the tenth significant digit of the
    stored value (infinities, NaN and signed zeros come back exactly), so the
    relative error of the decimal text is at most five parts in 10^10. *)
Theorem vector_literal_roundtrip : ∀ values,
  ∃ read, _parse_vector (PStr (_vector_literal values)) = Ok read ∧ Forall2 reads_as values read.
Proof.
  intros values. unfold _parse_vector, _vector_literal.
  assert (∃ read, map_result (λ item, py_float (PStr item)) (map (format_g 10) values) = Ok read
            ∧ Forall2 reads_as values read) as (read & Hread & Hall).
  { induction values as [|x values (read & Hr & Hf)]; [by exists []|].
    destruct (format_g_read x) as (y & Hy & Hxy). exists (y :: read). split; [|by constructor].
    cbn [map]. rewrite map_result_cons, Hy. cbn [mbind result_bind]. by rewrite Hr. }
  exists read. split; [|done]. rewrite <-Hread. f_equal.
  assert (Forall (λ s, str_forallb plain_char s = true) (map (format_g 10) values)) as Hplain
    by (apply Forall_forall; intros s (x & -> & _)%elem_of_map; apply format_g_plain).
  rewrite strip_brackets.
  2:{ apply str_forallb_join; [done|]. eapply Forall_impl; [exact Hplain|]. intros s. apply str_forallb_impl.
      intros a [Ha _]%andb_true_iff. exact Ha. }
  destruct values as [|x values]; [done|]. change "," with (String comma EmptyString).
  rewrite split_on_joined; [|done|].
  2:{ eapply Forall_impl; [exact Hplain|]. apply plain_no_comma. }
  apply List.forallb_filter_id, list_forallb_spec. intros s (y & -> & _)%elem_of_map. by rewrite format_g_not_empty.
Qed.

(** ** Transactions *)




Section Sessions.
Context {W : Type} `{Psycopg W}.


End Sessions.

(** ** Replacing a document *)

Section Replace.
Context {W : Type} `{Psycopg W} `{PgEnv W}.
Variable r : postgres_repository.


(** What the database answered to the statement that reads and locks the
    tenant's current version of a title. *)
Definition current_row (tenant title : string) (current : option (list (string * pyval))) : Prop :=
  ∃ w w1 w2 u,
    perform (Execute
      ("SELECT id, version FROM " +:+ (pk_schema (pg_config r) +:+ ".metric_documents") +:+
       " WHERE tenant_id = %s AND title = %s AND status = 'ACTIVE' FOR UPDATE") [PStr tenant; PStr title]) w
      = (w1, Ok u) ∧
    perform FetchOneRow w1 = (w2, Ok current).

(** The row of a new chunk, by the columns of the table. *)
Definition chunk_row (tenant document_id now : string) (version : Z) (c : PendingMetricChunk)
    (row : list pyval) : Prop :=
  ∃ id, zip ["id"; "tenant_id"; "document_id"; "document_version"; "section_key"; "section_title";
             "source_locator"; "ordinal"; "content"; "embedding"; "created_at"; "embedding_profile"] row =
    [("id", PStr id); ("tenant_id", PStr tenant); ("document_id", PStr document_id);
     ("document_version", PInt version); ("section_key", PStr (pc_section_key c));
     ("section_title", PStr (pc_section_title c)); ("source_locator", PStr (pc_source_locator c));
     ("ordinal", PInt (pc_ordinal c)); ("content", PStr (pc_content c));
     ("embedding", PStr (_vector_literal (pc_embedding c))); ("created_at", PStr now);
     ("embedding_profile", PStr (embedding_profile r))] ∧ length row = 12.





Lemma chunk_rows_run tenant document_id now version chunks :
  sat (chunk_rows (W := W) r tenant document_id now version chunks) (λ t res, t = [] ∧ ∃ rows, res = Ok rows ∧
    Forall2 (chunk_row tenant document_id now version) chunks rows).
Proof.
  induction chunks as [|c chunks IH]; cbn [chunk_rows].
  - apply sat_ret. split; [done|]. by exists [].
  - apply sat_bind, sat_silent_op. intros id. cbn [app]. apply sat_bind.
    refine (sat_conseq _ _ _ IH _). intros t res (-> & rows & -> & Hrows). apply sat_ret. split; [done|].
    eexists. split; [done|]. by constructor; [exists id|].
Qed.






End Replace.

(** ** Statements and tenants *)

(** The statements that carry the tenant, with the position of its parameter:
    only the configured schema and a validated dimension vary. *)
Definition tenant_statement (r : postgres_repository) (s : string) (i : nat) : Prop :=
  (s, i) ∈ [(select_current r, 0); (insert_document r, 1); (lexical_sql r, 1); (mixed_profiles_sql r, 0);
            (revision_sql r, 0)] ∨
  ∃ d, (16 ≤ d ≤ 2048)%Z ∧ (s, i) ∈ [(exact_sql r d, 0); (approximate_sql r d, 1)].

(** The calls that may be made for a tenant; a document that is superseded,
    or whose chunks are deleted, is that of the row with which the database
    answered to the selection of the tenant's current version of the title. *)
Inductive permitted {W} `{Psycopg W} (r : postgres_repository) (tenant title : string) : db_call → Prop :=
| permitted_tenant s i arguments : tenant_statement r s i → arguments !! i = Some (PStr tenant) →
    permitted r tenant title (Execute s arguments)
| permitted_supersede row id now : current_row r tenant title (Some row) → row_field row "id" = Ok id →
    permitted r tenant title (Execute (supersede_current r) [PStr now; id])
| permitted_delete row id : current_row r tenant title (Some row) → row_field row "id" = Ok id →
    permitted r tenant title (Execute (delete_chunks r) [id])
| permitted_setting s : s ∈ [iterative_scan_sql; search_timeout_sql] → permitted r tenant title (Execute s [])
| permitted_rows rows : Forall (λ row, row !! 1 = Some (PStr tenant)) rows →
    permitted r tenant title (ExecuteMany (insert_chunks r) rows)
| permitted_connect ps : ps ∈ [platform_parameters (pg_config r); row_parameters (pg_config r)] →
    permitted r tenant title (Connect ps)
| permitted_other c : match c with Execute _ _ | ExecuteMany _ _ | Connect _ => False | _ => True end →
    permitted r tenant title c.

Section Scoped.
Context {W : Type} `{Psycopg W} `{PgEnv W} `{RowFields} `{PyText} `{Digests}.
Variables (r : postgres_repository) (tenant title : string).
Notation permitted := (permitted r tenant title).

Lemma calls_block {A B} (enter : eff W db_call exn A) exit (m : A → eff W db_call exn B) :
  calls permitted enter → (∀ ok, calls permitted (exit ok)) →
  (∀ x, calls permitted (m x)) → calls permitted (with_block enter exit m).
Proof. intros He Hx Hm. apply calls_bind; [done|]. intros x. by apply calls_finally. Qed.

Lemma calls_other c : match c with Execute _ _ | ExecuteMany _ _ | Connect _ => False | _ => True end →
  calls permitted (db (W := W) c).
Proof. intros Hc. by apply calls_invoke, permitted_other. Qed.

Ltac other_call := lazymatch goal with |- calls _ (db ?c) => exact (calls_other c I) end.

Lemma calls_tenant s i arguments : tenant_statement r s i → arguments !! i = Some (PStr tenant) →
  calls permitted (db (W := W) (Execute s arguments)).
Proof. intros Hs Ha. by eapply calls_invoke, permitted_tenant. Qed.

Lemma calls_pg_session {A} ps (m : eff W db_call exn A) :
  ps ∈ [platform_parameters (pg_config r); row_parameters (pg_config r)] →
  calls permitted m →
  calls permitted (try_except (connected ps m) store_error).
Proof.
  intros Hps Hm. apply calls_try.
  - apply calls_block; [by apply calls_invoke, permitted_connect|intros ok; other_call|done].
  - intros e. unfold store_error. destruct (is_psycopg_error e); apply calls_raise.
Qed.

Lemma chunk_row_tenant document_id now version c row :
  chunk_row r tenant document_id now version c row → row !! 1 = Some (PStr tenant).
Proof. intros (id & Hz & _). destruct row as [|x [|y row]]; [done|done|]. by injection Hz as _ ->. Qed.

Lemma calls_rows document_id now version chunks :
  calls permitted (rows ← chunk_rows (W := W) r tenant document_id now version chunks;
                   db (ExecuteMany (insert_chunks r) rows)).
Proof.
  apply sat_bind. refine (sat_conseq _ _ _ (chunk_rows_run _ _ _ _ _ _) _).
  intros t res (-> & rows & -> & Hrows). apply calls_invoke, permitted_rows.
  apply Forall_forall. intros row Hrow. apply Forall2_flip in Hrows.
  destruct (Forall2_in_l _ _ _ _ Hrows Hrow) as (c & _ & Hc). by eapply chunk_row_tenant.
Qed.

Lemma calls_retire now current : current_row r tenant title current →
  calls permitted (retire (W := W) r now current).
Proof.
  intros Hrow. destruct current as [row|]; cbn [retire]; [|calls_step].
  apply sat_guard; [|constructor]. intros id Hid.
  match goal with |- sat ?m _ => change (calls permitted m) end.
  calls_step; [by eapply calls_invoke, permitted_supersede|].
  calls_step; [by eapply calls_invoke, permitted_delete|calls_step].
Qed.

Lemma calls_replace_body document_id now type source_name sha chunks created_by :
  calls permitted (replace_body (W := W) r tenant title document_id now type source_name sha chunks created_by).
Proof.
  intros w. change (run_from w (replace_body r tenant title document_id now type source_name sha chunks created_by)
    (λ _ t _, Forall permitted t)).
  assert (permitted (Execute (select_current r) [PStr tenant; PStr title])) as Hselect
    by (eapply permitted_tenant; [left; by left|done]).
  apply from_bind, from_invoke. intros w1 [u|e] Hlocked; [|by apply Forall_singleton].
  apply from_bind, from_invoke. intros w2 [current|e] Hfetched; cbn [app];
    [|apply Forall_cons_2; [done|apply Forall_cons_2; [by apply permitted_other|constructor]]].
  assert (current_row r tenant title current) as Hrow by (exists w, w1, w2, u; split; [exact Hlocked|exact Hfetched]).
  apply from_sat.
  match goal with |- sat ?m _ => assert (calls permitted m) as Hm end.
  { calls_step; [calls_step|]. calls_step; [by apply calls_retire|].
    calls_step; [eapply calls_tenant; [left; right; by left|done]|]. calls_step; [|calls_step].
    apply calls_block; [other_call|intros ok; other_call|intros _; apply calls_rows]. }
  refine (sat_conseq _ _ _ Hm _). intros t res Ht.
  apply Forall_cons_2; [done|apply Forall_cons_2; [by apply permitted_other|exact Ht]].
Qed.

Lemma calls_replace type source_name sha chunks created_by :
  calls permitted
    (pg_replace_document (W := W) r tenant title type source_name sha chunks created_by).
Proof.
  unfold pg_replace_document. destruct chunks as [|c chunks]; [apply calls_raise|].
  calls_step; [calls_step|]. calls_step; [calls_step|]. calls_step; [|calls_step].
  apply calls_pg_session; [by right; left|].
  apply calls_block; [other_call|intros ok; other_call|intros _; apply calls_replace_body].
Qed.

Lemma calls_search sql i arguments : tenant_statement r sql i → arguments !! i = Some (PStr tenant) →
  calls permitted (_search (W := W) r sql arguments).
Proof.
  intros Hsql Hargs. unfold _search. calls_step; [|calls_step]. apply calls_pg_session; [by right; left|].
  calls_step; [destruct (approximate r); [calls_step; [|calls_step]|calls_step]|].
  { apply calls_invoke, permitted_setting. by left. }
  calls_step; [apply calls_invoke, permitted_setting; by right; left|].
  calls_step; [by eapply calls_tenant|other_call].
Qed.

Lemma calls_vector_search embedding limit :
  calls permitted (pg_vector_search (W := W) r tenant embedding limit).
Proof.
  unfold pg_vector_search, reject_mixed_profiles. cbv zeta. calls_step.
  - apply calls_pg_session; [by left|].
    calls_step; [eapply calls_tenant; [left; do 3 right; by left|done]|]. calls_step; [other_call|].
    repeat calls_step.
  - destruct (Z.leb_spec 16 (Z.of_nat (length embedding))), (Z.leb_spec (Z.of_nat (length embedding)) 2048);
      cbn [andb]; try calls_step.
    + eapply calls_search; [right; eexists; split; [split; eassumption|by left]|done].
    + eapply calls_search; [right; eexists; split; [split; eassumption|by right; left]|done].
Qed.

(** C29: Every statement the repository sends is one of a fixed set of texts in
    which only the configured schema and a dimension between 16 and 2048
    vary, so titles, queries, contents and vectors reach the database as
    parameters only.  Every statement that reads or inserts has the caller's
    tenant as the parameter of its tenant column, in every inserted chunk
    too.  The only statements without it set the search's local limits, or
    supersede a document and delete its chunks: that document is the one the
    database answered with when asked for the tenant's current version of the
    title.  Connections go to the configured database alone. *)
Theorem pg_statements_scoped : ∀ type source_name sha chunks created_by query embedding limit,
  calls permitted
    (pg_replace_document (W := W) r tenant title type source_name sha chunks created_by) ∧
  calls permitted (pg_lexical_search (W := W) r tenant query limit) ∧
  calls permitted (pg_vector_search (W := W) r tenant embedding limit) ∧
  calls permitted (pg_corpus_revision (W := W) r tenant).
Proof.
  intros type source_name sha chunks created_by query embedding limit.
  split_and!; [apply calls_replace|eapply calls_search; [left; do 2 right; by left|done]|
    apply calls_vector_search|].
  unfold pg_corpus_revision. calls_step; [|calls_step]. apply calls_pg_session; [by right; left|].
  calls_step; [eapply calls_tenant; [left; do 4 right; by left|done]|other_call].
Qed.
End Scoped.

(** ** A run *)

Definition demo_store_driver : Psycopg nat := λ c w,
  match c with
  | Execute _ _ => (w, Ok None)
  | FetchMany _ => (w, Ok [])
  | FetchOne => (w, Ok (Some [PBool false]))
  | FetchOneRow => (w, Ok (Some [("id", PStr "doc-1"); ("version", PInt 4)]))
  | FetchAllRows => (w, Ok [])
  | Connect _ | BeginTransaction | OpenCursor | ExecuteMany _ _ | CloseCursor _ | EndTransaction _
  | CloseConnection _ => (w, Ok tt)
  end.
#[export] Instance demo_pg_env : PgEnv nat := {|
  pg_uuid4 n := (S n, demo_uuid n); pg_now n := (n, "2024-05-01T00:00:00Z") |}.

Definition demo_repository : postgres_repository := {|
  pg_config := {| pk_host := "localhost"; pk_port := 5432; pk_database := "copilot_platform";
                  pk_username := "copilot"; pk_password := "secret"; pk_schema := "copilot";
                  pk_connect_timeout_seconds := 3 |};
  embedding_profile := "hashing:64"; vector_search_mode := "exact" |}.

Definition demo_chunk : PendingMetricChunk := {|
  pc_section_key := "m#1"; pc_section_title := "Revenue"; pc_source_locator := "lines 1-2";
  pc_ordinal := 0; pc_content := "net revenue"; pc_embedding := repeat (decimal 25 2) 16 |}.

Example pg_replace_run :
  let m := @pg_replace_document nat demo_store_driver demo_pg_env demo_repository "t1" "Metrics" MARKDOWN
             "m.md" demo_sha [demo_chunk] (Some "u1") in
  (sd_version <$> outcome m 0) = Ok 5%Z ∧ length (trace m 0) = 12 ∧
  trace m 0 !! 4 = Some (Execute "UPDATE copilot.metric_documents SET status = 'SUPERSEDED', updated_at = %s WHERE id = %s"
                           [PStr "2024-05-01T00:00:00Z"; PStr "doc-1"]) ∧
  outcome (@pg_replace_document nat demo_store_driver demo_pg_env demo_repository "t1" "Metrics" MARKDOWN
             "m.md" "no digest" [demo_chunk] None) 0 = Err ValidationError.
Proof. vm_compute. done. Qed.
