(* ===== verification/Introspector.v ===== *)
(** * Reading the catalog: [app/metadata/introspection.py]

    [PostgresSchemaIntrospector.inspect]: four statements on one connection,
    their rows as [build_snapshot] takes them.  A row is the dictionary that
    [dict_row] makes; its values have the types of the catalog's columns, and
    a value of another type is refused as pydantic refuses it. *)

From S2P Require Import Prelude PyStr Floats Errors Json Metadata DataSources Executor.

(** ** The statements *)

Definition _COLUMNS_SQL : string := "
SELECT
    columns.table_name,
    obj_description(classes.oid, 'pg_class') AS table_comment,
    columns.column_name,
    columns.ordinal_position,
    CASE
        WHEN columns.data_type = 'USER-DEFINED' THEN columns.udt_name
        ELSE columns.data_type
    END AS data_type,
    columns.is_nullable = 'YES' AS nullable,
    col_description(classes.oid, columns.ordinal_position) AS column_comment
FROM information_schema.columns AS columns
JOIN pg_namespace AS namespaces
  ON namespaces.nspname = columns.table_schema
JOIN pg_class AS classes
  ON classes.relnamespace = namespaces.oid
 AND classes.relname = columns.table_name
 AND classes.relkind IN ('r', 'p')
WHERE columns.table_schema = %s
  AND columns.table_name <> 'dataset_manifest'
ORDER BY columns.table_name, columns.ordinal_position
".

Definition _PRIMARY_KEYS_SQL : string := "
SELECT
    tables.relname AS table_name,
    constraints.conname AS constraint_name,
    array_agg(columns.attname ORDER BY key_columns.ordinality) AS columns
FROM pg_constraint AS constraints
JOIN pg_class AS tables ON tables.oid = constraints.conrelid
JOIN pg_namespace AS schemas ON schemas.oid = tables.relnamespace
CROSS JOIN LATERAL unnest(constraints.conkey)
  WITH ORDINALITY AS key_columns(attribute_number, ordinality)
JOIN pg_attribute AS columns
  ON columns.attrelid = tables.oid
 AND columns.attnum = key_columns.attribute_number
WHERE schemas.nspname = %s
  AND constraints.contype = 'p'
  AND tables.relname <> 'dataset_manifest'
GROUP BY tables.relname, constraints.conname
ORDER BY tables.relname
".

Definition _FOREIGN_KEYS_SQL : string := "
SELECT
    source_tables.relname AS table_name,
    constraints.conname AS constraint_name,
    array_agg(source_columns.attname ORDER BY source_keys.ordinality) AS columns,
    MIN(target_schemas.nspname) AS referenced_schema,
    MIN(target_tables.relname) AS referenced_table,
    array_agg(target_columns.attname ORDER BY source_keys.ordinality) AS referenced_columns
FROM pg_constraint AS constraints
JOIN pg_class AS source_tables ON source_tables.oid = constraints.conrelid
JOIN pg_namespace AS source_schemas ON source_schemas.oid = source_tables.relnamespace
JOIN pg_class AS target_tables ON target_tables.oid = constraints.confrelid
JOIN pg_namespace AS target_schemas ON target_schemas.oid = target_tables.relnamespace
CROSS JOIN LATERAL unnest(constraints.conkey)
  WITH ORDINALITY AS source_keys(attribute_number, ordinality)
JOIN LATERAL unnest(constraints.confkey)
  WITH ORDINALITY AS target_keys(attribute_number, ordinality)
  ON target_keys.ordinality = source_keys.ordinality
JOIN pg_attribute AS source_columns
  ON source_columns.attrelid = source_tables.oid
 AND source_columns.attnum = source_keys.attribute_number
JOIN pg_attribute AS target_columns
  ON target_columns.attrelid = target_tables.oid
 AND target_columns.attnum = target_keys.attribute_number
WHERE source_schemas.nspname = %s
  AND constraints.contype = 'f'
GROUP BY source_tables.relname, constraints.conname
ORDER BY source_tables.relname, constraints.conname
".

(** [sql.Identifier(name)]: quoted, with quotes doubled. *)
Fixpoint double_quotes (s : string) : string :=
  match s with
  | EmptyString => EmptyString
  | String a t => if Ascii.eqb a (byte 34) then String a (String a (double_quotes t))
                  else String a (double_quotes t)
  end.
Definition sql_identifier (s : string) : string :=
  String (byte 34) (double_quotes s) +:+ String (byte 34) EmptyString.

Definition manifest_sql (schema : string) : string :=
  "SELECT dataset_version FROM " +:+ sql_identifier schema +:+ ".dataset_manifest WHERE dataset_name = %s".

(** ** The rows *)

Definition dict_row : Type := list (string * pyval).

Definition cell (row : dict_row) (k : string) : result exn pyval := get_key (PDict row) k.
Definition as_text (v : pyval) : result exn string :=
  match v with PStr s => Ok s | _ => Err ValidationError end.
Definition as_opt_text (v : pyval) : result exn (option string) :=
  match v with PNone => Ok None | PStr s => Ok (Some s) | _ => Err ValidationError end.
Definition as_flag (v : pyval) : result exn bool :=
  match v with PBool b => Ok b | _ => Err ValidationError end.
Definition as_number (v : pyval) : result exn Z :=
  match v with PInt z => Ok z | _ => Err ValidationError end.
(** [list(row[...])] of an array column. *)
Definition as_texts (v : pyval) : result exn (list string) :=
  match v with PList l => map_result as_text l | _ => Err TypeError end.

Definition text_cell row k : result exn string := v ← cell row k; as_text v.
Definition texts_cell row k : result exn (list string) := v ← cell row k; as_texts v.

Definition column_of (row : dict_row) : result exn column_row :=
  table ← text_cell row "table_name"; comment ← (v ← cell row "table_comment"; as_opt_text v);
  name ← text_cell row "column_name"; position ← (v ← cell row "ordinal_position"; as_number v);
  type ← text_cell row "data_type"; null ← (v ← cell row "nullable"; as_flag v);
  note ← (v ← cell row "column_comment"; as_opt_text v);
  Ok {| cr_table := table; cr_table_comment := comment;
        cr_column := {| col_name := name; ordinal_position := position; data_type := type;
                        nullable := null; col_comment := note |} |}.

Definition primary_key_of (row : dict_row) : result exn pk_row :=
  table ← text_cell row "table_name"; name ← text_cell row "constraint_name";
  keys ← texts_cell row "columns";
  Ok {| pr_table := table; pr_key := {| pk_name := name; pk_columns := keys |} |}.

Definition foreign_key_of (row : dict_row) : result exn fk_row :=
  table ← text_cell row "table_name"; name ← text_cell row "constraint_name";
  keys ← texts_cell row "columns"; schema ← text_cell row "referenced_schema";
  target ← text_cell row "referenced_table"; target_keys ← texts_cell row "referenced_columns";
  Ok {| fr_table := table; fr_key := {| fk_name := name; fk_columns := keys; referenced_schema := schema;
          referenced_table := target; referenced_columns := target_keys |} |}.

(** [(version_row or {}).get("dataset_version", "unknown")]. *)
Definition dataset_version_of (row : option dict_row) : result exn string :=
  match row with
  | None => Ok "unknown"
  | Some d => match dict_get "dataset_version" d with None => Ok "unknown" | Some v => as_text v end
  end.

(** ** inspect *)

Section Inspect.
Context {W : Type} `{Psycopg W} `{Digests}.

Definition fetched : Type := list dict_row * list dict_row * list dict_row * option dict_row.

Definition catalog_queries (c : DataSourceConfig) : eff W db_call exn fetched :=
  let schema := [PStr (cfg_allowed_schema c)] in
  _ ← db (Execute _COLUMNS_SQL schema);
  column_rows ← db FetchAllRows;
  _ ← db (Execute _PRIMARY_KEYS_SQL schema);
  primary_key_rows ← db FetchAllRows;
  _ ← db (Execute _FOREIGN_KEYS_SQL schema);
  foreign_key_rows ← db FetchAllRows;
  _ ← db (Execute (manifest_sql (cfg_allowed_schema c)) [PStr "northwind"]);
  version_row ← db FetchOneRow;
  mret (column_rows, primary_key_rows, foreign_key_rows, version_row).

Definition snapshot_of (c : DataSourceConfig) (rows : fetched) : result exn SchemaSnapshot :=
  let '(column_rows, primary_key_rows, foreign_key_rows, version_row) := rows in
  cs ← map_result column_of column_rows;
  ps ← map_result primary_key_of primary_key_rows;
  fs ← map_result foreign_key_of foreign_key_rows;
  version ← dataset_version_of version_row;
  Ok (build_snapshot (cfg_source_id c) (cfg_allowed_schema c) version cs ps fs).

Definition introspect (c : DataSourceConfig) : eff W db_call exn SchemaSnapshot :=
  rows ← with_block (connect c) (λ ok, db (CloseConnection ok)) (λ _,
           with_block (db OpenCursor) (λ ok, db (CloseCursor ok)) (λ _, catalog_queries c));
  lift_result (snapshot_of c rows).
End Inspect.

(** ** Theorems *)

(** The calls of a catalog read, whatever fails on the way. *)
Inductive catalog_session (c : DataSourceConfig) (body : list db_call) : list db_call → Prop :=
| catalog_connect : body = [] → catalog_session c body [Connect (connection_parameters c)]
| catalog_cursor : body = [] →
    catalog_session c body [Connect (connection_parameters c); OpenCursor; CloseConnection false]
| catalog_full k1 k2 :
    catalog_session c body ([Connect (connection_parameters c); OpenCursor] ++ body ++
                            [CloseCursor k1; CloseConnection k2]).

Definition catalog_calls (c : DataSourceConfig) : list db_call :=
  let schema := [PStr (cfg_allowed_schema c)] in
  [Execute _COLUMNS_SQL schema; FetchAllRows; Execute _PRIMARY_KEYS_SQL schema; FetchAllRows;
   Execute _FOREIGN_KEYS_SQL schema; FetchAllRows;
   Execute (manifest_sql (cfg_allowed_schema c)) [PStr "northwind"]; FetchOneRow].

Section Catalog.
Context {W : Type} `{Psycopg W} `{Digests}.
Implicit Types c : DataSourceConfig.

(** The driver answered a statement with [x], from one world to another. *)
Definition answered {k : db_call} (statement : string) (arguments : list pyval) (w : W) (x : reply k) (w' : W) : Prop :=
  ∃ w1 u, perform (Execute statement arguments) w = (w1, Ok u) ∧ perform k w1 = (w', Ok x).

(** The four answers of one session, each to its own statement. *)
Definition driver_rows c (rows : fetched) : Prop :=
  let '(column_rows, primary_key_rows, foreign_key_rows, version_row) := rows in
  let schema := [PStr (cfg_allowed_schema c)] in
  ∃ w0 w1 w2 w3 w4,
    answered (k := FetchAllRows) _COLUMNS_SQL schema w0 column_rows w1 ∧
    answered (k := FetchAllRows) _PRIMARY_KEYS_SQL schema w1 primary_key_rows w2 ∧
    answered (k := FetchAllRows) _FOREIGN_KEYS_SQL schema w2 foreign_key_rows w3 ∧
    answered (k := FetchOneRow)
      ("SELECT dataset_version FROM " +:+ sql_identifier (cfg_allowed_schema c) +:+
       ".dataset_manifest WHERE dataset_name = %s") [PStr "northwind"] w3 version_row w4.

(** Runs the head call of a sequence of calls. *)
Lemma prefix_db {B} w k (f : reply k → eff W db_call exn B) full (F : B → Prop) :
  (∀ w' x, perform k w = (w', Ok x) → run_from w' (f x) (λ _ t res, t `prefix_of` full ∧
     ∀ a, res = Ok a → t = full ∧ F a)) →
  run_from w (x ← db k; f x) (λ _ t res, t `prefix_of` k :: full ∧ ∀ a, res = Ok a → t = k :: full ∧ F a).
Proof.
  intros Hf. apply from_bind, from_invoke. intros w' [x|e] Hp; cbn [app].
  - refine (from_conseq _ _ _ _ (Hf w' x Hp) _). intros _ t res [Ht Hr]. split; [by apply prefix_cons|].
    intros a Ha. by destruct (Hr a Ha) as [-> ?].
  - split; [by apply prefix_cons, prefix_nil|done].
Qed.

Lemma catalog_queries_run c :
  sat (catalog_queries c) (λ t res, t `prefix_of` catalog_calls c ∧
    ∀ rows, res = Ok rows → t = catalog_calls c ∧ driver_rows c rows).
Proof.
  intros w. change (run_from w (catalog_queries c) (λ _ t res, t `prefix_of` catalog_calls c ∧
    ∀ rows, res = Ok rows → t = catalog_calls c ∧ driver_rows c rows)).
  unfold catalog_queries, catalog_calls.
  apply prefix_db; intros w1 u1 E1. apply prefix_db; intros w2 cs F1.
  apply prefix_db; intros w3 u2 E2. apply prefix_db; intros w4 ps F2.
  apply prefix_db; intros w5 u3 E3. apply prefix_db; intros w6 fs F3.
  apply prefix_db; intros w7 u4 E4. apply prefix_db; intros w8 v F4.
  apply from_ret. split; [done|]. intros rows [= <-]. split; [done|]. exists w, w2, w4, w6, w8.
  split; [by exists w1, u1|]. split; [by exists w3, u2|]. split; [by exists w5, u3|by exists w7, u4].
Qed.

Lemma catalog_run c :
  sat (with_block (connect c) (λ ok, db (CloseConnection ok)) (λ _,
         with_block (db OpenCursor) (λ ok, db (CloseCursor ok)) (λ _, catalog_queries c)))
    (λ t res, ∃ body, catalog_session c body t ∧ body `prefix_of` catalog_calls c ∧
       ∀ rows, res = Ok rows → body = catalog_calls c ∧ driver_rows c rows).
Proof.
  apply sat_with_block, sat_connect. intros [u|e].
  2:{ exists []. split_and!; [by constructor|apply prefix_nil|done]. }
  apply sat_with_block. sat_call. destruct r as [u'|e].
  2:{ sat_call. exists []. split_and!; [by apply catalog_cursor|apply prefix_nil|by destruct r]. }
  refine (sat_conseq _ _ _ (catalog_queries_run c) _). intros t res [Ht Hr]. do 2 sat_call.
  exists t. split_and!; [cbn; rewrite <-app_assoc; apply (catalog_full c t)|exact Ht|].
  intros rows Hrows. destruct r as [[]|?], r0 as [[]|?]; try done; by apply Hr.
Qed.

(** Every read of the catalog is one session. *)
Definition catalog_read c (t : list db_call) : Prop :=
  ∃ body, catalog_session c body t ∧ body `prefix_of` catalog_calls c.

Lemma introspect_session c : sat (introspect (W := W) c) (λ t _, catalog_read c t).
Proof.
  unfold introspect. apply sat_bind. refine (sat_conseq _ _ _ (catalog_run c) _).
  intros t [rows|e] (body & Hs & Hp & _); [|by exists body]. apply sat_lift. rewrite app_nil_r. by exists body.
Qed.

(** ** What a row says *)

Definition text_or_none (o : option string) : pyval := match o with Some s => PStr s | None => PNone end.

Definition column_read (row : dict_row) (cr : column_row) : Prop :=
  dict_get "table_name" row = Some (PStr (cr_table cr)) ∧
  dict_get "table_comment" row = Some (text_or_none (cr_table_comment cr)) ∧
  dict_get "column_name" row = Some (PStr (col_name (cr_column cr))) ∧
  dict_get "ordinal_position" row = Some (PInt (ordinal_position (cr_column cr))) ∧
  dict_get "data_type" row = Some (PStr (data_type (cr_column cr))) ∧
  dict_get "nullable" row = Some (PBool (nullable (cr_column cr))) ∧
  dict_get "column_comment" row = Some (text_or_none (col_comment (cr_column cr))).

Definition key_read (row : dict_row) (pr : pk_row) : Prop :=
  dict_get "table_name" row = Some (PStr (pr_table pr)) ∧
  dict_get "constraint_name" row = Some (PStr (pk_name (pr_key pr))) ∧
  dict_get "columns" row = Some (str_list (pk_columns (pr_key pr))).

Definition foreign_read (row : dict_row) (fr : fk_row) : Prop :=
  dict_get "table_name" row = Some (PStr (fr_table fr)) ∧
  dict_get "constraint_name" row = Some (PStr (fk_name (fr_key fr))) ∧
  dict_get "columns" row = Some (str_list (fk_columns (fr_key fr))) ∧
  dict_get "referenced_schema" row = Some (PStr (referenced_schema (fr_key fr))) ∧
  dict_get "referenced_table" row = Some (PStr (referenced_table (fr_key fr))) ∧
  dict_get "referenced_columns" row = Some (str_list (referenced_columns (fr_key fr))).

Lemma cell_Ok row k v : cell row k = Ok v → dict_get k row = Some v.
Proof. unfold cell. cbn [get_key]. destruct (dict_get k row); [by intros [= ->]|done]. Qed.

Lemma text_cell_Ok row k s : text_cell row k = Ok s → dict_get k row = Some (PStr s).
Proof. intros (v & Hv%cell_Ok & Hs)%result_bind_Ok. rewrite Hv. destruct v; try done. by injection Hs as ->. Qed.

Lemma texts_cell_Ok row k l : texts_cell row k = Ok l → dict_get k row = Some (str_list l).
Proof.
  intros (v & Hv%cell_Ok & Hs)%result_bind_Ok. rewrite Hv. destruct v as [| | | | |vs| |]; try done.
  clear Hv. cbn [as_texts] in Hs. unfold str_list. do 2 f_equal. apply map_result_Ok in Hs.
  induction Hs as [|x y vs l Hx _ IH]; [done|]. cbn [map]. rewrite IH. destruct x; try done. by injection Hx as ->.
Qed.

Lemma opt_text_Ok row k o : (v ← cell row k; as_opt_text v) = Ok o → dict_get k row = Some (text_or_none o).
Proof. intros (v & Hv%cell_Ok & Hs)%result_bind_Ok. rewrite Hv. destruct v; try done; by injection Hs as <-. Qed.

Lemma column_of_Ok row cr : column_of row = Ok cr → column_read row cr.
Proof.
  unfold column_of, column_read.
  intros (table & ?%text_cell_Ok & (comment & ?%opt_text_Ok & (name & ?%text_cell_Ok & Hr)%result_bind_Ok)%result_bind_Ok)%result_bind_Ok.
  apply result_bind_Ok in Hr as (z & (v & Hz%cell_Ok & Hz')%result_bind_Ok & Hr).
  apply result_bind_Ok in Hr as (type & ?%text_cell_Ok & Hr).
  apply result_bind_Ok in Hr as (b & (v' & Hb%cell_Ok & Hb')%result_bind_Ok & Hr).
  apply result_bind_Ok in Hr as (note & ?%opt_text_Ok & [= <-]).
  destruct v; try done. destruct v'; try done. injection Hz' as ->. injection Hb' as ->. by split_and!.
Qed.

Lemma primary_key_of_Ok row pr : primary_key_of row = Ok pr → key_read row pr.
Proof.
  unfold primary_key_of, key_read.
  intros (table & ?%text_cell_Ok & (name & ?%text_cell_Ok & (keys & ?%texts_cell_Ok & [= <-])%result_bind_Ok)%result_bind_Ok)%result_bind_Ok.
  by split_and!.
Qed.

Lemma foreign_key_of_Ok row fr : foreign_key_of row = Ok fr → foreign_read row fr.
Proof.
  unfold foreign_key_of, foreign_read.
  intros (table & ?%text_cell_Ok & (name & ?%text_cell_Ok & (keys & ?%texts_cell_Ok & Hr)%result_bind_Ok)%result_bind_Ok)%result_bind_Ok.
  apply result_bind_Ok in Hr as (schema & ?%text_cell_Ok & Hr).
  apply result_bind_Ok in Hr as (target & ?%text_cell_Ok & Hr).
  apply result_bind_Ok in Hr as (targets & ?%texts_cell_Ok & [= <-]). by split_and!.
Qed.

Lemma map_result_read {A} (f : dict_row → result exn A) (R : dict_row → A → Prop) rows xs :
  (∀ row x, f row = Ok x → R row x) → map_result f rows = Ok xs → Forall2 R rows xs.
Proof. intros Hf Hm%map_result_Ok. eapply Forall2_impl; [exact Hm|exact Hf]. Qed.

(** The key of a table is that of its last row. *)
Lemma primary_keys_last name pks d :
  dict_get name (fold_left (λ d kv, dict_set kv.1 kv.2 d) (map (λ row, (pr_table row, pr_key row)) pks) d)
    = match last (filter (λ row, pr_table row = name) pks) with
      | Some row => Some (pr_key row)
      | None => dict_get name d
      end.
Proof.
  revert d. induction pks as [|row pks IH]; intros d; [done|]. cbn [map fold_left]. rewrite IH, dict_get_set, filter_cons.
  repeat case_decide; subst; try done. rewrite last_cons. by destruct (last _).
Qed.

(** The version that the manifest's row gives, "unknown" without one. *)
Definition version_read (row : option dict_row) (version : string) : Prop :=
  match row with
  | None => version = "unknown"
  | Some d => dict_get "dataset_version" d = Some (PStr version)
              ∨ dict_get "dataset_version" d = None ∧ version = "unknown"
  end.

Lemma dataset_version_Ok row version : dataset_version_of row = Ok version → version_read row version.
Proof.
  unfold dataset_version_of, version_read. destruct row as [d|]; [|by intros [= <-]].
  destruct (dict_get "dataset_version" d) as [[]|]; try done; intros [= <-]; auto.
Qed.

(** The snapshot that the rows of a session describe. *)
Definition describes c (cs : list column_row) (ps : list pk_row) (fs : list fk_row) (s : SchemaSnapshot) : Prop :=
  source_id s = cfg_source_id c ∧ schema_name s = cfg_allowed_schema c ∧
  NoDup (map table_name (tables s)) ∧ Sorted str_le (map table_name (tables s)) ∧
  (∀ name, name ∈ map table_name (tables s) ↔ name ∈ map cr_table cs) ∧
  ∀ t, t ∈ tables s →
    columns t = map cr_column (filter (λ row, cr_table row = table_name t) cs) ∧
    Some (table_comment t) = cr_table_comment <$> last (filter (λ row, cr_table row = table_name t) cs) ∧
    primary_key t = pr_key <$> last (filter (λ row, pr_table row = table_name t) ps) ∧
    foreign_keys t = map fr_key (filter (λ row, fr_table row = table_name t) fs).

Lemma snapshot_describes c version cs ps fs :
  let s := build_snapshot (cfg_source_id c) (cfg_allowed_schema c) version cs ps fs in
  describes c cs ps fs s ∧ dataset_version s = version.
Proof.
  cbv zeta. set (s := build_snapshot _ _ _ _ _ _).
  destruct (build_snapshot_tables (cfg_source_id c) (cfg_allowed_schema c) version cs ps fs) as (Hnd & Hso & Hin & Ht).
  fold s in Hnd, Hso, Hin, Ht.
  assert (source_id s = cfg_source_id c ∧ schema_name s = cfg_allowed_schema c ∧ dataset_version s = version ∧
    ∀ t, t ∈ tables s → primary_key t = pr_key <$> last (filter (λ row, pr_table row = table_name t) ps)) as (? & ? & ? & Hpk).
  { unfold s, build_snapshot. destruct (fold_left add_column_row cs ([], [])). cbn [source_id schema_name dataset_version tables].
    split_and!; [done..|]. intros t (name & -> & _)%elem_of_map. cbn [primary_key table_name].
    etransitivity; [apply (primary_keys_last name ps [])|]. by destruct (last _). }
  split; [|done]. unfold describes. split_and!; try done.
  intros t Hin'. destruct (Ht t Hin') as (Hc & Hf & Hm). split_and!; [exact Hc|exact Hm|by apply Hpk|exact Hf].
Qed.

(** C31: A catalog read is one connection with one cursor that runs the four
    catalog statements in order and closes both whatever fails; the columns
    and both kinds of keys are asked for with the configured schema as the
    only parameter, the manifest, whose statement names the schema as a quoted
    identifier, with the dataset's name 'northwind'.  A snapshot is returned
    only when all four ran.  It carries the configured source and schema and
    the version of the manifest's row ("unknown" without one), and it
    describes the rows with which the driver answered each statement: the
    tables that the columns statement named, each once and in order, with
    their columns and comments from its rows, their primary key from the
    second statement's and their foreign keys from the third's. *)
Theorem introspect_reads_catalog : ∀ c,
  sat (introspect c) (λ t res, ∃ body, catalog_session c body t ∧ body `prefix_of` catalog_calls c ∧
    ∀ s, res = Ok s → body = catalog_calls c ∧
      ∃ column_rows primary_key_rows foreign_key_rows version_row cs ps fs,
        driver_rows c (column_rows, primary_key_rows, foreign_key_rows, version_row) ∧
        Forall2 column_read column_rows cs ∧ Forall2 key_read primary_key_rows ps ∧
        Forall2 foreign_read foreign_key_rows fs ∧ version_read version_row (dataset_version s) ∧
        describes c cs ps fs s).
Proof.
  intros c. unfold introspect. apply sat_bind. refine (sat_conseq _ _ _ (catalog_run c) _).
  intros t [rows|e] (body & Hs & Hp & Hr); [|by exists body].
  apply sat_lift. rewrite app_nil_r. exists body. split_and!; [done|done|]. intros s Hsnap.
  destruct (Hr rows eq_refl) as [Hbody Hrows]. split; [done|].
  destruct rows as [[[cols pks] fks] v]. unfold snapshot_of in Hsnap.
  apply result_bind_Ok in Hsnap as (cs & Hcs & Hsnap). apply result_bind_Ok in Hsnap as (ps & Hps & Hsnap).
  apply result_bind_Ok in Hsnap as (fs & Hfs & Hsnap). apply result_bind_Ok in Hsnap as (version & Hv & [= <-]).
  destruct (snapshot_describes c version cs ps fs) as [Hd Hver].
  exists cols, pks, fks, v, cs, ps, fs. split; [done|].
  split; [by eapply map_result_read; [apply column_of_Ok|]|].
  split; [by eapply map_result_read; [apply primary_key_of_Ok|]|].
  split; [by eapply map_result_read; [apply foreign_key_of_Ok|]|].
  split; [|exact Hd]. rewrite Hver. by apply dataset_version_Ok.
Qed.
End Catalog.

(** ** A run *)

(** The world counts the statements: the replies of the three queries. *)
Definition demo_catalog_driver : Psycopg nat := λ k w,
  match k with
  | Execute _ _ => (S w, Ok None)
  | FetchMany _ => (w, Ok [])
  | FetchOne => (w, Ok None)
  | FetchOneRow => (w, Ok (Some [("dataset_version", PStr "2024.1")]))
  | FetchAllRows =>
      (w, Ok (match w with
              | 1 => [[("table_name", PStr "orders"); ("table_comment", PNone);
                       ("column_name", PStr "order_id"); ("ordinal_position", PInt 1);
                       ("data_type", PStr "integer"); ("nullable", PBool false); ("column_comment", PNone)]]
              | 2 => [[("table_name", PStr "orders"); ("constraint_name", PStr "orders_pkey");
                       ("columns", str_list ["order_id"])]]
              | _ => []
              end))
  | Connect _ | BeginTransaction | OpenCursor | ExecuteMany _ _ | CloseCursor _ | EndTransaction _
  | CloseConnection _ => (w, Ok tt)
  end.

Example introspect_run :
  let c := {| cfg_source_id := "northwind-demo"; cfg_host := "localhost"; cfg_port := 5433;
              cfg_database := "northwind"; cfg_username := "reader"; cfg_password := "secret";
              cfg_allowed_schema := "northwind"; connect_timeout_seconds := 3;
              statement_timeout_ms := 2000 |} in
  let m := introspect (W := nat) (H := demo_catalog_driver) c in
  (map table_name ∘ tables <$> outcome m 0) = Ok ["orders"] ∧
  (dataset_version <$> outcome m 0) = Ok "2024.1" ∧ length (trace m 0) = 12.
Proof. vm_compute. done. Qed.
