(* ===== verification/McpServer.v ===== *)
(** * The MCP server: [app/mcp_server.py]

    [ServiceBoundary], the ASGI gate in front of the MCP application, and the
    read-only tools behind it.  The MCP library checks the declared bounds of
    the arguments; the retrieval service, the graph store and the HTTP client
    are interfaces.  Header names and values are bytes; [uuid.UUID] of a text
    is a function of the model. *)

From S2P Require Import Prelude PyStr Floats Errors Json Metadata Policy Executor.
From S2P Require Import Parsing Embeddings KnowledgeRepository RetrievalService Providers.
From S2P Require Import GraphModels GraphStore.

(** ** ServiceBoundary *)

(** Header names are in lower case; a name may come more than once. *)
Record scope := { scope_type : string; scope_headers : list (string * string) }.

Inductive boundary_outcome := Forwarded | Unauthorized401.

Definition header_bytes (headers : list (string * string)) (name : string) : string :=
  default EmptyString (dict_get name (dict_of headers)).

(** [UUID(value.decode())] succeeds; both errors are ValueErrors. *)
Definition uuid_bytes (parse_uuid : string → option string) (b : string) : bool :=
  match decode_utf8 b with
  | Some _ => match parse_uuid b with Some _ => true | None => false end
  | None => false
  end.

Definition valid_identity (parse_uuid : string → option string) (headers : list (string * string)) : bool :=
  uuid_bytes parse_uuid (header_bytes headers "x-tenant-id")
  && uuid_bytes parse_uuid (header_bytes headers "x-user-id")
  && match dict_get "x-user-role" (dict_of headers) with
     | Some role => mem role ["ADMIN"; "ANALYST"; "VIEWER"]
     | None => false
     end.

Definition authenticated (service_token : string) (headers : list (string * string)) : bool :=
  String.eqb (header_bytes headers "authorization") ("Bearer " +:+ service_token).

Definition ServiceBoundary (parse_uuid : string → option string) (service_token : string) (s : scope) :
    boundary_outcome :=
  if String.eqb (scope_type s) "http" then
    if negb (authenticated service_token (scope_headers s))
       || negb (valid_identity parse_uuid (scope_headers s))
    then Unauthorized401 else Forwarded
  else Forwarded.

(** ** The tools *)

(** [request.headers[name]]: the first of several, read as Latin-1. *)
Fixpoint latin1_cps (s : string) : list N :=
  match s with EmptyString => [] | String a t => Ascii.N_of_ascii a :: latin1_cps t end.
Definition latin1 (s : string) : string := encode (latin1_cps s).
Definition request_header (headers : list (string * string)) (name : string) : option string :=
  latin1 <$> dict_get name headers.

Class McpEnv (W : Type) := {
  mcp_retrieve : string → string → RetrievalMode → option Z → op W exn RetrievalResult;
  mcp_graph : option (string → string → Z → Z → op W exn Subgraph);
  http_get : string → string → op W exn json_response
}.

Inductive mcp_call :=
| CallRetrieve (tenant query : string) (mode : RetrievalMode) (limit : option Z)
| CallSubgraphOf (tenant query : string) (depth limit : Z)
| CallGet (url authorization : string).

(** [for item in value]: a list, the keys of a dictionary, the characters of
    a text. *)
Definition iterate (v : pyval) : result exn (list pyval) :=
  match v with
  | PList l => Ok l
  | PDict d => Ok (map (λ kv, PStr kv.1) d)
  | PStr s => Ok (map (λ c, PStr (encode [c])) (cps s))
  | _ => Err TypeError
  end.

Section Tools.
Context `{PyUnicode} {W : Type} `{McpEnv W}.
Variables (parse_uuid : string → option string) (platform_api_url : string).
(** [None] without an HTTP request. *)
Variable request : option (list (string * string)).

Notation M := (eff W mcp_call exn).

Definition identity : result exn (string * list (string * string)) :=
  match request with
  | None => Err ValueError
  | Some headers =>
      match request_header headers "x-tenant-id" with
      | None => Err KeyError
      | Some text => match parse_uuid text with
                     | None => Err ValueError
                     | Some tenant => Ok (tenant, headers)
                     end
      end
  end.

Definition argument_within (lo v hi : Z) : result exn unit := ensure (within lo v hi) ValidationError.

Definition search_knowledge (query : string) (limit : Z) : M RetrievalResult :=
  _ ← lift_result (argument_within 1 limit 20);
  '(tenant, _) ← lift_result identity;
  invoke (CallRetrieve tenant query Hybrid (Some limit)) (mcp_retrieve tenant query Hybrid (Some limit)).

Definition metric_definition (name : string) : M RetrievalResult :=
  '(tenant, _) ← lift_result identity;
  invoke (CallRetrieve tenant name Lexical (Some 3%Z)) (mcp_retrieve tenant name Lexical (Some 3%Z)).

(** [query[:4000]]. *)
Definition clipped (query : string) : string := encode (take 4000 (cps query)).

Definition relationship_graph (query : string) (depth : Z) : M Subgraph :=
  _ ← lift_result (argument_within 0 depth 3);
  '(tenant, _) ← lift_result identity;
  match mcp_graph with
  | None => raise ValueError
  | Some subgraph =>
      invoke (CallSubgraphOf tenant (clipped query) depth 60%Z) (subgraph tenant (clipped query) depth 60%Z)
  end.

Definition platform_get (path : string) : M pyval :=
  '(_, headers) ← lift_result identity;
  let caller := default EmptyString (request_header headers "x-caller-token") in
  if String.eqb caller EmptyString then raise ValueError
  else
    let url := rstrip_slash platform_api_url +:+ path in
    response ← invoke (CallGet url ("Bearer " +:+ caller)) (http_get url ("Bearer " +:+ caller));
    if negb (status_code response =? 200)%Z then raise ValueError else lift_result (json_body response).

(** [{key: item[key] for key in keys}]. *)
Definition project (keys : list string) (item : pyval) : result exn pyval :=
  values ← map_result (λ k, v ← get_key item k; Ok (k, v)) keys; Ok (PDict values).

Definition catalog_keys : list string := ["id"; "name"; "allowed_schema"].

Definition name_matches (query : string) (item : pyval) : result exn bool :=
  name ← get_key item "name";
  match name with
  | PStr n => Ok (contains (casefold query) (casefold n))
  | _ => Err (OtherException "AttributeError")
  end.

Fixpoint matching_entries (query : string) (items : list pyval) : result exn (list pyval) :=
  match items with
  | [] => Ok []
  | item :: items =>
      found ← name_matches query item;
      if found : bool then
        entry ← project catalog_keys item; rest ← matching_entries query items; Ok (entry :: rest)
      else matching_entries query items
  end.

Definition search_catalog (query : string) : M (list pyval) :=
  sources ← platform_get "/api/data-sources";
  lift_result (items ← iterate sources; entries ← matching_entries query items; Ok (take 20 entries)).

Definition job_keys : list string := ["id"; "status"; "updated_at"].

(** The library has read [job_id] as a UUID; its text is canonical. *)
Definition job_status (job_id : string) : M pyval :=
  job ← platform_get ("/api/analysis/jobs/" +:+ job_id);
  lift_result (project job_keys job).

Inductive tool_call :=
| SearchKnowledge (query : string) (limit : Z)
| MetricDefinition (name : string)
| RelationshipGraph (query : string) (depth : Z)
| SearchCatalog (query : string)
| JobStatus (job_id : string).

Inductive tool_reply :=
| RetrievalReply (r : RetrievalResult)
| GraphReply (g : Subgraph)
| CatalogReply (entries : list pyval)
| JobReply (job : pyval).

Definition call_tool (c : tool_call) : M tool_reply :=
  match c with
  | SearchKnowledge query limit => RetrievalReply <$> search_knowledge query limit
  | MetricDefinition name => RetrievalReply <$> metric_definition name
  | RelationshipGraph query depth => GraphReply <$> relationship_graph query depth
  | SearchCatalog query => CatalogReply <$> search_catalog query
  | JobStatus job_id => JobReply <$> job_status job_id
  end.
End Tools.

Definition tool_name (c : tool_call) : string :=
  match c with
  | SearchKnowledge _ _ => "search_knowledge"
  | MetricDefinition _ => "metric_definition"
  | RelationshipGraph _ _ => "relationship_graph"
  | SearchCatalog _ => "search_catalog"
  | JobStatus _ => "job_status"
  end.

Definition capabilities : pyval :=
  PDict [("read_only", PBool true); ("tenant_identity", PStr "verified platform JWT");
         ("tools", str_list ["search_knowledge"; "metric_definition"; "relationship_graph";
                             "search_catalog"; "job_status"])].

(** A tool call over HTTP: the gate, then the tool with the request's headers. *)
Definition mcp_request `{PyUnicode} {W} `{McpEnv W} (parse_uuid : string → option string)
    (service_token platform_api_url : string) (s : scope) (c : tool_call) :
    eff W mcp_call exn (option tool_reply) :=
  match ServiceBoundary parse_uuid service_token s with
  | Unauthorized401 => mret None
  | Forwarded => Some <$> call_tool parse_uuid platform_api_url (Some (scope_headers s)) c
  end.

(** ** The gate and the tools behind it *)

(** What a call may be, for a request with these headers. *)
Definition scoped_call (parse_uuid : string → option string) (platform_api_url : string)
    (headers : list (string * string)) (c : mcp_call) : Prop :=
  ∃ text tenant, request_header headers "x-tenant-id" = Some text ∧ parse_uuid text = Some tenant ∧
  match c with
  | CallRetrieve t _ _ limit => t = tenant ∧ ∃ n, limit = Some n ∧ (1 ≤ n ≤ 20)%Z
  | CallSubgraphOf t query depth limit =>
      t = tenant ∧ (∃ whole, query = clipped whole) ∧ (0 ≤ depth ≤ 3)%Z ∧ limit = 60%Z
  | CallGet url authorization =>
      ∃ caller path, request_header headers "x-caller-token" = Some caller ∧ caller ≠ EmptyString ∧
        authorization = "Bearer " +:+ caller ∧ url = rstrip_slash platform_api_url +:+ path ∧
        (path = "/api/data-sources" ∨ ∃ job, path = "/api/analysis/jobs/" +:+ job)
  end.

Section Gate.
Context `{PyUnicode} {W : Type} `{McpEnv W}.
Variables (parse_uuid : string → option string) (service_token platform_api_url : string).

Notation permitted headers := (λ t (_ : result exn _),
  length t ≤ 1 ∧ Forall (scoped_call parse_uuid platform_api_url headers) t).

Lemma sat_fmap {A B} (f : A → B) (m : eff W mcp_call exn A) (R : list mcp_call → Prop) :
  sat m (λ t _, R t) → sat (f <$> m) (λ t _, R t).
Proof.
  intros Hm. unfold fmap, eff_fmap. apply sat_bind. refine (sat_conseq _ _ _ Hm _).
  intros t [a|e] Ht; [|done]. apply sat_ret. by rewrite app_nil_r.
Qed.

Lemma sat_one {A} c (o : op W exn A) (R : list mcp_call → Prop) : R [c] → sat (invoke c o) (λ t _, R t).
Proof. intros HR. by apply sat_invoke. Qed.

(** The identity of a request, or no call. *)
Lemma sat_identity {A} headers (f : string * list (string * string) → eff W mcp_call exn A)
    (R : list mcp_call → Prop) :
  R [] →
  (∀ text tenant, request_header headers "x-tenant-id" = Some text → parse_uuid text = Some tenant →
     sat (f (tenant, headers)) (λ t _, R t)) →
  sat (p ← lift_result (identity parse_uuid (Some headers)); f p) (λ t _, R t).
Proof.
  intros Hnone Hf. apply sat_guard; [|done]. intros [tenant headers'] Hid. unfold identity in Hid.
  destruct (request_header headers "x-tenant-id") as [text|] eqn:Ht; [|done].
  destruct (parse_uuid text) as [u|] eqn:Hu; [|done]. simplify_eq. by eapply Hf.
Qed.

Lemma platform_get_scoped headers path :
  (path = "/api/data-sources" ∨ ∃ job, path = "/api/analysis/jobs/" +:+ job) →
  sat (platform_get parse_uuid platform_api_url (Some headers) path) (permitted headers).
Proof.
  intros Hpath. unfold platform_get. apply (sat_identity headers); [split; [cbn; lia|constructor]|].
  intros text tenant Ht Hu. destruct (String.eqb_spec (default EmptyString (request_header headers "x-caller-token")) EmptyString)
    as [|Hne]; [apply sat_raise; split; [cbn; lia|constructor]|].
  destruct (request_header headers "x-caller-token") as [caller|] eqn:Hc; [|done]. cbn [default] in *.
  assert (scoped_call parse_uuid platform_api_url headers
    (CallGet (rstrip_slash platform_api_url +:+ path) ("Bearer " +:+ caller))) as Hs.
  { exists text, tenant. split; [done|]. split; [done|]. by exists caller, path. }
  apply sat_bind, sat_invoke. intros [response|e]; [|split; [cbn; lia|by constructor]].
  destruct (negb _); [apply sat_raise|apply sat_lift]; (split; [cbn; lia|by constructor]).
Qed.

Lemma call_tool_scoped headers c :
  sat (call_tool parse_uuid platform_api_url (Some headers) c) (permitted headers).
Proof.
  assert (∀ {A} (m : eff W mcp_call exn pyval) (k : pyval → result exn A),
    sat m (permitted headers) → sat (v ← m; lift_result (k v)) (permitted headers)) as Hget.
  { intros A m k Hm. apply sat_bind. refine (sat_conseq _ _ _ Hm _). intros t [v|e] Ht; [|done].
    apply sat_lift. by rewrite app_nil_r. }
  assert (∀ (lo v hi : Z) u, argument_within lo v hi = Ok u → (lo ≤ v ≤ hi)%Z) as Hwithin.
  { intros lo v hi u Hv%ensure_Ok. unfold within in Hv. lia. }
  assert (length ([] : list mcp_call) ≤ 1 ∧ Forall (scoped_call parse_uuid platform_api_url headers) []) as Hnil
    by (split; [cbn; lia|constructor]).
  destruct c as [query limit|name|query depth|query|job]; cbn [call_tool];
    apply (sat_fmap _ _ (λ t, length t ≤ 1 ∧ Forall (scoped_call parse_uuid platform_api_url headers) t)).
  - apply sat_guard; [|done]. intros u Hu. apply Hwithin in Hu. apply sat_identity; [done|]. intros text tenant Ht Hp.
    apply sat_one. split; [cbn; lia|]. repeat constructor. exists text, tenant. split_and!; [done..|]. by exists limit.
  - apply sat_identity; [done|]. intros text tenant Ht Hp. apply sat_one. split; [cbn; lia|].
    repeat constructor. exists text, tenant. split_and!; [done..|]. exists 3%Z. split; [done|lia].
  - apply sat_guard; [|done]. intros u Hu. apply Hwithin in Hu. apply sat_identity; [done|]. intros text tenant Ht Hp.
    destruct mcp_graph as [g|]; [|by apply sat_raise]. apply sat_one. split; [cbn; lia|]. repeat constructor.
    exists text, tenant. split_and!; (done || lia || by exists query).
  - apply Hget, platform_get_scoped. by left.
  - apply Hget, platform_get_scoped. right. by exists job.
Qed.

(** C20: Behind the gate every tool call is one read on behalf of the caller.
    An HTTP request that reaches a tool carried exactly the service token, a
    known role and well-formed tenant and user ids; otherwise the answer is
    401 and nothing is called.  A tool makes at most one call: a search in
    the tenant that the request names with a limit of 1 to 20, a subgraph of
    that tenant with a clipped query, depth at most 3 and 60 nodes, or a GET
    of one of the two platform resources with the caller's own token. *)
Theorem mcp_requests_scoped : ∀ s c,
  sat (mcp_request parse_uuid service_token platform_api_url s c) (λ t r,
    length t ≤ 1 ∧
    Forall (scoped_call parse_uuid platform_api_url (scope_headers s)) t ∧
    (scope_type s = "http" →
       if authenticated service_token (scope_headers s) && valid_identity parse_uuid (scope_headers s)
       then r ≠ Ok None else t = [] ∧ r = Ok None)).
Proof.
  intros s c. unfold mcp_request, ServiceBoundary.
  assert (sat (Some <$> call_tool parse_uuid platform_api_url (Some (scope_headers s)) c) (λ t r,
    (length t ≤ 1 ∧ Forall (scoped_call parse_uuid platform_api_url (scope_headers s)) t) ∧ r ≠ Ok None)) as Htool.
  { unfold fmap, eff_fmap. apply sat_bind. refine (sat_conseq _ _ _ (call_tool_scoped _ c) _).
    intros t [a|e] Ht; [|done]. apply sat_ret. by rewrite app_nil_r. }
  destruct (String.eqb_spec (scope_type s) "http") as [Hhttp|Hother].
  - destruct (authenticated service_token (scope_headers s)), (valid_identity parse_uuid (scope_headers s));
      cbn [negb orb andb]; [refine (sat_conseq _ _ _ Htool _); intros t r [[??] ?]; by split_and!|..];
      apply sat_ret; (split_and!; [cbn; lia|constructor|done]).
  - refine (sat_conseq _ _ _ Htool _). intros t r [[??] ?]. by split_and!.
Qed.
End Gate.

(** ** The catalog *)

Section Catalog.
Context `{PyUnicode}.

Lemma project_keys keys item entry : project keys item = Ok entry → ∃ d, entry = PDict d ∧ d.*1 = keys ∧
  ∀ k v, (k, v) ∈ d → get_key item k = Ok v.
Proof.
  intros (values & Hv & [= <-])%result_bind_Ok. exists values. split; [done|].
  assert (Forall2 (λ k (kv : string * pyval), k = kv.1 ∧ get_key item k = Ok kv.2) keys values) as Hf.
  { apply map_result_Ok in Hv. eapply Forall2_impl; [exact Hv|]. intros k kv.
    intros (v & Hk & [= <-])%result_bind_Ok. done. }
  split.
  - induction Hf as [|k kv keys values [-> _] _ IH]; [done|]. cbn. f_equal. apply IH.
    rewrite map_result_cons in Hv. apply result_bind_Ok in Hv as (? & _ & Hv).
    by apply result_bind_Ok in Hv as (? & Hv & [= _ ->]).
  - intros k v Hin. apply Forall2_flip in Hf.
    destruct (Forall2_in_l _ _ _ _ Hf Hin) as (k' & _ & Hk & Hg). cbn in *. by subst.
Qed.

(** The entry of a data source: three of its fields and nothing else. *)
Definition catalog_entry (query : string) (items : list pyval) (entry : pyval) : Prop :=
  ∃ item name d, item ∈ items ∧ get_key item "name" = Ok (PStr name) ∧
    contains (casefold query) (casefold name) = true ∧
    entry = PDict d ∧ d.*1 = catalog_keys ∧ ∀ k v, (k, v) ∈ d → get_key item k = Ok v.

Lemma matching_entries_spec query items entries :
  matching_entries query items = Ok entries → Forall (catalog_entry query items) entries.
Proof.
  revert entries. induction items as [|item items IH]; intros entries; cbn [matching_entries].
  { intros [= <-]. constructor. }
  assert (∀ l, Forall (catalog_entry query items) l → Forall (catalog_entry query (item :: items)) l) as Hmono.
  { intros l Hl. eapply Forall_impl; [exact Hl|]. intros e (i & n & d & Hi & Hr).
    exists i, n, d. split; [by right|done]. }
  intros (found & Hf & Hrest)%result_bind_Ok. destruct found; [|by apply Hmono, IH].
  apply result_bind_Ok in Hrest as (entry & He & Hrest).
  apply result_bind_Ok in Hrest as (rest & Hr & [= <-]). constructor; [|by apply Hmono, IH].
  destruct (project_keys _ _ _ He) as (d & -> & Hd & Hv).
  apply result_bind_Ok in Hf as (v & Hn & Hf). destruct v; try done.
  injection Hf as Hf. exists item, s, d. split_and!; try done. by left.
Qed.
End Catalog.

(** A catalog search answers with at most 20 entries; each is one of the
    data sources of the platform's reply whose name contains the query
    regardless of case, and consists of its id, its name and its allowed
    schema only, so hosts and credentials in the reply are not passed on. *)
Theorem search_catalog_minimal : ∀ `{PyUnicode} {W : Type} `{McpEnv W} parse_uuid url request query,
  sat (search_catalog (W := W) parse_uuid url request query) (λ _ r, match r with
    | Err _ => True
    | Ok entries => length entries ≤ 20 ∧ ∃ sources items, iterate sources = Ok items ∧
        Forall (catalog_entry query items) entries
    end).
Proof.
  intros H W H0 parse_uuid url request query w.
  assert (sat (search_catalog (W := W) parse_uuid url request query) (λ _ r, match r with
    | Err _ => True
    | Ok entries => length entries ≤ 20 ∧ ∃ sources items, iterate sources = Ok items ∧
        Forall (catalog_entry query items) entries
    end)) as Hs; [|exact (Hs w)].
  unfold search_catalog. apply sat_bind. intros w'. destruct (outcome _ w') as [sources|e]; [|done].
  apply sat_lift. destruct (iterate sources) as [items|e] eqn:Hi; [|done]. cbn [mbind result_bind].
  destruct (matching_entries query items) as [entries|e] eqn:He; [|done]. cbn [mbind result_bind].
  split; [rewrite length_take; lia|]. exists sources, items. split; [done|].
  by apply Forall_take, matching_entries_spec.
Qed.

(** ** Runs *)

Definition demo_mcp : McpEnv unit := {|
  mcp_retrieve _ query mode _ w := (w, Ok {|
    res_query := query; res_mode := mode; res_corpus_revision := "memory:1"; res_hits := [];
    res_citations := []; res_should_answer := false |});
  mcp_graph := None;
  http_get url _ w := (w, Ok {| status_code := 200; json_body := Ok (PList [
    PDict [("id", PStr "1"); ("name", PStr "Northwind"); ("host", PStr "db.internal");
           ("allowed_schema", PStr "northwind")];
    PDict [("id", PStr "2"); ("name", PStr "Billing"); ("allowed_schema", PStr "billing")]]) |}) |}.

(** A reader that takes 36 characters as a UUID. *)
Definition demo_parse_uuid (s : string) : option string := if py_len s =? 36 then Some s else None.
Definition demo_tenant : string := "11111111-1111-1111-1111-111111111111".
Definition other_tenant : string := "22222222-2222-2222-2222-222222222222".

Definition demo_scope (extra : list (string * string)) : scope := {|
  scope_type := "http";
  scope_headers := extra ++ [("authorization", "Bearer token"); ("x-tenant-id", demo_tenant);
    ("x-user-id", demo_tenant); ("x-user-role", "VIEWER"); ("x-caller-token", "jwt")] |}.

Example catalog_search_run :
  outcome (@mcp_request demo_unicode unit demo_mcp demo_parse_uuid "token" "http://platform/"
             (demo_scope []) (SearchCatalog "north")) tt
  = Ok (Some (CatalogReply [PDict [("id", PStr "1"); ("name", PStr "Northwind");
                                   ("allowed_schema", PStr "northwind")]])) ∧
  outcome (@mcp_request demo_unicode unit demo_mcp demo_parse_uuid "other" "http://platform/"
             (demo_scope []) (SearchCatalog "north")) tt = Ok None.
Proof. vm_compute. done. Qed.

(** With two tenant headers the gate checks the last and the tool uses the
    first. *)
Example duplicate_tenant_headers :
  trace (@mcp_request demo_unicode unit demo_mcp demo_parse_uuid "token" "http://platform/"
           (demo_scope [("x-tenant-id", other_tenant)]) (MetricDefinition "revenue")) tt
  = [CallRetrieve other_tenant "revenue" Lexical (Some 3%Z)] ∧
  header_bytes (scope_headers (demo_scope [("x-tenant-id", other_tenant)])) "x-tenant-id" = demo_tenant.
Proof. vm_compute. done. Qed.
