(* ===== verification/SettingsCache.v ===== *)
(** * The settings of the process: the [lru_cache] getters of
      [app/settings.py] and the start of [app/main.py]

    Each getter keeps the first settings object it could construct for as long
    as the process runs.  What the constructors read, the environment and the
    [.env] file, is the world. *)

From S2P Require Import Prelude PyStr Floats Errors Json Metadata Policy DataSources NL2SQL StructuredLLM.
From S2P Require Import Parsing Embeddings KnowledgeRepository RetrievalService Providers.
From S2P Require Import PyText Decimal FloatText PostgresKnowledge McpServer Observability Settings.

(** ** Two more classes of settings.py *)

Record AppSettings := { app_service_name : string; app_environment : string; app_version : string }.
Definition AppSettings_default : AppSettings :=
  {| app_service_name := "agent-service"; app_environment := "development"; app_version := "0.1.0" |}.

Record ObservabilitySettings := {
  ob_tracing_enabled : bool; ob_metrics_enabled : bool; ob_otlp_http_endpoint : option string }.
(** The validator of the endpoint runs before its type is checked; [url] is
    pydantic's [AnyHttpUrl]. *)
Definition ObservabilitySettings_validate (url : string → result exn string) (s : ObservabilitySettings) :
    result exn ObservabilitySettings :=
  endpoint ← match otlp_endpoint (ob_otlp_http_endpoint s) with
             | Some text => u ← url text; Ok (Some u)
             | None => Ok None
             end;
  Ok {| ob_tracing_enabled := ob_tracing_enabled s; ob_metrics_enabled := ob_metrics_enabled s;
        ob_otlp_http_endpoint := endpoint |}.
Definition ObservabilitySettings_default : ObservabilitySettings :=
  {| ob_tracing_enabled := true; ob_metrics_enabled := true; ob_otlp_http_endpoint := None |}.

(** ** The getters *)

Inductive settings_class :=
| SettingsClass | BusinessDatabaseClass | PlatformDatabaseClass | LLMClass | QuerySafetyClass | NL2SQLClass
| RetrievalClass | AgentWorkflowClass | ObservabilityClass.
#[export] Instance settings_class_eq_dec : EqDecision settings_class.
Proof. solve_decision. Defined.

Definition settings_of (k : settings_class) : Type :=
  match k with
  | SettingsClass => AppSettings
  | BusinessDatabaseClass => BusinessDatabaseSettings
  | PlatformDatabaseClass => PlatformDatabaseSettings
  | LLMClass => LLMSettings
  | QuerySafetyClass => QuerySafetySettings
  | NL2SQLClass => NL2SQLSettings
  | RetrievalClass => RetrievalSettings
  | AgentWorkflowClass => AgentWorkflowSettings
  | ObservabilityClass => ObservabilitySettings
  end.

(** The caches of the nine functions. *)
Definition settings_cache : Type := ∀ k, option (settings_of k).
Definition empty_settings : settings_cache := λ _, None.
Definition keep (k : settings_class) (v : settings_of k) (c : settings_cache) : settings_cache := λ k',
  match decide (k = k') with left e => Some (eq_rect k settings_of v k' e) | right _ => c k' end.

(** A constructor without arguments. *)
Class SettingsSource (W : Type) := construct : ∀ k, op W exn (settings_of k).

Section Getters.
Context {W : Type} `{SettingsSource W}.
Notation getter k := (op (settings_cache * W) exn (settings_of k)).

(** [@lru_cache]: a constructor that raises leaves the cache alone. *)
Definition lru_cache (k : settings_class) : getter k := λ '(c, w),
  match c k with
  | Some v => ((c, w), Ok v)
  | None =>
      match construct k w with
      | (w', Ok v) => ((keep k v c, w'), Ok v)
      | (w', Err e) => ((c, w'), Err e)
      end
  end.

Definition get_settings : getter SettingsClass := lru_cache SettingsClass.
Definition get_business_database_settings : getter BusinessDatabaseClass := lru_cache BusinessDatabaseClass.
Definition get_platform_database_settings : getter PlatformDatabaseClass := lru_cache PlatformDatabaseClass.
Definition get_llm_settings : getter LLMClass := lru_cache LLMClass.
Definition get_query_safety_settings : getter QuerySafetyClass := lru_cache QuerySafetyClass.
Definition get_nl2sql_settings : getter NL2SQLClass := lru_cache NL2SQLClass.
Definition get_retrieval_settings : getter RetrievalClass := lru_cache RetrievalClass.
Definition get_agent_workflow_settings : getter AgentWorkflowClass := lru_cache AgentWorkflowClass.
Definition get_observability_settings : getter ObservabilityClass := lru_cache ObservabilityClass.

(** What happens to the process afterwards: getters are called, and its
    environment changes. *)
Inductive later (s : settings_cache * W) : settings_cache * W → Prop :=
| later_now : later s s
| later_get k s' : later s s' → later s (lru_cache k s').1
| later_changed c w w' : later s (c, w) → later s (c, w').

Lemma keep_same k v c : keep k v c k = Some v.
Proof.
  unfold keep. destruct (decide (k = k)) as [e|]; [|done].
  by rewrite (proof_irrel e eq_refl).
Qed.

Lemma lru_cache_keeps k k' v c w : c k = Some v → (lru_cache k' (c, w)).1.1 k = Some v.
Proof.
  intros Hc. cbn [lru_cache]. destruct (c k') eqn:E; [done|].
  destruct (construct k' w) as [w' [v'|e]]; cbn [fst]; [|done].
  unfold keep. destruct (decide (k' = k)) as [<-|]; [congruence|done].
Qed.

Lemma later_keeps k v s s' : s.1 k = Some v → later s s' → s'.1 k = Some v.
Proof.
  intros Hs. induction 1 as [|k' s' _ IH|c w w' _ IH]; [done| |exact IH].
  destruct s' as [c w]. by apply lru_cache_keeps.
Qed.

Lemma lru_cache_hit k v s : s.1 k = Some v → lru_cache k s = (s, Ok v).
Proof. destruct s as [c w]. cbn. by intros ->. Qed.
End Getters.

(** Settings are read once: the settings a getter has returned are what it
    returns from then on, without reading anything, however the environment
    changes and whatever other getters are called; a constructor that raised
    is not remembered, so the next call reads again. *)
Theorem settings_read_once : ∀ W (R : SettingsSource W) k s s1 r,
  lru_cache k s = (s1, r) →
  match r with
  | Ok v => ∀ s2, later s1 s2 → lru_cache k s2 = (s2, Ok v)
  | Err _ => s1.1 = s.1 ∧ s.1 k = None
  end.
Proof.
  intros W R k [c w] s1 r. cbn [lru_cache]. destruct (c k) as [v|] eqn:E.
  - intros [= <- <-] s2 Hs. by apply lru_cache_hit, (later_keeps k v (c, w)).
  - destruct (construct k w) as [w' [v|e]]; intros [= <- <-]; [|done].
    intros s2 Hs. apply lru_cache_hit, (later_keeps k v (keep k v c, w')); [apply keep_same|done].
Qed.

(** ** The start of main.py *)

Definition tracing_of (s : AppSettings) (o : ObservabilitySettings) : tracing_settings := {|
  tr_enabled := ob_tracing_enabled o; tr_endpoint := ob_otlp_http_endpoint o;
  tr_service := app_service_name s; tr_version := app_version s; tr_environment := app_environment s |}.

(** The module's objects, and the one call its import makes. *)
Definition start_main {W} `{SettingsSource W} : eff (settings_cache * W * bool) obs_call exn
    (AppSettings * ObservabilitySettings) := λ '(s, configured),
  match get_settings s with
  | (s, Err e) => ((s, configured), [], Err e)
  | (s, Ok settings) =>
      match get_observability_settings s with
      | (s, Err e) => ((s, configured), [], Err e)
      | (s, Ok observability) =>
          let '(configured, t, r) := configure_observability (tracing_of settings observability) configured in
          ((s, configured), t, _ ← r; Ok (settings, observability))
      end
  end.

(** Importing the module sets the tracer at most once, with the service's own
    name, and only when tracing is enabled. *)
Lemma start_main_tracer {W} `{SettingsSource W} s configured resource exporter :
  SetTracer resource exporter ∈ (start_main (s, configured)).1.2 →
  configured = false ∧ ∃ settings observability,
    (start_main (s, configured)).2 = Ok (settings, observability) ∧ ob_tracing_enabled observability = true ∧
    ("service.name", app_service_name settings) ∈ resource ∧
    (exporter = None ↔ ob_otlp_http_endpoint observability = None).
Proof.
  unfold start_main. destruct (get_settings s) as [s1 [settings|e]]; [|set_solver].
  destruct (get_observability_settings s1) as [s2 [observability|e]]; [|set_solver].
  unfold configure_observability. cbn [tr_enabled tracing_of].
  destruct configured, (ob_tracing_enabled observability) eqn:Ht; cbn; try set_solver.
  rewrite list_elem_of_singleton. intros [= -> ->]. split; [done|]. exists settings, observability.
  split_and!; [done|done|by left|]. by destruct (ob_otlp_http_endpoint observability).
Qed.

(** A process whose database moves: it keeps the host it read first. *)
Definition demo_source : SettingsSource string := λ k host, (host,
  match k return result exn (settings_of k) with
  | BusinessDatabaseClass => if String.eqb host "" then Err ValidationError else
      Ok {| db_host := host; db_port := 5433; db_name := "northwind"; readonly_user := "r";
            readonly_password := "p"; db_allowed_schema := "northwind"; db_connect_timeout_seconds := 3;
            db_statement_timeout_ms := 2000; metadata_cache_ttl_seconds := 300 |}
  | _ => Err ValidationError
  end).
Definition demo_read (host : string) : settings_cache * string * result exn BusinessDatabaseSettings :=
  lru_cache (H := demo_source) BusinessDatabaseClass (empty_settings, host).

Lemma settings_read_once_witness :
  (demo_read "").2 = Err ValidationError ∧
  ∃ v, (demo_read "a").2 = Ok v ∧ db_host v = "a" ∧
    (lru_cache (H := demo_source) BusinessDatabaseClass ((demo_read "a").1.1, "b")).2 = Ok v.
Proof.
  split; [reflexivity|]. eexists. split; [reflexivity|]. split; [reflexivity|].
  rewrite (settings_read_once string demo_source BusinessDatabaseClass (empty_settings, "a") (demo_read "a").1 _
    eq_refl ((demo_read "a").1.1, "b")); [reflexivity|].
  apply (later_changed (H := demo_source) _ _ "a"), later_now.
Defined.
