(* ===== verification/Rounding.v ===== *)
(** * Python's [int / int], [round], [statistics.mean] and [math.ceil]

    The arithmetic of the evaluation reports.  A quotient of integers is
    rounded once, half-even, to 53 bits; [round(x, n)] rounds the exact value
    of a float, half-even, to [n] decimals and reads the decimal back;
    [mean] divides an exact sum. *)

From S2P Require Import Prelude PyStr Floats Errors Json Numbers Utf8 PyText Decimal FloatText.
From Stdlib Require Import SpecFloat.

(** ** Quotients *)

(** The greatest [x] with [2 ^ x <= n / d]. *)
Definition binary_exponent (n d : Z) : Z :=
  let x := (Z.log2 n - Z.log2 d)%Z in
  if (d * 2 ^ Z.max x 0 <=? n * 2 ^ Z.max (- x) 0)%Z then x else (x - 1)%Z.

(** The float nearest to [n / d], for [0 <= n] and [0 < d]: an infinity when
    the quotient rounds out of range. *)
Definition quotient (n d : Z) : float :=
  if (n =? 0)%Z then S754_zero false
  else
    let e := Z.max (binary_exponent n d - 52) (-1074) in
    let q := round_quotient (n * 2 ^ Z.max (- e) 0) (d * 2 ^ Z.max e 0) in
    let '(q, e) := if (q =? 2 ^ 53)%Z then (2 ^ 52, e + 1)%Z else (q, e) in
    match q with
    | Zpos m => if (971 <? e)%Z then S754_infinity false else S754_finite false m e
    | _ => S754_zero false
    end.

Example quotient_agrees :
  forallb (λ n, forallb (λ d, bool_decide (quotient (Z.of_nat n) (Z.of_nat d)
                                           = fdiv (f_of_nat n) (f_of_nat d))) (seq 1 9)) (seq 0 12) = true.
Proof. vm_compute. reflexivity. Qed.

(** [round(x, digits)]. *)
Definition round_decimal (digits : Z) (x : float) : float :=
  match x with
  | S754_finite s m e =>
      signed_nearest s (round_quotient (Zpos m * 2 ^ Z.max e 0 * 10 ^ digits) (2 ^ Z.max (- e) 0)) (- digits)
  | x => x
  end.

Example round_examples :
  round_decimal 4 (quotient 2 3) = decimal 6667 4 ∧ round_decimal 3 (decimal 26750 4) = decimal 2675 3 ∧
  round_decimal 2 (decimal 2675 3) = decimal 267 2 ∧ round_decimal 4 (f_of_Z 1) = f_of_Z 1.
Proof. vm_compute. done. Qed.

(** [n / d] for a positive [d]: OverflowError out of range. *)
Definition signed_quotient (n d : Z) : float :=
  let x := quotient (Z.abs n) d in if (n <? 0)%Z then fneg x else x.
Definition true_div (n d : Z) : result exn float :=
  let x := signed_quotient n d in if is_finite x then Ok x else Err OverflowError.

(** [float(n)], also the conversion of [n] in [n * x]. *)
Definition float_of_int (n : Z) : result exn float := true_div n 1.

(** [statistics.mean] of integers, which is an exact one when it can be: a
    Fraction is turned into an int if its denominator is 1, otherwise into a
    float by the division of its terms. *)
Definition mean_Z (l : list Z) : result exn (Z + float) :=
  let total := foldr Z.add 0%Z l in
  let n := Z.of_nat (length l) in
  if (total mod n =? 0)%Z then Ok (inl (total / n)%Z) else x ← true_div total n; Ok (inr x).

(** [round(x, digits)] of an int is that int. *)
Definition round_number (digits : Z) (x : Z + float) : Z + float :=
  match x with inl z => inl z | inr x => inr (round_decimal digits x) end.

(** A float field of a pydantic model: an int that no float can hold is not
    valid. *)
Definition float_field (x : Z + float) : result exn float :=
  match x with
  | inl z => match float_of_int z with Ok x => Ok x | Err _ => Err ValidationError end
  | inr x => Ok x
  end.

(** The exact value of a finite float in units of [2 ^ -1074]. *)
Definition fine_units (x : float) : option Z :=
  match x with
  | S754_finite s m e => let a := (Zpos m * 2 ^ (e + 1074))%Z in Some (if s then - a else a)%Z
  | S754_zero _ => Some 0%Z
  | _ => None
  end.

(** [statistics.mean] of floats: [None] when one is not finite. *)
Definition mean_float (l : list float) : option (result exn float) :=
  units ← mapM fine_units l;
  Some (true_div (foldr Z.add 0%Z units) (Z.of_nat (length l) * 2 ^ 1074)).

Example mean_examples :
  mean_Z [10; 11; 11]%Z = Ok (inr (fdiv (f_of_Z 32) (f_of_Z 3))) ∧ mean_Z [10; 12]%Z = Ok (inl 11%Z) ∧
  mean_float [decimal 25 2; decimal 1 1] = Some (Ok (decimal 175 3)) ∧
  mean_Z [-1; -2]%Z = Ok (inr (decimal (-15) 1)) ∧ float_of_int (2 ^ 53 + 1) = Ok (f_of_Z (2 ^ 53 + 1)).
Proof. vm_compute. done. Qed.

(** A mean that no float can hold: beside 1, ten to the power of 400 leaves a
    half; alone it is an int, which a float field refuses. *)
Example mean_overflows :
  mean_Z [10 ^ 400; 1]%Z = Err OverflowError ∧
  (m ← mean_Z [10 ^ 400]%Z; float_field m) = Err ValidationError.
Proof. vm_compute. done. Qed.

(** [math.ceil]. *)
Definition fceil (x : float) : option Z :=
  match x with
  | S754_finite s m e =>
      let z := if s then Zneg m else Zpos m in
      Some (if (0 <=? e)%Z then z * 2 ^ e else - ((- z) / 2 ^ (- e)))%Z
  | S754_zero _ => Some 0%Z
  | _ => None
  end.

(** ** Bounds *)

Lemma round_quotient_le n d hi : (0 < d)%Z → (n ≤ hi * d)%Z → (round_quotient n d ≤ hi)%Z.
Proof. intros Hd Hn. pose proof (round_quotient_spec n d Hd). nia. Qed.

Lemma round_quotient_nonneg n d : (0 < d)%Z → (0 ≤ n)%Z → (0 ≤ round_quotient n d)%Z.
Proof. intros Hd Hn. pose proof (round_quotient_spec n d Hd). nia. Qed.

(** The float is zero or a positive finite number of at most one. *)
Definition unit_float (x : float) : Prop :=
  match x with
  | S754_zero s => s = false
  | S754_finite s m e => s = false ∧ (Zpos m * 2 ^ Z.max e 0 ≤ 2 ^ Z.max (- e) 0)%Z
  | _ => False
  end.

Lemma binary_exponent_unit n d : (0 < n ≤ d)%Z → (binary_exponent n d ≤ 0)%Z.
Proof.
  intros [Hn Hd]. unfold binary_exponent. pose proof (Z.log2_le_mono n d Hd) as Hl.
  destruct (_ <=? _)%Z; lia.
Qed.

Lemma quotient_unit n d : (0 ≤ n ≤ d)%Z → (0 < d)%Z → unit_float (quotient n d).
Proof.
  intros [Hn Hnd] Hd. unfold quotient. destruct (Z.eqb_spec n 0); [done|].
  pose proof (binary_exponent_unit n d ltac:(lia)) as Hx.
  set (e := Z.max (binary_exponent n d - 52) (-1074)). assert (e ≤ -52)%Z as He by lia.
  rewrite (Z.max_l (- e)), (Z.max_r e), Z.mul_1_r by lia.
  assert (0 < 2 ^ (- e))%Z as Hpow by (apply Z.pow_pos_nonneg; lia).
  assert (round_quotient (n * 2 ^ (- e)) d ≤ 2 ^ (- e))%Z as Hq by (apply round_quotient_le; nia).
  set (q := round_quotient _ d) in *. destruct (Z.eqb_spec q (2 ^ 53)) as [Hc|Hc].
  - assert (2 ^ 53 ≤ 2 ^ (- e))%Z as Hle by lia. apply Z.pow_le_mono_r_iff in Hle; [|lia|lia].
    cbv beta iota zeta. change (2 ^ 52)%Z with (Zpos (2 ^ 52)).
    rewrite (proj2 (Z.ltb_ge 971 (e + 1))) by lia. cbn [unit_float]. split; [done|].
    rewrite Z.max_r, Z.max_l, Z.mul_1_r by lia. change (Zpos (2 ^ 52)) with (2 ^ 52)%Z.
    apply Z.pow_le_mono_r; lia.
  - destruct q as [|m|m] eqn:Eq; [done| |done]. rewrite (proj2 (Z.ltb_ge 971 e)) by lia.
    cbn [unit_float]. split; [done|]. rewrite Z.max_r, Z.max_l, Z.mul_1_r by lia. lia.
Qed.

(** Between zero and one. *)
Definition in_unit (x : float) : bool := fleb fzero x && fleb x (f_of_Z 1).

(** ** Signs *)

(** Zero, a positive number or infinity. *)
Definition nonneg (x : float) : bool := fleb fzero x.

Lemma shr_nonneg mrs e n : (0 ≤ shr_m mrs)%Z → (0 ≤ shr_m (shr mrs e n).1)%Z.
Proof.
  assert (∀ r, (0 ≤ shr_m r)%Z → (0 ≤ shr_m (shr_1 r))%Z) as H1.
  { intros [[|[p|p|]|p] r s] H; cbn in *; lia. }
  intros Hm. destruct n as [|p|p]; [done| |done]. cbn. revert mrs Hm.
  induction p as [p IH|p IH|]; intros mrs Hm; cbn; auto.
Qed.

Lemma shr_record_m m l : shr_m (shr_record_of_loc m l) = m.
Proof. by destruct l as [|[]]. Qed.

Lemma binary_round_aux_nonneg m e l : (0 ≤ m)%Z → nonneg (binary_round_aux 53 1024 false m e l) = true.
Proof.
  intros Hm. unfold binary_round_aux, shr_fexp.
  match goal with |- context [shr ?r e ?n] => pose proof (shr_nonneg r e n) as Hs; destruct (shr r e n) as [r1 e1] end.
  rewrite shr_record_m in Hs. specialize (Hs Hm). cbn [fst] in Hs.
  match goal with |- context [shr ?r e1 ?n] => pose proof (shr_nonneg r e1 n) as Hs2; destruct (shr r e1 n) as [r2 e2] end.
  rewrite shr_record_m in Hs2. cbn [fst] in Hs2.
  assert (0 ≤ shr_m r2)%Z as Hr2.
  { apply Hs2. unfold round_nearest_even. destruct (loc_of_shr_record r1) as [|[]]; try destruct (Z.even _); lia. }
  destruct (shr_m r2); [done| |lia]. by destruct (e2 <=? _)%Z.
Qed.

Lemma binary_normalize_nonneg q k : (0 ≤ q)%Z → nonneg (binary_normalize 53 1024 q k false) = true.
Proof.
  destruct q as [|p|p]; intros Hq; [done| |lia]. unfold binary_normalize, binary_round.
  destruct (shl_align _ _ _). by apply binary_round_aux_nonneg.
Qed.

Lemma nearest_nonneg m e : (0 ≤ m)%Z → nonneg (nearest m e) = true.
Proof.
  intros Hm. unfold nearest. destruct (0 <=? e)%Z eqn:E.
  - apply binary_normalize_nonneg. apply Z.leb_le in E. assert (0 ≤ 10 ^ e)%Z by (apply Z.pow_nonneg; lia). nia.
  - rewrite (proj2 (Z.ltb_ge m 0) Hm). apply binary_normalize_nonneg. apply Z.leb_gt in E.
    assert (0 < 10 ^ (- e))%Z by (apply Z.pow_pos_nonneg; lia).
    rewrite Z.abs_eq by done.
    assert (0 ≤ Z.shiftl m (Z.log2_up (10 ^ (- e)) + 64) / 10 ^ (- e))%Z
      by (apply Z.div_pos; [by apply Z.shiftl_nonneg|done]).
    destruct (_ =? 0)%Z; lia.
Qed.

(** Shifting right divides; the digits of a mantissa are those of its size. *)
Lemma shr_m_iter n r : (0 ≤ shr_m r)%Z → shr_m (iter_pos shr_1 n r) = (shr_m r / 2 ^ Zpos n)%Z.
Proof.
  assert (∀ r, (0 ≤ shr_m r)%Z → shr_m (shr_1 r) = (shr_m r / 2)%Z) as H1.
  { intros [[|[p|p|]|p] r1 s1]; cbn [shr_m shr_1]; intros Hr; try done; try lia.
    - by rewrite (Pos2Z.inj_xI p), Z.mul_comm, Z.div_add_l by lia.
    - by rewrite (Pos2Z.inj_xO p), Z.mul_comm, Z.div_mul by lia. }
  revert r. induction n as [n IH|n IH|]; intros r Hr; cbn [iter_pos].
  - assert (0 ≤ shr_m r / 2)%Z as H2 by (apply Z.div_pos; lia).
    assert (0 ≤ shr_m r / 2 / 2 ^ Zpos n)%Z as H3 by (apply Z.div_pos; lia).
    rewrite IH; rewrite IH, H1 by (rewrite ?H1; done); [|done]. rewrite !Z.div_div by lia. f_equal.
    replace (Zpos n~1) with (1 + (Zpos n + Zpos n))%Z by lia. rewrite !Z.pow_add_r by lia. lia.
  - assert (0 ≤ shr_m r / 2 ^ Zpos n)%Z as H3 by (apply Z.div_pos; lia).
    rewrite IH; rewrite IH by done; [|done]. rewrite Z.div_div by lia. f_equal.
    replace (Zpos n~0) with (Zpos n + Zpos n)%Z by lia. by rewrite Z.pow_add_r by lia.
  - by apply H1.
Qed.

Lemma digits_bounds p : (2 ^ (Zpos (digits2_pos p) - 1) ≤ Zpos p < 2 ^ Zpos (digits2_pos p))%Z.
Proof.
  assert (digits2_pos p = Pos.size p) as -> by (induction p; cbn; congruence).
  pose proof (Pos.size_le p) as Hl. pose proof (Pos.size_gt p) as Hg.
  apply Pos2Z.pos_le_pos in Hl. apply Pos2Z.pos_lt_pos in Hg. rewrite Pos2Z.inj_pow in Hl, Hg.
  rewrite (Pos2Z.inj_xO p) in Hl. split; [|done].
  replace (Zpos (Pos.size p)) with (Z.succ (Zpos (Pos.size p) - 1)) in Hl by lia.
  rewrite Z.pow_succ_r in Hl by lia. lia.
Qed.

(** A mantissa that is rounded once more keeps its exponent, unless the
    rounding has carried it to the next power of two. *)
Lemma carried_le_1 m e : (2 ^ 52 ≤ m ≤ 2 ^ 53)%Z → (-1000 ≤ e ≤ -53)%Z →
  let '(r, e') := shr_fexp 53 1024 m e loc_Exact in
  ∃ p, shr_m r = Zpos p ∧ (e' < -52 ∨ e' = -52 ∧ Zpos p = 2 ^ 52)%Z.
Proof.
  intros Hm He. unfold shr_fexp, fexp, emin. cbn [shr_record_of_loc].
  destruct m as [|p|p]; [lia| |lia]. cbn [Zdigits2]. pose proof (digits_bounds p) as [Hl Hg].
  set (d := Zpos (digits2_pos p)) in *.
  assert (52 < d)%Z as H1 by (apply (Z.pow_lt_mono_r_iff 2); lia).
  assert (d - 1 ≤ 53)%Z as H2 by (apply (Z.pow_le_mono_r_iff 2); lia).
  destruct (Z.eq_dec d 53) as [->|Hd].
  - replace (Z.max (53 + e - 53) (3 - 1024 - 53) - e)%Z with 0%Z by lia. exists p. split; [done|]. left. lia.
  - assert (d = 54)%Z as -> by lia. replace (Z.max (54 + e - 53) (3 - 1024 - 53) - e)%Z with 1%Z by lia.
    cbn [shr]. assert (Zpos p = 2 ^ 53)%Z as Hp by (change (54 - 1)%Z with 53%Z in Hl; lia).
    exists (2 ^ 52)%positive. rewrite shr_m_iter by (cbn; lia). cbn [shr_m]. rewrite Hp.
    split; [done|]. destruct (Z.eq_dec e (-53)) as [->|]; [by right|left; lia].
Qed.

Lemma binary_normalize_le_1 q k :
  (2 ^ 52 ≤ q < 2 ^ k)%Z → (53 ≤ k ≤ 900)%Z → fleb (binary_normalize 53 1024 q (- k) false) (f_of_Z 1) = true.
Proof.
  intros Hq Hk. destruct q as [|p|p]; [lia| |lia]. unfold binary_normalize, binary_round.
  pose proof (digits_bounds p) as [Hl Hg]. set (d := Zpos (digits2_pos p)) in *.
  assert (52 < d)%Z as H1 by (apply (Z.pow_lt_mono_r_iff 2); lia).
  assert (d - 1 < k)%Z as H2 by (apply (Z.pow_lt_mono_r_iff 2); lia).
  assert (fexp 53 1024 (d + - k) = d - k - 53)%Z as Hf by (unfold fexp, emin; lia).
  rewrite Hf. unfold shl_align. replace (d - k - 53 - - k)%Z with (d - 53)%Z by lia.
  assert (match (d - 53)%Z with Zneg c => (Pos.iter xO p c, (d - k - 53)%Z) | _ => (p, (- k)%Z) end = (p, (- k)%Z))
    as -> by (destruct (d - 53)%Z eqn:E; done || lia).
  unfold binary_round_aux. unfold shr_fexp at 1. cbn [Zdigits2 shr_record_of_loc]. fold d. rewrite Hf.
  replace (d - k - 53 - - k)%Z with (d - 53)%Z by lia.
  assert (∃ r, shr {| shr_m := Zpos p; shr_r := false; shr_s := false |} (- k) (d - 53) = (r, (d - k - 53)%Z) ∧
               (2 ^ 52 ≤ shr_m r < 2 ^ 53)%Z) as (r & -> & Hr).
  { destruct (d - 53)%Z as [|n|n] eqn:E; [| |lia]; cbn [shr]; eexists; (split; [f_equal; lia|]).
    - replace d with 53%Z in * by lia. done.
    - rewrite shr_m_iter by (cbn; lia). cbn [shr_m]. rewrite <-E. split.
      + apply Z.div_le_lower_bound; [lia|]. rewrite <-Z.pow_add_r by lia. by replace (d - 53 + 52)%Z with (d - 1)%Z by lia.
      + apply Z.div_lt_upper_bound; [lia|]. rewrite <-Z.pow_add_r by lia. by replace (d - 53 + 53)%Z with d by lia. }
  set (m := round_nearest_even _ _).
  assert (2 ^ 52 ≤ m ≤ 2 ^ 53)%Z as Hm.
  { unfold m, round_nearest_even. destruct (loc_of_shr_record r) as [|[]]; try destruct (Z.even _); lia. }
  pose proof (carried_le_1 m (d - k - 53) Hm ltac:(lia)) as Hc.
  destruct (shr_fexp _ _ m _ _) as [r' e']. destruct Hc as (x & -> & Hx).
  rewrite (proj2 (Z.leb_le e' (1024 - 53))) by lia. unfold fleb, SFleb.
  change (f_of_Z 1) with (S754_finite false (2 ^ 52) (-52)). cbn [SFcompare].
  destruct Hx as [Hx|[-> Hx]].
  - rewrite (proj2 (Z.compare_lt_iff _ _) Hx). done.
  - change (2 ^ 52)%Z with (Zpos (2 ^ 52)) in Hx. injection Hx as ->. done.
Qed.

Lemma nearest_unit_4 c : (0 ≤ c ≤ 10000)%Z → in_unit (nearest c (-4)) = true.
Proof.
  intros Hc. unfold in_unit. change (nonneg (nearest c (-4)) && fleb (nearest c (-4)) (f_of_Z 1) = true).
  rewrite nearest_nonneg by lia. destruct (Z.eq_dec c 0) as [->|H0]; [done|].
  destruct (Z.eq_dec c 10000) as [->|H1]; [done|].
  unfold nearest. rewrite (proj2 (Z.ltb_ge c 0)) by lia.
  change (0 <=? -4)%Z with false. cbv zeta iota. change (10 ^ (- -4))%Z with 10000%Z.
  change (Z.log2_up 10000 + 64)%Z with 78%Z. change (- (78) - 1)%Z with (- (79))%Z.
  rewrite Z.shiftl_mul_pow2, Z.abs_eq by lia. apply binary_normalize_le_1; [|lia].
  pose proof (Z.div_mod (c * 2 ^ 78) 10000 ltac:(lia)) as Hd.
  pose proof (Z.mod_pos_bound (c * 2 ^ 78) 10000 ltac:(lia)) as Hb.
  destruct (_ =? 0)%Z; lia.
Qed.

(** A share rounded to four decimals is between zero and one. *)
Lemma share_in_unit n d : (0 ≤ n ≤ d)%Z → (0 < d)%Z → in_unit (round_decimal 4 (quotient n d)) = true.
Proof.
  intros Hn Hd. pose proof (quotient_unit n d Hn Hd) as Hu.
  destruct (quotient n d) as [s| | |s m e]; try done. destruct Hu as [-> Hle].
  unfold round_decimal, signed_nearest. apply nearest_unit_4.
  assert (0 < 2 ^ Z.max (- e) 0)%Z as Hpos by (apply Z.pow_pos_nonneg; lia).
  split; [apply round_quotient_nonneg; lia|]. apply round_quotient_le; [done|].
  change (10 ^ 4)%Z with 10000%Z. lia.
Qed.

Lemma quotient_nonneg n d : (0 ≤ n)%Z → (0 < d)%Z → nonneg (quotient n d) = true.
Proof.
  intros Hn Hd. unfold quotient. destruct (n =? 0)%Z; [done|]. cbv zeta.
  destruct (_ =? 2 ^ 53)%Z; [cbn [Z.pow]; by destruct (971 <? _)%Z|].
  destruct (round_quotient _ _); [done| |done]. by destruct (971 <? _)%Z.
Qed.

Lemma round_decimal_nonneg k x : (0 ≤ k)%Z → nonneg x = true → nonneg (round_decimal k x) = true.
Proof.
  intros Hk. destruct x as [s|s| |s m e]; try done. destruct s; [done|]. intros _.
  cbn [round_decimal signed_nearest]. unfold signed_nearest. apply nearest_nonneg, round_quotient_nonneg.
  - apply Z.pow_pos_nonneg; lia.
  - assert (0 ≤ 2 ^ Z.max e 0)%Z by (apply Z.pow_nonneg; lia). assert (0 ≤ 10 ^ k)%Z by (apply Z.pow_nonneg; lia). nia.
Qed.

(** ** Range *)

(** The largest finite float. *)
Definition largest_float : Z := ((2 ^ 53 - 1) * 2 ^ 971)%Z.

(** The floats that binary64 has among those of [SpecFloat]. *)
Definition binary64 (x : float) : Prop :=
  match x with S754_finite _ m e => (Zpos m < 2 ^ 53)%Z ∧ (e ≤ 971)%Z | _ => True end.

Lemma binary_exponent_le n d : (0 < n)%Z → (0 < d)%Z → (1 ≤ binary_exponent n d)%Z →
  (d * 2 ^ binary_exponent n d ≤ n)%Z.
Proof.
  intros Hn Hd. unfold binary_exponent. destruct (Z.leb_spec (d * 2 ^ Z.max (Z.log2 n - Z.log2 d) 0)
    (n * 2 ^ Z.max (- (Z.log2 n - Z.log2 d)) 0)) as [Hle|_]; intros Hx.
  - rewrite (Z.max_r (- _)), Z.max_l in Hle by lia. lia.
  - pose proof (Z.log2_spec n Hn) as [H1 _]. pose proof (Z.log2_spec d Hd) as [_ H2].
    set (k := (Z.log2 n - Z.log2 d - 1)%Z) in *. replace (Z.log2 n) with (Z.succ (Z.log2 d) + k)%Z in H1 by lia.
    rewrite Z.pow_add_r in H1 by (pose proof (Z.log2_nonneg d); lia).
    assert (0 < 2 ^ k)%Z by (apply Z.pow_pos_nonneg; lia). nia.
Qed.

(** A quotient that does not exceed the largest float is finite. *)
Lemma quotient_finite n d : (0 ≤ n)%Z → (0 < d)%Z → (n ≤ d * largest_float)%Z → is_finite (quotient n d) = true.
Proof.
  intros Hn Hd Hle. unfold quotient. destruct (Z.eqb_spec n 0); [done|].
  assert (largest_float < 2 ^ 1024)%Z as Hl by done.
  assert (binary_exponent n d ≤ 1023)%Z as Hx.
  { apply Z.nlt_ge. intros Hx. pose proof (binary_exponent_le n d ltac:(lia) Hd ltac:(lia)) as Hb.
    assert (2 ^ 1024 ≤ 2 ^ binary_exponent n d)%Z as Hp by (apply Z.pow_le_mono_r; lia).
    clear -Hd Hb Hp Hl Hle. nia. }
  set (e := Z.max (binary_exponent n d - 52) (-1074)). assert (e ≤ 971)%Z as He by lia.
  set (q := round_quotient _ _). cbv zeta.
  assert (0 ≤ q)%Z as Hq0.
  { apply round_quotient_nonneg; [|apply Z.mul_nonneg_nonneg; [lia|by apply Z.pow_nonneg]].
    apply Z.mul_pos_pos; [done|]. apply Z.pow_pos_nonneg; lia. }
  destruct (Z.eqb_spec q (2 ^ 53)) as [Hc|Hc].
  - destruct (Z.eq_dec e 971) as [E|E].
    + exfalso. assert (q ≤ 2 ^ 53 - 1)%Z; [|lia]. unfold q. rewrite E. change (Z.max (- (971)) 0) with 0%Z.
      change (Z.max 971 0) with 971%Z. rewrite Z.pow_0_r, Z.mul_1_r. apply round_quotient_le.
      * apply Z.mul_pos_pos; [done|]. apply Z.pow_pos_nonneg; lia.
      * unfold largest_float in Hle. lia.
    + change (2 ^ 52)%Z with (Zpos (2 ^ 52)). by rewrite (proj2 (Z.ltb_ge 971 (e + 1))) by lia.
  - destruct q as [|p|p]; [done| |lia]. by rewrite (proj2 (Z.ltb_ge 971 e)) by lia.
Qed.

Lemma shr_fexp_digits m e : (0 ≤ m)%Z → (shr_m (shr_fexp 53 1024 m e loc_Exact).1 < 2 ^ 53)%Z.
Proof.
  intros Hm. unfold shr_fexp, fexp, emin. cbn [shr_record_of_loc].
  destruct m as [|p|p]; [| |done].
  { match goal with |- context [shr ?r e ?n] => set (k := n) end. destruct k as [|n|n]; [done| |done].
    cbn [shr fst]. rewrite shr_m_iter by done. cbn [shr_m]. by rewrite Z.div_0_l by (by apply Z.pow_nonzero). }
  cbn [Zdigits2]. pose proof (digits_bounds p) as [_ Hg]. set (d := Zpos (digits2_pos p)) in *.
  set (k := (Z.max (d + e - 53) (3 - 1024 - 53) - e)%Z). assert (d - 53 ≤ k)%Z as Hk by lia.
  destruct k as [|n|n]; cbn [shr fst shr_m].
  1,3: eapply Z.lt_le_trans; [exact Hg|]; apply Z.pow_le_mono_r; lia.
  rewrite shr_m_iter by (cbn; lia). cbn [shr_m]. apply Z.div_lt_upper_bound; [lia|].
  eapply Z.lt_le_trans; [exact Hg|]. rewrite <-Z.pow_add_r by lia. apply Z.pow_le_mono_r; lia.
Qed.

Lemma binary_round_aux_64 s m e l : (0 ≤ m)%Z → binary64 (binary_round_aux 53 1024 s m e l).
Proof.
  intros Hm. unfold binary_round_aux. unfold shr_fexp at 1.
  match goal with |- context [shr ?r e ?n] => pose proof (shr_nonneg r e n) as Hs; destruct (shr r e n) as [r1 e1] end.
  rewrite shr_record_m in Hs. specialize (Hs Hm). cbn [fst] in Hs.
  set (k := round_nearest_even _ _).
  assert (0 ≤ k)%Z as Hk.
  { unfold k, round_nearest_even. destruct (loc_of_shr_record r1) as [|[]]; try destruct (Z.even _); lia. }
  pose proof (shr_fexp_digits k e1 Hk) as Hd. destruct (shr_fexp _ _ k e1 _) as [r2 e2]. cbn [fst] in Hd.
  destruct (shr_m r2) as [|p|p]; [done| |done]. destruct (Z.leb_spec e2 (1024 - 53)); [by split|done].
Qed.

Lemma binary_normalize_64 m e s : binary64 (binary_normalize 53 1024 m e s).
Proof.
  destruct m as [|p|p]; [done| |]; unfold binary_normalize, binary_round;
    destruct (shl_align _ _ _); by apply binary_round_aux_64.
Qed.

Lemma round_decimal_64 k x : binary64 (round_decimal k x).
Proof.
  destruct x as [s|s| |s m e]; [done..|].
  cbn [round_decimal]. unfold signed_nearest.
  assert (∀ a b, binary64 (nearest a b)) as Hn
    by (intros a b; unfold nearest; destruct (0 <=? b)%Z; apply binary_normalize_64).
  set (y := nearest _ _). assert (binary64 y) as Hy by apply Hn. clearbody y.
  by destruct s, y as [|?| |? ? ?].
Qed.

(** ** Means *)

Definition sum_of (l : list Z) : Z := foldr Z.add 0%Z l.

Lemma sum_of_bounds l hi : Forall (λ z, 0 ≤ z ≤ hi)%Z l → (0 ≤ sum_of l ≤ Z.of_nat (length l) * hi)%Z.
Proof. induction 1 as [|z l Hz _ IH]; cbn [sum_of foldr length]; [done|]. unfold sum_of in IH. lia. Qed.

Lemma true_div_in_range n d : (0 ≤ n)%Z → (0 < d)%Z → (n ≤ d * largest_float)%Z → true_div n d = Ok (quotient n d).
Proof.
  intros Hn Hd Hle. unfold true_div, signed_quotient. rewrite (proj2 (Z.ltb_ge n 0) Hn), Z.abs_eq by done.
  by rewrite quotient_finite.
Qed.

Lemma true_div_share n d : (0 ≤ n ≤ d)%Z → (0 < d)%Z → true_div n d = Ok (quotient n d).
Proof.
  intros Hn Hd. apply true_div_in_range; [lia|done|]. assert (1 ≤ largest_float)%Z by done. nia.
Qed.

(** [x] is the mean of [l], rounded to [k] decimals unless it is an integer. *)
Definition mean_rounded (k : Z) (l : list Z) (x : float) : Prop :=
  let n := Z.of_nat (length l) in
  x = if (sum_of l mod n =? 0)%Z then quotient (sum_of l / n) 1 else round_decimal k (quotient (sum_of l) n).

Lemma true_div_cases n d : (0 ≤ n)%Z → (0 < d)%Z →
  match true_div n d with Ok x => x = quotient n d | Err e => e = OverflowError ∧ (d * largest_float < n)%Z end.
Proof.
  intros Hn Hd. destruct (Z.le_gt_cases n (d * largest_float)) as [Hle|Hgt]; [by rewrite true_div_in_range|].
  unfold true_div, signed_quotient. rewrite (proj2 (Z.ltb_ge n 0) Hn), Z.abs_eq by done.
  by destruct (is_finite _).
Qed.

Lemma sum_of_exceeds l hi : (Z.of_nat (length l) * hi < sum_of l)%Z → Forall (λ z, 0 ≤ z)%Z l → Exists (λ z, hi < z)%Z l.
Proof.
  intros Hlt Hl. destruct (decide (Exists (λ z, hi < z)%Z l)) as [|Hn]; [done|]. exfalso.
  assert (Forall (λ z, 0 ≤ z ≤ hi)%Z l) as Hall; [|pose proof (sum_of_bounds _ _ Hall); lia].
  apply not_Exists_Forall in Hn; [|apply _]. apply Forall_and. split; [done|].
  eapply Forall_impl; [exact Hn|]. cbn. intros; lia.
Qed.

(** The mean of natural numbers, as a field of a report: it is out of range
    only beside a number that no float can hold. *)
Lemma mean_Z_run k l : (0 ≤ k)%Z → Forall (λ z, 0 ≤ z)%Z l → l ≠ [] →
  match mean_Z l with
  | Err e => e = OverflowError ∧ Exists (λ z, largest_float < z)%Z l
  | Ok v =>
      match float_field (round_number k v) with
      | Err e => e = ValidationError ∧ Exists (λ z, largest_float < z)%Z l
      | Ok x => mean_rounded k l x ∧ nonneg x = true
      end
  end.
Proof.
  intros Hk Hl Hne. assert (0 ≤ sum_of l)%Z as H0.
  { clear Hne. induction Hl as [|z l Hz _ IH]; [done|]. cbn [sum_of foldr]. unfold sum_of in IH. lia. }
  assert (0 < Z.of_nat (length l))%Z as Hn by (destruct l; [done|cbn [length]; lia]).
  unfold mean_Z, mean_rounded. fold (sum_of l).
  pose proof (sum_of_exceeds l largest_float) as Hex.
  set (n := Z.of_nat (length l)) in *. set (s := sum_of l) in *.
  destruct (Z.eqb_spec (s mod n) 0) as [Hz|Hz].
  - cbn [round_number float_field]. unfold float_of_int.
    assert (0 ≤ s / n)%Z as Hq by (apply Z.div_pos; lia).
    pose proof (true_div_cases (s / n) 1 Hq ltac:(lia)) as Ht. destruct (true_div (s / n) 1) as [x|e].
    + subst x. split; [done|]. apply quotient_nonneg; lia.
    + destruct Ht as [_ Hgt]. split; [done|]. apply Hex; [|done].
      pose proof (Z.div_mod s n ltac:(lia)). nia.
  - pose proof (true_div_cases s n ltac:(lia) ltac:(lia)) as Ht. destruct (true_div s n) as [x|e]; cbn [mbind result_bind].
    + subst x. cbn [round_number float_field]. split; [done|]. apply round_decimal_nonneg; [done|].
      apply quotient_nonneg; lia.
    + destruct Ht as [-> Hgt]. split; [done|]. by apply Hex.
Qed.

(** The mean of finite floats is the quotient of their exact sum. *)
Lemma mean_float_run l units :
  Forall binary64 l → Forall (λ x, nonneg x = true) l → l ≠ [] → mapM fine_units l = Some units →
  let x := quotient (sum_of units) (Z.of_nat (length l) * 2 ^ 1074) in
  mean_float l = Some (Ok x) ∧ nonneg x = true.
Proof.
  intros Hb Hl Hne Hu. unfold mean_float. rewrite Hu. cbn [mbind option_bind]. apply mapM_Some in Hu.
  set (hi := (largest_float * 2 ^ 1074)%Z).
  assert (Forall (λ z, 0 ≤ z ≤ hi)%Z units) as Hz.
  { clear Hne. induction Hu as [|v u l units Hv _ IH]; [done|].
    inversion Hb as [|? ? Hb1 Hb2]; inversion Hl as [|? ? Hn Hl']; subst. constructor; [|by apply IH].
    destruct v as [[]|?| |[] m e]; try done; cbn in Hv; simplify_eq; [done|done|].
    destruct Hb1 as [Hm He]. destruct (Z.lt_ge_cases (e + 1074) 0) as [H1|H1].
    { rewrite (Z.pow_neg_r 2 (e + 1074)), Z.mul_0_r by done. done. }
    assert (0 < 2 ^ (e + 1074))%Z as Hp by (by apply Z.pow_pos_nonneg).
    assert (2 ^ (e + 1074) ≤ 2 ^ (971 + 1074))%Z as Hq by (apply Z.pow_le_mono_r; lia).
    unfold hi, largest_float. rewrite <-Z.mul_assoc, <-Z.pow_add_r by done. nia. }
  apply Forall2_length in Hu. pose proof (sum_of_bounds _ _ Hz) as Hs. rewrite <-Hu in Hs.
  assert (0 < Z.of_nat (length l) * 2 ^ 1074)%Z as Hd.
  { apply Z.mul_pos_pos; [destruct l; [done|cbn [length]; lia]|done]. }
  assert (sum_of units ≤ Z.of_nat (length l) * 2 ^ 1074 * largest_float)%Z as Hle by (unfold hi in Hs; lia).
  split; [|apply quotient_nonneg; lia]. fold (sum_of units). by rewrite true_div_in_range by lia.
Qed.
