(* ===== verification/Evaluation.v ===== *)
(** * Evaluation data and metrics: [app/evaluation/], [app/nl2sql/evaluation.py]

    The gold and dangerous cases, their data sets, the results of the cases,
    the comparison of query results and the metrics of a run.  The prefix
    test's [str.upper] and pydantic's reading of a line are functions of the
    model. *)

From S2P Require Import Prelude PyStr Floats Errors Json Metadata Policy DataSources SafeQuery.
From S2P Require Import StructuredLLM QuestionGuard NL2SQL Numbers Embeddings KnowledgeRepository JsonText Utf8 PyText Decimal FloatText Rounding.

(** ** models.py *)

Inductive EvaluationMode := ScriptedGoldReplay | ConfiguredModel.
Inductive CaseKind := NL2SQLKind | DangerousKind.
#[export] Instance CaseKind_eq_dec : EqDecision CaseKind.
Proof. solve_decision. Defined.

Record NL2SQLGoldCase := {
  gc_id : string; gc_question : string; gc_gold_sql : string; gc_expected_columns : list string;
  gc_tags : list string }.
Record DangerousQuestionCase := {
  dc_id : string; dc_question : string; dc_expected_reason_code : string; dc_tags : list string }.

(** [^<two letters>[0-9]{3}$]. *)
Definition case_id_ok (prefix : string) (s : string) : bool :=
  match cps s with
  | a :: b :: digits => bool_decide ([a; b] = cps prefix) && (length digits =? 3) && forallb is_digit digits
  | _ => false
  end.

(** [^[A-Z][A-Z0-9_]+$]. *)
Definition reason_code_ok (s : string) : bool :=
  match cps s with
  | c :: l => is_upper_latin c && negb (length l =? 0)
              && forallb (λ c, is_upper_latin c || is_digit c || (c =? 95)%N) l
  | [] => false
  end.

Definition lstrip_text (s : string) : string := encode (drop_while is_space (cps s)).

Definition NL2SQLGoldCase_ok (upper : string → string) (c : NL2SQLGoldCase) : bool :=
  case_id_ok "nw" (gc_id c) && between 1 (py_len (gc_question c)) 4000
  && between 1 (py_len (gc_gold_sql c)) 50000 && between 1 (length (gc_expected_columns c)) 50
  && between 1 (length (gc_tags c)) 20
  && (let sql := upper (lstrip_text (gc_gold_sql c)) in String.prefix "SELECT" sql || String.prefix "WITH" sql)
  && all_distinct (gc_expected_columns c) && all_distinct (gc_tags c).

Definition DangerousQuestionCase_ok (c : DangerousQuestionCase) : bool :=
  case_id_ok "dq" (dc_id c) && between 1 (py_len (dc_question c)) 4000
  && reason_code_ok (dc_expected_reason_code c) && between 1 (length (dc_tags c)) 20.

Record EvaluationCaseResult := {
  er_case_id : string; er_kind : CaseKind; er_passed : bool; er_execution_correct : option bool;
  er_safe_query_passed : option bool; er_blocked : option bool; er_first_pass : option bool;
  er_repair_count : option Z; er_latency_ms : Z; er_input_tokens : option Z; er_output_tokens : option Z;
  er_total_tokens : option Z; er_estimated_cost_usd : option float; er_failure_category : option string;
  er_failure_code : option string }.

Definition opt_ok {A} (p : A → bool) (o : option A) : bool := match o with Some a => p a | None => true end.
Definition nat_field (z : Z) : bool := (0 <=? z)%Z.
(** [Field(ge=0)] and [Field(ge=0, le=1)] on floats. *)
Definition float_ge0 (x : float) : bool := negb (fltb x fzero).
Definition float_rate (x : float) : bool := negb (fltb x fzero) && negb (fltb (f_of_Z 1) x).

Definition EvaluationCaseResult_ok (r : EvaluationCaseResult) : bool :=
  opt_ok (λ n, within 0 n 2) (er_repair_count r) && nat_field (er_latency_ms r)
  && opt_ok nat_field (er_input_tokens r) && opt_ok nat_field (er_output_tokens r)
  && opt_ok nat_field (er_total_tokens r) && opt_ok float_ge0 (er_estimated_cost_usd r).
Definition EvaluationCaseResult_make (r : EvaluationCaseResult) : result exn EvaluationCaseResult :=
  if EvaluationCaseResult_ok r then Ok r else Err ValidationError.

Record EvaluationMetrics := {
  em_nl2sql_cases : Z; em_dangerous_cases : Z; em_execution_accuracy : float;
  em_safe_query_pass_rate : float; em_dangerous_query_block_rate : float;
  em_end_to_end_success_rate : float; em_first_generation_success_rate : float;
  em_repaired_success_rate : option float; em_mean_latency_ms : float; em_p95_latency_ms : Z;
  em_average_total_tokens : option float; em_average_estimated_cost_usd : option float;
  em_failures_by_category : list (string * Z); em_failures_by_code : list (string * Z) }.

Definition EvaluationMetrics_ok (m : EvaluationMetrics) : bool :=
  nat_field (em_nl2sql_cases m) && nat_field (em_dangerous_cases m)
  && float_rate (em_execution_accuracy m) && float_rate (em_safe_query_pass_rate m)
  && float_rate (em_dangerous_query_block_rate m) && float_rate (em_end_to_end_success_rate m)
  && float_rate (em_first_generation_success_rate m) && opt_ok float_rate (em_repaired_success_rate m)
  && float_ge0 (em_mean_latency_ms m) && nat_field (em_p95_latency_ms m)
  && opt_ok float_ge0 (em_average_total_tokens m) && opt_ok float_ge0 (em_average_estimated_cost_usd m).
Definition EvaluationMetrics_make (m : EvaluationMetrics) : result exn EvaluationMetrics :=
  if EvaluationMetrics_ok m then Ok m else Err ValidationError.

(** ** datasets.py *)

Section Datasets.
Context {A : Type} (model_validate_json : string → result exn A) (case_id : A → string).

(** A line that does not validate is a ValueError, whatever it was. *)
Definition read_case (line : string) : result exn A :=
  match model_validate_json line with
  | Ok c => Ok c
  | Err e => if is_value_error e then Err ValueError else Err e
  end.

(** [None]: there is no such file. *)
Definition _load_jsonl (file : option (list string)) : result exn (list A) :=
  match file with
  | None => Err ValueError
  | Some lines =>
      cases ← map_result read_case (List.filter (λ l, negb (is_blank l)) lines);
      match cases with [] => Err ValueError | _ => Ok cases end
  end.

Definition _require_unique_ids (cases : list A) : result exn unit :=
  ensure (all_distinct (map case_id cases)) ValueError.

Definition load_cases (file : option (list string)) : result exn (list A) :=
  cases ← _load_jsonl file; _ ← _require_unique_ids cases; Ok cases.
End Datasets.

(** ** nl2sql/evaluation.py *)

(** [==] on values of result rows: numbers by value, dictionaries without
    order. *)
Definition number_value (v : pyval) : option (Z + float) :=
  match v with
  | PInt z => Some (inl z)
  | PBool b => Some (inl (if b then 1 else 0))%Z
  | PFloat t => inr <$> float_of_str t
  | _ => None
  end.
Definition int_eq_float (z : Z) (x : float) : bool :=
  match trunc x with Some t => (t =? z)%Z && match fceil x with Some c => (c =? z)%Z | None => false end
  | None => false end.
Definition number_eqb (a b : Z + float) : bool :=
  match a, b with
  | inl x, inl y => (x =? y)%Z
  | inl z, inr x | inr x, inl z => int_eq_float z x
  | inr x, inr y => feqb x y
  end.

Fixpoint py_eq (v w : pyval) : bool :=
  match v, w with
  | PNone, PNone => true
  | PStr s, PStr t | POther s, POther t => String.eqb s t
  | PList l, PList m =>
      (fix go l m := match l, m with
                     | [], [] => true
                     | x :: l, y :: m => py_eq x y && go l m
                     | _, _ => false
                     end) l m
  | PDict d, PDict e =>
      (length d =? length e)
      && forallb (λ '(k, x), match dict_get k e with Some y => py_eq x y | None => false end) d
  | _, _ => match number_value v, number_value w with
            | Some a, Some b => number_eqb a b
            | _, _ => false
            end
  end.

Definition execution_results_match (candidate expected : QueryExecutionResult) : bool :=
  bool_decide (result_columns candidate = result_columns expected)
  && py_eq (PList (map PDict (rows candidate))) (PList (map PDict (rows expected))).

Record ExecutionAccuracyReport := {
  ea_total_cases : Z; ea_correct_cases : Z; ea_accuracy : float; ea_cases : list (string * bool) }.

Definition from_results (cases : list (string * bool)) : result exn ExecutionAccuracyReport :=
  match cases with
  | [] => Err ValueError
  | _ =>
      let correct := Z.of_nat (length (List.filter snd cases)) in
      let total := Z.of_nat (length cases) in
      accuracy ← true_div correct total;
      if float_rate accuracy
      then Ok {| ea_total_cases := total; ea_correct_cases := correct; ea_accuracy := accuracy;
                 ea_cases := cases |}
      else Err ValidationError
  end.

(** ** runner.py: metrics *)

Definition _ratio (numerator denominator : Z) : result exn float :=
  if (denominator =? 0)%Z then Ok (f_of_Z 1)
  else x ← true_div numerator denominator; Ok (round_decimal 4 x).

Definition count {A} (p : A → bool) (l : list A) : Z := Z.of_nat (length (List.filter p l)).
Definition is_true (o : option bool) : bool := match o with Some true => true | _ => false end.

(** [sorted(values)[max(0, ceil(n * 0.95) - 1)]]. *)
Definition percentile_position (n : Z) : option Z :=
  c ← fceil (fmul (f_of_Z n) (decimal 95 2)); Some (Z.max 0 (c - 1)).
Definition percentile_index (n : nat) : option nat := Z.to_nat <$> percentile_position (Z.of_nat n).
Definition _percentile_95 (values : list Z) : result exn Z :=
  match values with
  | [] => Ok 0%Z
  | _ =>
      match percentile_index (length values) with
      | None => Err OverflowError
      | Some i => match sort_by Z.ltb values !! i with Some v => Ok v | None => Err IndexError end
      end
  end.

(** [case.failure_code or default], counted and sorted by key. *)
Definition or_default (d : string) (o : option string) : string := default d (truthy o).
Definition sorted_counts (keys : list string) : list (string * Z) :=
  let c := counter keys in map (λ k, (k, count_of k c)) (sort_strings c.*1).

(** [mean] of the costs, none of them below zero; with an infinity or a NaN
    it is one. *)
Definition mean_cost (costs : list float) : result exn float :=
  match mean_float costs with
  | Some x => x
  | None => Ok (if existsb is_nan costs then SpecFloat.S754_nan else SpecFloat.S754_infinity false)
  end.

(** [round(mean(values), digits) if values else None]. *)
Definition rounded_mean (digits : Z) (values : list Z) : result exn (option (Z + float)) :=
  match values with
  | [] => Ok None
  | _ => x ← mean_Z values; Ok (Some (round_number digits x))
  end.
Definition rounded_cost (costs : list float) : result exn (option float) :=
  match costs with
  | [] => Ok None
  | _ => x ← mean_cost costs; Ok (Some (round_decimal 8 x))
  end.
Definition optional_field (o : option (Z + float)) : result exn (option float) :=
  match o with Some x => x ← float_field x; Ok (Some x) | None => Ok None end.

(** The arguments of the constructor in their order, then its validation. *)
Definition build_metrics (results : list EvaluationCaseResult) : result exn EvaluationMetrics :=
  let nl2sql := List.filter (λ c, bool_decide (er_kind c = NL2SQLKind)) results in
  let dangerous := List.filter (λ c, bool_decide (er_kind c = DangerousKind)) results in
  let repaired := List.filter (λ c, 0 <? default 0 (er_repair_count c))%Z nl2sql in
  let tokens := omap (M:=list) er_total_tokens nl2sql in
  let costs := omap (M:=list) er_estimated_cost_usd nl2sql in
  let latencies := map er_latency_ms nl2sql in
  let failed := List.filter (λ c, negb (er_passed c)) results in
  let total := Z.of_nat (length nl2sql) in
  execution_accuracy ← _ratio (count (λ c, is_true (er_execution_correct c)) nl2sql) total;
  safe_query_pass_rate ← _ratio (count (λ c, is_true (er_safe_query_passed c)) nl2sql) total;
  dangerous_query_block_rate ← _ratio (count er_passed dangerous) (Z.of_nat (length dangerous));
  end_to_end_success_rate ← _ratio (count er_passed nl2sql) total;
  first_generation_success_rate ← _ratio (count (λ c, is_true (er_first_pass c)) nl2sql) total;
  repaired_success_rate ←
    (if repaired is [] then Ok None
     else x ← _ratio (count er_passed repaired) (Z.of_nat (length repaired)); Ok (Some x));
  mean_latency ← rounded_mean 3 latencies;
  p95 ← _percentile_95 latencies;
  average_tokens ← rounded_mean 3 tokens;
  average_cost ← rounded_cost costs;
  mean_latency_ms ← float_field (default (inl 0%Z) mean_latency);
  average_total_tokens ← optional_field average_tokens;
  EvaluationMetrics_make {|
    em_nl2sql_cases := total;
    em_dangerous_cases := Z.of_nat (length dangerous);
    em_execution_accuracy := execution_accuracy;
    em_safe_query_pass_rate := safe_query_pass_rate;
    em_dangerous_query_block_rate := dangerous_query_block_rate;
    em_end_to_end_success_rate := end_to_end_success_rate;
    em_first_generation_success_rate := first_generation_success_rate;
    em_repaired_success_rate := repaired_success_rate;
    em_mean_latency_ms := mean_latency_ms;
    em_p95_latency_ms := p95;
    em_average_total_tokens := average_total_tokens;
    em_average_estimated_cost_usd := average_cost;
    em_failures_by_category := sorted_counts (map (λ c, or_default "unknown" (er_failure_category c)) failed);
    em_failures_by_code := sorted_counts (map (λ c, or_default "UNKNOWN" (er_failure_code c)) failed) |}.

(** ** Metrics *)

Lemma fleb_fltb x y : fleb x y = true → fltb y x = false.
Proof.
  unfold fleb, fltb, SpecFloat.SFleb, SpecFloat.SFltb.
  destruct (SpecFloat.SFcompare x y) as [c|] eqn:E; [|done]. apply sfcompare_antisym in E. rewrite E.
  by destruct c.
Qed.

Lemma in_unit_rate x : in_unit x = true → float_rate x = true.
Proof.
  unfold in_unit, float_rate. intros [H0%fleb_fltb H1%fleb_fltb]%andb_true_iff. by rewrite H0, H1.
Qed.

Lemma nonneg_ge0 x : nonneg x = true → float_ge0 x = true.
Proof. unfold nonneg, float_ge0. by intros ->%fleb_fltb. Qed.

Lemma ge0_nonneg x : float_ge0 x = true → is_nan x = false → nonneg x = true.
Proof. by destruct x as [[]|[]| |[] m e]. Qed.

(** [k] of [n], rounded to four decimals; 1 of none. *)
Definition rate (k n : Z) : float := if (n =? 0)%Z then f_of_Z 1 else round_decimal 4 (quotient k n).

Lemma ratio_rate k n : (0 ≤ k ≤ n)%Z → _ratio k n = Ok (rate k n).
Proof. intros Hk. unfold _ratio, rate. destruct (Z.eqb_spec n 0); [done|]. by rewrite true_div_share by lia. Qed.

Lemma rate_in_unit k n : (0 ≤ k ≤ n)%Z → in_unit (rate k n) = true.
Proof.
  intros Hn. unfold rate. destruct (Z.eqb_spec n 0); [vm_compute; reflexivity|]. apply share_in_unit; lia.
Qed.

Lemma count_bounds {A} (p : A → bool) l : (0 ≤ count p l ≤ Z.of_nat (length l))%Z.
Proof.
  unfold count. split; [lia|]. apply inj_le. induction l as [|x l IH]; cbn; [done|]. destruct (p x); cbn; lia.
Qed.

Lemma filter_split {A} (p : A → bool) l :
  length (List.filter p l) + length (List.filter (λ x, negb (p x)) l) = length l.
Proof. induction l as [|x l IH]; [done|]. cbn. destruct (p x); cbn; lia. Qed.

Lemma occurrences_sum {A} `{EqDecision A} (ks l : list A) :
  NoDup ks → (∀ x, x ∈ l → x ∈ ks) →
  sum_list_with (λ k, length (filter (λ x, x = k) l)) ks = length l.
Proof.
  intros Hnd. induction l as [|x l IH]; intros Hin.
  { clear. induction ks as [|k ks IH]; [done|]. cbn [sum_list_with]. by rewrite filter_nil, IH. }
  assert (∀ ks, NoDup ks → sum_list_with (λ k, length (filter (λ y, y = k) (x :: l))) ks
    = sum_list_with (λ k, length (filter (λ y, y = k) l)) ks + (if decide (x ∈ ks) then 1 else 0)) as Hstep.
  { clear. intros ks Hnd. induction Hnd as [|k ks Hk Hnd IH]; [done|]. cbn [sum_list_with]. rewrite IH.
    rewrite filter_cons. destruct (decide (x = k)) as [->|Hne]; cbn [length].
    - rewrite (decide_True (P := k ∈ k :: ks)) by (by left). rewrite decide_False by done. lia.
    - destruct (decide (x ∈ ks)); [rewrite decide_True by (by right)|rewrite decide_False; [|set_solver]]; lia. }
  rewrite Hstep, IH by (set_solver || done). rewrite decide_True by (apply Hin; by left). cbn. lia.
Qed.

Lemma counter_keys ts t : t ∈ (counter ts).*1 ↔ t ∈ ts.
Proof.
  unfold counter.
  enough (∀ d, t ∈ (fold_left (λ d t, dict_set t (count_of t d + 1)%Z d) ts d).*1 ↔ t ∈ ts ∨ t ∈ d.*1) as E
    by (rewrite E; set_solver).
  induction ts as [|u ts IH]; intros d; cbn [fold_left]; [set_solver|].
  rewrite IH, dict_set_keys, elem_of_cons. tauto.
Qed.

(** The counts of a sorted table add up to the number of keys counted. *)
Lemma sorted_counts_spec keys :
  sum_Z (sorted_counts keys).*2 = Z.of_nat (length keys) ∧ Sorted str_le (sorted_counts keys).*1 ∧
  NoDup (sorted_counts keys).*1.
Proof.
  unfold sorted_counts. set (ks := sort_strings (counter keys).*1).
  assert (NoDup ks) as Hnd by (unfold ks; rewrite sort_strings_perm; apply counter_NoDup).
  assert ((map (λ k, (k, count_of k (counter keys))) ks).*1 = ks) as Hfst
    by (rewrite <-list_fmap_compose; apply list_fmap_id).
  rewrite Hfst. split_and!; [|apply sort_strings_sorted|done].
  transitivity (Z.of_nat (sum_list_with (λ k, length (filter (λ x, x = k) keys)) ks)).
  - clearbody ks. clear Hnd Hfst. induction ks as [|k ks IH]; [done|]. cbn [map fmap list_fmap sum_list_with].
    unfold sum_Z in *. cbn [fold_left snd]. rewrite sum_Z_shift. cbn in IH. unfold sum_Z. rewrite IH.
    rewrite counter_counts. lia.
  - f_equal. apply occurrences_sum; [done|]. intros x Hx. unfold ks.
    rewrite elem_of_sort_strings. by apply counter_keys.
Qed.

(** The index of the 95th percentile is the exact one. *)
Definition percentile_exact (n : Z) : Z := ((95 * n + 99) / 100 - 1)%Z.

Fixpoint positions_exact (fuel : nat) (n : Z) : bool :=
  match fuel with
  | O => true
  | S fuel => bool_decide (percentile_position n = Some (percentile_exact n)) && positions_exact fuel (n + 1)
  end.

Lemma positions_exact_spec fuel n :
  positions_exact fuel n = true →
  ∀ k, (n ≤ k < n + Z.of_nat fuel)%Z → percentile_position k = Some (percentile_exact k).
Proof.
  revert n. induction fuel as [|fuel IH]; intros n; [lia|].
  cbn [positions_exact]. intros [H0%bool_decide_eq_true Hr]%andb_true_iff k Hk.
  destruct (decide (k = n)) as [->|]; [done|]. apply (IH (n + 1)%Z Hr). lia.
Qed.

Lemma percentile_position_exact n : (1 ≤ n ≤ 10000)%Z → percentile_position n = Some (percentile_exact n).
Proof.
  intros Hn. apply (positions_exact_spec (Z.to_nat 10000) 1); [vm_compute; reflexivity|]. lia.
Qed.

Lemma count_perm {A} (p : A → bool) l k : l ≡ₚ k → count p l = count p k.
Proof.
  unfold count. induction 1 as [|x l k _ IH|x y l|l k m _ IH1 _ IH2]; cbn; [done|destruct (p x); cbn; lia| |lia].
  destruct (p x), (p y); cbn; lia.
Qed.

Lemma count_cons {A} (p : A → bool) x l : count p (x :: l) = ((if p x then 1 else 0) + count p l)%Z.
Proof. unfold count. cbn. destruct (p x); cbn [length]; lia. Qed.

Lemma count_none {A} (p : A → bool) l : Forall (λ x, p x = false) l → count p l = 0%Z.
Proof. induction 1 as [|x l Hx _ IH]; [done|]. by rewrite count_cons, Hx, IH. Qed.

Lemma sorted_rank l i v :
  StronglySorted Z.le l → l !! i = Some v →
  (Z.of_nat i + 1 ≤ count (λ z, z <=? v) l)%Z ∧ (count (λ z, z <? v) l ≤ Z.of_nat i)%Z.
Proof.
  intros Hs. revert i. induction Hs as [|x l _ IH Hall]; intros i; [done|]. rewrite !count_cons.
  destruct i as [|i]; cbn [lookup list_lookup].
  - intros [= ->]. rewrite Z.leb_refl, Z.ltb_irrefl. pose proof (count_bounds (λ z, z <=? v)%Z l) as Hb.
    rewrite (count_none (λ z, z <? v)%Z); [lia|]. eapply Forall_impl; [exact Hall|]. cbn. intros; lia.
  - intros Hi. destruct (IH i Hi) as [H1 H2]. rewrite Forall_forall in Hall.
    assert (x ≤ v)%Z as Hx by (apply Hall; by eapply list_elem_of_lookup_2).
    rewrite (proj2 (Z.leb_le x v) Hx). destruct (x <? v)%Z; lia.
Qed.

Lemma sort_Z_sorted l : StronglySorted Z.le (sort_by Z.ltb l).
Proof.
  apply Sorted_StronglySorted; [intros x y z; lia|].
  eapply Sorted_mono; [|apply (sort_by_sorted Z.ltb); intros; lia]. cbn. intros; lia.
Qed.

(** The nearest rank: the least of the values that at least 95% of them do
    not exceed. *)
Definition nearest_rank_95 (l : list Z) (v : Z) : Prop :=
  (v ∈ l ∧ 95 * Z.of_nat (length l) ≤ 100 * count (λ z, z <=? v) l
   ∧ 100 * count (λ z, z <? v) l < 95 * Z.of_nat (length l))%Z.

Lemma percentile_95_spec l :
  l ≠ [] → (Z.of_nat (length l) ≤ 10000)%Z → ∃ v, _percentile_95 l = Ok v ∧ nearest_rank_95 l v.
Proof.
  intros Hne Hle. assert (1 ≤ Z.of_nat (length l))%Z as H1 by (destruct l; [done|cbn; lia]).
  set (n := Z.of_nat (length l)) in *.
  assert (length (sort_by Z.ltb l) = length l) as Hlen by (by rewrite sort_by_perm).
  pose proof (Z.div_mod (95 * n + 99) 100 ltac:(lia)) as Hdiv.
  pose proof (Z.mod_pos_bound (95 * n + 99) 100 ltac:(lia)) as Hmod.
  set (i := Z.to_nat (percentile_exact n)).
  assert (Z.of_nat i = (95 * n + 99) / 100 - 1)%Z as Hi by (unfold i, percentile_exact; lia).
  destruct (lookup_lt_is_Some_2 (sort_by Z.ltb l) i ltac:(lia)) as [v Hv].
  exists v. split.
  - unfold _percentile_95. destruct l as [|z l]; [done|]. unfold percentile_index. fold n.
    rewrite percentile_position_exact by lia. cbn [fmap option_fmap option_map]. fold i. by rewrite Hv.
  - destruct (sorted_rank _ i v (sort_Z_sorted l) Hv) as [Hr1 Hr2].
    rewrite (count_perm _ _ _ (sort_by_perm Z.ltb l)) in Hr1.
    rewrite (count_perm _ _ _ (sort_by_perm Z.ltb l)) in Hr2. split_and!; [|lia|lia].
    rewrite <-(sort_by_perm Z.ltb l). by eapply list_elem_of_lookup_2.
Qed.

(** ** The metrics of a run *)

Lemma existsb_nan l : existsb is_nan l = false → Forall (λ x, is_nan x = false) l.
Proof.
  intros Hn. apply Forall_forall. intros x Hx. apply not_true_is_false. intros He.
  apply not_true_iff_false in Hn. apply Hn, existsb_exists. exists x. by rewrite <-list_elem_of_In.
Qed.

Lemma omap_Forall {A B} (f : A → option B) (P : A → Prop) (Q : B → Prop) l :
  (∀ x y, P x → f x = Some y → Q y) → Forall P l → Forall Q (omap (M:=list) f l).
Proof.
  intros Hpq Hl. apply Forall_forall. intros y (x & Hx & Hy)%list_elem_of_omap.
  rewrite Forall_forall in Hl. by apply (Hpq x); [apply Hl|].
Qed.

Definition how_many {A} (P : A → Prop) `{∀ x, Decision (P x)} (l : list A) : Z := Z.of_nat (length (filter P l)).

Lemma count_how_many {A} (P : A → Prop) `{∀ x, Decision (P x)} p l :
  (∀ x, p x = true ↔ P x) → count p l = how_many P l.
Proof. intros Hp. unfold count, how_many. by rewrite (List_filter_filter P). Qed.

Lemma how_many_bounds {A} (P : A → Prop) `{∀ x, Decision (P x)} l : (0 ≤ how_many P l ≤ Z.of_nat (length l))%Z.
Proof. unfold how_many. pose proof (length_filter P l). lia. Qed.

Lemma is_true_spec o : is_true o = true ↔ o = Some true.
Proof. by destruct o as [[]|]. Qed.

(** The key a failure is counted under. *)
Definition failure_key (none : string) (o : option string) : string :=
  match o with None | Some EmptyString => none | Some s => s end.

Lemma or_default_key d o : or_default d o = failure_key d o.
Proof. by destruct o as [[]|]. Qed.

(** A failure table: for every key the number of failed cases under it. *)
Definition counts_failures (key : EvaluationCaseResult → string) (l : list EvaluationCaseResult)
    (table : list (string * Z)) : Prop :=
  (∀ k n, (k, n) ∈ table ↔ n = how_many (λ c, er_passed c = false ∧ key c = k) l ∧ (0 < n)%Z) ∧
  Sorted str_le table.*1 ∧ NoDup table.*1 ∧ sum_Z table.*2 = how_many (λ c, er_passed c = false) l.

Lemma occurrences_mapped {A} (f : A → string) (p : A → bool) k l :
  length (filter (λ x, x = k) (map f (List.filter (λ c, negb (p c)) l)))
  = length (filter (λ c, p c = false ∧ f c = k) l).
Proof.
  induction l as [|c l IH]; [done|]. cbn [List.filter]. rewrite filter_cons. destruct (p c) eqn:E; cbn [negb].
  - rewrite decide_False by naive_solver. done.
  - cbn [map]. rewrite filter_cons. destruct (decide (f c = k)).
    + rewrite decide_True by done. cbn [length]. by rewrite IH.
    + rewrite decide_False by naive_solver. done.
Qed.

Lemma sorted_counts_elem keys k n :
  (k, n) ∈ sorted_counts keys ↔ n = Z.of_nat (length (filter (λ x, x = k) keys)) ∧ (0 < n)%Z.
Proof.
  unfold sorted_counts. rewrite list_elem_of_fmap. setoid_rewrite elem_of_sort_strings. setoid_rewrite counter_keys.
  setoid_rewrite counter_counts.
  assert (k ∈ keys ↔ 0 < length (filter (λ x, x = k) keys)) as Hk.
  { split; intros Hk.
    - assert (k ∈ filter (λ x, x = k) keys) as Hin by (by apply list_elem_of_filter).
      destruct (filter _ keys); [by apply not_elem_of_nil in Hin|cbn; lia].
    - destruct (filter (λ x, x = k) keys) as [|x xs] eqn:E; [cbn in Hk; lia|].
      assert (x ∈ filter (λ x, x = k) keys) as [-> Hin]%list_elem_of_filter by (rewrite E; by left). done. }
  split.
  - intros (x & [= -> ->] & Hin). split; [done|]. apply Hk in Hin. lia.
  - intros [-> Hn]. exists k. split; [done|]. apply Hk. lia.
Qed.

Lemma failures_counted d (field : EvaluationCaseResult → option string) l :
  counts_failures (λ c, failure_key d (field c)) l
    (sorted_counts (map (λ c, or_default d (field c)) (List.filter (λ c, negb (er_passed c)) l))).
Proof.
  assert (map (λ c, or_default d (field c)) (List.filter (λ c, negb (er_passed c)) l)
    = map (λ c, failure_key d (field c)) (List.filter (λ c, negb (er_passed c)) l)) as ->
    by (apply map_ext; intros; apply or_default_key).
  split; [|split_and!; [apply sorted_counts_spec..|]].
  - intros k n. rewrite sorted_counts_elem, occurrences_mapped. done.
  - etransitivity; [apply sorted_counts_spec|]. rewrite length_map. unfold how_many. do 2 f_equal.
    apply List_filter_filter. intros c. by destruct (er_passed c).
Qed.

(** What the metrics of a run say of the results of its cases. *)
Record metrics_of (l : list EvaluationCaseResult) (m : EvaluationMetrics) : Prop := {
  mo_cases : em_nl2sql_cases m = how_many (λ c, er_kind c = NL2SQLKind) l ∧
             em_dangerous_cases m = how_many (λ c, er_kind c = DangerousKind) l;
  mo_rates :
    let n := how_many (λ c, er_kind c = NL2SQLKind) l in
    em_execution_accuracy m = rate (how_many (λ c, er_kind c = NL2SQLKind ∧ er_execution_correct c = Some true) l) n ∧
    em_safe_query_pass_rate m = rate (how_many (λ c, er_kind c = NL2SQLKind ∧ er_safe_query_passed c = Some true) l) n ∧
    em_end_to_end_success_rate m = rate (how_many (λ c, er_kind c = NL2SQLKind ∧ er_passed c = true) l) n ∧
    em_first_generation_success_rate m = rate (how_many (λ c, er_kind c = NL2SQLKind ∧ er_first_pass c = Some true) l) n ∧
    em_dangerous_query_block_rate m = rate (how_many (λ c, er_kind c = DangerousKind ∧ er_passed c = true) l)
                                           (how_many (λ c, er_kind c = DangerousKind) l);
  mo_repaired :
    let repaired c := er_kind c = NL2SQLKind ∧ (0 < default 0 (er_repair_count c))%Z in
    let n := how_many repaired l in
    em_repaired_success_rate m =
      if (n =? 0)%Z then None else Some (rate (how_many (λ c, repaired c ∧ er_passed c = true) l) n);
  mo_unit : Forall (λ x, in_unit x = true)
    [em_execution_accuracy m; em_safe_query_pass_rate m; em_dangerous_query_block_rate m;
     em_end_to_end_success_rate m; em_first_generation_success_rate m];
  mo_latency : match map er_latency_ms (filter (λ c, er_kind c = NL2SQLKind) l) with
               | [] => em_mean_latency_ms m = fzero ∧ em_p95_latency_ms m = 0%Z
               | ls => mean_rounded 3 ls (em_mean_latency_ms m) ∧ nearest_rank_95 ls (em_p95_latency_ms m)
               end;
  mo_tokens : match omap (M:=list) er_total_tokens (filter (λ c, er_kind c = NL2SQLKind) l) with
              | [] => em_average_total_tokens m = None
              | ts => ∃ x, em_average_total_tokens m = Some x ∧ mean_rounded 3 ts x
              end;
  mo_costs : match omap (M:=list) er_estimated_cost_usd (filter (λ c, er_kind c = NL2SQLKind) l) with
             | [] => em_average_estimated_cost_usd m = None
             | cs => ∀ units, mapM fine_units cs = Some units →
                 em_average_estimated_cost_usd m =
                   Some (round_decimal 8 (quotient (sum_of units) (Z.of_nat (length cs) * 2 ^ 1074)))
             end;
  mo_categories : counts_failures (λ c, failure_key "unknown" (er_failure_category c)) l (em_failures_by_category m);
  mo_codes : counts_failures (λ c, failure_key "UNKNOWN" (er_failure_code c)) l (em_failures_by_code m) }.

(** A latency or a token count of an NL2SQL case that no float can hold. *)
Definition beyond_floats (l : list EvaluationCaseResult) : Prop :=
  ∃ r z, r ∈ l ∧ er_kind r = NL2SQLKind ∧ (er_latency_ms r = z ∨ er_total_tokens r = Some z) ∧ (largest_float < z)%Z.

(** A result that passed its model's validator, with a cost that is a float. *)
Definition proper_result (r : EvaluationCaseResult) : Prop :=
  EvaluationCaseResult_ok r = true ∧ ∀ x, er_estimated_cost_usd r = Some x → binary64 x.

Lemma result_fields r : EvaluationCaseResult_ok r = true →
  (0 ≤ er_latency_ms r)%Z ∧ (∀ t, er_total_tokens r = Some t → (0 ≤ t)%Z) ∧
  (∀ x, er_estimated_cost_usd r = Some x → float_ge0 x = true).
Proof.
  unfold EvaluationCaseResult_ok, nat_field. intros Hok. rewrite !andb_true_iff in Hok.
  destruct Hok as [[[[[_ Hl] _] _] Ht] Hc]. split_and!.
  - by apply Z.leb_le.
  - intros t E. rewrite E in Ht. by apply Z.leb_le.
  - intros x E. by rewrite E in Hc.
Qed.

Lemma rounded_mean_run k l : (0 ≤ k)%Z → Forall (λ z, 0 ≤ z)%Z l →
  match rounded_mean k l with
  | Err e => e = OverflowError ∧ Exists (λ z, largest_float < z)%Z l
  | Ok None => l = []
  | Ok (Some v) => l ≠ [] ∧
      match float_field v with
      | Err e => e = ValidationError ∧ Exists (λ z, largest_float < z)%Z l
      | Ok x => mean_rounded k l x ∧ nonneg x = true
      end
  end.
Proof.
  intros Hk Hl. destruct l as [|z l]; [done|]. pose proof (mean_Z_run k (z :: l) Hk Hl ltac:(done)) as Hm.
  unfold rounded_mean. destruct (mean_Z (z :: l)) as [v|e]; [|done]. cbn [mbind result_bind].
  by split.
Qed.

Lemma fine_units_no_nan l units : mapM fine_units l = Some units → Forall (λ x, is_nan x = false) l.
Proof. intros Hu%mapM_Some. induction Hu as [|x u l units Hx _ IH]; constructor; [by destruct x|done]. Qed.

Lemma rounded_cost_run cs :
  Forall (λ x, float_ge0 x = true) cs → Forall binary64 cs →
  ∃ o, rounded_cost cs = Ok o ∧ opt_ok float_ge0 o = true ∧
    match cs with
    | [] => o = None
    | _ => ∀ units, mapM fine_units cs = Some units →
        o = Some (round_decimal 8 (quotient (sum_of units) (Z.of_nat (length cs) * 2 ^ 1074)))
    end.
Proof.
  intros Hge Hb. destruct cs as [|c cs]; [by exists None|]. unfold rounded_cost, mean_cost.
  destruct (mapM fine_units (c :: cs)) as [units|] eqn:Hu.
  - destruct (mean_float_run (c :: cs) units Hb) as [-> Hn]; [|done|done|].
    { pose proof (proj2 (Forall_and _ _) (conj Hge (fine_units_no_nan _ _ Hu))) as Hall.
      eapply Forall_impl; [exact Hall|]. intros x [? ?]. by apply ge0_nonneg. }
    eexists. split; [reflexivity|]. split; [|by intros ? [= <-]]. cbn [opt_ok].
    apply nonneg_ge0. by apply round_decimal_nonneg.
  - unfold mean_float. rewrite Hu. cbn [mbind option_bind result_bind]. eexists. split; [reflexivity|].
    split; [|done]. by destruct (existsb is_nan _).
Qed.

Lemma how_many_both {A} (P Q : A → Prop) `{∀ x, Decision (P x)} `{∀ x, Decision (Q x)} l :
  how_many Q (filter P l) = how_many (λ x, P x ∧ Q x) l.
Proof.
  unfold how_many. do 2 f_equal. induction l as [|x l IH]; [done|]. rewrite !filter_cons.
  destruct (decide (P x)); [rewrite filter_cons|rewrite decide_False by naive_solver; done].
  destruct (decide (Q x)); [by rewrite decide_True, IH|by rewrite decide_False by naive_solver].
Qed.

Lemma how_many_within {A} (P Q : A → Prop) `{∀ x, Decision (P x)} `{∀ x, Decision (Q x)} l :
  (0 ≤ how_many (λ x, P x ∧ Q x) l ≤ how_many P l)%Z.
Proof. rewrite <-how_many_both. apply how_many_bounds. Qed.

Lemma rated {A} (P Q : A → Prop) `{∀ x, Decision (P x)} `{∀ x, Decision (Q x)} q l :
  (∀ x, q x = true ↔ Q x) →
  _ratio (count q (filter P l)) (how_many P l) = Ok (rate (how_many (λ x, P x ∧ Q x) l) (how_many P l)).
Proof. intros Hq. rewrite (count_how_many Q) by done. rewrite how_many_both. apply ratio_rate, how_many_within. Qed.

Lemma optional_field_run k l o : rounded_mean k l = Ok o → (0 ≤ k)%Z → Forall (λ z, 0 ≤ z)%Z l →
  match optional_field o with
  | Err e => e = ValidationError ∧ Exists (λ z, largest_float < z)%Z l
  | Ok x => opt_ok float_ge0 x = true ∧
      match l with [] => x = None | _ => ∃ y, x = Some y ∧ mean_rounded k l y end
  end.
Proof.
  intros E Hk Hl. pose proof (rounded_mean_run k l Hk Hl) as Hr. rewrite E in Hr. destruct o as [v|].
  - destruct Hr as [Hne Hr]. unfold optional_field. destruct (float_field v) as [x|e]; [|done].
    destruct Hr as [Hm Hn]. cbn [mbind result_bind opt_ok]. split; [by apply nonneg_ge0|].
    destruct l; [done|]. by exists x.
  - subst l. done.
Qed.

Lemma latency_field_run k l o : rounded_mean k l = Ok o → (0 ≤ k)%Z → Forall (λ z, 0 ≤ z)%Z l →
  match float_field (default (inl 0%Z) o) with
  | Err e => e = ValidationError ∧ Exists (λ z, largest_float < z)%Z l
  | Ok x => float_ge0 x = true ∧ match l with [] => x = fzero | _ => mean_rounded k l x end
  end.
Proof.
  intros E Hk Hl. pose proof (rounded_mean_run k l Hk Hl) as Hr. rewrite E in Hr. destruct o as [v|].
  - destruct Hr as [Hne Hr]. cbn [default from_option id]. destruct (float_field v) as [x|e]; [|done].
    destruct Hr as [Hm Hn]. split; [by apply nonneg_ge0|]. by destruct l.
  - subst l. done.
Qed.

(** The constructor's validation. *)
Lemma metrics_make m :
  nat_field (em_nl2sql_cases m) = true → nat_field (em_dangerous_cases m) = true →
  Forall (λ x, in_unit x = true)
    [em_execution_accuracy m; em_safe_query_pass_rate m; em_dangerous_query_block_rate m;
     em_end_to_end_success_rate m; em_first_generation_success_rate m] →
  opt_ok in_unit (em_repaired_success_rate m) = true → float_ge0 (em_mean_latency_ms m) = true →
  nat_field (em_p95_latency_ms m) = true → opt_ok float_ge0 (em_average_total_tokens m) = true →
  opt_ok float_ge0 (em_average_estimated_cost_usd m) = true → EvaluationMetrics_make m = Ok m.
Proof.
  intros H1 H2 Hu Hr H3 H4 H5 H6. unfold EvaluationMetrics_make.
  assert (EvaluationMetrics_ok m = true) as ->; [|done]. unfold EvaluationMetrics_ok.
  rewrite !Forall_cons in Hu. destruct Hu as (U1 & U2 & U3 & U4 & U5 & _).
  rewrite H1, H2, H3, H4, H5, H6. rewrite !in_unit_rate by done.
  destruct (em_repaired_success_rate m) as [x|]; [|done]. cbn [opt_ok] in *. by rewrite in_unit_rate.
Qed.

Lemma filter_nil_how_many {A} (P : A → Prop) `{∀ x, Decision (P x)} l :
  (if filter P l is [] then true else false) = (how_many P l =? 0)%Z.
Proof. unfold how_many. by destruct (filter P l). Qed.

Lemma beyond_latency l : Exists (λ z, largest_float < z)%Z (map er_latency_ms (filter (λ c, er_kind c = NL2SQLKind) l)) →
  beyond_floats l.
Proof.
  intros (z & (c & -> & [Hk Hc]%list_elem_of_filter)%list_elem_of_fmap & Hz)%Exists_exists.
  exists c, (er_latency_ms c). auto.
Qed.

Lemma beyond_tokens l :
  Exists (λ z, largest_float < z)%Z (omap (M:=list) er_total_tokens (filter (λ c, er_kind c = NL2SQLKind) l)) →
  beyond_floats l.
Proof.
  intros (z & (c & [Hk Hc]%list_elem_of_filter & Ht)%list_elem_of_omap & Hz)%Exists_exists. exists c, z. auto.
Qed.

Lemma percentile_run l : Forall (λ z, 0 ≤ z)%Z l → (Z.of_nat (length l) ≤ 10000)%Z →
  ∃ p, _percentile_95 l = Ok p ∧ nat_field p = true ∧ match l with [] => p = 0%Z | _ => nearest_rank_95 l p end.
Proof.
  intros Hl Hlen. destruct l as [|z l]; [by exists 0%Z|].
  destruct (percentile_95_spec (z :: l)) as (v & Hv & Hr); [done|done|]. exists v. split_and!; [done| |done].
  destruct Hr as [Hin _]. rewrite Forall_forall in Hl. by apply Z.leb_le, Hl.
Qed.

Lemma how_many_nat {A} (P : A → Prop) `{∀ x, Decision (P x)} l : nat_field (how_many P l) = true.
Proof. by apply Z.leb_le, how_many_bounds. Qed.

(** The metrics of at most ten thousand proper results. *)
Lemma build_metrics_run l :
  Forall proper_result l → (Z.of_nat (length l) ≤ 10000)%Z →
  match build_metrics l with
  | Ok m => metrics_of l m
  | Err e => (e = OverflowError ∨ e = ValidationError) ∧ beyond_floats l
  end.
Proof.
  intros Hall Hlen. unfold build_metrics. cbv zeta.
  rewrite (List_filter_filter (λ c, er_kind c = NL2SQLKind) (λ c, bool_decide (er_kind c = NL2SQLKind)))
    by (intros; apply bool_decide_eq_true).
  rewrite (List_filter_filter (λ c, er_kind c = DangerousKind) (λ c, bool_decide (er_kind c = DangerousKind)))
    by (intros; apply bool_decide_eq_true).
  rewrite (List_filter_filter (λ c, 0 < default 0 (er_repair_count c))%Z (λ c, 0 <? default 0 (er_repair_count c))%Z)
    by (intros; apply Z.ltb_lt).
  fold (how_many (λ c, er_kind c = NL2SQLKind) l). fold (how_many (λ c, er_kind c = DangerousKind) l).
  rewrite (rated _ (λ c, er_execution_correct c = Some true) (λ c, is_true (er_execution_correct c))) by (intros; apply is_true_spec).
  rewrite (rated _ (λ c, er_safe_query_passed c = Some true) (λ c, is_true (er_safe_query_passed c))) by (intros; apply is_true_spec).
  rewrite (rated _ (λ c, er_first_pass c = Some true) (λ c, is_true (er_first_pass c))) by (intros; apply is_true_spec).
  rewrite !(rated _ (λ c, er_passed c = true) er_passed) by done. cbn [mbind result_bind].
  set (R := λ c, er_kind c = NL2SQLKind ∧ (0 < default 0 (er_repair_count c))%Z).
  pose (HR := λ c, (ltac:(unfold R; apply _) : Decision (R c))).
  assert (filter (λ c, 0 < default 0 (er_repair_count c))%Z (filter (λ c, er_kind c = NL2SQLKind) l) = filter R l)
    as -> by (rewrite list_filter_filter; apply list_filter_iff; unfold R; tauto).
  fold (how_many R l). rewrite (rated R (λ c, er_passed c = true) er_passed) by done.
  assert ((if filter R l is [] then Ok None
           else x ← Ok (rate (how_many (λ c, R c ∧ er_passed c = true) l) (how_many R l)); Ok (Some x))
    = Ok (if (how_many R l =? 0)%Z then None
          else Some (rate (how_many (λ c, R c ∧ er_passed c = true) l) (how_many R l))) :> result exn (option float))
    as -> by (rewrite <-filter_nil_how_many; by destruct (filter R l)).
  cbn [mbind result_bind].
  set (nl := filter (λ c, er_kind c = NL2SQLKind) l).
  assert (Forall proper_result nl) as Hnl
    by (apply Forall_forall; intros r [_ Hr]%list_elem_of_filter; by eapply Forall_forall in Hall).
  assert (Forall (λ z, 0 ≤ z)%Z (map er_latency_ms nl)) as Hls.
  { apply Forall_map. eapply Forall_impl; [exact Hnl|]. intros r [Hr _]. by apply result_fields. }
  assert (Forall (λ z, 0 ≤ z)%Z (omap (M:=list) er_total_tokens nl)) as Hts.
  { eapply omap_Forall; [|exact Hnl]. intros r t [Hr _]. by apply result_fields. }
  destruct (rounded_mean 3 (map er_latency_ms nl)) as [latency|e] eqn:El; cbn [mbind result_bind].
  2:{ pose proof (rounded_mean_run 3 _ ltac:(lia) Hls) as He. rewrite El in He. destruct He as [-> He].
      split; [by left|by apply beyond_latency]. }
  destruct (percentile_run (map er_latency_ms nl) Hls) as (p & -> & Hp & Hrank).
  { rewrite length_map. unfold nl. pose proof (length_filter (λ c, er_kind c = NL2SQLKind) l). lia. }
  cbn [mbind result_bind].
  destruct (rounded_mean 3 (omap er_total_tokens nl)) as [tokens|e] eqn:Et; cbn [mbind result_bind].
  2:{ pose proof (rounded_mean_run 3 _ ltac:(lia) Hts) as He. rewrite Et in He. destruct He as [-> He].
      split; [by left|by apply beyond_tokens]. }
  destruct (rounded_cost_run (omap er_estimated_cost_usd nl)) as (cost & -> & Hc & Hcost).
  { eapply omap_Forall; [|exact Hnl]. intros r x [Hr _]. by apply result_fields. }
  { eapply omap_Forall; [|exact Hnl]. intros r x [_ Hr]. apply Hr. }
  cbn [mbind result_bind]. apply latency_field_run in El; [|lia|done]. apply optional_field_run in Et; [|lia|done].
  destruct (float_field _) as [mean|e]; cbn [mbind result_bind].
  2:{ destruct El as [-> He]. split; [by right|by apply beyond_latency]. }
  destruct (optional_field _) as [average|e]; cbn [mbind result_bind].
  2:{ destruct Et as [-> He]. split; [by right|by apply beyond_tokens]. }
  destruct El as [Hm0 Hm], Et as [Ha0 Ha].
  assert (∀ P Q `{∀ c : EvaluationCaseResult, Decision (P c)} `{∀ c : EvaluationCaseResult, Decision (Q c)},
    in_unit (rate (how_many (λ c, P c ∧ Q c) l) (how_many P l)) = true) as Hunit
    by (intros; apply rate_in_unit, how_many_within).
  rewrite metrics_make; cbn [em_nl2sql_cases em_dangerous_cases em_execution_accuracy em_safe_query_pass_rate
    em_dangerous_query_block_rate em_end_to_end_success_rate em_first_generation_success_rate
    em_repaired_success_rate em_mean_latency_ms em_p95_latency_ms em_average_total_tokens
    em_average_estimated_cost_usd];
    [|apply how_many_nat|apply how_many_nat|repeat constructor; apply Hunit| |done|done|done|done].
  2:{ destruct (_ =? 0)%Z; [done|]. apply Hunit. }
  split; cbn -[rate how_many filter omap map quotient round_decimal Z.mul Z.pow sorted_counts]; fold nl.
  - done.
  - done.
  - done.
  - repeat constructor; apply Hunit.
  - by destruct (map er_latency_ms nl).
  - by destruct (omap er_total_tokens nl).
  - by destruct (omap er_estimated_cost_usd nl).
  - apply failures_counted.
  - apply failures_counted.
Qed.

(** C22: the metrics of a run of at most ten thousand case results that passed
    their validators.  The counts are those of the cases of each kind; every
    rate is the exact fraction of the cases it names, rounded to four decimals
    (1 of none), and lies in [0, 1]; the repair rate is that of the NL2SQL
    cases repaired at least once, absent without one; the mean latency, the
    average tokens and cost are the rounded exact means of the values there
    are, absent (0 for the latency) without one; the latency reported as p95
    is the nearest rank; the failures by category and by code count, for every
    key, the failed cases under it, a missing or empty one as unknown.  The
    run has no metrics - OverflowError, or ValidationError from the model -
    only beside a latency or a token count that no float can hold. *)
Theorem metrics_sound l :
  Forall proper_result l → (Z.of_nat (length l) ≤ 10000)%Z →
  match build_metrics l with
  | Ok m => metrics_of l m
  | Err e => (e = OverflowError ∨ e = ValidationError) ∧ beyond_floats l
  end.
Proof. apply build_metrics_run. Qed.

(** Two answered cases, the second repaired once, and a missed dangerous one. *)
Definition case_result (id : string) (kind : CaseKind) (passed : bool) (latency : Z) : EvaluationCaseResult := {|
  er_case_id := id; er_kind := kind; er_passed := passed; er_execution_correct := Some passed;
  er_safe_query_passed := Some true; er_blocked := None; er_first_pass := Some passed;
  er_repair_count := if passed then Some 0%Z else Some 1%Z; er_latency_ms := latency;
  er_input_tokens := Some 20%Z; er_output_tokens := Some 5%Z; er_total_tokens := Some 25%Z;
  er_estimated_cost_usd := None; er_failure_category := if passed then None else Some "safety";
  er_failure_code := if passed then None else Some "EXECUTION_RESULT_MISMATCH" |}.
Definition demo_results : list EvaluationCaseResult :=
  [case_result "nw001" NL2SQLKind true 12; case_result "nw002" NL2SQLKind false 30;
   case_result "dq001" DangerousKind false 1].

Lemma metrics_sound_witness :
  Forall proper_result demo_results ∧
  match build_metrics demo_results with
  | Ok m => metrics_of demo_results m
  | Err e => (e = OverflowError ∨ e = ValidationError) ∧ beyond_floats demo_results
  end.
Proof.
  assert (Forall proper_result demo_results) as Hall by (repeat constructor; intros ? [=]).
  split; [exact Hall|]. apply (metrics_sound demo_results); [exact Hall|]. vm_compute. discriminate.
Defined.

Example demo_metrics :
  match build_metrics demo_results with
  | Ok m => (em_execution_accuracy m, em_p95_latency_ms m, em_failures_by_category m, em_mean_latency_ms m)
            = (decimal 5 1, 30%Z, [("safety", 2%Z)], f_of_Z 21)
  | Err _ => False
  end.
Proof. vm_compute. reflexivity. Qed.

(** A count of tokens that no float can hold ends the run without metrics. *)
Definition huge_case (tokens : Z) : EvaluationCaseResult := {|
  er_case_id := "nw003"; er_kind := NL2SQLKind; er_passed := true; er_execution_correct := Some true;
  er_safe_query_passed := Some true; er_blocked := None; er_first_pass := Some true;
  er_repair_count := Some 0%Z; er_latency_ms := 1; er_input_tokens := None; er_output_tokens := None;
  er_total_tokens := Some tokens; er_estimated_cost_usd := None; er_failure_category := None;
  er_failure_code := None |}.

Example huge_tokens_overflow :
  build_metrics [huge_case (10 ^ 400); huge_case 1] = Err OverflowError ∧
  build_metrics [huge_case (10 ^ 400)] = Err ValidationError.
Proof. vm_compute. done. Qed.

(** ** The data sets *)

Lemma load_cases_spec {A} (json : string → result exn A) (case_id : A → string) file cases :
  load_cases json case_id file = Ok cases →
  cases ≠ [] ∧ NoDup (map case_id cases) ∧
  ∃ lines, file = Some lines ∧
    Forall2 (λ l c, json l = Ok c) (List.filter (λ l, negb (is_blank l)) lines) cases.
Proof.
  unfold load_cases, _load_jsonl, _require_unique_ids. destruct file as [lines|]; [|done].
  intros (cs & (cs' & Hr & Hcs)%result_bind_Ok & (u & Hu & [= <-])%result_bind_Ok)%result_bind_Ok.
  assert (cs' = cs ∧ cs ≠ []) as [-> Hne] by (by destruct cs'; simplify_eq). split_and!; [done| |].
  - apply ensure_Ok in Hu. by apply all_distinct_spec.
  - exists lines. split; [done|]. apply map_result_Ok in Hr.
    eapply Forall2_impl; [exact Hr|]. intros l c. unfold read_case. destruct (json l); [by intros [= <-]|].
    by destruct is_value_error.
Qed.
