(* ===== verification/EvaluationRunner.v ===== *)
(** * The evaluation run: [app/evaluation/runner.py]

    The run over the cases of a data set with one gold execution and one
    answer per case, the classification of failures and the scripted replies.
    The gold service and the answering service are an interface; sqlglot's
    table references are a function of the model. *)

From S2P Require Import Prelude PyStr Floats Errors Json Metadata Policy DataSources SafeQuery StructuredLLM Executor.
From S2P Require Import QuestionGuard NL2SQL Numbers Embeddings KnowledgeRepository JsonText Utf8 PyText Decimal FloatText Rounding Evaluation.

(** ** runner.py: failures and prices *)

Section Failures.
Context `{PyUnicode}.

Definition class_upper (e : exn) : string := upper (class_name e).

(** [str(reason or code or class name)]. *)
Definition _error_code (e : exn) : string :=
  match truthy (reason_code e) with
  | Some r => r
  | None => match truthy (code e) with Some c => c | None => class_upper e end
  end.

(** Every class with a code attribute has it. *)
Definition own_code (e : exn) : string := default EmptyString (code e).

Definition _classify_failure (e : exn) : string * string :=
  if is_llm_error e then ("model", own_code e)
  else match e with
  | SchemaSelectionError => ("schema_selection", own_code e)
  | NL2SQLRepairExhaustedError last => ("execution", own_code e +:+ ":" +:+ last)
  | NL2SQLPolicyError reason => ("safety", reason)
  | QueryExecutionError => ("execution", own_code e)
  | _ => if is_query_safety_error e then ("safety", _error_code e)
         else if is_nl2sql_error e then ("unknown", own_code e)
         else ("unknown", class_upper e)
  end.
End Failures.

(** A count that no float can hold raises OverflowError in the product. *)
Definition _estimated_cost (input_tokens output_tokens : option Z) (input_price output_price : option float) :
    result exn (option float) :=
  match input_tokens, output_tokens, input_price, output_price with
  | Some i, Some o, Some pi, Some po =>
      i ← float_of_int i;
      o ← float_of_int o;
      Ok (Some (round_decimal 8 (fadd (fdiv (fmul i pi) (f_of_Z 1000000))
                                      (fdiv (fmul o po) (f_of_Z 1000000)))))
  | _, _, _, _ => Ok None
  end.

Definition _validate_pricing (input_price output_price : option float) : result exn unit :=
  match input_price, output_price with
  | None, None => Ok tt
  | Some i, Some o => if fltb i fzero || fltb o fzero then Err ValueError else Ok tt
  | _, _ => Err ValueError
  end.

Definition trace_of (case_id : string) : string :=
  encode (take 64 (cps ("p10_" +:+ encode (List.filter (λ c, negb (c =? 95)%N) (cps case_id))
                        +:+ "_1234567890abcdef"))).

(** ** runner.py: the scripted replies *)

(** [parse_one(sql)]: the names of the CTEs and of the tables it finds. *)
Definition parsed_tables : Type := string → result exn (list string * list string).

Definition _selected_tables (parse : parsed_tables) (sql : string) : result exn (list string) :=
  '(ctes, found) ← parse sql; Ok (fromkeys (List.filter (λ t, negb (mem t ctes)) found)).

Definition draft_reply (c : NL2SQLGoldCase) (names : list string) : pyval :=
  PDict [("analysis_plan",
          PDict [("summary", PStr "Execute the deterministic P10 gold replay.");
                 ("steps", str_list ["Read approved tables"; "Return the expected result"]);
                 ("expected_columns", str_list (gc_expected_columns c))]);
         ("tables_used", str_list names); ("sql", PStr (gc_gold_sql c))].

Definition case_responses (parse : parsed_tables) (c : NL2SQLGoldCase) : result exn (list string) :=
  names ← _selected_tables parse (gc_gold_sql c);
  Ok [dumps_ascii (PDict [("tables", str_list names)]); dumps_ascii (draft_reply c names)].

Definition _scripted_responses (parse : parsed_tables) (cases : list NL2SQLGoldCase) :
    result exn (list string) :=
  replies ← map_result (case_responses parse) cases; Ok (List.concat replies).

(** ** runner.py: the run *)

(** The client the answering service uses. *)
Inductive llm_choice :=
| Scripted (responses : list string)
| Configured.

Class EvalEnv (W : Type) := {
  use_client : llm_choice → W → W;
  gold_execute : string → string → QueryPolicy → op W exn QueryExecutionResult;
  answer_question : string → string → QueryPolicy → op W exn NL2SQLResult;
  clock_ns : W → W * Z
}.

Inductive eval_call :=
| CallClient (c : llm_choice)
| CallGold (sql : string) (reply : result exn QueryExecutionResult)
| CallAnswer (question : string) (reply : result exn NL2SQLResult).

Section Runner.
Context `{PyUnicode} {W : Type} `{EvalEnv W}.
Notation M := (eff W eval_call exn).

Definition _elapsed_ms (started : Z) : M Z :=
  now ← silent clock_ns; mret (Z.max 0 ((now - started) / 1000000)).

Definition failed_result (case_id category code : string) (latency : Z) : EvaluationCaseResult := {|
  er_case_id := case_id; er_kind := NL2SQLKind; er_passed := false; er_execution_correct := Some false;
  er_safe_query_passed := Some false; er_blocked := None; er_first_pass := Some false;
  er_repair_count := None; er_latency_ms := latency; er_input_tokens := None; er_output_tokens := None;
  er_total_tokens := None; er_estimated_cost_usd := None; er_failure_category := Some category;
  er_failure_code := Some code |}.

Definition _failed_case (case_id : string) (started : Z) (category code : string) : M EvaluationCaseResult :=
  latency ← _elapsed_ms started;
  lift_result (EvaluationCaseResult_make (failed_result case_id category code latency)).

Definition attempted {A} (m : M A) : M (result exn A) :=
  try_except (a ← m; mret (Ok a)) (λ e, mret (Err e)).

Definition compared_case (c : NL2SQLGoldCase) (candidate : NL2SQLResult) (expected : QueryExecutionResult)
    (cost : option float) (latency : Z) : EvaluationCaseResult :=
  let correct := execution_results_match (outcome_result (res_outcome candidate)) expected in
  let u := res_usage candidate in
  {| er_case_id := gc_id c; er_kind := NL2SQLKind; er_passed := correct;
     er_execution_correct := Some correct; er_safe_query_passed := Some true; er_blocked := None;
     er_first_pass := Some (correct && (repair_count candidate =? 0)%Z);
     er_repair_count := Some (repair_count candidate); er_latency_ms := latency;
     er_input_tokens := StructuredLLM.input_tokens u; er_output_tokens := StructuredLLM.output_tokens u;
     er_total_tokens := StructuredLLM.total_tokens u; er_estimated_cost_usd := cost;
     er_failure_category := if correct then None else Some "result_mismatch";
     er_failure_code := if correct then None else Some "EXECUTION_RESULT_MISMATCH" |}.

Definition _evaluate_nl2sql_case (input_price output_price : option float) (policy : QueryPolicy)
    (c : NL2SQLGoldCase) : M EvaluationCaseResult :=
  started ← silent clock_ns;
  expected ← attempted (observe (CallGold (gc_gold_sql c))
                          (gold_execute (gc_gold_sql c) (trace_of ("gold_" +:+ gc_id c)) policy));
  match expected with
  | Err e => _failed_case (gc_id c) started "dataset" (_error_code e)
  | Ok expected =>
      candidate ← attempted (observe (CallAnswer (gc_question c))
                               (answer_question (gc_question c) (trace_of (gc_id c)) policy));
      match candidate with
      | Err e => let '(category, code) := _classify_failure e in _failed_case (gc_id c) started category code
      | Ok candidate =>
          latency ← _elapsed_ms started;
          let u := res_usage candidate in
          cost ← lift_result (_estimated_cost (StructuredLLM.input_tokens u) (StructuredLLM.output_tokens u)
                                input_price output_price);
          lift_result (EvaluationCaseResult_make (compared_case c candidate expected cost latency))
      end
  end.

Definition dangerous_result (c : DangerousQuestionCase) (passed blocked : bool) (code : option string)
    (latency : Z) : EvaluationCaseResult := {|
  er_case_id := dc_id c; er_kind := DangerousKind; er_passed := passed; er_execution_correct := None;
  er_safe_query_passed := None; er_blocked := Some blocked; er_first_pass := None; er_repair_count := None;
  er_latency_ms := latency; er_input_tokens := None; er_output_tokens := None; er_total_tokens := None;
  er_estimated_cost_usd := None; er_failure_category := if passed then None else Some "safety";
  er_failure_code := code |}.

Definition _evaluate_dangerous_case (c : DangerousQuestionCase) : M EvaluationCaseResult :=
  started ← silent clock_ns;
  match QuestionGuard.inspect (dc_question c) with
  | Err (NL2SQLPolicyError reason) =>
      let correct := String.eqb reason (dc_expected_reason_code c) in
      latency ← _elapsed_ms started;
      lift_result (EvaluationCaseResult_make (dangerous_result c correct true
        (if correct then None
         else Some ("EXPECTED_" +:+ dc_expected_reason_code c +:+ "_GOT_" +:+ reason)) latency))
  | Err e => raise e
  | Ok _ =>
      latency ← _elapsed_ms started;
      lift_result (EvaluationCaseResult_make
        (dangerous_result c false false (Some "DANGEROUS_QUESTION_NOT_BLOCKED") latency))
  end.

(** The cases one after the other. *)
Fixpoint evaluate_all {A} (evaluate : A → M EvaluationCaseResult) (cases : list A) :
    M (list EvaluationCaseResult) :=
  match cases with
  | [] => mret []
  | c :: cases => r ← evaluate c; rs ← evaluate_all evaluate cases; mret (r :: rs)
  end.

Record P10EvaluationReport := {
  rp_dataset_version : string; rp_mode : EvaluationMode; rp_real_model_evaluation : bool;
  rp_provider : string; rp_model : string; rp_metrics : EvaluationMetrics;
  rp_cases : list EvaluationCaseResult; rp_limitations : list string }.

Definition limitations (real_model : bool) : list string :=
  [if real_model then "The evaluation is sequential and its latency is not a concurrent load-test result."
   else "NL2SQL candidates replay gold SQL through the production guard and read-only executor; this proves the evaluation pipeline, not real-model quality.";
   "RAG uses deterministic hashing embeddings and a compact project-owned corpus.";
   "Estimated model cost is null unless explicit input and output prices are supplied."].

(** The client of the run, with the names of its provider and model;
    [configured] is whether a client was passed. *)
Definition choose_client (parse : parsed_tables) (cases : list NL2SQLGoldCase) (mode : EvaluationMode)
    (configured : bool) (provider model : option string) : result exn (llm_choice * string * string) :=
  match mode with
  | ScriptedGoldReplay =>
      responses ← _scripted_responses parse cases; Ok (Scripted responses, "fake", "gold-replay-v1")
  | ConfiguredModel =>
      match configured, truthy provider, truthy model with
      | true, Some p, Some m => Ok (Configured, p, m)
      | _, _, _ => Err ValueError
      end
  end.

Definition is_configured (mode : EvaluationMode) : bool :=
  match mode with ConfiguredModel => true | ScriptedGoldReplay => false end.

Definition evaluate_p10 (parse : parsed_tables) (cases : list NL2SQLGoldCase)
    (dangerous_cases : list DangerousQuestionCase) (snapshot : SchemaSnapshot) (dataset_version : string)
    (mode : EvaluationMode) (configured : bool) (provider model : option string)
    (input_price output_price : option float) : M P10EvaluationReport :=
  _ ← lift_result (_validate_pricing input_price output_price);
  '(client, provider, model) ← lift_result (choose_client parse cases mode configured provider model);
  _ ← log_call (CallClient client);
  _ ← silent (λ w, (use_client client w, tt));
  policy ← lift_result (from_snapshot snapshot default_limits);
  answered ← evaluate_all (_evaluate_nl2sql_case input_price output_price policy) cases;
  blocked ← evaluate_all _evaluate_dangerous_case dangerous_cases;
  metrics ← lift_result (build_metrics (answered ++ blocked));
  mret {| rp_dataset_version := dataset_version; rp_mode := mode;
          rp_real_model_evaluation := is_configured mode; rp_provider := provider; rp_model := model;
          rp_metrics := metrics; rp_cases := answered ++ blocked;
          rp_limitations := limitations (is_configured mode) |}.
End Runner.

(** ** Prices *)

Lemma ge0_mul a b : float_ge0 a = true → float_ge0 b = true → float_ge0 (fmul a b) = true.
Proof.
  destruct a as [[]|[]| |[] m e], b as [[]|[]| |[] m' e']; try done; intros _ _.
  all: apply nonneg_ge0; unfold fmul; cbn [SpecFloat.SFmul xorb]; by apply binary_round_aux_nonneg.
Qed.

Lemma ge0_div a p e :
  float_ge0 a = true → float_ge0 (fdiv a (SpecFloat.S754_finite false p e)) = true.
Proof.
  destruct a as [[]|[]| |[] m e']; try done; intros _.
  unfold fdiv. cbn [SpecFloat.SFdiv xorb]. unfold SpecFloat.SFdiv_core_binary.
  match goal with |- context [Z.div_eucl ?x ?y] =>
    assert (0 ≤ (Z.div_eucl x y).1)%Z as Hq; [|destruct (Z.div_eucl x y) as [q r]] end.
  - apply (Z.div_pos _ (Zpos p)); [|lia].
    match goal with |- (0 ≤ match ?k with _ => _ end)%Z => destruct k end; [lia| |lia].
    apply Z.shiftl_nonneg. lia.
  - by apply nonneg_ge0, binary_round_aux_nonneg.
Qed.

Lemma ge0_add a b : float_ge0 a = true → float_ge0 b = true → float_ge0 (fadd a b) = true.
Proof.
  destruct a as [[]|[]| |[] m e], b as [[]|[]| |[] m' e']; try done; intros _ _.
  apply nonneg_ge0, binary_normalize_nonneg. unfold SpecFloat.shl_align.
  cbn [SpecFloat.cond_Zopp]. lia.
Qed.

Lemma tokens_ge0 z x : (0 ≤ z)%Z → float_of_int z = Ok x → float_ge0 x = true.
Proof.
  intros Hz E. pose proof (true_div_cases z 1 Hz ltac:(lia)) as Ht. unfold float_of_int in E. rewrite E in Ht.
  subst x. apply nonneg_ge0, quotient_nonneg; lia.
Qed.

Lemma round_ge0 k x : (0 ≤ k)%Z → float_ge0 x = true → float_ge0 (round_decimal k x) = true.
Proof.
  intros Hk Hx. destruct (is_nan x) eqn:En; [by destruct x|].
  by apply nonneg_ge0, round_decimal_nonneg, ge0_nonneg.
Qed.

(** The cost of the tokens: the prices are per million. *)
Definition priced_at (i o : option Z) (ip op : option float) (cost : option float) : Prop :=
  match i, o, ip, op with
  | Some i, Some o, Some ip, Some op =>
      ∃ fi fo, float_of_int i = Ok fi ∧ float_of_int o = Ok fo ∧
        cost = Some (round_decimal 8 (fadd (fdiv (fmul fi ip) (f_of_Z 1000000))
                                           (fdiv (fmul fo op) (f_of_Z 1000000))))
  | _, _, _, _ => cost = None
  end.

(** Prices that are given are given together, neither below zero. *)
Definition prices_accepted (ip op : option float) : Prop :=
  match ip, op with
  | None, None => True
  | Some i, Some o => fltb i fzero = false ∧ fltb o fzero = false
  | _, _ => False
  end.

Lemma pricing_spec ip op :
  match _validate_pricing ip op with
  | Ok _ => prices_accepted ip op
  | Err e => e = ValueError ∧ ¬ prices_accepted ip op
  end.
Proof.
  destruct ip as [i|], op as [o|]; try done; try (by split; [|tauto]).
  unfold _validate_pricing, prices_accepted. destruct (fltb i fzero); [by split; [|intros []]|].
  destruct (fltb o fzero); [by split; [|intros []]|done].
Qed.

Lemma estimated_cost_run i o ip op :
  prices_accepted ip op → opt_ok nat_field i = true → opt_ok nat_field o = true →
  match _estimated_cost i o ip op with
  | Ok cost => priced_at i o ip op cost ∧ opt_ok float_ge0 cost = true ∧ (∀ x, cost = Some x → binary64 x)
  | Err e => e = OverflowError ∧ ∃ z, (i = Some z ∨ o = Some z) ∧ (largest_float < z)%Z
  end.
Proof.
  intros Hp Hi Ho. destruct i as [i|], o as [o|], ip as [ip|], op as [op|]; try by split_and!.
  cbn [prices_accepted opt_ok] in *. apply Z.leb_le in Hi, Ho. destruct Hp as [Hip Hop]. unfold _estimated_cost.
  pose proof (true_div_cases i 1 Hi ltac:(lia)) as Hti. pose proof (true_div_cases o 1 Ho ltac:(lia)) as Hto.
  change (true_div i 1) with (float_of_int i) in Hti. change (true_div o 1) with (float_of_int o) in Hto.
  destruct (float_of_int i) as [fi|e] eqn:Ei; cbn [mbind result_bind].
  2:{ destruct Hti as [-> Hti]. split; [done|]. exists i. split; [by left|lia]. }
  destruct (float_of_int o) as [fo|e] eqn:Eo; cbn [mbind result_bind].
  2:{ destruct Hto as [-> Hto]. split; [done|]. exists o. split; [by right|lia]. }
  assert (∃ p e, f_of_Z 1000000 = SpecFloat.S754_finite false p e) as (p & e & Hmillion)
    by (eexists _, _; vm_compute; reflexivity).
  split_and!.
  - exists fi, fo. by rewrite Ei, Eo.
  - cbn [opt_ok]. rewrite Hmillion. apply round_ge0; [lia|].
    apply ge0_add; apply ge0_div, ge0_mul; try (eapply tokens_ge0; [|eassumption]; done); unfold float_ge0; by rewrite ?Hip, ?Hop.
  - intros x [= <-]. apply round_decimal_64.
Qed.

(** ** One case *)

Definition valid_usage (u : LLMTokenUsage) : bool :=
  opt_ok nat_field (StructuredLLM.input_tokens u) && opt_ok nat_field (StructuredLLM.output_tokens u)
  && opt_ok nat_field (StructuredLLM.total_tokens u).
Definition valid_answer (r : NL2SQLResult) : bool := within 0 (repair_count r) 2 && valid_usage (res_usage r).

Lemma compared_case_proper c r expected cost latency :
  valid_answer r = true → (0 ≤ latency)%Z → opt_ok float_ge0 cost = true → (∀ x, cost = Some x → binary64 x) →
  EvaluationCaseResult_ok (compared_case c r expected cost latency) = true ∧
  proper_result (compared_case c r expected cost latency).
Proof.
  unfold valid_answer, valid_usage. rewrite !andb_true_iff. intros (Hr & (Hi & Ho) & Ht) Hl Hc Hb.
  assert (EvaluationCaseResult_ok (compared_case c r expected cost latency) = true) as Hok; [|by repeat split].
  unfold EvaluationCaseResult_ok. cbn -[within]. rewrite !andb_true_iff. split_and!; try done. by apply Z.leb_le.
Qed.

(** The name a failure of the gold query is reported under: its reason, else
    its code, else its class. *)
Inductive named `{PyUnicode} (e : exn) : string → Prop :=
| ByReason r : reason_code e = Some r → r ≠ EmptyString → named e r
| ByCode c : (∀ r, reason_code e = Some r → r = EmptyString) → code e = Some c → named e c
| ByClass : reason_code e = None → code e = None → named e (upper (class_name e)).

(** The category and the code of a failed answer. *)
Inductive classified `{PyUnicode} : exn → string → string → Prop :=
| ModelFailed e c : is_llm_error e = true → code e = Some c → classified e "model" c
| NotSelected : classified SchemaSelectionError "schema_selection" "NL2SQL_SCHEMA_SELECTION_FAILED"
| NotRepaired last : classified (NL2SQLRepairExhaustedError last) "execution" ("NL2SQL_REPAIR_EXHAUSTED:" +:+ last)
| QuestionRefused reason : classified (NL2SQLPolicyError reason) "safety" reason
| NotExecuted : classified QueryExecutionError "execution" "QUERY_EXECUTION_FAILED"
| NotSafe e c : is_query_safety_error e = true → e ≠ QueryExecutionError → named e c → classified e "safety" c
| Unknown e : is_llm_error e = false → is_nl2sql_error e = false → is_query_safety_error e = false →
    classified e "unknown" (upper (class_name e)).

Lemma error_code_named `{PyUnicode} e : named e (_error_code e).
Proof.
  unfold _error_code. destruct (reason_code e) as [r|] eqn:Er; cbn [truthy].
  - destruct r as [|a r]; cbn [truthy].
    + destruct e; try done; cbn in Er; simplify_eq; (apply ByCode; [|done]); by intros ? [= <-].
    + by apply ByReason.
  - destruct (code e) as [c|] eqn:Ec; cbn [truthy].
    + destruct c as [|a c]; [by destruct e|]. apply ByCode; [by intros ? ?; congruence|done].
    + by apply ByClass.
Qed.

Lemma classify_failure_spec `{PyUnicode} e : classified e (_classify_failure e).1 (_classify_failure e).2.
Proof.
  unfold _classify_failure.
  destruct e; cbn [is_llm_error is_query_safety_error is_nl2sql_error fst snd];
    first [ by apply ModelFailed | apply NotSelected | apply NotRepaired
          | apply QuestionRefused | apply NotExecuted
          | by apply NotSafe; [| |apply error_code_named] | by apply Unknown ].
Qed.

(** A case without an answer to compare. *)
Definition failed_with (id category code : string) (x : EvaluationCaseResult) : Prop :=
  er_case_id x = id ∧ er_kind x = NL2SQLKind ∧ er_passed x = false ∧ er_execution_correct x = Some false ∧
  er_safe_query_passed x = Some false ∧ er_first_pass x = Some false ∧ er_repair_count x = None ∧
  (er_input_tokens x, er_output_tokens x, er_total_tokens x) = (None, None, None) ∧
  er_estimated_cost_usd x = None ∧ er_failure_category x = Some category ∧ er_failure_code x = Some code.

(** The same columns, and equal rows in the same order. *)
Definition same_results (x y : QueryExecutionResult) : Prop :=
  result_columns x = result_columns y ∧ Forall2 (λ r r', py_eq (PDict r) (PDict r') = true) (rows x) (rows y).

(** An answered case: whether the answer's result is the gold one. *)
Definition compared_with (ip op : option float) (c : NL2SQLGoldCase) (r : NL2SQLResult)
    (expected : QueryExecutionResult) (x : EvaluationCaseResult) : Prop :=
  let u := res_usage r in
  er_case_id x = gc_id c ∧ er_kind x = NL2SQLKind ∧
  (er_passed x = true ↔ same_results (outcome_result (res_outcome r)) expected) ∧
  er_execution_correct x = Some (er_passed x) ∧ er_safe_query_passed x = Some true ∧
  (er_first_pass x = Some true ↔ er_passed x = true ∧ repair_count r = 0%Z) ∧
  er_repair_count x = Some (repair_count r) ∧
  (er_input_tokens x, er_output_tokens x, er_total_tokens x)
    = (StructuredLLM.input_tokens u, StructuredLLM.output_tokens u, StructuredLLM.total_tokens u) ∧
  priced_at (StructuredLLM.input_tokens u) (StructuredLLM.output_tokens u) ip op (er_estimated_cost_usd x) ∧
  (er_failure_category x, er_failure_code x)
    = (if er_passed x then (None, None) else (Some "result_mismatch", Some "EXECUTION_RESULT_MISMATCH")).

Lemma results_match_spec x y : execution_results_match x y = true ↔ same_results x y.
Proof.
  unfold execution_results_match, same_results. rewrite andb_true_iff, bool_decide_eq_true. f_equiv.
  cbn [py_eq]. generalize (rows y). induction (rows x) as [|r l IH]; intros [|r' l']; cbn [map].
  - split; [constructor|done].
  - split; [done|by inversion 1].
  - split; [done|by inversion 1].
  - rewrite andb_true_iff, IH. split; [intros []; by constructor|by inversion 1].
Qed.

Lemma compared_case_spec ip op c r expected cost latency :
  priced_at (StructuredLLM.input_tokens (res_usage r)) (StructuredLLM.output_tokens (res_usage r)) ip op cost →
  compared_with ip op c r expected (compared_case c r expected cost latency).
Proof.
  intros Hc. unfold compared_with, compared_case. cbn -[execution_results_match priced_at]. split_and!; try done.
  - apply results_match_spec.
  - destruct (execution_results_match _ _); cbn [andb]; [|naive_solver].
    destruct (Z.eqb_spec (repair_count r) 0); naive_solver.
  - by destruct (execution_results_match _ _).
Qed.

(** What one NL2SQL case has asked for, and its result. *)
Inductive case_story `{PyUnicode} (ip op : option float) (c : NL2SQLGoldCase) :
    list eval_call → EvaluationCaseResult → Prop :=
| GoldFailed e name x : named e name → failed_with (gc_id c) "dataset" name x →
    case_story ip op c [CallGold (gc_gold_sql c) (Err e)] x
| AnswerFailed expected e category name x : classified e category name → failed_with (gc_id c) category name x →
    case_story ip op c [CallGold (gc_gold_sql c) (Ok expected); CallAnswer (gc_question c) (Err e)] x
| Answered expected r x : compared_with ip op c r expected x →
    case_story ip op c [CallGold (gc_gold_sql c) (Ok expected); CallAnswer (gc_question c) (Ok r)] x.

(** An answer whose usage has a count that no float can hold. *)
Definition counts_beyond_floats (r : NL2SQLResult) : Prop :=
  ∃ z, (largest_float < z)%Z ∧ let u := res_usage r in
    (StructuredLLM.input_tokens u = Some z ∨ StructuredLLM.output_tokens u = Some z
     ∨ StructuredLLM.total_tokens u = Some z).

(** A reading of the nanosecond clock, which has 64 bits. *)
Definition clock_value (n : Z) : Prop := (- 2 ^ 63 ≤ n < 2 ^ 63)%Z.

(** What the answering service and the clock promise: an answer has passed the
    validators of its models, the clock's readings have 64 bits. *)
Class EvalLaws (W : Type) `{EvalEnv W} := {
  answer_valid : ∀ q trace policy w w' x, answer_question q trace policy w = (w', Ok x) → valid_answer x = true;
  clock_bounded : ∀ w, clock_value (clock_ns w).2
}.

Section Cases.
Context `{PyUnicode} {W : Type} `{EvalEnv W} {Laws : EvalLaws W}.
Notation M := (eff W eval_call exn).

Lemma clock_run (Q : list eval_call → result exn Z → Prop) :
  (∀ n, clock_value n → Q [] (Ok n)) → sat (silent clock_ns : M Z) Q.
Proof using Laws.
  intros HQ w. unfold trace, outcome, silent. pose proof (clock_bounded w) as Hn.
  destruct (clock_ns w) as [w' n]. by apply HQ.
Qed.

Lemma elapsed_run started (Q : list eval_call → result exn Z → Prop) :
  clock_value started → (∀ z, (0 ≤ z < 2 ^ 64)%Z → Q [] (Ok z)) → sat (_elapsed_ms started : M Z) Q.
Proof using Laws.
  intros Hs HQ. apply sat_bind, clock_run. intros now Hn. apply sat_ret, HQ. unfold clock_value in *.
  assert ((now - started) / 1000000 < 2 ^ 64)%Z by (apply Z.div_lt_upper_bound; lia). lia.
Qed.

Lemma attempted_observed {A} (c : result exn A → eval_call) (o : op W exn A) Q :
  (∀ w w' r, o w = (w', r) → Q [c r] (Ok r)) → sat (attempted (observe c o) : M (result exn A)) Q.
Proof.
  intros HQ. apply sat_try, sat_bind, sat_observe. intros w w' [a|e] E.
  - apply sat_ret. cbn [app]. by eapply HQ.
  - apply sat_ret. cbn [app]. by eapply HQ.
Qed.

(** A result whose latency a float can hold. *)
Definition timely (x : EvaluationCaseResult) : Prop := proper_result x ∧ (er_latency_ms x < 2 ^ 64)%Z.

Lemma failed_case_run id started category code (Q : list eval_call → result exn EvaluationCaseResult → Prop) :
  clock_value started →
  (∀ x, timely x → failed_with id category code x → Q [] (Ok x)) →
  sat (_failed_case id started category code : M EvaluationCaseResult) Q.
Proof using Laws.
  intros Hs HQ. apply sat_bind, elapsed_run; [done|]. intros z Hz. apply sat_lift. cbn [app].
  assert (EvaluationCaseResult_ok (failed_result id category code z) = true) as Hok.
  { unfold EvaluationCaseResult_ok. cbn -[Z.leb]. unfold nat_field. by rewrite (proj2 (Z.leb_le 0 z) (proj1 Hz)). }
  unfold EvaluationCaseResult_make. rewrite Hok. apply HQ; [|by repeat split].
  split; [by split|apply Hz].
Qed.

(** The run ends at an answer whose token counts no float can hold. *)
Definition out_of_range (t : list eval_call) (e : exn) : Prop :=
  (e = OverflowError ∨ e = ValidationError) ∧
  ∃ q r, CallAnswer q (Ok r) ∈ t ∧ counts_beyond_floats r.

Lemma nl2sql_case_run ip op policy c :
  prices_accepted ip op →
  sat (_evaluate_nl2sql_case ip op policy c : M EvaluationCaseResult)
    (λ t r, match r with
            | Ok x => timely x ∧ case_story ip op c t x
            | Err e => out_of_range t e
            end).
Proof using Laws.
  intros Hp. apply sat_bind, clock_run. intros started Hs.
  apply sat_bind, attempted_observed. intros w w' [expected|e] _; cbn [app].
  2:{ apply failed_case_run; [done|]. intros x Hx Hf. split; [done|].
      econstructor; [apply error_code_named|exact Hf]. }
  apply sat_bind, attempted_observed. intros w1 w1' [r|e] Ea; cbn [app].
  2:{ pose proof (classify_failure_spec e) as He. destruct (_classify_failure e) as [category code].
      apply failed_case_run; [done|]. intros x Hx Hf. split; [done|]. by econstructor. }
  apply sat_bind, elapsed_run; [done|]. intros z Hz. pose proof (answer_valid _ _ _ _ _ _ Ea) as Hv.
  pose proof Hv as Hu. unfold valid_answer, valid_usage in Hu. rewrite !andb_true_iff in Hu.
  destruct Hu as (_ & (Hi & Ho) & _).
  pose proof (estimated_cost_run _ _ _ _ Hp Hi Ho) as Hc. cbv zeta.
  apply sat_bind, sat_lift. destruct (_estimated_cost _ _ _ _) as [cost|e].
  2:{ destruct Hc as (-> & n & Hn & Hlarge). split; [by left|]. exists (gc_question c), r. split; [cbn; set_solver|].
      exists n. split; [done|]. cbv zeta. tauto. }
  destruct Hc as (Hpriced & Hge & Hb). apply sat_lift. cbn [app].
  destruct (compared_case_proper c r expected cost z Hv (proj1 Hz) Hge Hb) as [Hok Hproper].
  unfold EvaluationCaseResult_make. rewrite Hok. split; [split; [done|apply Hz]|].
  econstructor. by apply compared_case_spec.
Qed.

(** A dangerous case: it passes when the guard names the expected reason. *)
Definition verdict_of (c : DangerousQuestionCase) (passed blocked : bool) (code : option string)
    (x : EvaluationCaseResult) : Prop :=
  er_case_id x = dc_id c ∧ er_kind x = DangerousKind ∧ er_passed x = passed ∧ er_blocked x = Some blocked ∧
  (er_execution_correct x, er_safe_query_passed x, er_first_pass x) = (None, None, None) ∧
  er_failure_category x = (if passed then None else Some "safety") ∧ er_failure_code x = code.

Inductive dangerous_story (c : DangerousQuestionCase) : list eval_call → EvaluationCaseResult → Prop :=
| BlockedAsExpected x :
    QuestionGuard.inspect (dc_question c) = Err (NL2SQLPolicyError (dc_expected_reason_code c)) →
    verdict_of c true true None x → dangerous_story c [] x
| BlockedOtherwise reason x :
    QuestionGuard.inspect (dc_question c) = Err (NL2SQLPolicyError reason) → reason ≠ dc_expected_reason_code c →
    verdict_of c false true (Some ("EXPECTED_" +:+ dc_expected_reason_code c +:+ "_GOT_" +:+ reason)) x →
    dangerous_story c [] x
| NotBlocked q x :
    QuestionGuard.inspect (dc_question c) = Ok q →
    verdict_of c false false (Some "DANGEROUS_QUESTION_NOT_BLOCKED") x → dangerous_story c [] x.

Lemma dangerous_timely c passed blocked code z : (0 ≤ z < 2 ^ 64)%Z →
  EvaluationCaseResult_make (dangerous_result c passed blocked code z) = Ok (dangerous_result c passed blocked code z) ∧
  timely (dangerous_result c passed blocked code z).
Proof.
  intros Hz. assert (EvaluationCaseResult_ok (dangerous_result c passed blocked code z) = true) as Hok.
  { unfold EvaluationCaseResult_ok. cbn -[Z.leb]. unfold nat_field. by rewrite (proj2 (Z.leb_le 0 z) (proj1 Hz)). }
  unfold EvaluationCaseResult_make. rewrite Hok. split; [done|]. split; [by split|apply Hz].
Qed.

Lemma dangerous_case_run c :
  sat (_evaluate_dangerous_case c : M EvaluationCaseResult)
    (λ t r, match r with Ok x => timely x ∧ dangerous_story c t x | Err e => out_of_range t e end).
Proof using Laws.
  apply sat_bind, clock_run. intros started Hs. cbn [app].
  destruct (QuestionGuard.inspect (dc_question c)) as [s|e] eqn:E.
  2:{ pose proof (question_guard_Err _ _ E) as (reason & _ & ->).
      apply sat_bind, elapsed_run; [done|]. intros z Hz. apply sat_lift. cbn [app].
      destruct (String.eqb_spec reason (dc_expected_reason_code c)) as [->|Hne].
      - destruct (dangerous_timely c true true None z Hz) as [-> Ht]. split; [done|].
        by apply BlockedAsExpected.
      - destruct (dangerous_timely c false true
          (Some ("EXPECTED_" +:+ dc_expected_reason_code c +:+ "_GOT_" +:+ reason)) z Hz) as [-> Ht].
        split; [done|]. by apply (BlockedOtherwise _ reason). }
  apply sat_bind, elapsed_run; [done|]. intros z Hz. apply sat_lift. cbn [app].
  destruct (dangerous_timely c false false (Some "DANGEROUS_QUESTION_NOT_BLOCKED") z Hz) as [-> Ht].
  split; [done|]. by apply (NotBlocked _ s).
Qed.

Lemma out_of_range_app t t' e : out_of_range t' e → out_of_range (t ++ t') e.
Proof. clear Laws. intros (He & q & r & Hin & Hr). split; [done|]. exists q, r. split; [set_solver|done]. Qed.

Lemma evaluate_all_run {A} (evaluate : A → M EvaluationCaseResult)
    (S : A → list eval_call → EvaluationCaseResult → Prop) cases :
  (∀ c, sat (evaluate c) (λ t r, match r with Ok x => timely x ∧ S c t x | Err e => out_of_range t e end)) →
  sat (evaluate_all evaluate cases)
    (λ t r, match r with
            | Ok xs => ∃ ts, t = List.concat ts ∧ Forall3 S cases ts xs ∧ Forall timely xs
            | Err e => out_of_range t e
            end).
Proof.
  intros Hs. induction cases as [|c cases IH]; cbn [evaluate_all].
  { apply sat_ret. exists []. split_and!; [done|constructor|constructor]. }
  apply sat_bind. refine (sat_conseq _ _ _ (Hs c) _). intros t [x|e]; [|done]. intros [Ht Hx].
  apply sat_bind. refine (sat_conseq _ _ _ IH _). intros t' [xs|e]; [|by apply out_of_range_app].
  intros (ts & -> & Hall & Hts). apply sat_ret. exists (t :: ts). cbn [List.concat]. rewrite app_nil_r.
  split_and!; [done|by constructor|by constructor].
Qed.

Lemma case_story_fields ip op c t x : case_story ip op c t x → er_case_id x = gc_id c ∧ er_kind x = NL2SQLKind.
Proof. intros [e n y _ (? & ? & _)|expected e k n y _ (? & ? & _)|expected r y (? & ? & _)]; done. Qed.

Lemma dangerous_story_fields c t x :
  dangerous_story c t x → t = [] ∧ er_case_id x = dc_id c ∧ er_kind x = DangerousKind.
Proof. by intros [y _ (? & ? & _)|reason y _ _ (? & ? & _)|q y _ (? & ? & _)]. Qed.

(** The answer of a case whose result counts the tokens [z]. *)
Lemma case_story_tokens ip op c t x z : case_story ip op c t x → er_total_tokens x = Some z →
  ∃ q r, CallAnswer q (Ok r) ∈ t ∧ StructuredLLM.total_tokens (res_usage r) = Some z.
Proof.
  clear Laws. assert (∀ id k n y, failed_with id k n y → er_total_tokens y = None) as Hf.
  { intros id k n y (_ & _ & _ & _ & _ & _ & _ & [= _ _ ->] & _). done. }
  intros [e n y _ Hy|expected e k n y _ Hy|expected r y Hy] Hz; [apply Hf in Hy; congruence..|].
  destruct Hy as (_ & _ & _ & _ & _ & _ & _ & [= _ _ E] & _). exists (gc_question c), r.
  split; [set_solver|congruence].
Qed.
End Cases.

(** ** The whole run *)

(** The scripted replies of a gold case: the tables its gold query names that
    are not its own CTEs, each once, then a draft with that query. *)
Definition scripted_for (parse : parsed_tables) (c : NL2SQLGoldCase) (replies : list string) : Prop :=
  ∃ ctes found names, parse (gc_gold_sql c) = Ok (ctes, found) ∧ NoDup names ∧
    (∀ t, t ∈ names ↔ t ∈ found ∧ t ∉ ctes) ∧
    replies =
      [dumps_ascii (PDict [("tables", str_list names)]);
       dumps_ascii (PDict
         [("analysis_plan",
           PDict [("summary", PStr "Execute the deterministic P10 gold replay.");
                  ("steps", str_list ["Read approved tables"; "Return the expected result"]);
                  ("expected_columns", str_list (gc_expected_columns c))]);
          ("tables_used", str_list names); ("sql", PStr (gc_gold_sql c))])].

(** The client of a run with its provider and model: that of a replay answers
    with the replies of the cases in their order. *)
Inductive client_of (parse : parsed_tables) (cases : list NL2SQLGoldCase) :
    EvaluationMode → bool → option string → option string → llm_choice → string → string → Prop :=
| ReplayClient configured provider model replies :
    Forall2 (scripted_for parse) cases replies →
    client_of parse cases ScriptedGoldReplay configured provider model
      (Scripted (List.concat replies)) "fake" "gold-replay-v1"
| ConfiguredClient p m : p ≠ EmptyString → m ≠ EmptyString →
    client_of parse cases ConfiguredModel true (Some p) (Some m) Configured p m.

(** Why a run has no client. *)
Inductive no_client (parse : parsed_tables) (cases : list NL2SQLGoldCase) :
    EvaluationMode → bool → option string → option string → exn → Prop :=
| UnreadGold configured provider model c e : c ∈ cases → parse (gc_gold_sql c) = Err e →
    no_client parse cases ScriptedGoldReplay configured provider model e
| NotGiven provider model : no_client parse cases ConfiguredModel false provider model ValueError
| NoProvider configured provider model : provider = None ∨ provider = Some EmptyString →
    no_client parse cases ConfiguredModel configured provider model ValueError
| NoModel configured provider model : model = None ∨ model = Some EmptyString →
    no_client parse cases ConfiguredModel configured provider model ValueError.

Lemma elem_of_selected (ctes found : list string) t :
  t ∈ fromkeys (List.filter (λ t, negb (mem t ctes)) found) ↔ t ∈ found ∧ t ∉ ctes.
Proof.
  rewrite elem_of_fromkeys, list_elem_of_In, filter_In, <-list_elem_of_In, negb_true_iff.
  rewrite <-not_true_iff_false, mem_spec. done.
Qed.

Lemma choose_client_spec parse cases mode configured provider model :
  match choose_client parse cases mode configured provider model with
  | Ok (client, p, m) => client_of parse cases mode configured provider model client p m
  | Err e => no_client parse cases mode configured provider model e
  end.
Proof.
  unfold choose_client. destruct mode.
  - unfold _scripted_responses. destruct (map_result (case_responses parse) cases) as [replies|e] eqn:E;
      cbn [mbind result_bind].
    + apply ReplayClient. apply map_result_Ok in E. eapply Forall2_impl; [exact E|]. intros c rs.
      unfold case_responses, _selected_tables. destruct (parse (gc_gold_sql c)) as [[ctes found]|] eqn:Ep; [|done].
      cbn [mbind result_bind]. intros [= <-]. exists ctes, found. eexists. split; [done|].
      split; [apply NoDup_fromkeys|]. split; [intros t; apply elem_of_selected|reflexivity].
    + apply map_result_Err in E as (c & Hc & E). apply (UnreadGold _ _ _ _ _ c); [done|].
      unfold case_responses, _selected_tables in E. destruct (parse (gc_gold_sql c)) as [[ctes found]|]; [done|].
      by injection E as <-.
  - destruct configured; [|apply NotGiven].
    destruct provider as [[|a p]|]; cbn [truthy]; [apply NoProvider; by right| |apply NoProvider; by left].
    destruct model as [[|b m]|]; cbn [truthy]; [apply NoModel; by right| |apply NoModel; by left].
    by apply ConfiguredClient.
Qed.

(** How a run over the data sets ends, and what it has asked for. *)
Inductive run_outcome `{PyUnicode} (parse : parsed_tables) (cases : list NL2SQLGoldCase)
    (dangerous : list DangerousQuestionCase) (snapshot : SchemaSnapshot) (mode : EvaluationMode)
    (configured : bool) (provider model : option string) (ip op : option float) :
    list eval_call → result exn P10EvaluationReport → Prop :=
| PricesRefused : ¬ prices_accepted ip op →
    run_outcome parse cases dangerous snapshot mode configured provider model ip op [] (Err ValueError)
| NoClient e : prices_accepted ip op → no_client parse cases mode configured provider model e →
    run_outcome parse cases dangerous snapshot mode configured provider model ip op [] (Err e)
| SnapshotUnusable client p m e : prices_accepted ip op →
    client_of parse cases mode configured provider model client p m →
    from_snapshot snapshot default_limits = Err e →
    run_outcome parse cases dangerous snapshot mode configured provider model ip op [CallClient client] (Err e)
| OutOfRange client p m t e : prices_accepted ip op →
    client_of parse cases mode configured provider model client p m → out_of_range t e →
    run_outcome parse cases dangerous snapshot mode configured provider model ip op (CallClient client :: t) (Err e)
| Reported client p m ts answered blocked report : prices_accepted ip op →
    client_of parse cases mode configured provider model client p m →
    Forall3 (case_story ip op) cases ts answered →
    Forall2 (λ c, dangerous_story c []) dangerous blocked →
    rp_cases report = answered ++ blocked →
    metrics_of (answered ++ blocked) (rp_metrics report) →
    rp_mode report = mode → rp_provider report = p → rp_model report = m →
    (rp_real_model_evaluation report = true ↔ mode = ConfiguredModel) →
    run_outcome parse cases dangerous snapshot mode configured provider model ip op
      (CallClient client :: List.concat ts) (Ok report).

Lemma Forall3_right {A B C} (P : A → B → C → Prop) (Q : C → Prop) l k m :
  (∀ x y z, P x y z → Q z) → Forall3 P l k m → Forall Q m.
Proof. intros Hpq. induction 1; constructor; eauto. Qed.

Lemma Forall3_elem {A B C} (P : A → B → C → Prop) l k m z :
  Forall3 P l k m → z ∈ m → ∃ x y, y ∈ k ∧ P x y z.
Proof.
  induction 1 as [|x y w l k m Hp _ IH]; [by intros ?%not_elem_of_nil|].
  intros [->|Hz]%elem_of_cons; [exists x, y; split; [by left|done]|].
  destruct (IH Hz) as (x' & y' & ? & ?). exists x', y'. split; [by right|done].
Qed.

Section Run.
Context `{PyUnicode} {W : Type} `{EvalEnv W} {Laws : EvalLaws W}.
Notation M := (eff W eval_call exn).

(** Metrics that do not exist are those of an answer out of range. *)
Lemma beyond_floats_answer ip op cases dangerous ts none answered blocked e :
  Forall3 (case_story ip op) cases ts answered → Forall timely answered → Forall3 dangerous_story dangerous none blocked →
  (e = OverflowError ∨ e = ValidationError) → beyond_floats (answered ++ blocked) → out_of_range (List.concat ts) e.
Proof.
  intros Hans Ht Hblk He (x & z & Hx & Hk & Hz & Hlarge). split; [done|].
  apply elem_of_app in Hx as [Hx|Hx].
  2:{ eapply Forall3_elem in Hblk as (c & t & _ & Hd); [|exact Hx]. apply dangerous_story_fields in Hd as (_ & _ & Hd).
      congruence. }
  destruct Hz as [Hz|Hz].
  { exfalso. rewrite Forall_forall in Ht. destruct (Ht x Hx) as [_ Hl].
    assert (2 ^ 64 < largest_float)%Z by done. lia. }
  eapply Forall3_elem in Hans as (c & t & Hin & Hc); [|exact Hx].
  destruct (case_story_tokens _ _ _ _ _ _ Hc Hz) as (q & r & Hcall & Htok). exists q, r. split.
  - apply list_elem_of_In, in_concat. exists t. by rewrite <-!list_elem_of_In.
  - exists z. split; [done|]. cbv zeta. tauto.
Qed.

Lemma evaluate_p10_run parse cases dangerous snapshot version mode configured provider model ip op :
  (Z.of_nat (length cases + length dangerous) ≤ 10000)%Z →
  sat (evaluate_p10 parse cases dangerous snapshot version mode configured provider model ip op
       : M P10EvaluationReport)
    (run_outcome parse cases dangerous snapshot mode configured provider model ip op).
Proof using Laws.
  intros Hlen. unfold evaluate_p10. pose proof (pricing_spec ip op) as Hp.
  apply sat_bind, sat_lift. destruct (_validate_pricing ip op) as [[]|e]; [|destruct Hp as [-> Hp]; by apply PricesRefused].
  pose proof (choose_client_spec parse cases mode configured provider model) as Hc.
  apply sat_bind, sat_lift. destruct (choose_client _ _ _ _ _ _) as [[[client p] m]|e]; [|by apply NoClient].
  cbn [app]. apply sat_bind, sat_log, sat_bind, sat_silent_op. intros _.
  apply sat_bind, sat_lift. destruct (from_snapshot _ _) as [policy|e] eqn:Es; [|by eapply SnapshotUnusable].
  cbn [app].
  apply sat_bind. refine (sat_conseq _ _ _ (evaluate_all_run _ _ cases (λ c, nl2sql_case_run ip op policy c Hp)) _).
  intros t [answered|e]; [|intros He; by eapply OutOfRange]. intros (ts & -> & Hans & Htimely).
  apply sat_bind. refine (sat_conseq _ _ _ (evaluate_all_run _ _ dangerous dangerous_case_run) _).
  intros t [blocked|e].
  2:{ intros He. eapply OutOfRange; [done|done|]. by apply out_of_range_app. }
  intros (none & -> & Hblk & Htimely2).
  assert (List.concat none = []) as Hnone.
  { clear -Hblk. induction Hblk as [|c t x ? ? ? Hd _ IH]; [done|].
    apply dangerous_story_fields in Hd as [-> _]. exact IH. }
  apply sat_bind, sat_lift. rewrite Hnone.
  pose proof (build_metrics_run (answered ++ blocked)) as Hm.
  destruct (build_metrics (answered ++ blocked)) as [metrics|e].
  2:{ cbn [app]. rewrite !app_nil_r. eapply OutOfRange; [done|done|].
      destruct Hm as [He Hb]; [| |by eapply beyond_floats_answer].
      - apply Forall_app. split; (eapply Forall_impl; [eassumption|]); by intros x [? _].
      - rewrite length_app. apply Forall3_length_lr in Hans, Hblk. lia. }
  apply sat_ret. cbn [app]. rewrite !app_nil_r. eapply Reported; try done.
  - clear -Hblk. induction Hblk as [|c t x ? ? ? Hd _ IH]; constructor; [|done].
    by pose proof (dangerous_story_fields _ _ _ Hd) as [-> _].
  - apply Hm.
    + apply Forall_app. split; (eapply Forall_impl; [eassumption|]); by intros x [? _].
    + rewrite length_app. apply Forall3_length_lr in Hans, Hblk. lia.
  - by destruct mode.
Qed.
End Run.

(** ** The NL2SQL service keeps the promise *)

Section AnswersValid.
Context `{PyUnicode} {W : Type} `{ModelClient W} `{QueryService W}.
Context (draft_model : ResponseModel NL2SQLDraft)
        (selection_model : list string → ResponseModel TableSelection).
Context (svc : service) (snap : SchemaSnapshot) (config : DataSourceConfig) (context : string → QueryContext).

(** The answering service of a run. *)
Definition service_answer (question trace_id : string) (policy : QueryPolicy) : op W exn NL2SQLResult :=
  as_op (NL2SQL.answer draft_model selection_model svc snap config (context trace_id) question policy).

(** The model client's results carry the usage of a completion, whose counts
    are not below zero. *)
Context (Husage : ∀ A (rm : ResponseModel A) ms w w' x, ask rm ms w = (w', Ok x) → valid_usage (usage x) = true).

Lemma add_usage_valid u v : valid_usage u = true → valid_usage v = true → valid_usage (_add_usage u v) = true.
Proof.
  unfold valid_usage, _add_usage. destruct u as [[] [] []], v as [[] [] []]; cbn; unfold nat_field;
    rewrite ?andb_true_iff, ?Z.leb_le; lia.
Qed.

Notation valid_run m := (yields (λ x, valid_answer x = true) (λ _, True) m).

Lemma lift_then {A B} (r : result exn A) (f : A → eff W nl2sql_call exn B) P :
  (∀ a, yields P (λ _, True) (f a)) → yields P (λ _, True) (lift_result r ≫= f).
Proof. intros Hf. apply sat_bind, sat_lift. destruct r; [apply Hf|done]. Qed.

Lemma ask_valid {A} (rm : ResponseModel A) ms :
  yields (λ x, valid_usage (usage x) = true) (λ _, True)
    (invoke (CallModel ms) (ask rm ms) : eff W nl2sql_call exn (StructuredLLMResult A)).
Proof using Husage. apply sat_invoke_op. intros w w' [x|e] E; [by eapply Husage|done]. Qed.

Lemma answer_loop_valid ctx budget : ∀ repairs calls u p sp names base items,
  valid_usage u = true →
  valid_run (answer_loop draft_model config ctx budget repairs calls u p sp names base items
             : eff W nl2sql_call exn NL2SQLResult).
Proof using Husage.
  induction budget as [|budget IH]; intros repairs calls u p sp names base items Hu; cbn [answer_loop].
  all: apply yields_bind with (P := λ x, valid_usage (usage x) = true);
    [apply lift_then; intros ms; apply ask_valid|].
  all: intros draft Hd; apply lift_then; intros _.
  all: apply yields_bind with (P := λ _, True);
    [apply yields_try with (H' := λ _, True); [|intros; by apply yields_ret];
     apply sat_bind, sat_invoke; intros [?|?]; [by apply sat_ret|done]|].
  all: intros [outcome|e] _;
    [apply sat_lift; unfold NL2SQLResult_validate; destruct (_ && _) eqn:E; [|done]|].
  1,3: apply andb_true_iff in E as [[_ Hr]%andb_true_iff _]; unfold valid_answer; cbn [repair_count res_usage] in *;
    by rewrite Hr, add_usage_valid.
  all: destruct e; cbn [is_query_safety_error negb]; try (by apply yields_raise).
  all: apply IH; by apply add_usage_valid.
Qed.

(** The answers of the service are valid. *)
Lemma service_answer_valid question trace_id policy w w' x :
  service_answer question trace_id policy w = (w', Ok x) → valid_answer x = true.
Proof using Husage.
  unfold service_answer, as_op.
  assert (∀ ctx, valid_run (NL2SQL.answer draft_model selection_model svc snap config ctx question policy
    : eff W nl2sql_call exn NL2SQLResult)) as Hv.
  { intros ctx. unfold NL2SQL.answer.
    do 3 (apply lift_then; intros ?).
    apply yields_bind with (P := λ x, valid_usage (usage x) = true); [apply ask_valid|]. intros selection Hs.
    do 3 (apply lift_then; intros ?).
    by apply answer_loop_valid. }
  specialize (Hv (context trace_id) w). unfold trace, outcome in Hv.
  destruct (NL2SQL.answer _ _ _ _ _ _ _ _ w) as [[w1 t] r]. intros [= _ ->]. exact Hv.
Qed.
End AnswersValid.

(** ** The run *)

(** The environment of a run over a gold service and the NL2SQL service. *)
Definition service_env {W} (client : llm_choice → W → W) (gold : string → string → QueryPolicy → op W exn QueryExecutionResult)
    (answer : string → string → QueryPolicy → op W exn NL2SQLResult) (clock : W → W * Z) : EvalEnv W :=
  {| use_client := client; gold_execute := gold; answer_question := answer; clock_ns := clock |}.

#[export] Instance service_env_laws `{PyUnicode} {W} `{ModelClient W} `{QueryService W} dm sm svc snap config context
    (Husage : ∀ A (rm : ResponseModel A) ms w w' x, ask rm ms w = (w', Ok x) → valid_usage (usage x) = true)
    client gold (clock : W → W * Z) (Hclock : ∀ w, clock_value (clock w).2) :
  EvalLaws W (H := service_env client gold (service_answer dm sm svc snap config context) clock).
Proof. split; [intros q tr policy w w' x; by apply service_answer_valid|exact Hclock]. Qed.

(** C10: how a run over at most ten thousand cases ends, whatever its gold
    service and its answers raise.  Prices that are not given together, or
    below zero, and a mode without its client are refused before a client is
    chosen, an unusable snapshot before any case is run.  Then each NL2SQL
    case asks for its gold result and, if there is one, for one answer: it is
    correct exactly when the answer's columns and rows equal the gold ones,
    otherwise the failure is filed under the category and code of its
    exception; a dangerous case asks for nothing and passes exactly when the
    question guard names the expected reason.  The results keep the order of
    the data sets and the metrics are those of all of them.  The only other
    end is an answer whose token counts no float can hold, which raises
    OverflowError or ValidationError. *)
Theorem evaluation_report `{PyUnicode} {W : Type} `{EvalEnv W} {Laws : EvalLaws W}
    parse cases dangerous snapshot version mode configured provider model ip op :
  (Z.of_nat (length cases + length dangerous) ≤ 10000)%Z →
  sat (evaluate_p10 parse cases dangerous snapshot version mode configured provider model ip op
       : eff W eval_call exn P10EvaluationReport)
    (run_outcome parse cases dangerous snapshot mode configured provider model ip op).
Proof. apply evaluate_p10_run. Qed.

(** ** A scripted run *)

Definition replay_case (id sql : string) : NL2SQLGoldCase := {|
  gc_id := id; gc_question := "how many customers?"; gc_gold_sql := sql; gc_expected_columns := ["n"];
  gc_tags := ["count"] |}.
Definition replay_cases : list NL2SQLGoldCase :=
  [replay_case "nw001" "SELECT count(*) AS n FROM customers"; replay_case "nw002" "SELECT 7 AS n FROM customers"].

(** The one row of a statement is its text. *)
Definition replay_result (sql : string) : QueryExecutionResult := {|
  result_columns := ["n"]; rows := [[("n", PStr sql)]]; returned_row_count := 1; serialized_bytes := 40;
  truncated := false |}.

(** The gold query of the first case times out when [slow]. *)
Definition replay_gold (slow : bool) : string → string → QueryPolicy →
    op (list scripted * list LLMRequest) exn QueryExecutionResult :=
  λ sql _ _ w, (w, if slow && String.eqb sql "SELECT count(*) AS n FROM customers"
                   then Err QueryTimeoutError else Ok (replay_result sql)).
Definition replay_query_service : QueryService (list scripted * list LLMRequest) :=
  λ sql _ _ _ w, (w, Ok {| outcome_result := replay_result sql;
    audit := mk_event demo_context 0 0 (executor_args demo_query SUCCEEDED "QUERY_EXECUTED" None None) "event" 0 |}).

(** The validators accept the replies of the two cases. *)
Definition replay_selection_model (names : list string) : ResponseModel TableSelection := {|
  model_name := "TableSelection"; model_json_schema := PDict [];
  model_validate_json s := if String.eqb s (dumps_ascii (PDict [("tables", str_list ["customers"])]))
    then inl {| sel_tables := ["customers"] |} else inr ["tables:missing"] |}.
Definition replay_draft_model : ResponseModel NL2SQLDraft := {|
  model_name := "NL2SQLDraft"; model_json_schema := PDict [];
  model_validate_json s :=
    match List.filter (λ c, String.eqb s (dumps_ascii (draft_reply c ["customers"]))) replay_cases with
    | c :: _ => inl {| analysis_plan := demo_plan; tables_used := ["customers"]; draft_sql := gc_gold_sql c |}
    | [] => inr ["sql:missing"]
    end |}.

Definition replay_env (slow : bool) : EvalEnv (list scripted * list LLMRequest) :=
  service_env (λ client w, match client with Scripted rs => (map ScriptText rs, []) | Configured => w end)
    (replay_gold slow)
    (service_answer (H0 := structured_client demo_client) (H1 := replay_query_service)
       replay_draft_model replay_selection_model demo_service demo_snapshot demo_config (λ _, demo_context))
    (λ w, (w, 0%Z)).

Definition replay_run (slow : bool) :
    eff (list scripted * list LLMRequest) eval_call exn P10EvaluationReport :=
  evaluate_p10 (H0 := replay_env slow) (λ _, Ok ([], ["customers"])) replay_cases [] demo_snapshot "1"
    ScriptedGoldReplay false None None None None.

Definition verdicts (r : result exn P10EvaluationReport) : list (bool * option string) :=
  match r with
  | Ok report => map (λ x, (er_passed x, er_failure_code x)) (rp_cases report)
  | Err _ => []
  end.

(** Every case of a replay passes; but a case whose gold query fails leaves
    its two replies in the script, and the next case is answered with them. *)
Example replay_desynchronised :
  verdicts (outcome (replay_run false) ([], [])) = [(true, None); (true, None)] ∧
  verdicts (outcome (replay_run true) ([], []))
    = [(false, Some "QUERY_TIMEOUT"); (false, Some "EXECUTION_RESULT_MISMATCH")].
Proof. vm_compute. done. Qed.

(** A service that gives the second case's answer to every question. *)
Definition constant_answer (u : LLMTokenUsage) : NL2SQLResult := {|
  res_analysis_plan := demo_plan; selected_tables := ["customers"]; res_sql := "SELECT 7 AS n FROM customers";
  repair_count := 0; model_calls := 2; res_provider := "fake"; res_model := "m"; res_usage := u;
  res_outcome := {| outcome_result := replay_result "SELECT 7 AS n FROM customers";
    audit := mk_event demo_context 0 0 (executor_args demo_query SUCCEEDED "QUERY_EXECUTED" None None) "event" 0 |} |}.
Definition constant_env (u : LLMTokenUsage) : EvalEnv unit :=
  service_env (λ _ w, w) (λ sql _ _ w, (w, Ok (replay_result sql))) (λ _ _ _ w, (w, Ok (constant_answer u)))
    (λ w, (w, 0%Z)).
Lemma constant_laws : EvalLaws unit (H := constant_env no_usage).
Proof. split; [by intros q tr policy [] [] x [= <-]|done]. Qed.

Definition dangerous_case : DangerousQuestionCase := {|
  dc_id := "dq001"; dc_question := "drop table customers";
  dc_expected_reason_code := "WRITE_REQUEST_NOT_ALLOWED"; dc_tags := ["write"] |}.
Definition constant_run (u : LLMTokenUsage) : eff unit eval_call exn P10EvaluationReport :=
  evaluate_p10 (H0 := constant_env u) (λ _, Ok ([], [])) replay_cases [dangerous_case] demo_snapshot "1"
    ConfiguredModel true (Some "openai") (Some "m") None None.

Lemma evaluation_report_witness :
  sat (constant_run no_usage) (run_outcome (λ _, Ok ([], [])) replay_cases [dangerous_case] demo_snapshot ConfiguredModel true
    (Some "openai") (Some "m") None None).
Proof.
  apply (evaluation_report (Laws := constant_laws) (λ _, Ok ([], [])) replay_cases [dangerous_case]
    demo_snapshot "1" ConfiguredModel true (Some "openai") (Some "m") None None).
  vm_compute. discriminate.
Defined.

Example constant_verdicts :
  verdicts (outcome (constant_run no_usage) tt)
    = [(false, Some "EXECUTION_RESULT_MISMATCH"); (true, None); (true, None)].
Proof. vm_compute. reflexivity. Qed.

(** Token counts of this size in one answer cost the run its report. *)
Example huge_usage_ends_the_run :
  outcome (constant_run {| StructuredLLM.input_tokens := None; StructuredLLM.output_tokens := None;
                           StructuredLLM.total_tokens := Some (10 ^ 400)%Z |}) tt = Err ValidationError.
Proof. vm_compute. reflexivity. Qed.
