(* ===== verification/Workflow.v ===== *)
(** * Runs across requests: [app/agent/service.py] over [app/agent/graph.py]

    The workflow service against a runtime that keeps the graph's threads the
    way LangGraph's checkpointer does: after every superstep the merged state
    is saved with the node that follows; a pause or a failed node leaves the
    state the node started with, and a resume runs that node again.  The
    handlers of the two endpoints drive it, one request after the other. *)

From S2P Require Import Prelude PyStr Floats Errors Json Metadata Policy SqlGuard Numbers.
From S2P Require Import DataSources Executor SafeQuery StructuredLLM QuestionGuard NL2SQL.
From S2P Require Import AgentState AgentGraph AgentService.

(** ** Threads *)

Inductive position := AtEnd | WaitingAt (n : node) | FailedAt (n : node) (e : exn).
Record thread := { th_state : AgentState; th_at : position }.

(** The threads, the calls of all runs so far, and the world of the actions. *)
Record cluster (W : Type) := {
  threads : gmap string thread; calls_made : list agent_call; actions_world : W }.
Arguments threads {W}. Arguments calls_made {W}. Arguments actions_world {W}.

Inductive request :=
| HttpStart (job_id data_source_id question tenant_id user_id user_role traceparent : string)
| HttpResume (run_id tenant_id user_role : string) (body : ApprovalResume).

Section Runtime.
Context `{Digests} {W : Type} `{AgentEnv W} `{AgentActions W} (max_repairs : Z).
(** Whether the interrupt of the approval node is still shown once the resumed
    node has failed. *)
Context (keeps_interrupt : bool).

(** [run_graph], down to what is saved. *)
Fixpoint run_saved (fuel : nat) (payload : option pyval) (n : node) (s : AgentState) :
    eff W agent_call exn thread :=
  match fuel with
  | O => mret {| th_state := s; th_at := FailedAt n (OtherException "GraphRecursionError") |}
  | S fuel =>
      reply ← try_except (inl <$> run_node n payload s) (λ e, mret (inr e));
      match reply with
      | inr GraphInterrupt => mret {| th_state := s; th_at := WaitingAt n |}
      | inr e => mret {| th_state := s; th_at := FailedAt n e |}
      | inl u =>
          let s' := merge s u in
          match next_node max_repairs n s' with
          | Err e => mret {| th_state := s; th_at := FailedAt n e |}
          | Ok None => mret {| th_state := s'; th_at := AtEnd |}
          | Ok (Some n') => run_saved fuel None n' s'
          end
      end
  end.

Definition task_text (e : exn) : string := class_name e +:+ "()".
Definition shown_interrupts (th : thread) : list pyval :=
  match th_at th with
  | AtEnd => []
  | WaitingAt _ => [interrupt_payload (th_state th)]
  | FailedAt n _ => if bool_decide (n = RequestApproval) && keeps_interrupt
                    then [interrupt_payload (th_state th)] else []
  end.
Definition tasks_of (th : thread) : list task :=
  match th_at th with
  | AtEnd => []
  | WaitingAt _ => [{| task_error := None; task_interrupts := shown_interrupts th |}]
  | FailedAt _ e => [{| task_error := Some (task_text e); task_interrupts := shown_interrupts th |}]
  end.
Definition snapshot_of (th : option thread) : snapshot :=
  match th with Some th => Thread (th_state th) (tasks_of th) | None => NoThread end.

(** Runs a thread and saves it; an error of a node is raised to the caller. *)
Definition advance (run_id : string) (m : eff W agent_call exn thread) : op (cluster W) exn invocation := λ c,
  let '(w, t, r) := m (actions_world c) in
  match r with
  | Ok th =>
      ({| threads := <[run_id := th]> (threads c); calls_made := calls_made c ++ t; actions_world := w |},
       match th_at th with
       | FailedAt _ e => Err e
       | _ => Ok {| inv_state := th_state th; inv_interrupts := shown_interrupts th |}
       end)
  | Err e => ({| threads := threads c; calls_made := calls_made c ++ t; actions_world := w |}, Err e)
  end.

(** A command continues the node a thread stopped at, whatever stopped it. *)
#[export] Instance checkpointed : GraphRuntime (cluster W) := {|
  get_state run_id c := (c, Ok (snapshot_of (threads c !! run_id)));
  invoke_new run_id s := advance run_id (run_saved recursion_limit None Classify s);
  invoke_command run_id payload c :=
    match threads c !! run_id with
    | None => (c, Err (OtherException "EmptyInputError"))
    | Some th =>
        match th_at th with
        | AtEnd => (c, Ok {| inv_state := th_state th; inv_interrupts := [] |})
        | WaitingAt n | FailedAt n _ =>
            advance run_id (run_saved recursion_limit (Some payload) n (th_state th)) c
        end
    end |}.

Definition handle (trace_id_of : string → result exn string) (q : request) :
    eff (cluster W) service_call exn WorkflowResult :=
  match q with
  | HttpStart job ds question tenant user role traceparent =>
      start_run trace_id_of job ds question tenant user role traceparent
  | HttpResume run_id tenant role body => resume_run run_id tenant role body
  end.

(** The clusters a sequence of requests leads to. *)
Inductive reachable (trace_id_of : string → result exn string) : cluster W → Prop :=
| reach_start w : reachable trace_id_of {| threads := ∅; calls_made := []; actions_world := w |}
| reach_request c q : reachable trace_id_of c → reachable trace_id_of (world (handle trace_id_of q) c).
End Runtime.

(** ** Single runs *)

(** Only [interrupt] raises [GraphInterrupt]. *)
Class OnlyPauseInterrupts (W : Type) `{AgentEnv W} `{AgentActions W} := {
  actions_uninterrupted : Forall (λ o : AgentState → op W exn update, ∀ s w w', o s w ≠ (w', Err GraphInterrupt))
    [classify; retrieve_metrics; select_schema; generate_sql; guard_sql; execute_sql; verify; compose];
  sink_uninterrupted : ∀ r w w', step_sink r w ≠ (w', Err GraphInterrupt)
}.

Section Saved.
Context `{Digests} {W : Type} `{AgentEnv W} `{AgentActionsOk W} `{!OnlyPauseInterrupts W}.
Context (max_repairs : Z) (Hmax : (0 ≤ max_repairs)%Z).
Notation M := (eff W agent_call exn).

Lemma record_uninterrupted r : yields (λ _, True) (λ e, e ≠ GraphInterrupt) (record_step r : M unit).
Proof using OnlyPauseInterrupts0.
  apply sat_invoke_op. intros w w' [u|e] E; [done|]. intros ->. by apply sink_uninterrupted in E.
Qed.

Lemma clock_then {A} (f : Z → M A) (P : A → Prop) (E : exn → Prop) :
  (∀ z, yields P E (f z)) → yields P E (silent node_clock ≫= f).
Proof. intros Hf. apply sat_bind, sat_silent_op, Hf. Qed.

Lemma recorded_then {A} r (m : M A) (P : A → Prop) :
  yields P (λ e, e ≠ GraphInterrupt) m → yields P (λ e, e ≠ GraphInterrupt) (record_step r ≫= λ _, m).
Proof using OnlyPauseInterrupts0. intros Hm. eapply yields_bind; [apply record_uninterrupted|]. by intros _ _. Qed.

Lemma timed_step_uninterrupted name s (o : AgentState → M update) :
  yields (λ _, True) (λ e, e ≠ GraphInterrupt) (o s) →
  yields (λ _, True) (λ e, e ≠ GraphInterrupt) (timed_step name s o).
Proof using OnlyPauseInterrupts0.
  intros Ho. apply clock_then. intros started. apply (yields_try _ (λ e, e ≠ GraphInterrupt)).
  - eapply yields_bind; [exact Ho|]. intros u _. apply clock_then. intros now. by apply recorded_then, yields_ret.
  - intros e He. destruct e; try done; apply clock_then; intros now; by apply recorded_then, yields_raise.
Qed.

Lemma run_node_uninterrupted n payload s :
  n ≠ RequestApproval → yields (λ _, True) (λ e, e ≠ GraphInterrupt) (run_node (W := W) n payload s).
Proof using OnlyPauseInterrupts0.
  intros Hn. apply timed_step_uninterrupted.
  pose proof actions_uninterrupted as Hall. repeat apply Forall_cons in Hall as [? Hall].
  destruct n; try done; apply sat_invoke_op; intros w w' [u|e] E; try done; intros ->;
    match goal with Hq : ∀ s w w', ?o s w ≠ _, E : ?o _ _ = _ |- _ => by apply Hq in E end.
Qed.

(** The executions of a run. *)
Definition is_execution (run_id : string) (c : agent_call) : bool :=
  match c with
  | CallAction m s => String.eqb m "execute_sql" && String.eqb (st_run_id s) run_id
  | _ => false
  end.
Definition executions (run_id : string) (t : list agent_call) : nat :=
  length (List.filter (is_execution run_id) t).

Lemma executions_app id t t' : executions id (t ++ t') = executions id t + executions id t'.
Proof. unfold executions. by rewrite List.filter_app, length_app. Qed.

Lemma executions_actions id t : executions id t = executions id (actions_of t).
Proof.
  unfold executions, actions_of. induction t as [|c t IH]; [done|]. cbn [List.filter].
  destruct c; cbn; try done. destruct (_ && _); cbn; by rewrite ?IH.
Qed.

Lemma node_executions id n s t :
  actions_of t = node_actions n s →
  executions id t = if bool_decide (n = ExecuteSql) && String.eqb (st_run_id s) id then 1 else 0.
Proof.
  intros Ht. rewrite executions_actions, Ht. unfold executions, node_actions.
  destruct (decide (n = ExecuteSql)) as [->|Hn].
  - rewrite bool_decide_eq_true_2, decide_False by done. cbn. by destruct (String.eqb (st_run_id s) id).
  - rewrite bool_decide_eq_false_2 by done. by destruct n.
Qed.

(** How many executions a run may still make from a node on. *)
Definition budget (n : node) (s : AgentState) : nat :=
  repairs_left max_repairs s + match n with GuardSql | RequestApproval | ExecuteSql => 1 | _ => 0 end.

Lemma superstep_budget n s u n' :
  node_inv max_repairs n s → node_update n s u → next_node max_repairs n (merge s u) = Ok (Some n') →
  (if bool_decide (n = ExecuteSql) then 1 else 0) + budget n' (merge s u) ≤ budget n s.
Proof using Hmax.
  intros Hinv Hu Hnext. pose proof (generation_repairs max_repairs Hmax n s u Hinv Hu) as Hr. unfold budget.
  assert ((if bool_decide (n = ExecuteSql) then 1 else 0) = match n with ExecuteSql => 1 | _ => 0 end) as ->
    by by destruct n.
  assert ((if decide (n = GenerateSql) then 1 else 0) = match n with GenerateSql => 1 | _ => 0 end) as Hg
    by by destruct n.
  rewrite Hg in Hr. clear Hg Hu Hinv. revert Hr. generalize (repairs_left max_repairs (merge s u)). intros k Hr.
  destruct n; cbn [next_node] in Hnext; repeat case_match; simplify_eq; lia.
Qed.

Definition thread_inv (th : thread) : Prop :=
  match th_at th with
  | AtEnd => True
  | WaitingAt n => n = RequestApproval ∧ node_inv max_repairs n (th_state th)
  | FailedAt n _ => n = RequestApproval → node_inv max_repairs n (th_state th)
  end.
(** The executions a thread may make when it is resumed. *)
Definition reserve (th : thread) : nat :=
  match th_at th with
  | AtEnd => 0
  | WaitingAt n => budget n (th_state th)
  | FailedAt n _ => if decide (n = RequestApproval) then budget n (th_state th) else 0
  end.

Record saved_ok (n : node) (s : AgentState) (t : list agent_call) (th : thread) : Prop := {
  saved_run_id : st_run_id (th_state th) = st_run_id s;
  saved_calls : Forall call_ok t;
  saved_others : ∀ id, id ≠ st_run_id s → executions id t = 0;
  saved_budget : executions (st_run_id s) t + reserve th ≤ budget n s;
  saved_inv : thread_inv th
}.

Lemma saved_here n s t th :
  node_inv max_repairs n s → Forall (call_ok (W := W)) t →
  (∀ id, executions id t = if bool_decide (n = ExecuteSql) && String.eqb (st_run_id s) id then 1 else 0) →
  th_state th = s → th_at th = WaitingAt n ∧ n = RequestApproval ∨ (∃ e, th_at th = FailedAt n e) →
  saved_ok n s t th.
Proof.
  intros Hinv Hc He Hs Hat. split; [by rewrite Hs|done| | |].
  - intros id Hid. rewrite He. apply not_eq_sym, String.eqb_neq in Hid. by rewrite Hid, andb_false_r.
  - rewrite He, String.eqb_refl, andb_true_r. unfold reserve, budget.
    destruct Hat as [[-> ->]|[e ->]]; rewrite Hs; [case_bool_decide; [done|lia]|].
    destruct (decide (n = RequestApproval)) as [->|Hn]; [case_bool_decide; [done|lia]|].
    case_bool_decide; [subst n; lia|destruct n; lia].
  - unfold thread_inv. destruct Hat as [[-> ->]|[e ->]]; rewrite Hs; [done|]. by intros ->.
Qed.

Lemma run_saved_ok fuel : ∀ payload n s,
  node_inv max_repairs n s →
  sat (run_saved max_repairs fuel payload n s : M thread) (λ t r, ∃ th, r = Ok th ∧ saved_ok n s t th).
Proof using Hmax OnlyPauseInterrupts0.
  induction fuel as [|fuel IH]; intros payload n s Hinv; cbn [run_saved].
  { apply sat_ret. eexists. split; [done|]. split; try done.
    - unfold reserve, executions. cbn [th_at th_state List.filter length]. destruct (decide _); lia.
    - unfold thread_inv. cbn [th_at th_state]. by intros ->. }
  apply sat_bind, sat_try, sat_bind.
  assert (sat (run_node (W := W) n payload s) (λ t r, (Forall call_ok t ∧
    ∀ id, executions id t = if bool_decide (n = ExecuteSql) && String.eqb (st_run_id s) id then 1 else 0) ∧
    match r with Ok u => node_update n s u | Err e => e = GraphInterrupt → n = RequestApproval end)) as Hnode.
  { apply sat_and.
    - refine (sat_conseq _ _ _ (run_node_actions n payload s) _). intros t r Ht.
      split; [by apply (node_actions_ok max_repairs n s t Hinv)|]. intros id. by apply node_executions.
    - destruct (decide (n = RequestApproval)) as [->|Hn].
      + refine (sat_conseq _ _ _ (timed_step_yields _ s _ _ (operation_yields RequestApproval payload s)) _).
        intros t [u|e] Hu; [exact Hu|done].
      + refine (sat_conseq _ _ _ (sat_and _ _ _ (timed_step_yields _ s _ _ (operation_yields n payload s))
          (run_node_uninterrupted n payload s Hn)) _). intros t [u|e] [Hu He]; [exact Hu|]. by intros ->. }
  refine (sat_conseq _ _ _ Hnode _). intros t [u|e] [[Hc He] Hu].
  2:{ apply sat_ret. rewrite app_nil_r.
      assert (sat (mret {| th_state := s; th_at := FailedAt n e |} : M thread)
        (λ t' r', ∃ th, r' = Ok th ∧ saved_ok n s (t ++ t') th)) as Hf.
      { apply sat_ret. rewrite app_nil_r. eexists. split; [done|]. apply saved_here; try done. right. by eexists. }
      destruct e; try exact Hf.
      apply sat_ret. rewrite app_nil_r. eexists. split; [done|]. apply saved_here; try done. left. auto. }
  apply sat_ret. rewrite app_nil_r.
  destruct (next_node _ _ _) as [[n'|]|e] eqn:Hnext.
  - destruct (superstep max_repairs Hmax n s u n' Hinv Hu Hnext) as [Hinv' _].
    pose proof (superstep_budget n s u n' Hinv Hu Hnext) as Hb.
    refine (sat_conseq _ _ _ (IH None n' _ Hinv') _). intros t' r' (th & -> & Hth).
    eexists. split; [done|]. destruct Hth as [Hid Hc' Ho Hb' Hi]. split.
    + exact Hid.
    + by apply Forall_app.
    + intros id Hne. rewrite executions_app, (Ho id Hne), He. apply not_eq_sym, String.eqb_neq in Hne.
      by rewrite Hne, andb_false_r.
    + rewrite executions_app, He, String.eqb_refl, andb_true_r. cbn [merge st_run_id] in Hb'. lia.
    + exact Hi.
  - apply sat_ret. rewrite app_nil_r. eexists. split; [done|]. split; try done.
    + intros id Hne. rewrite He. apply not_eq_sym, String.eqb_neq in Hne. by rewrite Hne, andb_false_r.
    + rewrite He, String.eqb_refl, andb_true_r. unfold reserve, budget. cbn [th_at].
      case_bool_decide; [subst n; lia|destruct n; lia].
  - apply sat_ret. rewrite app_nil_r. eexists. split; [done|]. apply saved_here; try done. right. by eexists.
Qed.
End Saved.

(** The saved thread is what [run_graph] returns or raises. *)
Definition graph_view (r : result exn thread) : result exn run_end :=
  match r with
  | Ok th => match th_at th with
             | AtEnd => Ok (Finished (th_state th))
             | WaitingAt n => Ok (Paused n (th_state th))
             | FailedAt _ e => Err e
             end
  | Err e => Err e
  end.

Lemma run_saved_graph `{Digests} {W : Type} `{AgentEnv W} `{AgentActions W} max_repairs fuel :
  ∀ payload n s w,
  run_graph max_repairs fuel payload n s w
  = let '(w', t, r) := run_saved max_repairs fuel payload n s w in (w', t, graph_view r).
Proof.
  induction fuel as [|fuel IH]; intros payload n s w; [done|]. cbn [run_graph run_saved].
  unfold try_except, fmap, eff_fmap, mbind, eff_bind, raise, mret, eff_ret, lift_result.
  destruct (run_node n payload s w) as [[w1 t1] [u|e]].
  - destruct (next_node _ _ _) as [[n'|]|e]; [|by cbn; rewrite ?app_nil_r..].
    rewrite IH. by destruct (run_saved _ _ _ _ _ _) as [[w2 t2] r2].
  - destruct e; cbn; by rewrite ?app_nil_r.
Qed.

(** ** The service *)

Section Clusters.
Context `{Digests} {W : Type} `{AgentEnv W} `{AgentActionsOk W} `{!OnlyPauseInterrupts W}.
Context (max_repairs : Z) (Hmax : (0 ≤ max_repairs)%Z) (keeps : bool).
Context (trace_id_of : string → result exn string).
#[local] Existing Instance checkpointed.
Notation runtime := (checkpointed max_repairs keeps).
Implicit Types (c : cluster W).

Lemma start_world r c :
  world (start (H := runtime) r) c
  = match threads c !! sr_run_id r with
    | Some _ => c
    | None => (invoke_new (GraphRuntime := runtime) (sr_run_id r) (initial_state r) c).1
    end.
Proof.
  unfold start, state_of, inspect, world, try_except, invoke, mbind, eff_bind, raise, mret, eff_ret, fmap, eff_fmap,
    mbind, eff_bind. cbn [get_state checkpointed]. destruct (threads c !! sr_run_id r) as [th|] eqn:E; cbn [snapshot_of].
  - destruct (negb _); cbn; [done|]. unfold state_of, invoke, mbind, eff_bind. cbn. by rewrite E.
  - destruct (invoke_new _ _ c) as [c' [x|e]]; [done|]. cbn [fst]. destruct (threads c' !! sr_run_id r); cbn.
    + by repeat case_match; simplify_eq/=.
    + by repeat case_match; simplify_eq/=.
Qed.

Lemma resume_world run_id tenant b c :
  world (resume (H := runtime) run_id tenant b) c = c ∨
  ∃ th, threads c !! run_id = Some th ∧ shown_interrupts keeps th ≠ [] ∧
    world (resume (H := runtime) run_id tenant b) c
    = (invoke_command (GraphRuntime := runtime) run_id (resume_payload b) c).1.
Proof.
  unfold resume, state_of, world, invoke, mbind, eff_bind, raise, mret, eff_ret.
  cbn [get_state checkpointed]. destruct (is_nil _) eqn:Hnil; [by left|].
  destruct (threads c !! run_id) as [th|] eqn:E; cbn [snapshot_of] in *; [|by left].
  destruct (_ || _); [by left|]. right. exists th. split; [done|]. split.
  - intros Hs. unfold interrupts_of, snap_tasks, tasks_of in Hnil. destruct (th_at th); cbn in Hnil; by rewrite ?Hs in Hnil.
  - by destruct (invoke_command _ _ c) as [c' [x|e]].
Qed.

Lemma try_raise_world {A} (m : eff (cluster W) service_call exn A) (h : exn → eff (cluster W) service_call exn A) c :
  (∀ e c', world (h e) c' = c') → world (try_except m h) c = world m c.
Proof.
  intros Hh. unfold world, try_except in *. destruct (m c) as [[c1 t1] [a|e]]; [done|].
  specialize (Hh e c1). cbn in *. by destruct (h e c1) as [[c2 t2] r].
Qed.

(** A request changes nothing, starts a new thread, or continues one that
    shows an interrupt. *)
Lemma handle_world q c :
  let c' := world (handle max_repairs keeps trace_id_of q) c in
  c' = c ∨
  (∃ r, threads c !! sr_run_id r = None ∧
     c' = (invoke_new (GraphRuntime := runtime) (sr_run_id r) (initial_state r) c).1) ∨
  (∃ run_id payload th, threads c !! run_id = Some th ∧ shown_interrupts keeps th ≠ [] ∧
     c' = (invoke_command (GraphRuntime := runtime) run_id payload c).1).
Proof.
  destruct q as [job ds question tenant user role tp|run_id tenant role body]; cbn [handle].
  - unfold start_run. rewrite try_raise_world by (by intros []).
    unfold world at 1 2 3, mbind, eff_bind, lift_result. destruct (trace_id _ _) as [t|e]; [|by left].
    destruct (StartRun_validate _) as [r|e]; [|by left].
    pose proof (start_world r c) as Hw. unfold world in Hw.
    destruct (start r c) as [[c' t'] o]. cbn in *. subst c'.
    destruct (threads c !! sr_run_id r) as [th|] eqn:E; [by left|]. right. left. by exists r.
  - unfold resume_run. destruct (negb _); [by left|]. rewrite try_raise_world by (by intros []).
    unfold world at 1 2 3, mbind, eff_bind, lift_result. destruct (ApprovalResume_validate _) as [r|e]; [|by left].
    pose proof (resume_world run_id tenant r c) as Hw. unfold world in Hw.
    destruct (resume run_id tenant r c) as [[c' t'] o]. cbn in *.
    destruct Hw as [-> | (th & Hth & Hs & ->)]; [by left|]. right. right. by exists run_id, (resume_payload r), th.
Qed.

Definition thread_ok (run_id : string) (th : thread) (made : list agent_call) : Prop :=
  st_run_id (th_state th) = run_id ∧ thread_inv max_repairs th ∧
  executions run_id made + reserve max_repairs th ≤ Z.to_nat (max_repairs + 1).
(** Every call so far was cleared, and no run has executed or can still
    execute more often than its attempts allow. *)
Definition cluster_inv c : Prop :=
  Forall (call_ok (W := W)) (calls_made c) ∧
  ∀ run_id, match threads c !! run_id with
            | Some th => thread_ok run_id th (calls_made c)
            | None => executions run_id (calls_made c) = 0
            end.

Lemma cluster_inv_initial w : cluster_inv {| threads := ∅; calls_made := []; actions_world := w |}.
Proof. split; [constructor|]. intros run_id. cbn [threads calls_made]. by rewrite lookup_empty. Qed.

(** Continuing one thread keeps the invariant, if its budget covers it. *)
Lemma advance_inv c fuel payload n s :
  cluster_inv c → node_inv max_repairs n s →
  executions (st_run_id s) (calls_made c) + budget max_repairs n s ≤ Z.to_nat (max_repairs + 1) →
  cluster_inv (advance keeps (st_run_id s) (run_saved max_repairs fuel payload n s) c).1.
Proof using Hmax OnlyPauseInterrupts0.
  intros [Hc Ht] Hinv Hb. pose proof (run_saved_ok max_repairs Hmax fuel payload n s Hinv (actions_world c)) as Hrun.
  unfold advance, trace, outcome in *.
  destruct (run_saved max_repairs fuel payload n s (actions_world c)) as [[w t] r].
  cbn [fst snd] in Hrun. destruct Hrun as (th & -> & [Hid Hcalls Ho Hbud Hi]). split; [by apply Forall_app|].
  intros run_id. cbn [fst threads calls_made]. destruct (decide (run_id = st_run_id s)) as [->|Hne].
  - rewrite lookup_insert_eq. split; [exact Hid|]. split; [exact Hi|]. rewrite executions_app. lia.
  - rewrite lookup_insert_ne by done. specialize (Ht run_id). specialize (Ho run_id Hne).
    destruct (threads c !! run_id) as [th'|].
    + destruct Ht as (Hid' & Hi' & Hb'). split; [done|]. split; [done|]. rewrite executions_app. lia.
    + rewrite executions_app. lia.
Qed.

Lemma handle_inv q c : cluster_inv c → cluster_inv (world (handle max_repairs keeps trace_id_of q) c).
Proof using Hmax OnlyPauseInterrupts0.
  intros Hc. destruct (handle_world q c) as [-> |[(r & Hnew & ->)|(run_id & payload & th & Hth & Hs & ->)]]; [done|..].
  - apply (advance_inv c recursion_limit None Classify (initial_state r)); [done| |].
    + split; [|done]. unfold attempts_within. cbn. lia.
    + pose proof (proj2 Hc (sr_run_id r)) as H0'. rewrite Hnew in H0'. cbn [initial_state st_run_id].
      rewrite H0'. unfold budget, repairs_left. cbn. lia.
  - pose proof (proj2 Hc run_id) as Hok. rewrite Hth in Hok. destruct Hok as (Hid & Hi & Hb).
    cbn [invoke_command checkpointed]. rewrite Hth. unfold thread_inv, reserve, shown_interrupts in *.
    destruct (th_at th) as [|n|n e]; [done|..].
    + rewrite <-Hid. apply advance_inv; [done|by destruct Hi as [-> ?]|]. by rewrite Hid.
    + case_bool_decide as Hn; [subst n|done]. rewrite <-Hid.
      apply advance_inv; [done|by apply Hi|]. rewrite Hid. by rewrite decide_True in Hb.
Qed.

Lemma reachable_inv c : reachable max_repairs keeps trace_id_of c → cluster_inv c.
Proof using Hmax OnlyPauseInterrupts0.
  induction 1 as [w|c q _ IH]; [apply cluster_inv_initial|by apply handle_inv].
Qed.

(** A thread that shows no interrupt is left as it is, and so are its calls. *)
Lemma settled_thread q c run_id th :
  cluster_inv c → threads c !! run_id = Some th → shown_interrupts keeps th = [] →
  let c' := world (handle max_repairs keeps trace_id_of q) c in
  threads c' !! run_id = Some th ∧ executions run_id (calls_made c') = executions run_id (calls_made c).
Proof using Hmax OnlyPauseInterrupts0.
  intros Hc Hth Hs c'. unfold c'. clear c'.
  assert (∀ fuel payload n s, node_inv max_repairs n s → st_run_id s ≠ run_id →
    threads (advance keeps (st_run_id s) (run_saved max_repairs fuel payload n s) c).1 !! run_id = Some th ∧
    executions run_id (calls_made (advance keeps (st_run_id s) (run_saved max_repairs fuel payload n s) c).1)
      = executions run_id (calls_made c)) as Hother.
  { intros fuel payload n s Hinv Hne.
    pose proof (run_saved_ok max_repairs Hmax fuel payload n s Hinv (actions_world c)) as Hrun.
    unfold advance, trace, outcome in *.
    destruct (run_saved max_repairs fuel payload n s (actions_world c)) as [[w t] r].
    cbn [fst snd] in Hrun. destruct Hrun as (th' & -> & [Hid Hcalls Ho _ _]). cbn [fst threads calls_made]. rewrite lookup_insert_ne by done.
    split; [done|]. rewrite executions_app, Ho by done. lia. }
  destruct (handle_world q c) as [-> |[(r & Hnew & ->)|(id & payload & th' & Hth' & Hs' & ->)]]; [done|..].
  - apply (Hother recursion_limit None Classify (initial_state r)).
    + split; [|done]. unfold attempts_within. cbn. lia.
    + intros E. cbn in E. by rewrite E, Hth in Hnew.
  - pose proof (proj2 Hc id) as Hok. rewrite Hth' in Hok. destruct Hok as (Hid & Hi & _).
    assert (id ≠ run_id) as Hne by (intros ->; by simplify_eq).
    cbn [invoke_command checkpointed]. rewrite Hth'. unfold thread_inv, shown_interrupts in *.
    destruct (th_at th') as [|n|n e]; [done|..]; rewrite <-Hid in *; apply Hother; try done.
    + by destruct Hi as [-> ?].
    + case_bool_decide as Hn; [subst n; by apply Hi|done].
Qed.
End Clusters.

(** ** Theorems *)

(** C4: whatever requests the two endpoints get, in whatever order and from
    whomever, the SQL of a run is executed only in cleared states, and at most
    [max_repairs + 1] times in all: repeated starts, resumes that arrive twice,
    and resumes of a run whose approval node failed do not add to it. *)
Theorem requests_execute_within_budget : ∀ (D : Digests) W (E : AgentEnv W) (A : AgentActions W)
    (Ok_ : AgentActionsOk W) (O : OnlyPauseInterrupts W) max_repairs keeps trace_id_of c,
  max_repairs_ok max_repairs = true → reachable max_repairs keeps trace_id_of c →
  Forall (call_ok (W := W)) (calls_made c) ∧
  ∀ run_id, executions run_id (calls_made c) ≤ Z.to_nat (max_repairs + 1).
Proof.
  intros D W E A Ok_ O max_repairs keeps trace_id_of c Hm Hc. unfold max_repairs_ok, within in Hm. split_bools.
  destruct (reachable_inv max_repairs ltac:(lia) keeps trace_id_of c Hc) as [Hcalls Hruns].
  split; [done|]. intros run_id. specialize (Hruns run_id).
  destruct (threads c !! run_id); [destruct Hruns as (_ & _ & ?)|]; lia.
Qed.

Fixpoint handle_all `{Digests} {W : Type} `{AgentEnv W} `{AgentActions W} (max_repairs : Z) (keeps : bool)
    (trace_id_of : string → result exn string) (qs : list request) (c : cluster W) : cluster W :=
  match qs with
  | [] => c
  | q :: qs => handle_all max_repairs keeps trace_id_of qs (world (handle max_repairs keeps trace_id_of q) c)
  end.

(** C9: a run that has finished, was rejected or has failed, so that no
    interrupt of it is shown, is settled: no later request changes its thread
    or executes its SQL again. *)
Theorem settled_runs_stay : ∀ (D : Digests) W (E : AgentEnv W) (A : AgentActions W)
    (Ok_ : AgentActionsOk W) (O : OnlyPauseInterrupts W) max_repairs keeps trace_id_of c run_id th qs,
  max_repairs_ok max_repairs = true → reachable max_repairs keeps trace_id_of c →
  threads c !! run_id = Some th → shown_interrupts keeps th = [] →
  let c' := handle_all max_repairs keeps trace_id_of qs c in
  threads c' !! run_id = Some th ∧ executions run_id (calls_made c') = executions run_id (calls_made c).
Proof.
  intros D W E A Ok_ O max_repairs keeps trace_id_of c run_id th qs Hm Hc Hth Hs.
  unfold max_repairs_ok, within in Hm. split_bools. revert c Hc Hth.
  induction qs as [|q qs IH]; intros c Hc Hth; [done|]. cbn [handle_all].
  pose proof (reachable_inv max_repairs ltac:(lia) keeps trace_id_of c Hc) as Hinv.
  destruct (settled_thread max_repairs ltac:(lia) keeps trace_id_of q c run_id th Hinv Hth Hs) as [Hth' He].
  destruct (IH (world (handle max_repairs keeps trace_id_of q) c)) as [? ->]; [by constructor|done|done].
Qed.

(** ** agent/demo.py *)

#[export] Instance demo_only_pause approval : OnlyPauseInterrupts nat (H0 := DemoActions approval).
Proof. split; [|done]. repeat constructor; intros s w w'; cbn; unfold reply_with; done. Qed.

Definition demo_trace (traceparent : string) : result exn string := Ok "0123456789abcdef".
Definition demo_http_start : request :=
  HttpStart "run" "source" "Offline demo" "tenant" "user" "ANALYST" "00-0123456789abcdef".
Definition demo_http_resume (d : decision) : request :=
  HttpResume "run" "tenant" "ADMIN"
    {| approval_id := "approval"; resume_decision := d; decided_by := "admin"; comment := None |}.

Definition demo_handle (approval : bool) (q : request) : eff (cluster nat) service_call exn WorkflowResult :=
  handle (H1 := DemoActions approval) 2 true demo_trace q.
Definition demo_after (approval : bool) (qs : list request) : cluster nat :=
  handle_all (H1 := DemoActions approval) 2 true demo_trace qs
    {| threads := ∅; calls_made := []; actions_world := 0 |}.
Definition status_of (r : result exn WorkflowResult) : option RunStatus :=
  match r with Ok x => Some (wr_status x) | Err _ => None end.

(** The assertions of [demo]: without approval the run completes after one
    repair; with it the run waits before anything is executed, completes once
    approved, and in both cases a replayed start executes nothing more. *)
Example demo_asserts :
  status_of (outcome (demo_handle false demo_http_start) (demo_after false [])) = Some COMPLETED ∧
  actions_world (demo_after false [demo_http_start; demo_http_start]) = 1 ∧
  status_of (outcome (demo_handle true demo_http_start) (demo_after true [])) = Some WAITING_APPROVAL ∧
  actions_world (demo_after true [demo_http_start]) = 0 ∧
  status_of (outcome (demo_handle true (demo_http_resume Approved)) (demo_after true [demo_http_start]))
    = Some COMPLETED ∧
  status_of (outcome (demo_handle true demo_http_start)
    (demo_after true [demo_http_start; demo_http_resume Approved])) = Some COMPLETED ∧
  actions_world (demo_after true [demo_http_start; demo_http_resume Approved; demo_http_start]) = 1.
Proof. vm_compute. done. Qed.

(** Two starts of a new run that both read the thread before either has
    written it both run the graph. *)
Example overlapping_starts :
  let c0 := demo_after false [] in
  let runtime := checkpointed (H1 := DemoActions false) 2 true in
  outcome (state_of (H := runtime) "run") c0 = Ok NoThread ∧
  let start c := (invoke_new (GraphRuntime := runtime) "run" (initial_state demo_start) c).1 in
  executions "run" (calls_made (start (start c0))) = 2.
Proof. vm_compute. done. Qed.

Lemma demo_reachable approval qs c :
  reachable (H1 := DemoActions approval) 2 true demo_trace c →
  reachable (H1 := DemoActions approval) 2 true demo_trace
    (handle_all (H1 := DemoActions approval) 2 true demo_trace qs c).
Proof. revert c. induction qs as [|q qs IH]; intros c Hc; [done|]. apply IH. by constructor. Qed.

Definition demo_approved : cluster nat :=
  demo_after true [demo_http_start; demo_http_start; demo_http_resume Approved; demo_http_resume Approved].

Lemma requests_execute_within_budget_witness :
  executions "run" (calls_made demo_approved) = 1 ∧
  Forall (call_ok (W := nat) (H2 := DemoActionsOk true)) (calls_made demo_approved) ∧
  ∀ run_id, executions run_id (calls_made demo_approved) ≤ Z.to_nat (2 + 1).
Proof.
  split; [vm_compute; reflexivity|].
  apply (requests_execute_within_budget demo_digests nat demo_agent_env (DemoActions true) (DemoActionsOk true)
    (demo_only_pause true) 2 true demo_trace); [reflexivity|].
  apply demo_reachable. constructor.
Defined.

Lemma settled_runs_stay_witness :
  ∃ th, threads demo_approved !! "run" = Some th ∧
    threads (handle_all (H1 := DemoActions true) 2 true demo_trace
      [demo_http_start; demo_http_resume Rejected] demo_approved) !! "run" = Some th.
Proof.
  assert (∃ th, threads demo_approved !! "run" = Some th ∧ shown_interrupts true th = []) as (th & Hth & Hs)
    by (eexists; split; vm_compute; reflexivity).
  exists th. split; [exact Hth|].
  apply (settled_runs_stay demo_digests nat demo_agent_env (DemoActions true) (DemoActionsOk true)
    (demo_only_pause true) 2 true demo_trace demo_approved "run" th
    [demo_http_start; demo_http_resume Rejected]); [reflexivity| |exact Hth|exact Hs].
  apply demo_reachable. constructor.
Defined.
