(* ===== verification/AgentDemo.v ===== *)
(** * The offline demonstration: [demo] of [app/agent/demo.py]

    The two runs of the demonstration with their assertions, over the
    scripted actions, the in-memory step sink and the in-memory checkpoints.
    [uuid4] is a supply of ids. *)

From S2P Require Import Prelude PyStr Floats Errors Json Metadata AgentState AgentGraph AgentService Workflow.

(** [actions.executions] and [sink.records]. *)
Record demo_world := { dw_executions : nat; dw_records : list AgentStepRecord }.
Definition new_demo_world : demo_world := {| dw_executions := 0; dw_records := [] |}.

(** [InMemoryAgentStepSink]; no approval sink is given to the graph. *)
Definition InMemoryAgentStepSink (clock : Z) : AgentEnv demo_world := {|
  step_sink r w := ({| dw_executions := dw_executions w; dw_records := dw_records w ++ [r] |}, Ok tt);
  approval_sink _ w := (w, Ok tt); node_clock w := (w, clock) |}.

Definition counting {A} (o : op nat exn A) : op demo_world exn A := λ w,
  let '(n, r) := o (dw_executions w) in ({| dw_executions := n; dw_records := dw_records w |}, r).
Definition demo_actions (approval : bool) : AgentActions demo_world :=
  let a := DemoActions approval in {|
  classify s := counting (classify (AgentActions := a) s);
  retrieve_metrics s := counting (retrieve_metrics (AgentActions := a) s);
  select_schema s := counting (select_schema (AgentActions := a) s);
  generate_sql s := counting (generate_sql (AgentActions := a) s);
  guard_sql s := counting (guard_sql (AgentActions := a) s);
  execute_sql s := counting (execute_sql (AgentActions := a) s);
  verify s := counting (verify (AgentActions := a) s);
  compose s := counting (compose (AgentActions := a) s) |}.

Record demo_record := {
  dr_approval : bool; dr_status : RunStatus; dr_sql_executions : nat; dr_attempts : Z;
  dr_node_events : list (string * string * Z) }.

Section Demo.
Context `{Digests} (clock : Z) (uuid : nat → string) (hex : string).
Notation M := (eff (cluster demo_world) service_call exn).

Definition asserted (b : bool) : M unit := lift_result (ensure b (OtherException "AssertionError")).
Definition world_now : M demo_world := silent (λ c, (c, actions_world c)).
#[local] Instance RunStatus_eq_dec : EqDecision RunStatus.
Proof. solve_decision. Defined.

Definition demo_request : StartRun := {|
  sr_run_id := uuid 0; sr_tenant_id := uuid 1; sr_user_id := uuid 2; sr_data_source_id := uuid 3;
  sr_role := "ANALYST"; sr_trace_id := hex; sr_question := "Offline demo" |}.
Definition demo_approval : ApprovalResume := {|
  approval_id := uuid 4; resume_decision := Approved; decided_by := uuid 5; comment := None |}.

(** The body of the loop. *)
Definition demo_one (approval : bool) : M demo_record :=
  let runtime := checkpointed (H0 := InMemoryAgentStepSink clock) (H1 := demo_actions approval) 2 true in
  result ← start (H := runtime) demo_request;
  result ← (if approval then
              w ← world_now;
              _ ← asserted (bool_decide (wr_status result = WAITING_APPROVAL) && (dw_executions w =? 0));
              resume (H := runtime) (sr_run_id demo_request) (sr_tenant_id demo_request) demo_approval
            else mret result);
  replay ← start (H := runtime) demo_request;
  w ← world_now;
  _ ← asserted (bool_decide (wr_status result = wr_status replay) && bool_decide (wr_status replay = COMPLETED)
                && (dw_executions w =? 1));
  _ ← asserted (forallb (λ r, negb (String.eqb (sp_status r) "FAILED")) (dw_records w));
  mret {| dr_approval := approval; dr_status := wr_status result; dr_sql_executions := dw_executions w;
          dr_attempts := st_attempts (wr_state result);
          dr_node_events := map (λ r, (sp_step_name r, sp_status r, sp_duration_ms r)) (dw_records w) |}.

(** Each turn has its own actions, sink and saver. *)
Definition demo_run (approval : bool) : result exn demo_record :=
  outcome (demo_one approval) {| threads := ∅; calls_made := []; actions_world := new_demo_world |}.
Definition demo : result exn (list demo_record) :=
  first ← demo_run false; second ← demo_run true; Ok [first; second].
End Demo.

(** With fixed ids the demonstration passes its assertions: one repaired run
    with two attempts, and one approved run, each with a single execution. *)
Example demo_passes :
  (map (λ r, (dr_approval r, dr_status r, dr_sql_executions r, dr_attempts r,
              map (λ e, e.1.1) (dr_node_events r)))
   <$> demo (H := demo_digests) 0 str_of_nat "0123456789abcdef0123456789abcdef")
  = Ok [(false, COMPLETED, 1, 2%Z,
         ["classify"; "retrieve_metrics"; "select_schema"; "generate_sql"; "guard_sql"; "generate_sql"; "guard_sql";
          "execute_sql"; "verify"; "compose"]);
        (true, COMPLETED, 1, 1%Z,
         ["classify"; "retrieve_metrics"; "select_schema"; "generate_sql"; "guard_sql"; "request_approval";
          "request_approval"; "request_approval"; "execute_sql"; "verify"; "compose"])].
Proof. vm_compute. reflexivity. Qed.
