(* ===== verification/Application.v ===== *)
(** * The application shell: [app/main.py], [agent/factory.py],
      [agent/checkpoint.py] and the platform sinks of [agent/steps.py]

    What the service opens when it starts and closes when it stops, the
    middleware and the two operations endpoints, and the HTTP calls that
    report steps and approvals to the platform.  FastAPI, the checkpointer,
    the Neo4j driver and the MCP session manager are an interface. *)

From S2P Require Import Prelude PyStr Floats Errors Json Metadata Policy SqlGuard Numbers DataSources.
From S2P Require Import Executor SafeQuery StructuredLLM QuestionGuard NL2SQL AgentState AgentGraph Observability.
From S2P Require Import Parsing Embeddings KnowledgeRepository RetrievalService Providers PyText Decimal FloatText.
From S2P Require Import PostgresKnowledge Settings.

(** ** steps.py: the platform sinks *)

Inductive platform_call := PlatformPost (url : string) (headers : list (string * string)) (body : pyval).

(** httpx's [raise_for_status]: anything but a success is an error. *)
Definition raise_for_status (status : Z) : result exn unit :=
  if ((200 <=? status) && (status <? 300))%Z then Ok tt else Err (HttpxStatusError status).

Definition step_body (r : AgentStepRecord) : pyval :=
  PDict [("step_name", PStr (sp_step_name r)); ("status", PStr (sp_status r)); ("attempt", PInt (sp_attempt r));
         ("input_summary", PDict (sp_input_summary r)); ("output_summary", PDict (sp_output_summary r));
         ("duration_ms", PInt (sp_duration_ms r)); ("error_code", opt_str (sp_error_code r))].
Definition approval_body (s : AgentState) : pyval :=
  PDict [("reason_codes", str_list (st_risk_reasons s)); ("sql_fingerprint", opt_str (st_sql_fingerprint s))].

Section Sinks.
Context {W : Type} (httpx_post : string → list (string * string) → pyval → op W exn Z).
Context (base_url service_token : string).
Notation M := (eff W platform_call exn).

Definition post (url : string) (headers : list (string * string)) (body : pyval) : M unit :=
  status ← invoke (PlatformPost url headers body) (httpx_post url headers body);
  lift_result (raise_for_status status).

Definition service_headers : list (string * string) := [("Authorization", "Bearer " +:+ service_token)].
Definition job_url (run_id : string) : string :=
  rstrip_slash base_url +:+ "/internal/v1/analysis/jobs/" +:+ run_id.

Definition PlatformAgentStepSink_record (r : AgentStepRecord) : M unit :=
  post (job_url (sp_run_id r) +:+ "/steps") service_headers (step_body r).

Definition PlatformApprovalRequestSink_ensure_pending (s : AgentState) : M unit :=
  post (job_url (st_run_id s) +:+ "/approval-requests")
    (service_headers ++ [("X-Trace-Id", st_trace_id s)]) (approval_body s).

(** The environment of the production nodes. *)
Definition platform_env (clock : W → W * Z) : AgentEnv W := {|
  step_sink r := as_op (PlatformAgentStepSink_record r);
  approval_sink s := as_op (PlatformApprovalRequestSink_ensure_pending s);
  node_clock := clock |}.
End Sinks.

(** ** The lifetime of the service *)

Inductive resource := Checkpointer | GraphDriver | ModelClient | McpSessions.
#[export] Instance resource_eq_dec : EqDecision resource. Proof. solve_decision. Defined.

Inductive app_call :=
| Opening (x : resource)
| Opened (x : resource)
| SetupCheckpoints
| SetupGraph
| Serve
| Closed (x : resource).

Class AppEnv (W : Type) := {
  open_resource : resource → op W exn unit;
  close_resource : resource → op W exn unit;
  checkpointer_setup : op W exn unit;
  graph_setup : op W exn unit;
  serve : op W exn unit
}.

Record app_settings := {
  as_llm : LLMSettings; as_retrieval : RetrievalSettings; as_platform : PlatformDatabaseSettings;
  as_business : BusinessDatabaseSettings; as_workflow : AgentWorkflowSettings; as_graph : GraphSettings }.

Section Lifetime.
Context `{Digests} {W : Type} `{AppEnv W} (s : app_settings).
Notation M := (eff W app_call exn).

Definition acquire (x : resource) : M unit := _ ← invoke (Opening x) (open_resource x); log_call (Opened x).
Definition release (x : resource) : M unit := invoke (Closed x) (close_resource x).
(** [with ... :]. *)
Definition within_resource {A} (x : resource) (body : M A) : M A :=
  _ ← acquire x; finally body (λ _, release x).

(** checkpoint.py; [build_agent_graph] checks the number of repairs. *)
Definition postgres_workflow_service {A} (setup : bool) (max_repairs : Z) (body : M A) : M A :=
  within_resource Checkpointer
    (_ ← (if setup then invoke SetupCheckpoints checkpointer_setup else mret tt);
     _ ← lift_result (ensure (max_repairs_ok max_repairs) ValueError);
     body).

(** factory.py. *)
Definition create_production_workflow_service {A} (setup_checkpointer : bool) (body : M A) : M A :=
  _ ← lift_result (create_structured_llm_client (as_llm s));
  _ ← lift_result (create_production_retrieval_service (as_platform s) (as_retrieval s));
  _ ← lift_result (from_settings (as_business s));
  postgres_workflow_service setup_checkpointer (aw_max_repairs (as_workflow s)) body.

(** [store] and [llm] after the graph part of the [try] block, and how it
    ended. *)
Definition graph_resources : M (bool * bool * result exn unit) :=
  if negb (gs_enabled (as_graph s)) then mret (false, false, Ok tt)
  else
    opened ← try_except (_ ← acquire GraphDriver; mret (Ok tt)) (λ e, mret (Err e));
    match opened with
    | Err e => mret (false, false, Err e)
    | Ok _ =>
        ready ← try_except (_ ← invoke SetupGraph graph_setup; mret (Ok tt)) (λ e, mret (Err e));
        match ready with
        | Err e => mret (true, false, Err e)
        | Ok _ =>
            match create_structured_llm_client (as_llm s) with
            | Err e => mret (true, false, Err e)
            | Ok _ => _ ← log_call (Opened ModelClient); mret (true, true, Ok tt)
            end
        end
    end.

(** [aclose] of the production client has nothing to close. *)
Definition aclose : M unit := log_call (Closed ModelClient).

Definition lifespan : M unit :=
  create_production_workflow_service true
    (_ ← lift_result (create_production_retrieval_service (as_platform s) (as_retrieval s));
     '(store, llm, ready) ← graph_resources;
     finally
       (_ ← lift_result ready; within_resource McpSessions (invoke Serve serve))
       (λ _, _ ← (if llm : bool then aclose else mret tt);
             if store : bool then release GraphDriver else mret tt)).
End Lifetime.

(** ** main.py: the middleware and the operations endpoints *)

Section Endpoints.
Context {W : Type} (perf_counter : W → W * float).
Notation M := (eff W obs_call exn).

Definition metrics_middleware (metrics_enabled : bool) (route : option string) (method path : string)
    (call_next : op W exn Z) : M Z :=
  if negb metrics_enabled then invoke CallNext call_next
  else observe_http perf_counter route method path call_next.
End Endpoints.

Record HealthResponse := { hr_service : string; hr_status : string; hr_version : string; hr_timestamp : string }.
Definition health (service_name version now : string) : HealthResponse :=
  {| hr_service := service_name; hr_status := "UP"; hr_version := version; hr_timestamp := now |}.
(** The status of [/metrics]. *)
Definition metrics (metrics_enabled : bool) : Z := if metrics_enabled then 200 else 404.

(** ** Resources are nested *)

(** The resources open after a trace, the last one first; [None] when one is
    closed that is not the last one opened. *)
Fixpoint open_after (stack : list resource) (t : list app_call) : option (list resource) :=
  match t with
  | [] => Some stack
  | Opened x :: t => open_after (x :: stack) t
  | Closed x :: t =>
      match stack with
      | y :: stack => if decide (x = y) then open_after stack t else None
      | [] => None
      end
  | _ :: t => open_after stack t
  end.

Lemma open_after_app stack t t' : open_after stack (t ++ t') = k ← open_after stack t; open_after k t'.
Proof.
  revert stack. induction t as [|[] t IH]; intros stack; cbn [app open_after]; auto.
  destruct stack; [done|]. destruct (decide _); [apply IH|done].
Qed.

(** A trace that closes what it opens. *)
Definition balanced (t : list app_call) : Prop := ∀ stack, open_after stack t = Some stack.

Lemma balanced_app t t' : balanced t → balanced t' → balanced (t ++ t').
Proof. intros Ht Ht' stack. rewrite open_after_app, Ht. apply Ht'. Qed.
Lemma balanced_bracket x t : balanced t → balanced (Opened x :: t ++ [Closed x]).
Proof.
  intros Ht stack. cbn [open_after]. rewrite open_after_app, Ht. cbn [mbind option_bind open_after].
  by rewrite decide_True.
Qed.
Lemma balanced_nil : balanced [].
Proof. done. Qed.

Section Nested.
Context `{Digests} {W : Type} `{AppEnv W} (s : app_settings).
Notation M := (eff W app_call exn).

Lemma within_balanced {A} x (body : M A) :
  sat body (λ t _, balanced t) → sat (within_resource x body) (λ t _, balanced t).
Proof.
  intros Hb. apply sat_bind, sat_bind, sat_invoke. intros [[]|e]; [|by intros stack].
  apply sat_log, sat_finally. cbn [app]. refine (sat_conseq _ _ _ Hb _). intros t r Ht.
  apply sat_invoke. intros r'. intros stack. exact (balanced_bracket x t Ht stack).
Qed.

Lemma lift_balanced {A B} (r : result exn A) (f : A → M B) :
  (∀ a, sat (f a) (λ t _, balanced t)) → sat (lift_result r ≫= f) (λ t _, balanced t).
Proof. intros Hf. apply sat_bind, sat_lift. destruct r; [apply Hf|apply balanced_nil]. Qed.

(** The graph part leaves open what it reports. *)
Lemma graph_resources_run :
  sat (graph_resources s : M (bool * bool * result exn unit)) (λ t r, ∃ store llm ready,
    r = Ok (store, llm, ready) ∧
    (∀ stack, open_after stack t
       = Some ((if llm : bool then [ModelClient] else []) ++ (if store : bool then [GraphDriver] else []) ++ stack)) ∧
    (ready = Ok tt → gs_enabled (as_graph s) = true → store = true ∧ llm = true)).
Proof.
  unfold graph_resources. destruct (gs_enabled (as_graph s)); cbn [negb].
  2:{ apply sat_ret. by exists false, false, (Ok tt). }
  apply sat_bind, sat_try, sat_bind, sat_bind, sat_invoke. intros [[]|e].
  2:{ apply sat_ret, sat_ret. by exists false, false, (Err e). }
  apply sat_log, sat_ret, sat_bind, sat_try, sat_bind, sat_invoke. intros [[]|e].
  2:{ apply sat_ret, sat_ret. by exists true, false, (Err e). }
  apply sat_ret. destruct (create_structured_llm_client (as_llm s)) as [c|e].
  - apply sat_bind, sat_log, sat_ret. by exists true, true, (Ok tt).
  - apply sat_ret. by exists true, false, (Err e).
Qed.

End Nested.

(** C25: whatever fails while the service starts, serves or stops, each resource
    it has opened is closed again, in the reverse order: the MCP sessions,
    the model client, the graph driver, the checkpointer. *)
Theorem lifespan_releases : ∀ (D : Digests) W (E : AppEnv W) s,
  sat (lifespan s : eff W app_call exn unit) (λ t _, balanced t).
Proof.
  intros D W E s. unfold lifespan, create_production_workflow_service, postgres_workflow_service.
  do 3 (apply lift_balanced; intros ?). apply within_balanced, sat_bind, sat_invoke. intros [[]|e]; [|by intros stack].
  cbn [app]. eapply sat_conseq; [|intros t r Ht; apply (balanced_app [SetupCheckpoints] t); [by intros stack|exact Ht]].
  do 2 (apply lift_balanced; intros ?).
  apply sat_bind. refine (sat_conseq _ _ _ (graph_resources_run s) _).
  intros t ? (store & llm & ready & -> & Hopen & _).
  apply sat_finally. assert (sat (_ ← lift_result ready; within_resource McpSessions (invoke Serve serve))
    (λ t _, balanced t)) as Hserve.
  { apply lift_balanced. intros _. apply within_balanced, sat_invoke. by intros r stack. }
  refine (sat_conseq _ _ _ Hserve _). intros t1 r1 Ht1.
  assert (∀ t2, (∀ stack, open_after ((if llm : bool then [ModelClient] else [])
      ++ (if store : bool then [GraphDriver] else []) ++ stack) t2 = Some stack) → balanced (t ++ (t1 ++ t2))) as Hall.
  { intros t2 Ht2 stack. rewrite open_after_app, Hopen. cbn [mbind option_bind]. rewrite open_after_app, Ht1. apply Ht2. }
  apply sat_bind. destruct llm; [apply sat_log|apply sat_ret]; (destruct store; [apply sat_invoke; intros ?|apply sat_ret]);
    apply Hall; intros stack; cbn; by rewrite ?decide_True.
Qed.

(** ** What the platform is told *)

(** The parts of a state the platform may learn. *)
Definition platform_view `{Digests} (s : AgentState) :=
  (public_view s, st_run_id s, st_trace_id s, st_risk_reasons s, st_sql_fingerprint s).

(** C26: what is posted about a node or an approval is determined by the run
    id, the trace id, the risk reasons, the SQL fingerprint and the public
    view: two runs that agree on those, whatever their questions, SQL texts,
    rows and answers, post the same bodies to the same addresses, for a step
    that succeeds, one that fails and one that waits. *)
Theorem platform_posts_redacted : ∀ (D : Digests) W post_op base token s1 s2,
  platform_view s1 = platform_view s2 →
  (∀ w, trace (PlatformApprovalRequestSink_ensure_pending (W := W) post_op base token s1) w
      = trace (PlatformApprovalRequestSink_ensure_pending post_op base token s2) w) ∧
  (∀ w started now,
     trace (PlatformAgentStepSink_record (W := W) post_op base token (waiting_record s1 started now)) w
      = trace (PlatformAgentStepSink_record post_op base token (waiting_record s2 started now)) w) ∧
  (∀ w name r1 r2 u1 u2, platform_view (merge s1 u1) = platform_view (merge s2 u2) →
     succeeded_record name s1 u1 r1 → succeeded_record name s2 u2 r2 → sp_duration_ms r1 = sp_duration_ms r2 →
     trace (PlatformAgentStepSink_record post_op base token r1) w
      = trace (PlatformAgentStepSink_record (W := W) post_op base token r2) w) ∧
  (∀ w name r1 r2 e, failed_record name s1 e r1 → failed_record name s2 e r2 → sp_duration_ms r1 = sp_duration_ms r2 →
     trace (PlatformAgentStepSink_record post_op base token r1) w
      = trace (PlatformAgentStepSink_record (W := W) post_op base token r2) w).
Proof.
  intros D W post_op base token s1 s2 Hv.
  assert (∀ a b, platform_view a = platform_view b → state_summary a = state_summary b) as Hsum.
  { intros a b Hab. apply state_summary_noninterference. exact (f_equal (λ v, v.1.1.1.1) Hab). }
  assert (st_run_id s1 = st_run_id s2 ∧ st_trace_id s1 = st_trace_id s2 ∧ st_risk_reasons s1 = st_risk_reasons s2 ∧
    st_sql_fingerprint s1 = st_sql_fingerprint s2 ∧ st_attempts s1 = st_attempts s2) as (Hr & Ht & Hrr & Hf & Ha).
  { unfold platform_view, public_view in Hv. clear Hsum. injection Hv. intros. by split_and!. }
  split_and!.
  - intros w. unfold PlatformApprovalRequestSink_ensure_pending, approval_body. by rewrite Hr, Ht, Hrr, Hf.
  - intros w started now. unfold PlatformAgentStepSink_record, step_body, waiting_record.
    cbn [sp_run_id sp_step_name sp_status sp_attempt sp_input_summary sp_output_summary sp_duration_ms sp_error_code].
    by rewrite (Hsum s1 s2 Hv), Hr, Hrr, Hf, Ha.
  - intros w name r1 r2 u1 u2 Hu (I1 & N1 & S1 & A1 & In1 & O1 & E1 & _) (I2 & N2 & S2 & A2 & In2 & O2 & E2 & _) Hd.
    unfold PlatformAgentStepSink_record, step_body.
    by rewrite I1, N1, S1, A1, In1, O1, E1, I2, N2, S2, A2, In2, O2, E2, Hd, (Hsum s1 s2 Hv), (Hsum _ _ Hu), Hr, Ha.
  - intros w name r1 r2 e (I1 & N1 & S1 & A1 & In1 & O1 & E1 & _) (I2 & N2 & S2 & A2 & In2 & O2 & E2 & _) Hd.
    unfold PlatformAgentStepSink_record, step_body.
    by rewrite I1, N1, S1, A1, In1, O1, E1, I2, N2, S2, A2, In2, O2, E2, Hd, (Hsum s1 s2 Hv), Hr, Ha.
Qed.

Lemma platform_posts_redacted_witness :
  let run question := initial_state {| sr_run_id := "run"; sr_tenant_id := "t"; sr_user_id := "u";
    sr_role := "ANALYST"; sr_data_source_id := "d"; sr_trace_id := "0123456789abcdef"; sr_question := question |} in
  let posted question := trace (PlatformApprovalRequestSink_ensure_pending (W := unit) (λ _ _ _ w, (w, Ok 204%Z))
    "http://platform/" "token" (run question)) tt in
  posted "revenue by month" = posted "customers in Berlin".
Proof.
  intros run posted.
  assert (platform_view (run "revenue by month") = platform_view (run "customers in Berlin")) as Hv
    by (vm_compute; reflexivity).
  exact (proj1 (platform_posts_redacted demo_digests unit (λ _ _ _ w, (w, Ok 204%Z)) "http://platform/" "token"
    (run "revenue by month") (run "customers in Berlin") Hv) tt).
Defined.

(** A start with the graph enabled whose session manager fails while serving. *)
Definition demo_app_env (serving : result exn unit) : AppEnv unit := {|
  open_resource _ w := (w, Ok tt); close_resource _ w := (w, Ok tt); checkpointer_setup w := (w, Ok tt);
  graph_setup w := (w, Ok tt); serve w := (w, serving) |}.
Definition demo_app_settings : app_settings := {|
  as_llm := {| llm_provider := "openai-compatible"; llm_base_url := "http://model/v1"; llm_api_key := "";
    llm_model := "m"; llm_structured_output_mode := "json_object"; llm_request_timeout_seconds := f_of_Z 30;
    llm_connect_timeout_seconds := f_of_Z 5; llm_max_output_tokens := 2000; llm_max_attempts := 3;
    llm_invalid_response_retries := 1; llm_initial_backoff_seconds := fzero; llm_max_backoff_seconds := f_of_Z 2;
    llm_app_name := None; llm_site_url := None |};
  as_retrieval := RetrievalSettings_default; as_platform := PlatformDatabaseSettings_default;
  as_business := BusinessDatabaseSettings_default; as_workflow := AgentWorkflowSettings_default;
  as_graph := {| gs_enabled := true; gs_uri := "bolt://graph"; gs_user := "neo4j"; gs_password := "secret";
                 gs_database := "neo4j" |} |}.

Example lifespan_run :
  trace (lifespan (H0 := demo_app_env (Err RuntimeError)) demo_app_settings) tt
    = [Opening Checkpointer; Opened Checkpointer; SetupCheckpoints; Opening GraphDriver; Opened GraphDriver;
       SetupGraph; Opened ModelClient; Opening McpSessions; Opened McpSessions; Serve; Closed McpSessions;
       Closed ModelClient; Closed GraphDriver; Closed Checkpointer] ∧
  outcome (lifespan (H0 := demo_app_env (Err RuntimeError)) demo_app_settings) tt = Err RuntimeError.
Proof. vm_compute. done. Qed.

(** The default settings name no API key: the service does not start. *)
Example defaults_do_not_start :
  outcome (lifespan (H0 := demo_app_env (Ok tt)) {| as_llm := LLMSettings_default;
    as_retrieval := RetrievalSettings_default; as_platform := PlatformDatabaseSettings_default;
    as_business := BusinessDatabaseSettings_default; as_workflow := AgentWorkflowSettings_default;
    as_graph := GraphSettings_default |}) tt = Err LLMConfigurationError.
Proof. vm_compute. done. Qed.
