(* ===== verification/Production.v ===== *)
(** * The service over its database: [app/agent/factory.py]

    The parts that [create_production_workflow_service] puts together, in one
    world: the endpoints and their threads, the graph with its production
    actions, and the introspector, the estimator and the executor on a
    database driver whose calls are kept in a log.  The model client, the
    retrieval service and the platform's sinks work beside the log. *)

From S2P Require Import Prelude PyStr Floats Errors Json Metadata Policy SqlGuard Numbers DataSources Executor.
From S2P Require Import SafeQuery StructuredLLM QuestionGuard NL2SQL AgentState AgentGraph AgentService.
From S2P Require Import Parsing Embeddings KnowledgeRepository RetrievalService PyText Decimal Answering.
From S2P Require Import NorthwindActions Introspector Settings Workflow.

(** ** A world with a log of the driver's calls *)

Definition logged (W : Type) : Type := W * list db_call.

(** An operation that leaves the log alone, and one whose calls go to it. *)
Definition beside {W A} (o : op W exn A) : op (logged W) exn A := λ wl,
  let '(w, r) := o wl.1 in ((w, wl.2), r).
Definition recorded {W A} (m : eff W db_call exn A) : op (logged W) exn A := λ wl,
  let '(w, t, r) := m wl.1 in ((w, wl.2 ++ t), r).

(** The retrieval service as the actions use it. *)
Class MetricRetrieval (W : Type) := metric_retrieve : string → string → RetrievalMode → op W exn RetrievalResult.

#[export] Instance deployed_env {W} `{AgentEnv W} : AgentEnv (logged W) := {|
  step_sink r := beside (step_sink r);
  approval_sink s := beside (approval_sink s);
  node_clock wl := let '(w, t) := node_clock wl.1 in ((w, wl.2), t) |}.

#[export] Instance deployed_northwind `{Digests} {W} `{Psycopg W} `{ModelClient W} `{MetricRetrieval W} :
    NorthwindEnv (logged W) := {|
  nw_llm A rm ms := beside (ask rm ms);
  nw_retrieve tenant query mode := beside (metric_retrieve tenant query mode);
  nw_introspect c := recorded (introspect c);
  nw_estimate q c := recorded (estimate q c);
  nw_execute q c p := recorded (execute q c p) |}.

(** The actions that the factory builds from the settings. *)
Definition northwind_of_settings (business : BusinessDatabaseSettings) (safety : QuerySafetySettings)
    (workflow : AgentWorkflowSettings) : result exn northwind :=
  source ← from_settings business;
  Ok {| nw_data_source := source; nw_max_total_cost := qs_max_total_cost safety;
        nw_max_plan_rows := qs_max_plan_rows safety; nw_minimum_confidence := aw_minimum_confidence workflow;
        nw_controlled_columns := default_controlled_columns |}.

Lemma northwind_of_settings_source business safety workflow nw :
  northwind_of_settings business safety workflow = Ok nw → from_settings business = Ok (nw_data_source nw).
Proof. unfold northwind_of_settings. destruct (from_settings business); [by intros [= <-]|done]. Qed.

(** ** Invariants of the world *)

(** [keeps I m]: [m] leaves the world in [I] when it starts there. *)
Definition keeps {W C E A} (I : W → Prop) (m : eff W C E A) : Prop := ∀ w, I w → I (world m w).
Definition op_keeps {W E A} (I : W → Prop) (o : op W E A) : Prop := ∀ w, I w → I (o w).1.

Section Keeps.
Context {W C E : Type} (I : W → Prop).

Lemma keeps_pure {A} (r : result E A) : keeps I (lift_result r : eff W C E A).
Proof. by intros w. Qed.
Lemma keeps_ret {A} (a : A) : keeps I (mret a : eff W C E A).
Proof. by intros w. Qed.
Lemma keeps_raise {A} (e : E) : keeps I (raise e : eff W C E A).
Proof. by intros w. Qed.

Lemma keeps_invoke {A} (c : C) (o : op W E A) : op_keeps I o → keeps I (invoke c o).
Proof. intros Ho w Hw. specialize (Ho w Hw). unfold world, invoke. by destruct (o w). Qed.

Lemma keeps_silent {A} (o : W → W * A) : (∀ w, I w → I (o w).1) → keeps I (silent o : eff W C E A).
Proof. intros Ho w Hw. specialize (Ho w Hw). unfold world, silent. by destruct (o w). Qed.

Lemma keeps_bind {A B} (m : eff W C E A) (f : A → eff W C E B) :
  keeps I m → (∀ a, keeps I (f a)) → keeps I (m ≫= f).
Proof.
  intros Hm Hf w Hw. specialize (Hm w Hw). unfold world, mbind, eff_bind in *.
  destruct (m w) as [[w1 t1] [a|e]]; [|done]. cbn in Hm. specialize (Hf a w1 Hm). unfold world in Hf.
  by destruct (f a w1) as [[w2 t2] r].
Qed.

Lemma keeps_guard {A B} (r : result E A) (f : A → eff W C E B) :
  (∀ a, r = Ok a → keeps I (f a)) → keeps I (lift_result r ≫= f).
Proof.
  intros Hf w Hw. unfold world, mbind, eff_bind, lift_result. destruct r as [a|e]; [|done].
  specialize (Hf a eq_refl w Hw). unfold world in Hf. by destruct (f a w) as [[w2 t2] r].
Qed.

Lemma keeps_try {A} (m : eff W C E A) (h : E → eff W C E A) :
  keeps I m → (∀ e, keeps I (h e)) → keeps I (try_except m h).
Proof.
  intros Hm Hh w Hw. specialize (Hm w Hw). unfold world, try_except in *.
  destruct (m w) as [[w1 t1] [a|e]]; [done|]. cbn in Hm. specialize (Hh e w1 Hm). unfold world in Hh.
  by destruct (h e w1) as [[w2 t2] r].
Qed.

Lemma op_keeps_as_op {A} (m : eff W C E A) : keeps I m → op_keeps I (as_op m).
Proof. intros Hm w Hw. specialize (Hm w Hw). unfold world, as_op in *. by destruct (m w) as [[w1 t] r]. Qed.
End Keeps.

Ltac keeps_step :=
  lazymatch goal with
  | |- keeps _ (mbind _ _) => apply keeps_bind; [|intros ?]
  | |- keeps _ (mret _) => apply keeps_ret
  | |- keeps _ (raise _) => apply keeps_raise
  | |- keeps _ (lift_result _) => apply keeps_pure
  | |- keeps _ (invoke _ _) => apply keeps_invoke
  | |- keeps _ (try_except _ _) => apply keeps_try; [|intros ?]
  | |- keeps _ (if ?b then _ else _) => destruct b
  | |- keeps _ (match ?x with _ => _ end) => destruct x
  end.

(** ** Runs keep an invariant of the world *)

Section Runs.
Context `{Digests} {W : Type} `{AgentEnv W} `{AgentActionsOk W} (max_repairs : Z) (Hmax : (0 ≤ max_repairs)%Z).
Notation M := (eff W agent_call exn).
Context (I : W → Prop).
(** The sinks and the clock keep it, and so does every action in the states
    in which the graph calls it. *)
Hypothesis sinks_keep : (∀ r, op_keeps I (step_sink r)) ∧ (∀ s, op_keeps I (approval_sink s)) ∧
  ∀ w, I w → I (node_clock w).1.
Hypothesis actions_keep : ∀ s,
  op_keeps I (classify s) ∧ op_keeps I (retrieve_metrics s) ∧ op_keeps I (select_schema s) ∧
  op_keeps I (generate_sql s) ∧ op_keeps I (guard_sql s) ∧ (cleared s → op_keeps I (execute_sql s)) ∧
  op_keeps I (verify s) ∧ op_keeps I (compose s).

Lemma clock_keeps : keeps I (silent node_clock : M Z).
Proof using sinks_keep. apply keeps_silent, sinks_keep. Qed.
Lemma record_keeps r : keeps I (record_step r : M unit).
Proof using sinks_keep. apply keeps_invoke, sinks_keep. Qed.

Lemma operation_keeps n payload s : node_inv max_repairs n s → keeps I (operation n payload s : M update).
Proof using sinks_keep actions_keep.
  intros Hinv. destruct (actions_keep s) as (? & ? & ? & ? & ? & Hx & ? & ?).
  destruct n; cbn [operation]; try by apply keeps_invoke.
  - unfold pause. apply keeps_bind; [apply clock_keeps|intros ?].
    apply keeps_bind; [apply keeps_invoke, sinks_keep|intros ?].
    apply keeps_bind; [apply clock_keeps|intros ?]. apply keeps_bind; [apply record_keeps|intros ?].
    repeat keeps_step.
  - apply keeps_invoke, Hx, Hinv.
Qed.

Lemma run_node_keeps n payload s : node_inv max_repairs n s → keeps I (run_node n payload s : M update).
Proof using sinks_keep actions_keep.
  intros Hinv. unfold run_node, timed_step. apply keeps_bind; [apply clock_keeps|intros started].
  apply keeps_try.
  - apply keeps_bind; [by apply operation_keeps|intros u]. apply keeps_bind; [apply clock_keeps|intros now].
    apply keeps_bind; [apply record_keeps|intros ?]. apply keeps_ret.
  - intros e. destruct e; try apply keeps_raise;
      (apply keeps_bind; [apply clock_keeps|intros now]; apply keeps_bind; [apply record_keeps|intros ?]; apply keeps_raise).
Qed.

(** The node a saved thread would continue with has its invariant. *)
Definition thread_safe (th : thread) : Prop :=
  match th_at th with
  | AtEnd => True
  | WaitingAt n | FailedAt n _ => node_inv max_repairs n (th_state th)
  end.

Lemma run_saved_keeps fuel : ∀ payload n s,
  node_inv max_repairs n s →
  hoare I (run_saved max_repairs fuel payload n s : M thread) (λ w _ r, I w ∧ ∀ th, r = Ok th → thread_safe th).
Proof using Hmax sinks_keep actions_keep.
  induction fuel as [|fuel IH]; intros payload n s Hinv; cbn [run_saved].
  { apply hoare_ret. intros w Hw. split; [done|]. by intros th [= <-]. }
  intros w Hw. pose proof (run_node_keeps n payload s Hinv w Hw) as Hk.
  pose proof (timed_step_yields (node_name n) s _ _ (operation_yields n payload s) w) as Hu.
  change (timed_step (node_name n) s (operation n payload)) with (run_node n payload s : M update) in Hu.
  unfold world, trace, outcome, try_except, fmap, eff_fmap, mbind, eff_bind, mret, eff_ret in *.
  destruct (run_node n payload s w) as [[w1 t1] [u|e]]; cbn in Hk, Hu |- *.
  - destruct (next_node _ _ _) as [[n'|]|e] eqn:Hnext.
    + destruct (superstep max_repairs Hmax n s u n' Hinv Hu Hnext) as [Hinv' _].
      pose proof (IH None n' (merge s u) Hinv' w1 Hk) as Hrun. unfold world, outcome in Hrun.
      by destruct (run_saved _ _ _ _ _ w1) as [[w2 t2] r].
    + split; [done|]. by intros th [= <-].
    + split; [done|]. by intros th [= <-].
  - destruct e; cbn; (split; [done|]); by intros th [= <-].
Qed.
End Runs.

(** ** Requests keep it too *)

Section Requests.
Context `{Digests} {W : Type} `{AgentEnv W} `{AgentActionsOk W} (max_repairs : Z) (Hmax : (0 ≤ max_repairs)%Z).
Context (keeps_interrupt : bool) (trace_id_of : string → result exn string) (I : W → Prop).
Hypothesis nodes_keep : ∀ fuel payload n s, node_inv max_repairs n s →
  hoare I (run_saved max_repairs fuel payload n s : eff W agent_call exn thread)
    (λ w _ r, I w ∧ ∀ th, r = Ok th → thread_safe max_repairs th).

Definition cluster_safe (c : cluster W) : Prop :=
  I (actions_world c) ∧ ∀ id th, threads c !! id = Some th → thread_safe max_repairs th.

Lemma advance_safe c run_id fuel payload n s :
  cluster_safe c → node_inv max_repairs n s →
  cluster_safe (advance keeps_interrupt run_id (run_saved max_repairs fuel payload n s) c).1.
Proof using nodes_keep.
  intros [Hi Ht] Hinv. pose proof (nodes_keep fuel payload n s Hinv (actions_world c) Hi) as [Hi' Hth].
  unfold advance, world, outcome in *. destruct (run_saved _ _ _ _ _ _) as [[w t] [th|e]]; [|by split].
  split; [exact Hi'|]. intros id th'. cbn [fst threads].
  destruct (decide (id = run_id)) as [-> |Hne]; [rewrite lookup_insert_eq|rewrite lookup_insert_ne by done; apply Ht].
  intros [= <-]. by apply Hth.
Qed.

Lemma handle_safe q c : cluster_safe c → cluster_safe (world (handle max_repairs keeps_interrupt trace_id_of q) c).
Proof using Hmax nodes_keep.
  intros Hc. destruct (handle_world max_repairs keeps_interrupt trace_id_of q c)
    as [-> |[(r & _ & ->)|(run_id & payload & th & Hth & Hs & ->)]]; [done|..].
  - apply (advance_safe c _ recursion_limit None Classify (initial_state r)); [done|].
    split; [|done]. unfold attempts_within. cbn. lia.
  - pose proof (proj2 Hc run_id th Hth) as Hsafe. cbn [invoke_command checkpointed]. rewrite Hth.
    unfold thread_safe in Hsafe. destruct (th_at th) as [|n|n e]; [done|by apply advance_safe..].
Qed.

Lemma handle_all_safe qs : ∀ c,
  cluster_safe c → cluster_safe (handle_all max_repairs keeps_interrupt trace_id_of qs c).
Proof using Hmax nodes_keep.
  induction qs as [|q qs IH]; intros c Hc; [done|]. by apply IH, handle_safe.
Qed.
End Requests.

(** ** The log of the deployed service *)

Section Deployed.
Context `{PyUnicode, PyText, Digests, SqlGlot} {W : Type} `{AgentEnv W}.
Context `{Psycopg W} `{ModelClient W} `{MetricRetrieval W} (nw : northwind).
Context (draft_model : ResponseModel NL2SQLDraft)
  (confident_model : list string → ResponseModel ConfidentTableSelection)
  (parse_uuid : string → result exn string).

(** A session on the business database: a read of the catalog, the plan of a
    query that the guard made, or the bounded run of the query of a state in
    which SQL may be executed. *)
Inductive permitted_session : list db_call → Prop :=
| reads_catalog t : catalog_read (nw_data_source nw) t → permitted_session t
| explains_guarded q p g t :
    policy_valid p = true → SqlGuard.inspect q p = Ok g → explain_session (nw_data_source nw) g t → permitted_session t
| runs_executable s g t :
    executable (W := logged W) nw s → st_guarded_query s = Some g →
    execution_session (nw_data_source nw) g t → permitted_session t.

(** The log is a sequence of such sessions. *)
Definition log_ok (wl : logged W) : Prop := ∃ ts, wl.2 = List.concat ts ∧ Forall permitted_session ts.

Lemma beside_keeps {A} (o : op W exn A) : op_keeps log_ok (beside o).
Proof. intros [w l] Hl. unfold beside. cbn. by destruct (o w). Qed.

Lemma recorded_keeps {A} (m : eff W db_call exn A) :
  sat m (λ t _, permitted_session t) → op_keeps log_ok (recorded m).
Proof.
  intros Hm [w l] (ts & Hl & Hts). specialize (Hm w). unfold recorded, trace in *. cbn in *.
  destruct (m w) as [[w' t] r]. exists (ts ++ [t]). cbn in *.
  rewrite Hl, List.concat_app. cbn. rewrite app_nil_r. split; [done|]. by apply Forall_app_2; [|constructor].
Qed.

Lemma model_keeps {A} (rm : ResponseModel A) items :
  keeps log_ok (ask_actions rm items : eff (logged W) nw_call exn _).
Proof. unfold ask_actions. repeat keeps_step. apply beside_keeps. Qed.

Lemma select_loop_keeps k rm p items : keeps log_ok (select_loop (W := logged W) k rm p items).
Proof.
  revert items. induction k as [|k IH]; intros items; cbn [select_loop];
    (apply keeps_bind; [apply keeps_try; [apply model_keeps|intros ?; apply keeps_raise]|intros reply]);
    destruct (selected_tables_of _ _) as [?|[]]; try apply keeps_ret; try apply keeps_raise. apply IH.
Qed.

Lemma select_schema_keeps s : keeps log_ok (nw_select_schema (W := logged W) nw confident_model s).
Proof.
  unfold nw_select_schema. apply keeps_bind; [|intros snap].
  { apply keeps_invoke, recorded_keeps. refine (sat_conseq _ _ _ (introspect_session _) _).
    intros t r Ht. by apply reads_catalog. }
  do 2 (apply keeps_guard; intros ? _). apply keeps_bind; [apply select_loop_keeps|intros []].
  apply keeps_guard; intros ? _. apply keeps_ret.
Qed.

Lemma guard_sql_keeps s : keeps log_ok (nw_guard_sql (W := logged W) nw s).
Proof.
  unfold nw_guard_sql. apply keeps_guard; intros p [_ Hp]%state_policy. apply keeps_guard; intros q _.
  destruct (SqlGuard.inspect q p) as [g|[]] eqn:Hg; try apply keeps_ret; try apply keeps_raise.
  apply keeps_guard; intros ? _. apply keeps_bind; [|intros ?; apply keeps_ret].
  apply keeps_invoke, recorded_keeps. refine (sat_conseq _ _ _ (estimate_session g _) _).
  intros t r Ht. by eapply explains_guarded.
Qed.

Lemma execute_sql_keeps s :
  executable (W := logged W) nw s → keeps log_ok (nw_execute_sql (W := logged W) nw s).
Proof.
  intros Hs. unfold nw_execute_sql. apply keeps_guard; intros g Hg. apply keeps_guard; intros p _.
  assert (st_guarded_query s = Some g) as Hgs.
  { destruct (st_guarded_query s) as [g'|]; [|done]. revert Hg. cbn [state_key mbind result_bind].
    unfold GuardedQuery_validate. destruct (_ && _)%Z; [|done]. by intros [= ->]. }
  apply keeps_bind; [|intros ?; apply keeps_ret].
  apply keeps_invoke, recorded_keeps. refine (sat_conseq _ _ _ (execute_session g _ p) _).
  intros t r Ht. by eapply runs_executable.
Qed.

#[local] Instance deployed_actions : AgentActions (logged W) :=
  NorthwindAgentActions (W := logged W) nw draft_model confident_model parse_uuid.
#[local] Instance deployed_actions_ok : AgentActionsOk (logged W) :=
  NorthwindActionsOk (W := logged W) nw draft_model confident_model parse_uuid.

Lemma deployed_actions_keep (s : AgentState) :
  op_keeps log_ok (classify s) ∧ op_keeps log_ok (retrieve_metrics s) ∧ op_keeps log_ok (select_schema s) ∧
  op_keeps log_ok (generate_sql s) ∧ op_keeps log_ok (guard_sql s) ∧
  (cleared (W := logged W) s → op_keeps log_ok (execute_sql s)) ∧
  op_keeps log_ok (verify s) ∧ op_keeps log_ok (compose s).
Proof.
  split_and!; try intros Hs; apply op_keeps_as_op.
  - unfold nw_classify. repeat keeps_step.
  - unfold nw_retrieve_metrics. repeat keeps_step. apply beside_keeps.
  - apply select_schema_keeps.
  - unfold nw_generate_sql. repeat first [apply model_keeps|keeps_step].
  - apply guard_sql_keeps.
  - by apply execute_sql_keeps, (cleared_executable nw draft_model confident_model parse_uuid).
  - apply keeps_ret.
  - unfold nw_compose. repeat keeps_step.
Qed.

Lemma deployed_sinks_keep :
  (∀ r, op_keeps log_ok (step_sink (W := logged W) r)) ∧ (∀ s, op_keeps log_ok (approval_sink (W := logged W) s)) ∧
  ∀ w, log_ok w → log_ok (node_clock w).1.
Proof.
  split_and!; [intros r; apply beside_keeps|intros s; apply beside_keeps|].
  intros [w l] Hl. cbn. by destruct (node_clock w).
Qed.

Definition deployed_start (w : W) : cluster (logged W) :=
  {| threads := ∅; calls_made := []; actions_world := (w, []) |}.

(** The endpoints on [service], with the settings of the workflow. *)
Definition deployed_run (workflow : AgentWorkflowSettings) (keeps_interrupt : bool)
    (trace_id_of : string → result exn string) (qs : list request) (w : W) : logged W :=
  actions_world (handle_all (aw_max_repairs workflow) keeps_interrupt trace_id_of qs (deployed_start w)).

(** C1: end to end: whatever requests the endpoints get, in whatever order,
    and whatever the model, the database and the platform answer or raise,
    the calls that reach the business database are a sequence of sessions on
    the configured source, and each session is one of three: a read of the
    catalog with its four fixed statements, the planner's EXPLAIN of a query
    that the guard made of some SQL under a valid policy, or the bounded run, in
    a read-only transaction, of the query that the guard made of a state's SQL
    under its valid policy after the estimate, the controlled columns and the
    confidence were within their limits or an administrator approved. *)
Theorem database_sees_guarded_queries : ∀ business safety workflow keeps_interrupt trace_id_of w qs,
  northwind_of_settings business safety workflow = Ok nw → AgentWorkflowSettings_ok workflow = true →
  from_settings business = Ok (nw_data_source nw) ∧
  log_ok (deployed_run workflow keeps_interrupt trace_id_of qs w).
Proof.
  intros business safety workflow keeps_interrupt trace_id_of w qs Hnw Hm.
  unfold AgentWorkflowSettings_ok, within in Hm. split_bools.
  split; [by apply (northwind_of_settings_source _ safety workflow)|].
  refine (proj1 (handle_all_safe (aw_max_repairs workflow) ltac:(lia) keeps_interrupt trace_id_of log_ok _ qs _ _)).
  - intros fuel payload n s. apply run_saved_keeps; [lia|apply deployed_sinks_keep|apply deployed_actions_keep].
  - split; [by exists []|]. intros id th. cbn [deployed_start threads]. by rewrite lookup_empty.
Qed.
End Deployed.

(** ** A run on the default settings *)

(** The world is the last statement; the driver answers by it. *)
Definition demo_business : Psycopg string := λ k w,
  match k with
  | Execute statement _ => (statement, Ok (Some ["customer_id"]))
  | FetchMany _ => (w, Ok [[PStr "ALFKI"]; [PStr "ANATR"]])
  | FetchOne => (w, Ok (Some [PList [PDict [("Plan", PDict [("Total Cost", PInt 10); ("Plan Rows", PInt 5)])]]]))
  | FetchOneRow => (w, Ok (Some [("dataset_version", PStr "2024.1")]))
  | FetchAllRows =>
      (w, Ok (if bool_decide (w = _COLUMNS_SQL)
              then [[("table_name", PStr "customers"); ("table_comment", PNone);
                     ("column_name", PStr "customer_id"); ("ordinal_position", PInt 1);
                     ("data_type", PStr "text"); ("nullable", PBool false); ("column_comment", PNone)]]
              else []))
  | Connect _ | BeginTransaction | OpenCursor | ExecuteMany _ _ | CloseCursor _ | EndTransaction _
  | CloseConnection _ => (w, Ok tt)
  end.
Definition demo_model : ModelClient string := λ A rm ms w, (w, (nw_demo_ask A rm ms 0).2).
Definition demo_retrieval : MetricRetrieval string := λ _ q m w, (w, Ok {| res_query := q; res_mode := m;
  res_corpus_revision := "r"; res_hits := []; res_citations := []; res_should_answer := false |}).
Definition demo_platform : AgentEnv string := {|
  step_sink _ w := (w, Ok tt); approval_sink _ w := (w, Ok tt); node_clock w := (w, 0%Z) |}.
Definition demo_tables (names : list string) : ResponseModel ConfidentTableSelection := {|
  model_name := "ConfidentTableSelection"; model_json_schema := PDict [];
  model_validate_json _ := inl {| cs_tables := ["northwind.customers"]; cs_confidence := f_of_Z 1 |} |}.
Definition demo_production : northwind := {|
  nw_data_source := {| cfg_source_id := "northwind-demo"; cfg_host := "localhost"; cfg_port := 5433;
    cfg_database := "northwind"; cfg_username := "northwind_reader";
    cfg_password := "change-me-business-reader"; cfg_allowed_schema := "northwind";
    connect_timeout_seconds := 3; statement_timeout_ms := 2000 |};
  nw_max_total_cost := f_of_Z 10000; nw_max_plan_rows := 100000; nw_minimum_confidence := decimal 65 2;
  nw_controlled_columns := default_controlled_columns |}.
Definition demo_requests : list request :=
  [HttpStart "run" "source" "list the customers" "tenant" "user" "ANALYST"
     "00-0123456789abcdef"; HttpStart "run" "source" "list the customers" "tenant" "user" "ANALYST"
     "00-0123456789abcdef"].
Definition demo_deployed : logged string :=
  deployed_run (H1 := demo_digests) (H2 := nw_demo_sqlglot) (H3 := demo_platform) (H4 := demo_business)
    (H5 := demo_model) (H6 := demo_retrieval) demo_production nw_demo_draft demo_tables Ok
    AgentWorkflowSettings_default true demo_trace demo_requests "".

(** Two starts of one run: one read of the catalog, one plan, one query. *)
Lemma database_sees_guarded_queries_witness :
  omap (λ k, match k with Execute q _ => Some q | _ => None end) demo_deployed.2 =
    [_COLUMNS_SQL; _PRIMARY_KEYS_SQL; _FOREIGN_KEYS_SQL; manifest_sql "northwind";
     "SET TRANSACTION READ ONLY"; "SELECT set_config('statement_timeout', %s, true)";
     "EXPLAIN (FORMAT JSON) SELECT customers.customer_id FROM public.customers";
     "SET TRANSACTION READ ONLY"; "SELECT set_config('statement_timeout', %s, true)";
     "SELECT * FROM (SELECT customers.customer_id FROM public.customers) AS _copilot_bounded LIMIT 101"] ∧
  log_ok (H1 := demo_digests) (H2 := nw_demo_sqlglot) (H4 := demo_business) (H5 := demo_model)
    (H6 := demo_retrieval) demo_production demo_deployed.
Proof.
  split; [vm_compute; reflexivity|].
  refine (proj2 (database_sees_guarded_queries (H1 := demo_digests) (H2 := nw_demo_sqlglot) (H3 := demo_platform)
    (H4 := demo_business) (H5 := demo_model) (H6 := demo_retrieval) demo_production nw_demo_draft demo_tables Ok
    BusinessDatabaseSettings_default QuerySafetySettings_default AgentWorkflowSettings_default
    true demo_trace "" demo_requests _ _)); vm_compute; reflexivity.
Defined.
