(* ===== verification/RetrievalEvaluation.v ===== *)
(** * Retrieval reports: [app/retrieval/evaluation.py], [retrieval/benchmark.py]

    The gold cases, the report of a mode with its recall, ranks and refusals,
    and the benchmark with its latencies, failures and costs.  The retrieval
    service, its usage counters and the clock are an interface. *)

From S2P Require Import Prelude PyStr Floats Errors Json Metadata Policy DataSources SafeQuery StructuredLLM.
From S2P Require Import NL2SQL Numbers Parsing Embeddings KnowledgeRepository RetrievalService JsonText Utf8 PyText Decimal FloatText.
From S2P Require Import Rounding Evaluation.

(** ** evaluation.py *)

Record RAGGoldCase := {
  rg_id : string; rg_question : string; rg_relevant_sections : list string; rg_answerable : bool }.
Definition RAGGoldCase_ok (c : RAGGoldCase) : bool :=
  between 1 (py_len (rg_id c)) 80 && between 1 (py_len (rg_question c)) 4000.

(** Every line that is not blank is validated. *)
Definition load_gold_cases (model_validate_json : string → result exn RAGGoldCase) (lines : list string) :
    result exn (list RAGGoldCase) :=
  map_result model_validate_json (List.filter (λ l, negb (is_blank l)) lines).

Record RetrievalModeReport := {
  mr_mode : RetrievalMode; mr_total_cases : Z; mr_answerable_cases : Z; mr_refusal_cases : Z;
  mr_recall_at_5 : float; mr_mrr : float; mr_citation_hit_rate : float; mr_refusal_accuracy : float }.
Record RAGEvaluationReport := {
  rr_dataset_version : string; rr_cases : Z; rr_reports : list RetrievalModeReport }.

Record usage_counts := { uc_input_tokens : option Z; uc_embedding_requests : Z; uc_reranker_requests : Z }.

Class RetrievalBench (W : Type) := {
  bench_retrieve : string → RetrievalMode → op W exn RetrievalResult;
  bench_usage : W → W * usage_counts;
  bench_clock : W → W * float
}.

Inductive bench_call := CallBench (question : string) (mode : RetrievalMode) (reply : result exn RetrievalResult).

(** The section keys of the citations, in order. *)
Definition returned_sections (r : RetrievalResult) : list string := map ci_section_key (res_citations r).

(** The rank, from one, of the first key that is relevant. *)
Fixpoint first_rank (relevant returned : list string) : option nat :=
  match returned with
  | [] => None
  | k :: returned => if mem k relevant then Some 1 else S <$> first_rank relevant returned
  end.

(** The quotients below are of counts, the lesser by the greater: in range
    ([true_div_share]), so that [quotient] and [rate] are the divisions. *)

Record tally := { ta_recalled : Z; ta_reciprocal_rank : float; ta_citation_hits : Z; ta_refusals : Z }.
Definition no_tally : tally :=
  {| ta_recalled := 0; ta_reciprocal_rank := fzero; ta_citation_hits := 0; ta_refusals := 0 |}.

Definition tally_case (t : tally) (c : RAGGoldCase) (r : RetrievalResult) : tally :=
  if rg_answerable c then
    match first_rank (rg_relevant_sections c) (returned_sections r) with
    | Some rank => {|
        ta_recalled := ta_recalled t + 1;
        ta_reciprocal_rank := fadd (ta_reciprocal_rank t) (quotient 1 (Z.of_nat rank));
        ta_citation_hits := ta_citation_hits t + 1; ta_refusals := ta_refusals t |}
    | None => t
    end
  else if negb (res_should_answer r)
  then {| ta_recalled := ta_recalled t; ta_reciprocal_rank := ta_reciprocal_rank t;
          ta_citation_hits := ta_citation_hits t; ta_refusals := ta_refusals t + 1 |}
  else t.

(** [_ratio] of a float. *)
Definition ratio_float (numerator : float) (denominator : Z) : float :=
  if (denominator =? 0)%Z then f_of_Z 1 else round_decimal 4 (fdiv numerator (f_of_Z denominator)).

Definition mode_report (mode : RetrievalMode) (cases : list RAGGoldCase) (t : tally) : RetrievalModeReport :=
  let answerable := count rg_answerable cases in
  let refusal := count (λ c, negb (rg_answerable c)) cases in
  {| mr_mode := mode; mr_total_cases := Z.of_nat (length cases); mr_answerable_cases := answerable;
     mr_refusal_cases := refusal; mr_recall_at_5 := rate (ta_recalled t) answerable;
     mr_mrr := ratio_float (ta_reciprocal_rank t) answerable;
     mr_citation_hit_rate := rate (ta_citation_hits t) answerable;
     mr_refusal_accuracy := rate (ta_refusals t) refusal |}.

Section Modes.
Context {W : Type} `{RetrievalBench W}.
Notation M := (eff W bench_call exn).

(** [service.retrieve(tenant_id=..., query=..., mode=..., limit=5)]. *)
Definition retrieve_case (mode : RetrievalMode) (c : RAGGoldCase) : M RetrievalResult :=
  observe (CallBench (rg_question c) mode) (bench_retrieve (rg_question c) mode).

Fixpoint tally_cases (mode : RetrievalMode) (t : tally) (cases : list RAGGoldCase) : M tally :=
  match cases with
  | [] => mret t
  | c :: cases => r ← retrieve_case mode c; tally_cases mode (tally_case t c r) cases
  end.

Definition _evaluate_mode (cases : list RAGGoldCase) (mode : RetrievalMode) : M RetrievalModeReport :=
  t ← tally_cases mode no_tally cases; mret (mode_report mode cases t).

Fixpoint for_modes {A} (report : RetrievalMode → M A) (modes : list RetrievalMode) : M (list A) :=
  match modes with
  | [] => mret []
  | m :: modes => r ← report m; rs ← for_modes report modes; mret (r :: rs)
  end.

Definition evaluate_modes (cases : list RAGGoldCase) (dataset_version : string) (modes : list RetrievalMode) :
    M RAGEvaluationReport :=
  reports ← for_modes (_evaluate_mode cases) modes;
  mret {| rr_dataset_version := dataset_version; rr_cases := Z.of_nat (length cases); rr_reports := reports |}.
End Modes.

(** ** benchmark.py *)

Definition MODES : list RetrievalMode := [Lexical; Vector; Hybrid; HybridRerank].

Inductive failure :=
| Miss (id : string) (returned : list string)
| FalseRefusal (id : string) (returned : list string)
| UnsupportedAnswered (id : string).
Definition failure_id (f : failure) : string :=
  match f with Miss id _ | FalseRefusal id _ | UnsupportedAnswered id => id end.

Record bench_tally := {
  bt_latencies : list float; bt_recalls : list float; bt_ranks : list float; bt_failures : list failure;
  bt_refusals : Z }.
Definition no_bench_tally : bench_tally :=
  {| bt_latencies := []; bt_recalls := []; bt_ranks := []; bt_failures := []; bt_refusals := 0 |}.

(** [len(relevant & set(returned)) / len(relevant) if relevant else 0]. *)
Definition section_recall (relevant returned : list string) : float :=
  match fromkeys relevant with
  | [] => fzero
  | keys => quotient (count (λ k, mem k returned) keys) (Z.of_nat (length keys))
  end.

Definition case_failure (c : RAGGoldCase) (r : RetrievalResult) : option failure :=
  let returned := fromkeys (returned_sections r) in
  if rg_answerable c then
    match first_rank (rg_relevant_sections c) returned with
    | None => Some (Miss (rg_id c) returned)
    | Some _ => if negb (res_should_answer r) then Some (FalseRefusal (rg_id c) returned) else None
    end
  else if negb (res_should_answer r) then None else Some (UnsupportedAnswered (rg_id c)).

Definition bench_case (t : bench_tally) (c : RAGGoldCase) (latency : float) (r : RetrievalResult) : bench_tally :=
  let returned := fromkeys (returned_sections r) in
  let failures := bt_failures t ++ (if case_failure c r is Some f then [f] else []) in
  if rg_answerable c then {|
    bt_latencies := bt_latencies t ++ [latency];
    bt_recalls := bt_recalls t ++ [section_recall (rg_relevant_sections c) returned];
    bt_ranks := bt_ranks t ++ [match first_rank (rg_relevant_sections c) returned with
                               | None => fzero | Some rank => quotient 1 (Z.of_nat rank) end];
    bt_failures := failures; bt_refusals := bt_refusals t |}
  else {|
    bt_latencies := bt_latencies t ++ [latency]; bt_recalls := bt_recalls t; bt_ranks := bt_ranks t;
    bt_failures := failures;
    bt_refusals := if negb (res_should_answer r) then bt_refusals t + 1 else bt_refusals t |}.

Record bench_report := {
  br_mode : RetrievalMode; br_input_tokens : option Z; br_embedding_requests : Z; br_reranker_requests : Z;
  br_cost : option float; br_cases : Z; br_recall_at_5 : float; br_mrr : float;
  br_refusal_accuracy : option float; br_mean_latency_ms : float; br_p95_latency_ms : float;
  br_failures : list failure }.

(** [mean(values) if values else 0], of values none of which is below zero. *)
Definition mean_or_zero (l : list float) : result exn float := match l with [] => Ok fzero | _ => mean_cost l end.
Definition p95_float (l : list float) : result exn float :=
  match l with
  | [] => Ok fzero
  | _ => match percentile_index (length l) with
         | None => Err OverflowError
         | Some i => match sort_by fltb l !! i with Some v => Ok v | None => Err IndexError end
         end
  end.

Definition input_tokens_used (before after : usage_counts) : option Z :=
  match uc_input_tokens after, uc_input_tokens before with Some a, Some b => Some (a - b)%Z | _, _ => None end.

(** A count that no float can hold raises OverflowError in its product. *)
Definition bench_cost (tokens : option Z) (requests : Z) (embedding_price reranker_price : option float) :
    result exn (option float) :=
  match tokens, embedding_price with
  | Some n, Some p =>
      if (requests =? 0)%Z || bool_decide (reranker_price ≠ None)
      then n ← float_of_int n;
           requests ← float_of_int requests;
           Ok (Some (fadd (fdiv (fmul n p) (f_of_Z 1000000))
                          (fdiv (fmul requests (default fzero reranker_price)) (f_of_Z 1000))))
      else Ok None
  | _, _ => Ok None
  end.

Definition bench_mode_report (mode : RetrievalMode) (cases : list RAGGoldCase) (before after : usage_counts)
    (embedding_price reranker_price : option float) (t : bench_tally) : result exn bench_report :=
  let refusal := count (λ c, negb (rg_answerable c)) cases in
  let tokens := input_tokens_used before after in
  let requests := (uc_reranker_requests after - uc_reranker_requests before)%Z in
  cost ← bench_cost tokens requests embedding_price reranker_price;
  recall ← mean_or_zero (bt_recalls t);
  mrr ← mean_or_zero (bt_ranks t);
  latency ← mean_or_zero (bt_latencies t);
  p95 ← p95_float (bt_latencies t);
  Ok {| br_mode := mode; br_input_tokens := tokens;
        br_embedding_requests := uc_embedding_requests after - uc_embedding_requests before;
        br_reranker_requests := requests; br_cost := cost;
        br_cases := Z.of_nat (length cases); br_recall_at_5 := recall; br_mrr := mrr;
        br_refusal_accuracy := if (refusal =? 0)%Z then None else Some (quotient (bt_refusals t) refusal);
        br_mean_latency_ms := latency; br_p95_latency_ms := p95;
        br_failures := bt_failures t |}.

Section Benchmark.
Context {W : Type} `{RetrievalBench W}.
Notation M := (eff W bench_call exn).

Fixpoint bench_cases (mode : RetrievalMode) (t : bench_tally) (cases : list RAGGoldCase) : M bench_tally :=
  match cases with
  | [] => mret t
  | c :: cases =>
      started ← silent bench_clock;
      r ← retrieve_case mode c;
      now ← silent bench_clock;
      bench_cases mode (bench_case t c (fmul (fsub now started) (f_of_Z 1000)) r) cases
  end.

Definition bench_mode (cases : list RAGGoldCase) (embedding_price reranker_price : option float)
    (mode : RetrievalMode) : M bench_report :=
  before ← silent bench_usage;
  t ← bench_cases mode no_bench_tally cases;
  after ← silent bench_usage;
  lift_result (bench_mode_report mode cases before after embedding_price reranker_price t).

Definition benchmark (cases : list RAGGoldCase) (modes : list RetrievalMode)
    (embedding_price reranker_price : option float) : M (list bench_report) :=
  for_modes (bench_mode cases embedding_price reranker_price) modes.
End Benchmark.

(** ** Counting *)

Lemma first_rank_none relevant returned :
  first_rank relevant returned = None ↔ ∀ k, k ∈ returned → k ∉ relevant.
Proof.
  induction returned as [|k l IH]; cbn; [split; [set_solver|done]|].
  destruct (mem k relevant) eqn:E.
  - apply mem_spec in E. split; [done|]. intros Hn. exfalso. apply (Hn k); [by left|done].
  - rewrite fmap_None, IH. split.
    + intros Hn x [-> |Hx]%elem_of_cons; [|by apply Hn]. by rewrite <-(mem_spec k relevant), E.
    + intros Hn x Hx. apply Hn. by right.
Qed.

(** The rank is that of the first relevant key. *)
Lemma first_rank_some relevant returned n :
  first_rank relevant returned = Some n →
  ∃ k, returned !! (n - 1) = Some k ∧ 1 ≤ n ∧ k ∈ relevant ∧
    ∀ i x, i < n - 1 → returned !! i = Some x → x ∉ relevant.
Proof.
  revert n. induction returned as [|k l IH]; intros n; cbn; [done|].
  destruct (mem k relevant) eqn:E.
  - apply mem_spec in E. intros [= <-]. exists k. split_and!; [done|lia|done|]. intros; lia.
  - intros (m & Hm & ->)%fmap_Some. destruct (IH m Hm) as (x & Hx & H1 & Hr & Hf). exists x.
    replace (S m - 1) with (S (m - 1)) by lia. split_and!; [done|lia|done|].
    intros [|i] y Hi; cbn; [|apply Hf; lia]. intros [= <-]. by rewrite <-(mem_spec k relevant), E.
Qed.

(** Whether a result returns a relevant section, and whether it refuses. *)
Definition hits (p : RAGGoldCase * RetrievalResult) : bool :=
  rg_answerable p.1 && existsb (λ k, mem k (rg_relevant_sections p.1)) (returned_sections p.2).
Definition refuses (p : RAGGoldCase * RetrievalResult) : bool :=
  negb (rg_answerable p.1) && negb (res_should_answer p.2).

Lemma first_rank_hits relevant returned :
  existsb (λ k, mem k relevant) returned = if first_rank relevant returned is Some _ then true else false.
Proof.
  induction returned as [|k l IH]; [done|]. cbn. destruct (mem k relevant); [done|]. cbn. rewrite IH.
  by destruct (first_rank relevant l).
Qed.

(** ** Runs *)

Definition asked (mode : RetrievalMode) (cases : list RAGGoldCase) (rs : list RetrievalResult) : list bench_call :=
  zip_with (λ c r, CallBench (rg_question c) mode (Ok r)) cases rs.

Definition no_answer (t : bench_tally) : Z * list failure := (bt_refusals t, bt_failures t).
Definition failures_of (pairs : list (RAGGoldCase * RetrievalResult)) : list failure :=
  omap (M:=list) (λ p, case_failure p.1 p.2) pairs.

Lemma hits_le_answerable cases rs :
  length rs = length cases → (count hits (zip cases rs) ≤ count rg_answerable cases)%Z.
Proof.
  revert rs. induction cases as [|c cases IH]; intros [|r rs]; try done. intros [= Hl]. cbn [zip zip_with].
  rewrite !count_cons. specialize (IH rs Hl). unfold hits at 1. cbn [fst snd].
  destruct (rg_answerable c); cbn [andb]; repeat case_match; lia.
Qed.

Lemma refusals_le cases rs :
  length rs = length cases → (count refuses (zip cases rs) ≤ count (λ c, negb (rg_answerable c)) cases)%Z.
Proof.
  revert rs. induction cases as [|c cases IH]; intros [|r rs]; try done. intros [= Hl]. cbn [zip zip_with].
  rewrite !count_cons. specialize (IH rs Hl). unfold refuses at 1. cbn [fst snd].
  destruct (rg_answerable c); cbn [andb negb]; repeat case_match; lia.
Qed.

Lemma tally_case_counts t c r :
  (ta_recalled (tally_case t c r) = ta_recalled t + (if hits (c, r) then 1 else 0) ∧
   ta_citation_hits (tally_case t c r) = ta_citation_hits t + (if hits (c, r) then 1 else 0) ∧
   ta_refusals (tally_case t c r) = ta_refusals t + (if refuses (c, r) then 1 else 0))%Z.
Proof.
  unfold tally_case, hits, refuses. cbn [fst snd]. rewrite first_rank_hits.
  destruct (rg_answerable c); cbn [andb negb].
  - destruct (first_rank _ _); cbn [ta_recalled ta_citation_hits ta_refusals]; lia.
  - destruct (negb _); cbn [ta_recalled ta_citation_hits ta_refusals]; lia.
Qed.

Section Stories.
Context {W : Type} `{RetrievalBench W}.
Notation M := (eff W bench_call exn).

Lemma retrieve_then {A} mode c (f : RetrievalResult → M A) (Q : list bench_call → result exn A → Prop) :
  (∀ x, sat (f x) (λ t, Q (CallBench (rg_question c) mode (Ok x) :: t))) →
  (∀ e, Q [CallBench (rg_question c) mode (Err e)] (Err e)) → sat (retrieve_case mode c ≫= f) Q.
Proof. intros Hf He. apply sat_bind, sat_observe. intros w w' [x|e] _; [apply Hf|apply He]. Qed.

Lemma tally_cases_run mode cases : ∀ t0,
  sat (tally_cases mode t0 cases : M tally) (λ t r, ∀ x, r = Ok x → ∃ rs, length rs = length cases ∧
    t = asked mode cases rs ∧ (ta_recalled x = ta_recalled t0 + count hits (zip cases rs))%Z ∧
    (ta_citation_hits x = ta_citation_hits t0 + count hits (zip cases rs))%Z ∧
    (ta_refusals x = ta_refusals t0 + count refuses (zip cases rs))%Z).
Proof.
  induction cases as [|c cases IH]; intros t0; cbn [tally_cases].
  { apply sat_ret. intros x [= <-]. exists []. unfold count. cbn [zip zip_with List.filter length Z.of_nat]. split_and!; (done || lia). }
  apply retrieve_then; [|done]. intros x. refine (sat_conseq _ _ _ (IH _) _).
  intros t r Hr y Hy. destruct (Hr y Hy) as (rs & Hl & -> & H1 & H2 & H3). exists (x :: rs).
  destruct (tally_case_counts t0 c x) as (E1 & E2 & E3).
  cbn [length zip zip_with]. rewrite !count_cons, H1, H2, H3, E1, E2, E3.
  split_and!; [by rewrite Hl|done|lia..].
Qed.

(** What the report of a mode says about the cases and what was retrieved. *)
Definition mode_story (cases : list RAGGoldCase) (mode : RetrievalMode) (t : list bench_call)
    (x : RetrievalModeReport) : Prop :=
  ∃ rs, length rs = length cases ∧ t = asked mode cases rs ∧ mr_mode x = mode ∧
    (mr_total_cases x = Z.of_nat (length cases) ∧ mr_answerable_cases x + mr_refusal_cases x = mr_total_cases x)%Z ∧
    mr_recall_at_5 x = rate (count hits (zip cases rs)) (mr_answerable_cases x) ∧
    mr_citation_hit_rate x = mr_recall_at_5 x ∧
    mr_refusal_accuracy x = rate (count refuses (zip cases rs)) (mr_refusal_cases x) ∧
    in_unit (mr_recall_at_5 x) = true ∧ in_unit (mr_refusal_accuracy x) = true.

Lemma evaluate_mode_run cases mode :
  sat (_evaluate_mode cases mode : M RetrievalModeReport) (λ t r, ∀ x, r = Ok x → mode_story cases mode t x).
Proof.
  apply sat_bind. refine (sat_conseq _ _ _ (tally_cases_run mode cases no_tally) _).
  intros t [y|e] Hr; [|done]. apply sat_ret. rewrite app_nil_r. intros x [= <-].
  destruct (Hr y eq_refl) as (rs & Hl & -> & H1 & H2 & H3). exists rs.
  pose proof (hits_le_answerable cases rs Hl). pose proof (refusals_le cases rs Hl).
  pose proof (proj1 (count_bounds hits (zip cases rs))). pose proof (proj1 (count_bounds refuses (zip cases rs))).
  unfold mode_report. cbn -[rate count]. cbn [no_tally ta_recalled ta_citation_hits ta_refusals] in *.
  rewrite H1, H2, H3, !Z.add_0_l. split_and!; try done; try (apply rate_in_unit; lia).
  unfold count. rewrite <-(filter_split rg_answerable cases). lia.
Qed.

Lemma for_modes_run {A} (report : RetrievalMode → M A) (S : RetrievalMode → list bench_call → A → Prop) modes :
  (∀ m, sat (report m) (λ t r, ∀ x, r = Ok x → S m t x)) →
  sat (for_modes report modes) (λ t r, ∀ xs, r = Ok xs → ∃ ts, t = List.concat ts ∧ Forall3 S modes ts xs).
Proof.
  intros Hs. induction modes as [|m modes IH]; cbn [for_modes].
  { apply sat_ret. intros xs [= <-]. exists []. split; [done|constructor]. }
  apply sat_bind. refine (sat_conseq _ _ _ (Hs m) _). intros t [x|e] Hx; [|done].
  apply sat_bind. refine (sat_conseq _ _ _ IH _). intros t' [xs|e] Hxs; [|done].
  apply sat_ret. rewrite app_nil_r. intros ys [= <-]. destruct (Hxs xs eq_refl) as (ts & -> & Hall).
  exists (t :: ts). split; [done|]. constructor; [by apply Hx|done].
Qed.

Lemma bench_cases_run mode cases : ∀ t0,
  sat (bench_cases mode t0 cases : M bench_tally) (λ t r, ∀ x, r = Ok x → ∃ rs, length rs = length cases ∧
    t = asked mode cases rs ∧ length (bt_latencies x) = length (bt_latencies t0) + length cases ∧
    no_answer x = ((bt_refusals t0 + count refuses (zip cases rs))%Z, bt_failures t0 ++ failures_of (zip cases rs))).
Proof.
  induction cases as [|c cases IH]; intros t0; cbn [bench_cases].
  { apply sat_ret. intros x [= <-]. exists []. unfold no_answer, count, failures_of. cbn [zip zip_with List.filter length Z.of_nat omap list_omap]. rewrite app_nil_r.
    split_and!; [done|done|lia|f_equal; lia]. }
  apply sat_bind, sat_silent_op. intros started. apply retrieve_then; [|done]. intros x.
  apply sat_bind, sat_silent_op. intros now. refine (sat_conseq _ _ _ (IH _) _).
  intros t r Hr y Hy. destruct (Hr y Hy) as (rs & Hl & -> & Hlat & Hn). exists (x :: rs).
  cbn [length zip zip_with]. split_and!; [by rewrite Hl|done| |].
  - rewrite Hlat. unfold bench_case. destruct (rg_answerable c); cbn [bt_latencies]; rewrite length_app; cbn; lia.
  - rewrite Hn, count_cons. unfold failures_of. cbn [omap list_omap]. f_equal.
    + unfold bench_case, refuses. cbn [fst snd]. destruct (rg_answerable c); cbn [bt_refusals andb negb]; [lia|].
      destruct (negb _); lia.
    + unfold bench_case. cbn [fst snd]. destruct (rg_answerable c), (case_failure c x); cbn [bt_failures];
        by rewrite <-?app_assoc, ?app_nil_r.
Qed.
End Stories.

Section Reports.
Context {W : Type} `{RetrievalBench W}.
Notation M := (eff W bench_call exn).

(** A case is listed as a failure exactly when it was answerable and missed or
    refused, or not answerable and answered. *)
Lemma case_failure_spec c r :
  case_failure c r ≠ None ↔
  (if rg_answerable c then hits (c, r) = false ∨ res_should_answer r = false else res_should_answer r = true).
Proof.
  unfold case_failure, hits. cbn [fst snd]. destruct (rg_answerable c); cbn [andb].
  - assert ((if first_rank (rg_relevant_sections c) (fromkeys (returned_sections r)) is Some _ then true else false)
      = existsb (λ k, mem k (rg_relevant_sections c)) (returned_sections r)) as E.
    { rewrite <-first_rank_hits. apply eq_true_iff_eq. rewrite !list_existsb_spec.
      by setoid_rewrite elem_of_fromkeys. }
    rewrite <-E. destruct (first_rank _ _); [|naive_solver]. destruct (res_should_answer r); naive_solver.
  - destruct (res_should_answer r); naive_solver.
Qed.

Definition bench_story (cases : list RAGGoldCase) (mode : RetrievalMode) (t : list bench_call) (x : bench_report) :
    Prop :=
  ∃ rs, length rs = length cases ∧ t = asked mode cases rs ∧ br_mode x = mode ∧
    br_failures x = failures_of (zip cases rs) ∧
    br_refusal_accuracy x =
      (let refusal := count (λ c, negb (rg_answerable c)) cases in
       if (refusal =? 0)%Z then None else Some (quotient (count refuses (zip cases rs)) refusal)) ∧
    (br_cost x ≠ None → br_input_tokens x ≠ None).

Lemma p95_float_total l : (Z.of_nat (length l) ≤ 10000)%Z → ∃ v, p95_float l = Ok v.
Proof.
  intros Hl. unfold p95_float. destruct l as [|z l]; [by eexists|]. set (k := z :: l) in *.
  assert (1 ≤ Z.of_nat (length k) ≤ 10000)%Z as Hk by (unfold k in *; cbn [length] in *; lia).
  unfold percentile_index. rewrite percentile_position_exact by done. cbn [fmap option_fmap option_map].
  assert (length (sort_by fltb k) = length k) as Hlen by (by rewrite sort_by_perm).
  destruct (lookup_lt_is_Some_2 (sort_by fltb k) (Z.to_nat (percentile_exact (Z.of_nat (length k))))) as [v ->].
  - unfold percentile_exact. pose proof (Z.div_mod (95 * Z.of_nat (length k) + 99) 100 ltac:(lia)).
    pose proof (Z.mod_pos_bound (95 * Z.of_nat (length k) + 99) 100 ltac:(lia)). lia.
  - by eexists.
Qed.

Lemma bench_mode_run cases ep rp mode :
  sat (bench_mode cases ep rp mode : M bench_report) (λ t r, ∀ x, r = Ok x → bench_story cases mode t x).
Proof.
  apply sat_bind, sat_silent_op. intros before. apply sat_bind.
  refine (sat_conseq _ _ _ (bench_cases_run mode cases no_bench_tally) _). intros t [y|e] Hr; [|done].
  apply sat_bind, sat_silent_op. intros after. apply sat_lift. cbn [app]. rewrite !app_nil_r.
  destruct (Hr y eq_refl) as (rs & Hl & -> & _ & [= Hrefusals Hfailures]).
  unfold bench_mode_report. intros x (cost & Hcost & Hx)%result_bind_Ok.
  do 4 apply result_bind_Ok in Hx as (? & _ & Hx). injection Hx as <-. exists rs. cbn -[count].
  rewrite Hrefusals, Hfailures. cbn [no_bench_tally bt_refusals bt_failures]. rewrite Z.add_0_l.
  split_and!; try done. unfold bench_cost in Hcost. destruct (input_tokens_used before after); [done|].
  by injection Hcost as <-.
Qed.
End Reports.

(** A retrieval evaluation asks for every case once in every mode, in
    order, and reports for each mode: the answerable and the refusal cases add
    up to all cases; recall and the citation hit rate are both the share of the
    answerable cases for which some returned section is relevant, refusal
    accuracy the share of the others that were not answered, and each share
    lies in [0, 1]. *)
Theorem retrieval_report_counts : ∀ W (B : RetrievalBench W) cases version modes,
  sat (evaluate_modes cases version modes : eff W bench_call exn RAGEvaluationReport) (λ t r, ∀ x, r = Ok x →
    rr_cases x = Z.of_nat (length cases) ∧
    ∃ ts, t = List.concat ts ∧ Forall3 (mode_story cases) modes ts (rr_reports x)).
Proof.
  intros W B cases version modes. apply sat_bind.
  refine (sat_conseq _ _ _ (for_modes_run _ _ modes (evaluate_mode_run cases)) _).
  intros t [xs|e] Hr; [|done]. apply sat_ret. rewrite app_nil_r. intros x [= <-]. split; [done|].
  by apply Hr.
Qed.

(** The benchmark asks for every case once in every mode, in order, and
    lists as failures exactly the answerable cases that were missed or
    refused and the other cases that were answered; a cost is reported only
    when the tokens of the embeddings are known. *)
Theorem benchmark_failures_exact : ∀ W (B : RetrievalBench W) cases modes ep rp,
  sat (benchmark cases modes ep rp : eff W bench_call exn (list bench_report)) (λ t r, ∀ xs, r = Ok xs →
    ∃ ts, t = List.concat ts ∧ Forall3 (bench_story cases) modes ts xs) ∧
  ∀ c res, case_failure c res ≠ None ↔
    (if rg_answerable c then hits (c, res) = false ∨ res_should_answer res = false else res_should_answer res = true).
Proof.
  intros W B cases modes ep rp. split; [|apply case_failure_spec]. apply for_modes_run, bench_mode_run.
Qed.

(** Two cases, one of them not answerable; lexical search finds the section,
    vector search answers what it should refuse. *)
Definition demo_citation (key : string) : Citation := {|
  ci_document_id := "d"; ci_document_title := "Metrics"; ci_document_version := 1; ci_section_key := key;
  ci_section_title := key; ci_source_locator := "lines=1-2" |}.
Definition demo_bench : RetrievalBench unit := {|
  bench_retrieve q mode w := (w, Ok {|
    res_query := q; res_mode := mode; res_corpus_revision := "1"; res_hits := [];
    res_citations := match mode with Lexical => [demo_citation "other"; demo_citation "gmv"] | _ => [demo_citation "x"] end;
    res_should_answer := match mode with Lexical => String.eqb q "what is gmv" | _ => true end |});
  bench_usage w := (w, {| uc_input_tokens := Some 7%Z; uc_embedding_requests := 1; uc_reranker_requests := 0 |});
  bench_clock w := (w, fzero) |}.
Definition demo_gold : list RAGGoldCase :=
  [{| rg_id := "r1"; rg_question := "what is gmv"; rg_relevant_sections := ["gmv"]; rg_answerable := true |};
   {| rg_id := "r2"; rg_question := "who is the ceo"; rg_relevant_sections := []; rg_answerable := false |}].

Example demo_evaluation :
  match outcome (evaluate_modes (H := demo_bench) demo_gold "1" [Lexical; Vector]) tt with
  | Ok x => map (λ m, (mr_recall_at_5 m, mr_mrr m, mr_refusal_accuracy m)) (rr_reports x)
            = [(f_of_Z 1, decimal 5 1, f_of_Z 1); (fzero, fzero, fzero)]
  | Err _ => False
  end.
Proof. vm_compute. done. Qed.

Example demo_benchmark :
  match outcome (benchmark (H := demo_bench) demo_gold [Vector] (Some (decimal 1 1)) None) tt with
  | Ok xs => map br_failures xs = [[Miss "r1" ["x"]; UnsupportedAnswered "r2"]] ∧ map br_cost xs = [Some fzero]
  | Err _ => False
  end.
Proof. vm_compute. done. Qed.
