(* ===== verification/GraphEvaluation.v ===== *)
(** * The graph extraction report: [app/knowledge_graph/evaluation.py]

    Each case of the data set is replayed through the graph service, or put
    to the configured model, and the triples found are scored against the
    gold ones.  [uuid4] and the closing of the client are an interface. *)

From S2P Require Import Prelude PyStr Floats Errors Json Numbers Metadata Policy SqlGuard.
From S2P Require Import DataSources Executor SafeQuery StructuredLLM QuestionGuard NL2SQL.
From S2P Require Import Parsing Embeddings KnowledgeRepository RetrievalService.
From S2P Require Import JsonText Utf8 GraphModels GraphStore GraphService GraphImport.
From S2P Require Import PyText Decimal FloatText Rounding Evaluation.

Class GraphEvalEnv (W : Type) := {
  eval_graph_env :: GraphEnv W;
  uuid4 : W → W * string;
  close_client : W → W * unit
}.

(** A line of the data set after [json.loads]. *)
Record graph_case := { kc_id : string; kc_text : string; kc_gold : Extraction }.

(** ** Triples *)

Section Triples.
Context `{PyUnicode}.

Definition triple : Type := (EntityKind * string) * RelationKind * (EntityKind * string).

Definition draft_names (x : Extraction) : list (string * (EntityKind * string)) :=
  dict_of (map (λ e, (ed_id e, entity_key e)) (entities x)).
Definition name_at (names : list (string * (EntityKind * string))) (id : string) :
    result exn (EntityKind * string) :=
  match dict_get id names with Some n => Ok n | None => Err KeyError end.
Definition draft_triple (names : list (string * (EntityKind * string))) (r : RelationDraft) : result exn triple :=
  s ← name_at names (rd_source r);
  t ← name_at names (rd_target r);
  Ok (s, rd_kind r, t).
Definition triples (x : Extraction) : result exn (list triple) :=
  fromkeys <$> map_result (draft_triple (draft_names x)) (relations x).

(** [next(... for n in graph.nodes if n.id == id)]; a coroutine turns
    [StopIteration] into [RuntimeError]. *)
Definition node_at (g : Subgraph) (id : string) : result exn (EntityKind * string) :=
  match List.find (λ n, String.eqb (gn_id n) id) (nodes g) with
  | Some n => Ok (gn_kind n, casefold (gn_name n))
  | None => Err (OtherException "RuntimeError")
  end.
Definition graph_triple (g : Subgraph) (e : GraphEdge) : result exn triple :=
  s ← node_at g (ge_source e);
  t ← node_at g (ge_target e);
  Ok (s, ge_kind e, t).
Definition predicted_triples (g : Subgraph) : result exn (list triple) :=
  fromkeys <$> map_result (graph_triple g) (edges g).
End Triples.

(** ** Scores *)

Record case_score := { cs_id : string; cs_precision : float; cs_recall : float; cs_f1 : float }.

(** A division of counts, the lesser by the greater: in range
    ([true_div_share]). *)
Definition share (n d : nat) : float :=
  if d =? 0 then fzero else quotient (Z.of_nat n) (Z.of_nat d).
Definition f1 (precision recall : float) : float :=
  let total := fadd precision recall in
  if feqb total fzero then fzero else fdiv (fmul (fmul (f_of_Z 2) precision) recall) total.

Definition score (id : string) (predicted expected : list triple) : case_score :=
  let correct := length (List.filter (λ t, bool_decide (t ∈ expected)) predicted) in
  let precision := share correct (length predicted) in
  let recall := share correct (length expected) in
  {| cs_id := id; cs_precision := precision; cs_recall := recall; cs_f1 := f1 precision recall |}.

(** ** evaluate *)

Record graph_report := { gr_mode : string; gr_real_model_evaluation : bool; gr_cases : list case_score }.

Section Evaluate.
Context `{PyUnicode} `{Uuid} {W : Type} `{GraphEvalEnv W}.
Context (parse : string → result exn graph_case) (create_client : result exn unit).
Context (extraction_model : ResponseModel Extraction).
Notation M := (eff W graph_call exn).

Definition evaluate_graph_case (configured : bool) (line : string) : M case_score :=
  c ← lift_result (parse line);
  gold ← lift_result (Extraction_validate (kc_gold c));
  source ← silent uuid4;
  request ← lift_result (ExtractRequest_validate
    {| xr_source_id := source; xr_source_name := kc_id c; xr_text := kc_text c |});
  tenant ← silent uuid4;
  predicted ← (if configured then
                 g ← extract extraction_model tenant request; lift_result (predicted_triples g)
               else _ ← persist tenant request gold; lift_result (triples gold));
  expected ← lift_result (triples gold);
  mret (score (kc_id c) predicted expected).

Fixpoint evaluate_lines (configured : bool) (lines : list string) : M (list case_score) :=
  match lines with
  | [] => mret []
  | l :: lines =>
      if is_blank l then evaluate_lines configured lines
      else x ← evaluate_graph_case configured l; xs ← evaluate_lines configured lines; mret (x :: xs)
  end.

Definition evaluate_graphs (configured : bool) (lines : list string) : M graph_report :=
  _ ← lift_result (if configured then create_client else Ok tt);
  cases ← finally (evaluate_lines configured lines) (λ _, if configured then silent close_client else mret tt);
  mret {| gr_mode := if configured then "configured_model" else "gold_replay_schema_validation";
          gr_real_model_evaluation := configured; gr_cases := cases |}.
End Evaluate.

(** ** The triples of a stored graph *)

Section TripleLemmas.
Context `{PyUnicode} `{Uuid}.
Implicit Types (x : Extraction) (t : triple).

(** The triples of an extraction, as a set. *)
Definition is_triple x t : Prop :=
  ∃ r a b, r ∈ relations x ∧ a ∈ entities x ∧ b ∈ entities x ∧ ed_id a = rd_source r ∧ ed_id b = rd_target r ∧
    t = (entity_key a, rd_kind r, entity_key b).
Definition triple_set x (l : list triple) : Prop := NoDup l ∧ ∀ t, t ∈ l ↔ is_triple x t.

Lemma name_at_entity x e :
  NoDup (map ed_id (entities x)) → e ∈ entities x → name_at (draft_names x) (ed_id e) = Ok (entity_key e).
Proof. intros Hnd He. unfold name_at, draft_names. by rewrite (dict_get_of_map ed_id entity_key). Qed.

Lemma entity_key_of_id x a b :
  NoDup (map ed_id (entities x)) → a ∈ entities x → b ∈ entities x → ed_id a = ed_id b →
  entity_key a = entity_key b.
Proof.
  intros Hnd Ha Hb E. pose proof (name_at_entity x a Hnd Ha) as Hk.
  rewrite E, name_at_entity in Hk by done. congruence.
Qed.

Lemma draft_triple_spec x r t :
  references_ok x = true → r ∈ relations x →
  draft_triple (draft_names x) r = Ok t ↔
  ∃ a b, a ∈ entities x ∧ b ∈ entities x ∧ ed_id a = rd_source r ∧ ed_id b = rd_target r ∧
    t = (entity_key a, rd_kind r, entity_key b).
Proof.
  intros (Hnd & _ & Href)%references_ok_spec Hr.
  destruct (Href r Hr) as [(a & Ha & Hia)%elem_of_map (b & Hb & Hib)%elem_of_map].
  unfold draft_triple. rewrite Ha, Hb, !name_at_entity by done. cbn. split.
  - intros [= <-]. by exists a, b.
  - intros (a' & b' & Ha' & Hb' & Ea & Eb & ->). f_equal.
    assert (entity_key a = entity_key a') as -> by (apply (entity_key_of_id x); congruence).
    by assert (entity_key b = entity_key b') as -> by (apply (entity_key_of_id x); congruence).
Qed.

Lemma triples_run x : Extraction_ok x = true → ∃ l, triples x = Ok l ∧ triple_set x l.
Proof.
  unfold Extraction_ok. intros [_ Href]%andb_true_iff. unfold triples.
  destruct (map_result_total (draft_triple (draft_names x)) (relations x)) as (ts & Hts); [|rewrite Hts; apply map_result_Ok in Hts as HF].
  { intros r Hr. pose proof Href as (_ & _ & Hids)%references_ok_spec.
    destruct (Hids r Hr) as [(a & ? & ?)%elem_of_map (b & ? & ?)%elem_of_map].
    eexists. apply (draft_triple_spec x); [done..|]. by exists a, b. }
  eexists. split; [reflexivity|]. split; [apply NoDup_fromkeys|]. intros t. rewrite elem_of_fromkeys. split.
  - intros Ht. eapply Forall2_elem_of in HF as (r & Hr & E); [|done].
    apply (draft_triple_spec x) in E as (a & b & ?); [|done..]. exists r, a, b. naive_solver.
  - intros (r & a & b & Hr & Hab). destruct (Forall2_in_l _ _ _ _ HF Hr) as (t' & Ht' & E).
    assert (draft_triple (draft_names x) r = Ok t) as E' by (apply (draft_triple_spec x); eauto). congruence.
Qed.
End TripleLemmas.

Section StoredTriples.
Context `{PyUnicode} `{UuidLaws}.
Context (tenant : string) (r : ExtractRequest) (now : string) (x : Extraction) (g : Subgraph).
Context (Hok : Extraction_ok x = true) (Hg : faithful_graph tenant r now x g).

Lemma node_at_entity e : e ∈ entities x → node_at g (id_of tenant r e) = Ok (entity_key e).
Proof using Hok Hg H1.
  intros He. assert (NoDup (map gn_id (map (node_of tenant r now) (entities x)))) as Hnd.
  { apply node_ids_distinct; [by apply andb_true_iff in Hok as [_ ?]|]. intros e1 e2 _ _. apply uuid5_inj. }
  unfold node_at. destruct Hg as (-> & _). revert Hnd He. clear. generalize (entities x). intros l.
  induction l as [|e' l IH]; cbn; intros Hnd He; [by apply elem_of_nil in He|].
  apply NoDup_cons in Hnd as [Hn Hnd]. destruct (String.eqb_spec (id_of tenant r e') (id_of tenant r e)) as [E|E].
  - apply elem_of_cons in He as [-> |He]; [done|]. exfalso. apply Hn. rewrite E, map_map.
    apply elem_of_map. eauto.
  - apply elem_of_cons in He as [-> |He]; [done|]. by apply IH.
Qed.

Lemma graph_triple_edge d e :
  edge_of tenant r now x d e → ∃ a b, a ∈ entities x ∧ b ∈ entities x ∧ ed_id a = rd_source d ∧
    ed_id b = rd_target d ∧ ge_source e = id_of tenant r a ∧ ge_target e = id_of tenant r b ∧
    graph_triple g e = Ok (entity_key a, rd_kind d, entity_key b).
Proof using Hok Hg H1.
  intros (a & b & Ha & Hb & Ea & Eb & ->). exists a, b. unfold graph_triple. cbn.
  by rewrite !node_at_entity.
Qed.

(** The graph that is stored gives back exactly the triples of the extraction. *)
Lemma predicted_triples_run : ∃ l, predicted_triples g = Ok l ∧ triple_set x l.
Proof using Hok Hg H1.
  pose proof Hg as (_ & Hfrom & Hto & _). unfold predicted_triples.
  destruct (map_result_total (graph_triple g) (edges g)) as (ts & Hts); [|rewrite Hts; apply map_result_Ok in Hts as HF].
  { intros e He. destruct (Hfrom e He) as (d & _ & Hd). apply graph_triple_edge in Hd as (a & b & Hab). naive_solver. }
  eexists. split; [reflexivity|]. split; [apply NoDup_fromkeys|]. intros t. rewrite elem_of_fromkeys. split.
  - intros Ht. eapply Forall2_elem_of in HF as (e & He & E); [|done]. destruct (Hfrom e He) as (d & Hd & Hde).
    apply graph_triple_edge in Hde as (a & b & ? & ? & ? & ? & _ & _ & E'). exists d, a, b. split_and!; try done. congruence.
  - intros (d & a & b & Hd & Ha & Hb & Ea & Eb & ->). destruct (Hto d Hd) as (e & e' & Hde & He' & Hid).
    destruct (Forall2_in_l _ _ _ _ HF He') as (t' & Ht' & E). destruct (Hfrom e' He') as (d' & _ & Hde').
    pose proof Hde as (a1 & b1 & Ha1 & Hb1 & Ea1 & Eb1 & ->). pose proof Hde' as (a2 & b2 & _ & _ & _ & _ & ->).
    cbn in Hid. apply uuid5_inj, edge_name_inj in Hid as (Es & Ek & Et); [|apply uuid5_colon_free..].
    assert (t' = (entity_key a, rd_kind d, entity_key b)) as ->; [|done].
    unfold graph_triple in E. cbn in E. rewrite Es, Et, Ek, !node_at_entity in E by done. cbn in E.
    injection E as <-. apply andb_true_iff in Hok as [_ (Hnd & _)%references_ok_spec].
    assert (entity_key a1 = entity_key a) as -> by (apply (entity_key_of_id x); congruence).
    by assert (entity_key b1 = entity_key b) as -> by (apply (entity_key_of_id x); congruence).
Qed.
End StoredTriples.

(** ** What a run reports *)

Lemma length_fromkeys {A} `{EqDecision A} (l : list A) : length (fromkeys l) ≤ length l.
Proof.
  unfold fromkeys. generalize (@nil A). induction l as [|x l IH]; intros seen; cbn; [lia|].
  case_decide; cbn; [etrans; [apply IH|lia]|]. specialize (IH (x :: seen)). lia.
Qed.

Lemma share_all n : 1 ≤ n ≤ 200 → share n n = f_of_Z 1.
Proof.
  intros Hn. assert (forallb (λ n, bool_decide (share n n = f_of_Z 1)) (seq 1 200) = true) as Hall
    by (vm_compute; reflexivity).
  rewrite list_forallb_spec in Hall. specialize (Hall n). rewrite bool_decide_eq_true in Hall.
  apply Hall, elem_of_seq. lia.
Qed.

(** A full score; without triples every share is zero. *)
Definition full_score (id : string) (l : list triple) : case_score :=
  let x := match l with [] => fzero | _ => f_of_Z 1 end in
  {| cs_id := id; cs_precision := x; cs_recall := x; cs_f1 := x |}.

Lemma score_same id l : length l ≤ 200 → score id l l = full_score id l.
Proof.
  intros Hl. unfold score. assert (List.filter (λ t, bool_decide (t ∈ l)) l = l) as ->.
  { assert (∀ k : list triple, (∀ t, t ∈ k → t ∈ l) → List.filter (λ t, bool_decide (t ∈ l)) k = k) as Hk.
    { induction k as [|t k IH]; intros Hin; cbn; [done|].
      rewrite bool_decide_eq_true_2 by (apply Hin; by left). f_equal. apply IH. intros; apply Hin; by right. }
    by apply Hk. }
  destruct l as [|t l]; [done|]. cbn [full_score]. rewrite share_all by (cbn in *; lia). vm_compute. reflexivity.
Qed.

Lemma full_score_relations `{PyUnicode} id x l : triples x = Ok l →
  (cs_precision (full_score id l), cs_recall (full_score id l), cs_f1 (full_score id l)) =
    match relations x with [] => (fzero, fzero, fzero) | _ => (f_of_Z 1, f_of_Z 1, f_of_Z 1) end.
Proof.
  unfold triples. destruct (map_result _ (relations x)) as [ts|] eqn:Hts; [|done]. intros [= <-].
  apply map_result_Ok, Forall2_length in Hts. destruct ts as [|t ts], (relations x) as [|r rs]; done.
Qed.

Section Runs.
Context `{PyUnicode} `{UuidLaws} {W : Type} `{GraphEvalEnv W}.
Context (parse : string → result exn graph_case) (create_client : result exn unit).
Context (extraction_model : ResponseModel Extraction).

Lemma extract_run tenant r :
  sat (extract (W := W) extraction_model tenant r) (λ t reply, match reply with
    | Ok g => ∃ ms x now, t = [CallGenerate ms; CallReplace tenant (xr_source_id r) g] ∧
        Extraction_ok x = true ∧ faithful_graph tenant r now x g
    | Err e => e = ValidationError ∨ e = ValueError ∨
        (∃ ms (w w' : W), ask extraction_model ms w = (w', Err e)) ∨
        (∃ g (w w' : W), replace tenant (xr_source_id r) g w = (w', Err e))
    end).
Proof.
  apply sat_bind, sat_lift. destruct (two_messages _ _) as [ms|e] eqn:Hms.
  - apply sat_bind, sat_invoke_op. intros w w' [reply|e] Hask; [|right; right; left; eauto].
    eapply sat_conseq; [apply persist_run|]. intros t [g|e].
    + intros (Hx & -> & now & Hf). exists ms, (output reply), now. done.
    + intros [(-> & _)|[(-> & _)|(g & w1 & w2 & Hr & _)]]; [auto..|]. right; right; right; eauto.
  - left. revert Hms. unfold two_messages, LLMMessage_make.
    repeat case_match; cbn; congruence.
Qed.

(** What the model, or the replay, was asked for and found. *)
Definition case_found (configured : bool) (c : graph_case) (t : list graph_call) (x : Extraction) : Prop :=
  ∃ tenant source g now,
    let request := {| xr_source_id := source; xr_source_name := kc_id c; xr_text := kc_text c |} in
    Extraction_ok x = true ∧ faithful_graph tenant request now x g ∧
    if configured then ∃ ms, t = [CallGenerate ms; CallReplace tenant source g]
    else x = kc_gold c ∧ t = [CallReplace tenant source g].
(** The scores of a case: how many of the triples found are gold, over the
    triples found and over the gold ones, and the harmonic mean of the two. *)
Definition scored (found expected : list triple) (s : case_score) : Prop :=
  let correct := Z.of_nat (length (filter (λ t, t ∈ expected) found)) in
  cs_precision s = match found with [] => fzero | _ => quotient correct (Z.of_nat (length found)) end ∧
  cs_recall s = match expected with [] => fzero | _ => quotient correct (Z.of_nat (length expected)) end ∧
  cs_f1 s = if feqb (fadd (cs_precision s) (cs_recall s)) fzero then fzero
            else fdiv (fmul (fmul (f_of_Z 2) (cs_precision s)) (cs_recall s)) (fadd (cs_precision s) (cs_recall s)).

Lemma score_scored id found expected :
  cs_id (score id found expected) = id ∧ scored found expected (score id found expected).
Proof.
  split; [done|]. unfold scored, score. cbv zeta. cbn [cs_precision cs_recall cs_f1].
  rewrite (List_filter_filter (λ t, t ∈ expected)) by (intros; apply bool_decide_eq_true).
  split_and!; [by destruct found|by destruct expected|done].
Qed.

(** The report of a case whose text gave the triples [found]: in a replay all
    three scores are 1, or 0 when the case has no relation. *)
Definition graph_case_story (configured : bool) (line : string) (t : list graph_call) (s : case_score) : Prop :=
  ∃ c x found expected, parse line = Ok c ∧ Extraction_ok (kc_gold c) = true ∧ case_found configured c t x ∧
    triple_set x found ∧ triple_set (kc_gold c) expected ∧ cs_id s = kc_id c ∧ scored found expected s ∧
    (configured = false → (cs_precision s, cs_recall s, cs_f1 s) =
       match relations (kc_gold c) with [] => (fzero, fzero, fzero) | _ => (f_of_Z 1, f_of_Z 1, f_of_Z 1) end).

Definition case_fails (configured : bool) (line : string) (e : exn) : Prop :=
  parse line = Err e ∨ ∃ c, parse line = Ok c ∧
    (e = ValidationError ∨ e = ValueError ∨
     (configured = true ∧ ∃ ms (w w' : W), ask extraction_model ms w = (w', Err e)) ∨
     (∃ tenant source g (w w' : W), replace tenant source g w = (w', Err e))).

Lemma gold_case_run c gold request tenant :
  Extraction_ok gold = true → gold = kc_gold c → xr_source_name request = kc_id c → xr_text request = kc_text c →
  sat (_ ← persist (W := W) tenant request gold; lift_result (triples gold)) (λ t r, match r with
    | Ok found => case_found false c t gold ∧ triples gold = Ok found
    | Err e => e = ValueError ∨ ∃ source g (w w' : W), replace tenant source g w = (w', Err e)
    end).
Proof.
  intros Hgold Hc Hn Ht. apply sat_bind. eapply sat_conseq; [apply persist_run|]. intros t [g|e].
  - intros (_ & -> & now & Hf). apply sat_lift. destruct (triples_run gold Hgold) as (l & -> & _).
    split; [|done]. exists tenant, (xr_source_id request), g, now. cbn.
    split_and!; [done| |done|done]. rewrite <-Hn, <-Ht. by destruct request.
  - intros [(-> & Hf & _)|[(-> & _)|(g & w1 & w2 & Hr & _)]]; [congruence|auto|]. right; eauto.
Qed.

Lemma configured_case_run c request tenant :
  xr_source_name request = kc_id c → xr_text request = kc_text c →
  sat (g ← extract (W := W) extraction_model tenant request; lift_result (predicted_triples g)) (λ t r, match r with
    | Ok found => ∃ x, case_found true c t x ∧ triple_set x found
    | Err e => e = ValidationError ∨ e = ValueError ∨ (∃ ms (w w' : W), ask extraction_model ms w = (w', Err e)) ∨
        (∃ source g (w w' : W), replace tenant source g w = (w', Err e))
    end).
Proof using H1.
  intros Hn Ht. apply sat_bind. eapply sat_conseq; [apply extract_run|]. intros t [g|e].
  - intros (ms & x & now & -> & Hx & Hf). apply sat_lift.
    destruct (predicted_triples_run tenant request now x g Hx Hf) as (l & -> & Hl).
    exists x. split; [|done]. exists tenant, (xr_source_id request), g, now. cbn.
    split_and!; [done| |by exists ms]. rewrite <-Hn, <-Ht. by destruct request.
  - intros [->|[->|[(ms & w & w' & Ha)|(g & w & w' & Hr)]]]; eauto 10.
Qed.

Lemma graph_case_run configured line :
  sat (evaluate_graph_case (W := W) parse extraction_model configured line) (λ t r, match r with
    | Ok s => graph_case_story configured line t s
    | Err e => case_fails configured line e
    end).
Proof using H1.
  apply sat_bind, sat_lift. destruct (parse line) as [c|e] eqn:Hp; [|by left].
  apply sat_bind, sat_lift. destruct (Extraction_validate (kc_gold c)) as [gold|e] eqn:Hv.
  2: { right. exists c. split; [done|]. left. revert Hv. unfold Extraction_validate. case_match; congruence. }
  apply Extraction_validate_Ok in Hv as [-> Hgold]. destruct (triples_run (kc_gold c) Hgold) as (l & Hl & Hset).
  apply sat_bind, sat_silent_op. intros source. apply sat_bind, sat_lift.
  destruct (ExtractRequest_validate _) as [request|e] eqn:Hr.
  2: { right. exists c. split; [done|]. left. revert Hr. unfold ExtractRequest_validate. case_match; congruence. }
  assert (xr_source_name request = kc_id c ∧ xr_text request = kc_text c) as [Hn Ht].
  { revert Hr. unfold ExtractRequest_validate. case_match; [|done]. by intros [= <-]. }
  apply sat_bind, sat_silent_op. intros tenant. apply sat_bind. destruct configured.
  - refine (sat_conseq _ _ _ (configured_case_run c request tenant Hn Ht) _). intros t [found|e].
    + intros (x & Hx & Hfound). rewrite Hl. apply sat_bind, sat_lift, sat_ret. rewrite !app_nil_r.
      destruct (score_scored (kc_id c) found l) as [Hid Hscored].
      exists c, x, found, l. split_and!; done.
    + intros Hf. right. exists c. split; [done|]. naive_solver.
  - refine (sat_conseq _ _ _ (gold_case_run c (kc_gold c) request tenant Hgold eq_refl Hn Ht) _). intros t [found|e].
    + rewrite Hl. intros (Hx & [= <-]). apply sat_bind, sat_lift, sat_ret. rewrite !app_nil_r.
      destruct (score_scored (kc_id c) l l) as [Hid Hscored].
      exists c, (kc_gold c), l, l. split_and!; try done. intros _. rewrite score_same; [by apply full_score_relations|].
      revert Hl. unfold triples. destruct (map_result _ _) as [ts|] eqn:Hts; [|done]. intros [= <-].
      etrans; [apply length_fromkeys|]. apply map_result_Ok, Forall2_length in Hts as <-.
      unfold Extraction_ok in Hgold. rewrite !andb_true_iff in Hgold. destruct Hgold as [[[[_ Hlen] _] _] _].
      by apply Nat.leb_le in Hlen.
    + intros Hf. right. exists c. split; [done|]. naive_solver.
Qed.

Lemma evaluate_lines_run configured lines :
  sat (evaluate_lines (W := W) parse extraction_model configured lines) (λ t r, match r with
    | Ok xs => ∃ ts, t = List.concat ts ∧
        Forall3 (graph_case_story configured) (List.filter (λ l, negb (is_blank l)) lines) ts xs
    | Err e => ∃ line, line ∈ lines ∧ is_blank line = false ∧ case_fails configured line e
    end).
Proof using H1.
  induction lines as [|l lines IH]; cbn [evaluate_lines]; [apply sat_ret; exists []; by split; [|constructor]|].
  destruct (is_blank l) eqn:Hb; cbn [List.filter].
  - rewrite Hb. eapply sat_conseq; [exact IH|]. intros t [xs|e]; [done|].
    intros (line & ? & ?). exists line. split; [by right|done].
  - rewrite Hb. apply sat_bind. eapply sat_conseq; [apply graph_case_run|]. intros t [x|e] Hx.
    2: { exists l. split; [by left|done]. }
    apply sat_bind. eapply sat_conseq; [exact IH|]. intros t' [xs|e].
    + intros (ts & -> & Hall). apply sat_ret. exists (t :: ts). rewrite app_nil_r. by split; [|constructor].
    + intros (line & ? & ?). exists line. split; [by right|done].
Qed.

Lemma evaluate_graphs_run configured lines :
  sat (evaluate_graphs (W := W) parse create_client extraction_model configured lines) (λ t r, match r with
    | Ok report => gr_real_model_evaluation report = configured ∧ ∃ ts, t = List.concat ts ∧
        Forall3 (graph_case_story configured) (List.filter (λ l, negb (is_blank l)) lines) ts (gr_cases report)
    | Err e => (configured = true ∧ create_client = Err e ∧ t = []) ∨
        ∃ line, line ∈ lines ∧ is_blank line = false ∧ case_fails configured line e
    end).
Proof using H1.
  apply sat_bind, sat_lift. assert ((if configured then create_client else Ok tt) = Ok tt ∨
    ∃ e, configured = true ∧ create_client = Err e ∧ (if configured then create_client else Ok tt) = Err e)
    as [-> |(e & Hc & He & ->)]; [| |by left].
  { destruct configured; [destruct create_client as [[]|e]; eauto|by left]. }
  apply sat_bind, sat_finally. eapply sat_conseq; [apply evaluate_lines_run|]. intros t r Hr.
  assert (∀ Q : list graph_call → result exn unit → Prop, Q [] (Ok tt) →
    sat (if configured then silent close_client else mret tt : eff W graph_call exn unit) Q) as Hclose.
  { intros Q HQ. destruct configured; [apply sat_silent_op; by intros []|by apply sat_ret]. }
  apply Hclose. destruct r as [xs|e]; [|by right]. apply sat_ret. cbn. rewrite !app_nil_r. done.
Qed.
End Runs.

(** ** Theorem *)

(** C40: a run either reports one score per line of the data set, in order, or
    ends with an error that its input, the model or the store raised (never
    with a key or an iteration error of its own).  A case's graph is replaced
    once, under one source and one tenant.  Its precision is the number of
    triples of the stored extraction, recovered exactly from the stored graph,
    that are gold ones, over the number of those triples, its recall that
    number over the number of gold triples (0 of none), and f1 is 2pr/(p+r), 0
    when both are; the replay of the gold data scores 1 in all three, or 0 for
    a case that has no relation. *)
Theorem graph_evaluation_scores : ∀ (U : PyUnicode) (I : Uuid) (L : UuidLaws) W (E : GraphEvalEnv W)
    parse create_client extraction_model configured lines,
  sat (evaluate_graphs (W := W) parse create_client extraction_model configured lines) (λ t r, match r with
    | Ok report => gr_real_model_evaluation report = configured ∧ ∃ ts, t = List.concat ts ∧
        Forall3 (graph_case_story parse configured) (List.filter (λ l, negb (is_blank l)) lines) ts (gr_cases report)
    | Err e => (configured = true ∧ create_client = Err e ∧ t = []) ∨
        ∃ line, line ∈ lines ∧ is_blank line = false ∧
          case_fails (W := W) parse extraction_model configured line e
    end).
Proof. intros U I L W E. apply evaluate_graphs_run. Qed.

(** ** Concrete runs *)

#[export] Instance demo_graph_eval : GraphEvalEnv memory_graphs := {|
  eval_graph_env := demo_graph_env; uuid4 w := (w, "u"); close_client w := (w, tt) |}.

Definition eval_entity (id name : string) : EntityDraft := {|
  ed_id := id; ed_name := name; ed_kind := Metric; ed_evidence := name; ed_confidence := f_of_Z 1 |}.
Definition eval_gold (related : bool) : Extraction := {|
  entities := [eval_entity "a" "Revenue"; eval_entity "b" "Orders"];
  relations := if related then [{| rd_source := "a"; rd_target := "b"; rd_kind := DERIVED_FROM;
                                   rd_evidence := "Revenue from Orders"; rd_confidence := f_of_Z 1 |}] else [] |}.
Definition eval_parse (line : string) : result exn graph_case :=
  Ok {| kc_id := line; kc_text := "Revenue from Orders"; kc_gold := eval_gold (String.eqb line "related") |}.
Definition no_extraction_model : ResponseModel Extraction :=
  {| model_name := "Extraction"; model_json_schema := PNone; model_validate_json := λ _, inr [] |}.
Definition demo_graph_run : eff memory_graphs graph_call exn graph_report :=
  @evaluate_graphs demo_unicode bits_uuid5 memory_graphs demo_graph_eval eval_parse (Ok tt)
    no_extraction_model false ["related"; " "; "alone"].

Lemma graph_evaluation_scores_witness :
  ∃ report ts, outcome demo_graph_run [] = Ok report ∧
    map cs_f1 (gr_cases report) = [f_of_Z 1; fzero] ∧
    Forall3 (@graph_case_story demo_unicode bits_uuid5 eval_parse false) ["related"; "alone"] ts (gr_cases report).
Proof.
  assert (∃ report, outcome demo_graph_run [] = Ok report ∧ map cs_f1 (gr_cases report) = [f_of_Z 1; fzero])
    as (report & Hr & Hs) by (eexists; split; vm_compute; reflexivity).
  pose proof (graph_evaluation_scores demo_unicode bits_uuid5 bits_uuid5_laws memory_graphs demo_graph_eval
    eval_parse (Ok tt) no_extraction_model false ["related"; " "; "alone"] []) as Hrun.
  change (evaluate_graphs _ _ _ _ _) with demo_graph_run in Hrun. rewrite Hr in Hrun.
  destruct Hrun as (_ & ts & _ & Hall). exists report, ts. split; [exact Hr|]. split; [exact Hs|exact Hall].
Defined.

(** One inexact quote ends the whole run. *)
Example inexact_gold_ends_run :
  outcome (@evaluate_graphs demo_unicode bits_uuid5 memory_graphs demo_graph_eval
    (λ l, Ok {| kc_id := l; kc_text := "revenue"; kc_gold := eval_gold true |}) (Ok tt)
    no_extraction_model false ["one"; "two"]) [] = Err ValueError.
Proof. vm_compute. reflexivity. Qed.
