(* ===== verification/Commands.v ===== *)
(** * Evaluation commands: [evaluation/query_plans.py],
      [evaluation/upgrade_smoke.py], [evaluation/cli.py]

    The plan experiment in a transaction that is rolled back, the smoke test
    of the whole stack, and the command of the evaluation run with its
    conditions.  The database driver, the HTTP client and what the command
    runs are interfaces; argument parsing and the files written are not
    modelled. *)

From S2P Require Import Prelude PyStr Floats Errors Json Metadata Policy Numbers DataSources Executor.
From S2P Require Import SafeQuery StructuredLLM QuestionGuard NL2SQL Parsing Embeddings KnowledgeRepository RetrievalService.
From S2P Require Import JsonText Utf8 PyText Decimal FloatText PostgresKnowledge Settings Rounding.
From S2P Require Import Evaluation EvaluationRunner RetrievalEvaluation.

(** ** query_plans.py *)

Definition create_plan_jobs : string :=
  "CREATE TEMP TABLE plan_jobs (id bigint, tenant int, owner_id int, status text, created_at timestamptz)".
Definition insert_plan_jobs : string :=
  "INSERT INTO plan_jobs SELECT n, n %% 20, n %% 200, " +:+
  "CASE WHEN n %% 3 = 0 THEN 'FAILED' ELSE 'COMPLETED' END, " +:+
  "now() - n * interval '1 second' FROM generate_series(1, %s) n".
Definition plan_query : string :=
  "EXPLAIN (ANALYZE, BUFFERS, FORMAT JSON) SELECT id, " +:+
  "count(*) OVER () AS matching_rows FROM plan_jobs " +:+
  "WHERE tenant = 1 AND owner_id = 1 " +:+
  "ORDER BY created_at DESC, id DESC LIMIT 20".
Definition create_plan_index : string :=
  "CREATE INDEX ON plan_jobs (tenant, owner_id, created_at DESC, id DESC)".

(** [cursor.fetchone()[0][0]]. *)
Definition first_plan (row : option (list pyval)) : result exn pyval :=
  match row with
  | None => Err TypeError
  | Some [] => Err IndexError
  | Some (v :: _) => first_item v
  end.

(** [a - b] of the numbers that JSON has. *)
Definition number_minus (a b : pyval) : result exn (Z + float) :=
  match a, b with
  | PInt x, PInt y => Ok (inl (x - y)%Z)
  | PInt _, PFloat _ | PFloat _, PInt _ | PFloat _, PFloat _ =>
      x ← py_float a; y ← py_float b; Ok (inr (fsub x y))
  | _, _ => Err TypeError
  end.

Record plan_report := { pl_rows : Z; pl_before : pyval; pl_after : pyval; pl_delta : Z + float }.

Definition plan_parameters (s : PlatformDatabaseSettings) : list (string * pyval) :=
  [("host", PStr (platform_host s)); ("port", PInt (platform_port s)); ("dbname", PStr (platform_name s));
   ("user", PStr (platform_user s)); ("password", PStr (platform_password s))].

Section Plans.
Context {W : Type} `{Psycopg W}.

Definition explain : eff W db_call exn pyval :=
  _ ← db (Execute plan_query []); row ← db FetchOne; lift_result (first_plan row).

Definition measure_plans (rows : Z) : eff W db_call exn plan_report :=
  _ ← db (Execute "SET LOCAL statement_timeout = '30s'" []);
  _ ← db (Execute create_plan_jobs []);
  _ ← db (Execute insert_plan_jobs [PInt rows]);
  _ ← db (Execute "ANALYZE plan_jobs" []);
  before ← explain;
  _ ← db (Execute create_plan_index []);
  _ ← db (Execute "ANALYZE plan_jobs" []);
  after ← explain;
  a ← lift_result (get_key after "Execution Time");
  b ← lift_result (get_key before "Execution Time");
  delta ← lift_result (number_minus a b);
  mret {| pl_rows := rows; pl_before := before; pl_after := after; pl_delta := delta |}.

(** [connection.rollback()] is a transaction that ends without its work. *)
Definition compare_plans (s : PlatformDatabaseSettings) (rows : Z) : eff W db_call exn plan_report :=
  connected (plan_parameters s) (finally (measure_plans rows) (λ _, db (EndTransaction false))).
End Plans.

(** ** upgrade_smoke.py *)

Record http_reply := { hp_status : Z; hp_json : result exn pyval }.
Inductive http_call := HttpCall (post : bool) (url : string) (headers : list (string * string)) (json : pyval).
Class HttpClient (W : Type) := http_request : http_call → op W exn http_reply.

Record smoke_report := { sr_checks : list (string * Z); sr_tool_count : nat }.

(** [config.get(key, default)] of what dotenv read: a key without a value is
    [None]. *)
Definition env_get (config : list (string * option string)) (key default : string) : pyval :=
  match dict_get key config with
  | None => PStr default | Some None => PNone | Some (Some v) => PStr v
  end.
Definition login_body (config : list (string * option string)) : pyval :=
  PDict [("tenant_slug", env_get config "PLATFORM_BOOTSTRAP_TENANT_SLUG" "northwind");
         ("email", env_get config "PLATFORM_BOOTSTRAP_ADMIN_EMAIL" "admin@northwind.local");
         ("password", env_get config "PLATFORM_BOOTSTRAP_PASSWORD" "change-me-demo")].

Definition bearer (login : pyval) : result exn (list (string * string)) :=
  token ← get_key login "access_token";
  match token with PStr t => Ok [("Authorization", "Bearer " +:+ t)] | _ => Err TypeError end.
Definition mcp_headers (headers : list (string * string)) : list (string * string) :=
  dict_set "Accept" "application/json, text/event-stream" headers.
Definition rpc (method : string) (params : pyval) (request_id : Z) : pyval :=
  PDict [("jsonrpc", PStr "2.0"); ("id", PInt request_id); ("method", PStr method); ("params", params)].
Definition initialize_params : pyval :=
  PDict [("protocolVersion", PStr "2025-11-25"); ("capabilities", PDict []);
         ("clientInfo", PDict [("name", PStr "upgrade-smoke"); ("version", PStr "1")])].
Definition catalog_params : pyval :=
  PDict [("name", PStr "search_catalog"); ("arguments", PDict [("query", PStr "")])].
Definition capabilities_params : pyval := PDict [("uri", PStr "copilot://capabilities")].

Definition runtime_error : exn := OtherException "RuntimeError".

(** [all(t["annotations"]["readOnlyHint"] for t in tools)]. *)
Fixpoint all_read_only (tools : list pyval) : result exn bool :=
  match tools with
  | [] => Ok true
  | t :: tools =>
      annotations ← get_key t "annotations"; hint ← get_key annotations "readOnlyHint";
      if truthy_value hint then all_read_only tools else Ok false
  end.
(** [len(tools) != 5 or not all(...)]; the elements of a text or a dict have no
    keys. *)
Definition check_tools (tools : pyval) : result exn nat :=
  let keyless n := if n =? 5 then Err TypeError else Err runtime_error in
  match tools with
  | PList l => if negb (length l =? 5) then Err runtime_error
               else ok ← all_read_only l; if (ok : bool) then Ok (length l) else Err runtime_error
  | PStr t => keyless (py_len t)
  | PDict d => keyless (length d)
  | _ => Err TypeError
  end.

(** [v.get(key)], with the default an empty dict. *)
Definition py_get (v : pyval) (key : string) (default : pyval) : result exn pyval :=
  match v with
  | PDict d => Ok (match dict_get key d with Some x => x | None => default end)
  | _ => Err (OtherException "AttributeError")
  end.
Definition check_tool_call (reply : pyval) : result exn unit :=
  error ← py_get reply "error" PNone;
  if truthy_value error then Err runtime_error
  else
    result ← py_get reply "result" (PDict []); is_error ← py_get result "isError" PNone;
    if truthy_value is_error then Err runtime_error else Ok tt.

Section Smoke.
Context {W : Type} `{HttpClient W} (base_url web_url : string) (config : list (string * option string)).
Notation M := (eff W http_call exn).

(** The state of [checks] is the list that the function appends to. *)
Definition check (checks : list (string * Z)) (name : string) (c : http_call) (expected : Z) :
    M (list (string * Z) * http_reply) :=
  response ← invoke c (http_request c);
  if negb (hp_status response =? expected)%Z then raise runtime_error
  else mret (checks ++ [(name, hp_status response)], response).

Definition mcp (headers : list (string * string)) (checks : list (string * Z)) (method : string)
    (params : pyval) (request_id : Z) : M (list (string * Z) * http_reply) :=
  check checks ("mcp_" +:+ method)
    (HttpCall true (base_url +:+ "/api/mcp") (mcp_headers headers) (rpc method params request_id)) 200.

Definition graph_search_call (headers : list (string * string)) : http_call :=
  HttpCall true (base_url +:+ "/api/graph/search") headers
    (PDict [("query", PStr ""); ("depth", PInt 0); ("limit", PInt 10)]).
Definition knowledge_search_call (headers : list (string * string)) : http_call :=
  HttpCall true (base_url +:+ "/api/knowledge/search") headers
    (PDict [("query", PStr "Revenue"); ("mode", PStr "lexical"); ("limit", PInt 3)]).

(** What is asked with the token of the login. *)
Definition smoke_authorized (headers : list (string * string)) (checks : list (string * Z)) : M smoke_report :=
  '(checks, _) ← check checks "graph_search" (graph_search_call headers) 200;
  '(checks, _) ← check checks "knowledge_lexical_search" (knowledge_search_call headers) 200;
  '(checks, _) ← mcp headers checks "initialize" initialize_params 1;
  '(checks, listed) ← mcp headers checks "tools/list" (PDict []) 2;
  count ← lift_result (body ← hp_json listed; r ← get_key body "result"; tools ← get_key r "tools";
                       check_tools tools);
  '(checks, called) ← mcp headers checks "tools/call" catalog_params 3;
  _ ← lift_result (body ← hp_json called; check_tool_call body);
  '(checks, _) ← mcp headers checks "resources/read" capabilities_params 4;
  mret {| sr_checks := checks; sr_tool_count := count |}.

Definition smoke : M smoke_report :=
  '(checks, _) ← check [] "platform_health" (HttpCall false (base_url +:+ "/health") [] PNone) 200;
  '(checks, _) ← check checks "web_health" (HttpCall false (web_url +:+ "/health") [] PNone) 200;
  '(checks, _) ← check checks "anonymous_graph_denied"
                   (HttpCall true (base_url +:+ "/api/graph/search") [] (PDict [])) 401;
  '(checks, login) ← check checks "admin_login"
                       (HttpCall true (base_url +:+ "/api/auth/login") [] (login_body config)) 200;
  headers ← lift_result (body ← hp_json login; bearer body);
  smoke_authorized headers checks.
End Smoke.

(** ** The baseline of retrieval/cli.py, and evaluation/cli.py *)

(** [usage_snapshot] of a service whose embedding provider counts, or does
    not, and whose reranker counts, or is missing. *)
Definition usage_snapshot (embedding : option Providers.usage) (reranker_requests : option Z) : usage_counts := {|
  uc_input_tokens := u ← embedding; if Providers.usage_known u then Some (Providers.input_tokens u) else None;
  uc_embedding_requests := default 0%Z (Providers.provider_requests <$> embedding);
  uc_reranker_requests := default 0%Z reranker_requests |}.

Definition system_exit : exn := OtherException "SystemExit".

Inductive command_call :=
| Ingest (title source_name payload : string)
| RagCall (c : bench_call)
| EvalCall (c : eval_call).

(** The calls of a part under the names of the whole. *)
Definition relabel {W C C' E A} (f : C → C') (m : eff W C E A) : eff W C' E A := λ w,
  let '(w', t, r) := m w in (w', map f t, r).

Class CommandEnv (W : Type) := {
  command_bench :: RetrievalBench W;
  command_eval :: EvalEnv W;
  command_ingest : string → string → string → op W exn unit
}.

(** The retrieval service of the baseline, with its cache and store. *)
Definition service_bench `{PyUnicode} `{Digests} {W} `{RetrievalEnv W} (s : service) (tenant : string)
    (clock : W → W * float) : RetrievalBench (RetrievalCache * W) := {|
  bench_retrieve q m := as_op (retrieve s tenant q m (Some 5%Z));
  bench_usage w := (w, usage_snapshot None None);
  bench_clock cw := let '(w, t) := clock cw.2 in ((cw.1, w), t) |}.
Definition service_ingest `{PyUnicode} `{Digests} {W} `{RetrievalEnv W} (s : service) (tenant : string)
    (title source_name payload : string) : op (RetrievalCache * W) exn unit :=
  as_op (_ ← ingest s tenant title source_name MARKDOWN payload None; mret tt).

Definition corpus_title : string := "Northwind 零售指标口径".
Definition baseline_modes : list RetrievalMode := [Lexical; Vector; Hybrid].

Section Commands.
Context `{PyUnicode} {W : Type} `{CommandEnv W}.
Notation M := (eff W command_call exn).

Definition ingest_corpus (source_name payload : string) : M unit :=
  invoke (Ingest corpus_title source_name payload) (command_ingest corpus_title source_name payload).

(** [main] of retrieval/cli.py. *)
Definition rag_baseline (source_name payload dataset_version : string) (cases : result exn (list RAGGoldCase)) :
    M RAGEvaluationReport :=
  _ ← ingest_corpus source_name payload;
  cases ← lift_result cases;
  relabel RagCall (evaluate_modes cases dataset_version baseline_modes).

Record p10_arguments := {
  pa_nl2sql : result exn (list NL2SQLGoldCase); pa_dangerous : result exn (list DangerousQuestionCase);
  pa_rag : result exn (list RAGGoldCase); pa_document_name : string; pa_document : string;
  pa_snapshot : result exn SchemaSnapshot; pa_mode : EvaluationMode; pa_allow_external_model : bool;
  pa_input_price : option float; pa_output_price : option float }.

(** [main] of evaluation/cli.py: the report with the one of the retrieval. *)
Definition p10_main (parse : parsed_tables) (business : BusinessDatabaseSettings) (llm : LLMSettings)
    (a : p10_arguments) : M (P10EvaluationReport * RAGEvaluationReport) :=
  cases ← lift_result (pa_nl2sql a);
  dangerous ← lift_result (pa_dangerous a);
  _ ← lift_result (ensure (50 <=? length cases) system_exit);
  rag_cases ← lift_result (pa_rag a);
  _ ← lift_result (ensure (20 <=? length rag_cases) system_exit);
  _ ← lift_result (ensure (negb (is_configured (pa_mode a)) || pa_allow_external_model a) system_exit);
  _ ← ingest_corpus (pa_document_name a) (pa_document a);
  rag ← relabel RagCall (evaluate_modes rag_cases "northwind-rag-gold-v1" baseline_modes);
  snapshot ← lift_result (pa_snapshot a);
  _ ← lift_result (from_settings business);
  _ ← lift_result (if is_configured (pa_mode a) then _ ← create_structured_llm_client llm; Ok tt else Ok tt);
  let name x := if is_configured (pa_mode a) then Some x else None in
  report ← relabel EvalCall
    (evaluate_p10 parse cases dangerous snapshot "northwind-p10-v1" (pa_mode a) (is_configured (pa_mode a))
       (name (llm_provider llm)) (name (llm_model llm)) (pa_input_price a) (pa_output_price a));
  mret (report, rag).
End Commands.

(** ** Prefixes of fixed sequences of calls *)

(** [follows full m F]: the calls of [m] are a prefix of [full], all of it
    when [m] returns, and then its value has the property [F]. *)
Definition follows {W C E A} (full : list C) (m : eff W C E A) (F : A → Prop) : Prop :=
  sat m (λ t r, t `prefix_of` full ∧ ∀ a, r = Ok a → t = full ∧ F a).

Section Follows.
Context {W C E : Type}.

Lemma follows_ret {A} (a : A) (F : A → Prop) : F a → follows [] (mret a : eff W C E A) F.
Proof. intros Ha. apply sat_ret. split; [done|]. by intros ? [= <-]. Qed.

Lemma follows_call {A B} c (o : op W E A) (f : A → eff W C E B) full (F : B → Prop) :
  (∀ a, follows full (f a) F) → follows (c :: full) (invoke c o ≫= f) F.
Proof.
  intros Hf. apply sat_bind, sat_invoke. intros [a|e]; [|split; [by apply prefix_cons, prefix_nil|done]].
  refine (sat_conseq _ _ _ (Hf a) _). intros t r [Ht Hr]. split; [by apply prefix_cons|].
  intros b Hb. destruct (Hr b Hb) as [-> ?]. done.
Qed.

Lemma follows_lift {A B} (r : result E A) (f : A → eff W C E B) full (F : B → Prop) :
  (∀ a, r = Ok a → follows full (f a) F) → follows full (lift_result r ≫= f) F.
Proof.
  intros Hf. apply sat_bind, sat_lift. destruct r as [a|e]; [by apply Hf|]. split; [apply prefix_nil|done].
Qed.
End Follows.

(** ** The plan experiment *)

Definition plan_statements (rows : Z) : list db_call :=
  [Execute "SET LOCAL statement_timeout = '30s'" []; Execute create_plan_jobs [];
   Execute insert_plan_jobs [PInt rows]; Execute "ANALYZE plan_jobs" [];
   Execute plan_query []; FetchOne;
   Execute create_plan_index []; Execute "ANALYZE plan_jobs" []; Execute plan_query []; FetchOne].

Lemma explain_then {W} `{Psycopg W} {B} (f : pyval → eff W db_call exn B) full F :
  (∀ v, follows full (f v) F) → follows (Execute plan_query [] :: FetchOne :: full) (explain ≫= f) F.
Proof.
  intros Hf. unfold follows. unfold explain.
  apply sat_bind, sat_bind, sat_invoke. intros [d|e]; [|split; [by apply prefix_cons, prefix_nil|done]].
  apply sat_bind, sat_invoke. intros [row|e]; [|split; [by do 2 apply prefix_cons; apply prefix_nil|done]].
  apply sat_lift. destruct (first_plan row) as [v|e]; [|split; [by do 2 apply prefix_cons; apply prefix_nil|done]].
  refine (sat_conseq _ _ _ (Hf v) _). cbn [app]. intros t r [Ht Hr]. split; [by do 2 apply prefix_cons|].
  intros b Hb. destruct (Hr b Hb) as [-> ?]. done.
Qed.

(** The plan experiment leaves nothing behind.  On the connection to the
    platform database, whatever fails, the statements that were sent are a
    prefix of a fixed list that creates, fills and indexes a temporary table;
    they are rolled back before the connection is closed, and nothing is sent
    after the rollback.  A report needs the whole list and keeps the number
    of rows that it was asked for. *)
Theorem plan_experiment_rolls_back : ∀ W (D : Psycopg W) s rows,
  sat (compare_plans (W := W) s rows) (λ t r,
    (t = [Connect (plan_parameters s)] ∧ ∃ e, r = Err e) ∨
    ∃ body k, t = Connect (plan_parameters s) :: body ++ [EndTransaction false; CloseConnection k] ∧
      body `prefix_of` plan_statements rows ∧
      ∀ report, r = Ok report → body = plan_statements rows ∧ pl_rows report = rows).
Proof.
  intros W D s rows. apply sat_with_block. sat_call. destruct r as [u|e]; [|left; by split; [|exists e]].
  apply sat_finally. assert (follows (plan_statements rows) (measure_plans rows) (λ report, pl_rows report = rows)) as Hbody.
  { do 4 (apply follows_call; intros _). apply explain_then; intros before.
    do 2 (apply follows_call; intros _). apply explain_then; intros after.
    do 3 (apply follows_lift; intros ? _). by apply follows_ret. }
  refine (sat_conseq _ _ _ Hbody _). intros t r [Ht Hr]. sat_call. sat_call. right.
  exists t. eexists. split; [|split; [exact Ht|]].
  - cbn. by rewrite <-app_assoc.
  - intros report Hok. apply Hr. destruct r0, r1; congruence.
Qed.

(** ** The smoke test *)

Definition smoke_names : list (string * Z) :=
  [("platform_health", 200); ("web_health", 200); ("anonymous_graph_denied", 401); ("admin_login", 200);
   ("graph_search", 200); ("knowledge_lexical_search", 200); ("mcp_initialize", 200); ("mcp_tools/list", 200);
   ("mcp_tools/call", 200); ("mcp_resources/read", 200)]%Z.
Definition mcp_call (base_url : string) (headers : list (string * string)) (body : pyval) : http_call :=
  HttpCall true (base_url +:+ "/api/mcp") (mcp_headers headers) body.
Definition anonymous_calls (base_url web_url : string) (config : list (string * option string)) : list http_call :=
  [HttpCall false (base_url +:+ "/health") [] PNone; HttpCall false (web_url +:+ "/health") [] PNone;
   HttpCall true (base_url +:+ "/api/graph/search") [] (PDict []);
   HttpCall true (base_url +:+ "/api/auth/login") [] (login_body config)].
Definition authorized_calls (base_url token : string) : list http_call :=
  let headers := [("Authorization", "Bearer " +:+ token)] in
  [graph_search_call base_url headers; knowledge_search_call base_url headers;
   mcp_call base_url headers (rpc "initialize" initialize_params 1);
   mcp_call base_url headers (rpc "tools/list" (PDict []) 2);
   mcp_call base_url headers (rpc "tools/call" catalog_params 3);
   mcp_call base_url headers (rpc "resources/read" capabilities_params 4)].

Section SmokeRuns.
Context {W : Type} `{HttpClient W}.

Lemma check_then {B} checks name c expected (f : list (string * Z) * http_reply → eff W http_call exn B) full F :
  (∀ response, follows full (f (checks ++ [(name, expected)], response)) F) →
  follows (c :: full) (check checks name c expected ≫= f) F.
Proof.
  intros Hf. apply sat_bind, sat_bind, sat_invoke. intros [response|e]; [|split; [by apply prefix_cons, prefix_nil|done]].
  destruct (Z.eqb_spec (hp_status response) expected) as [->|]; cbn [negb];
    [apply sat_ret|apply sat_raise; split; [by apply prefix_cons, prefix_nil|done]].
  refine (sat_conseq _ _ _ (Hf response) _). intros t r [Ht Hr]. split; [by apply prefix_cons|].
  intros b Hb. destruct (Hr b Hb) as [-> ?]. done.
Qed.

Lemma check_tools_count v n : check_tools v = Ok n → n = 5.
Proof.
  unfold check_tools. destruct v as [| | | |t|l|d|]; try done.
  - by destruct (_ =? 5).
  - destruct (Nat.eqb_spec (length l) 5) as [Hl|]; [|done]. cbn [negb].
    intros (ok & _ & Hok)%result_bind_Ok. destruct ok; [|done]. injection Hok as <-. done.
  - by destruct (_ =? 5).
Qed.

Lemma smoke_authorized_run base_url token :
  follows (authorized_calls base_url token)
    (smoke_authorized (W := W) base_url [("Authorization", "Bearer " +:+ token)] (take 4 smoke_names))
    (λ report, sr_checks report = smoke_names ∧ sr_tool_count report = 5).
Proof.
  unfold smoke_authorized, mcp. do 3 (apply check_then; intros _). apply check_then; intros listed.
  apply follows_lift. intros count Hcount. apply check_then; intros called.
  apply follows_lift. intros [] _. apply check_then; intros _. apply follows_ret. split; [done|].
  cbn [sr_tool_count]. apply result_bind_Ok in Hcount as (body & _ & Hcount).
  apply result_bind_Ok in Hcount as (r & _ & Hcount). apply result_bind_Ok in Hcount as (tools & _ & Hcount).
  by apply check_tools_count in Hcount.
Qed.

(** Whatever the servers answer, the smoke test sends a prefix of one fixed
    list of requests: four without a token (the login among them, to the
    platform only) and then six that carry the token of the login's answer,
    all to the platform.  It reports only if every answer had its expected
    status, in particular 401 for the request without a token, and there were
    exactly five tools. *)
Theorem smoke_requests_fixed : ∀ base_url web_url config,
  sat (smoke (W := W) base_url web_url config) (λ t r,
    (t `prefix_of` anonymous_calls base_url web_url config ∧ ∃ e, r = Err e) ∨
    ∃ token t', t = anonymous_calls base_url web_url config ++ t' ∧ t' `prefix_of` authorized_calls base_url token ∧
      ∀ report, r = Ok report →
        t' = authorized_calls base_url token ∧ sr_checks report = smoke_names ∧ sr_tool_count report = 5).
Proof.
  intros base_url web_url config.
  assert (∀ (R : list http_call → result exn smoke_report → Prop) pre checks name c expected f,
    (∀ e, R (pre ++ [c]) (Err e)) →
    (∀ response, sat (f (checks ++ [(name, expected)], response)) (λ t r, R ((pre ++ [c]) ++ t) r)) →
    sat (check (W := W) checks name c expected ≫= f) (λ t r, R (pre ++ t) r)) as Hstep.
  { intros R pre checks name c expected f He Hf. apply sat_bind, sat_bind, sat_invoke. intros [response|e]; [|apply He].
    destruct (Z.eqb_spec (hp_status response) expected) as [->|]; cbn [negb]; [apply sat_ret|apply sat_raise, He].
    refine (sat_conseq _ _ _ (Hf response) _). intros t r. by rewrite <-app_assoc. }
  set (Q := λ t r, _ ∨ _). change (sat (smoke base_url web_url config) (λ t r, Q ([] ++ t) r)).
  unfold smoke.
  do 4 (apply Hstep; [intros e; left; split; [cbn [app]; repeat apply prefix_cons; apply prefix_nil|by exists e]
                     |intros ?]).
  cbn [app].
  apply sat_bind, sat_lift. destruct (_ ≫= _) as [headers|e] eqn:Hh; [|left; split; [done|by exists e]].
  apply result_bind_Ok in Hh as (body & _ & (v & _ & Ht)%result_bind_Ok). destruct v as [| | | |token| | |]; try done.
  injection Ht as <-. refine (sat_conseq _ _ _ (smoke_authorized_run base_url token) _). intros t r [Hp Hr].
  right. exists token, t. split; [done|]. split; [exact Hp|exact Hr].
Qed.
End SmokeRuns.

(** ** The conditions of the evaluation command *)

Lemma sat_relabel {W C C' E A} (f : C → C') (m : eff W C E A) (Q : list C' → result E A → Prop) :
  sat m (λ t r, Q (map f t) r) → sat (relabel f m) Q.
Proof. intros Hm w. specialize (Hm w). unfold trace, outcome, relabel in *. by destruct (m w) as [[w' t] r]. Qed.

Section CommandRuns.
Context `{PyUnicode} {W : Type} `{CommandEnv W}.

(** No call but the first chooses a client. *)
Definition not_client (c : eval_call) : Prop := match c with CallClient _ => False | _ => True end.

Lemma evaluate_all_calls {A} (P : eval_call → Prop) (evaluate : A → eff W eval_call exn EvaluationCaseResult) cases :
  (∀ c, calls P (evaluate c)) → calls P (evaluate_all evaluate cases).
Proof. intros He. induction cases as [|c cases IH]; cbn [evaluate_all]; repeat calls_step; auto. Qed.

Lemma case_calls ip op policy c : calls not_client (_evaluate_nl2sql_case ip op policy c : eff W eval_call exn _).
Proof.
  unfold _evaluate_nl2sql_case, _failed_case, _elapsed_ms, attempted.
  repeat (calls_step || apply calls_try || case_match || done || intros ?).
Qed.
Lemma dangerous_calls c : calls not_client (_evaluate_dangerous_case c : eff W eval_call exn _).
Proof.
  unfold _evaluate_dangerous_case, _elapsed_ms. repeat (calls_step || case_match || done || intros ?).
Qed.

Lemma evaluate_client parse cases dangerous snapshot version mode configured provider model ip op :
  sat (evaluate_p10 parse cases dangerous snapshot version mode configured provider model ip op
       : eff W eval_call exn P10EvaluationReport)
    (λ t _, t = [] ∨ ∃ client t', t = CallClient client :: t' ∧ Forall not_client t' ∧
       (client = Configured → mode = ConfiguredModel)).
Proof.
  unfold evaluate_p10. apply sat_bind, sat_lift. destruct (_validate_pricing ip op); [|by left].
  apply sat_bind, sat_lift. destruct (choose_client _ _ _ _ _ _) as [[[client p] m]|e] eqn:Hc; [|by left].
  apply sat_bind, sat_log.
  assert (client = Configured → mode = ConfiguredModel) as Hmode.
  { intros ->. destruct mode; [|done]. cbn in Hc. by destruct (_scripted_responses parse cases). }
  match goal with |- sat ?m _ => assert (calls not_client m) as Hcalls end.
  { repeat calls_step; try done; try apply evaluate_all_calls; intros; [apply case_calls|apply dangerous_calls]. }
  intros w. right. exists client. eexists. split; [reflexivity|]. split; [apply Hcalls|exact Hmode].
Qed.

Lemma evaluate_modes_count cases version modes :
  sat (evaluate_modes cases version modes : eff W bench_call exn _)
    (λ _ r, ∀ x, r = Ok x → rr_cases x = Z.of_nat (length cases)).
Proof.
  apply sat_bind. intros w. destruct (outcome _ w); [|done]. apply sat_ret. by intros x [= <-].
Qed.

(** The conditions under which the command does anything. *)
Definition admitted (a : p10_arguments) : Prop :=
  ∃ cases dangerous rag, pa_nl2sql a = Ok cases ∧ pa_dangerous a = Ok dangerous ∧ pa_rag a = Ok rag ∧
    50 ≤ length cases ∧ 20 ≤ length rag ∧ (pa_mode a = ConfiguredModel → pa_allow_external_model a = true).

(** A client is chosen first, the configured one only with permission. *)
Definition client_permitted (a : p10_arguments) (evaluated : list eval_call) : Prop :=
  evaluated = [] ∨ ∃ client rest, evaluated = CallClient client :: rest ∧ Forall not_client rest ∧
    (client = Configured → pa_mode a = ConfiguredModel ∧ pa_allow_external_model a = true).
Definition command_story (a : p10_arguments) (t : list command_call)
    (r : result exn (P10EvaluationReport * RAGEvaluationReport)) : Prop :=
  ∃ questions evaluated,
    t = Ingest corpus_title (pa_document_name a) (pa_document a) :: map RagCall questions ++ map EvalCall evaluated ∧
    client_permitted a evaluated ∧
    ∀ report rag, r = Ok (report, rag) → ∃ cases, pa_rag a = Ok cases ∧ rr_cases rag = Z.of_nat (length cases).

Lemma story_stop a questions e :
  command_story a (Ingest corpus_title (pa_document_name a) (pa_document a) :: map RagCall questions) (Err e).
Proof. exists questions, []. rewrite app_nil_r. split_and!; [done|by left|done]. Qed.

Lemma client_chosen a evaluated :
  (pa_mode a = ConfiguredModel → pa_allow_external_model a = true) →
  (evaluated = [] ∨ ∃ client t', evaluated = CallClient client :: t' ∧ Forall not_client t' ∧
     (client = Configured → pa_mode a = ConfiguredModel)) → client_permitted a evaluated.
Proof. intros Hmode [->|(client & rest & -> & Hrest & Hc)]; [by left|right]. exists client, rest. split_and!; auto. Qed.

(** The evaluation command does nothing unless its three data sets load,
    with at least 50 NL2SQL and 20 retrieval cases, and an external model was
    allowed if one is configured.  Then the corpus is ingested once, before
    any retrieval case is asked and before a client is chosen; the configured
    model is chosen only in its mode and with the permission; and a report
    needs all of these and counts every retrieval case. *)
Theorem p10_command_gated : ∀ parse business llm a,
  sat (p10_main (W := W) parse business llm a) (λ t r,
    (t = [] ∧ (∃ e, r = Err e)) ∨ admitted a ∧ command_story a t r).
Proof.
  intros parse business llm a. unfold p10_main.
  apply sat_bind, sat_lift. destruct (pa_nl2sql a) as [cases|e] eqn:Hcases; [|left; eauto].
  apply sat_bind, sat_lift. destruct (pa_dangerous a) as [dangerous|e] eqn:Hdanger; [|left; eauto].
  apply sat_bind, sat_lift. destruct (Nat.leb_spec 50 (length cases)) as [H50|]; cbn [ensure]; [|left; eauto].
  apply sat_bind, sat_lift. destruct (pa_rag a) as [rag|e] eqn:Hrag; [|left; eauto].
  apply sat_bind, sat_lift. destruct (Nat.leb_spec 20 (length rag)) as [H20|]; cbn [ensure]; [|left; eauto].
  apply sat_bind, sat_lift. destruct (_ || _) eqn:Hallow; cbn [ensure]; [|left; eauto].
  assert (pa_mode a = ConfiguredModel → pa_allow_external_model a = true) as Hmode.
  { intros Hm. rewrite Hm in Hallow. exact Hallow. }
  assert (admitted a) as Ha by (exists cases, dangerous, rag; split_and!; done).
  apply sat_bind, sat_invoke. intros [u|e]; right; (split; [exact Ha|]); [|apply (story_stop a [])].
  apply sat_bind, sat_relabel. refine (sat_conseq _ _ _ (evaluate_modes_count rag _ _) _). intros questions r Hcount.
  destruct r as [ragr|e]; [|apply story_stop]. specialize (Hcount ragr eq_refl).
  apply sat_bind, sat_lift. destruct (pa_snapshot a) as [snapshot|e]; [|rewrite app_nil_r; apply story_stop].
  apply sat_bind, sat_lift. destruct (from_settings business) as [config|e]; [|rewrite app_nil_r; apply story_stop].
  apply sat_bind, sat_lift. destruct (if is_configured _ then _ else _) as [[]|e]; [|rewrite app_nil_r; apply story_stop].
  apply sat_bind, sat_relabel. refine (sat_conseq _ _ _ (evaluate_client _ _ _ _ _ _ _ _ _ _ _) _).
  intros evaluated r Heval%(client_chosen a); [|exact Hmode].
  destruct r as [report|e]; [apply sat_ret|]; exists questions, evaluated; cbn [app]; rewrite ?app_nil_r;
    (split; [done|]; split; [exact Heval|]); [|done].
  intros report' x [= <- <-]. by exists rag.
Qed.
End CommandRuns.

(** ** Concrete runs *)

(** The baseline over the retrieval service with its in-memory store. *)
Definition baseline_env : CommandEnv (RetrievalCache * memory_repository) := {|
  command_bench := @service_bench demo_unicode demo_digests _ demo_retrieval demo_service "t1" (λ w, (w, fzero));
  command_eval := @service_env _ (λ _ w, w) (λ _ _ _ w, (w, Err ValueError)) (λ _ _ _ w, (w, Err ValueError))
                    (λ w, (w, 0%Z));
  command_ingest := @service_ingest demo_unicode demo_digests _ demo_retrieval demo_service "t1" |}.
Definition baseline_cases : list RAGGoldCase :=
  [{| rg_id := "q1"; rg_question := "net revenue"; rg_relevant_sections := ["m.md#m"]; rg_answerable := true |};
   {| rg_id := "q2"; rg_question := "weather"; rg_relevant_sections := []; rg_answerable := false |}].

Example baseline_run :
  match outcome (rag_baseline (H0 := baseline_env) "m.md" "net revenue per order" "v1" (Ok baseline_cases))
          (demo_cache, new_repository) with
  | Ok x => rr_cases x = 2%Z ∧ map mr_mode (rr_reports x) = baseline_modes
            ∧ map mr_recall_at_5 (rr_reports x) = repeat (f_of_Z 1) 3
  | Err _ => False
  end.
Proof. vm_compute. split_and!; reflexivity. Qed.

(** A configured model that was not allowed: nothing is done. *)
Definition refused_arguments : p10_arguments := {|
  pa_nl2sql := Ok (concat (repeat replay_cases 25));
  pa_dangerous := Ok []; pa_rag := Ok (concat (repeat baseline_cases 10)); pa_document_name := "m.md";
  pa_document := "net revenue per order"; pa_snapshot := Ok demo_snapshot; pa_mode := ConfiguredModel;
  pa_allow_external_model := false; pa_input_price := None; pa_output_price := None |}.
Example external_model_refused :
  p10_main (H0 := baseline_env) (λ _, Ok ([], [])) BusinessDatabaseSettings_default LLMSettings_default refused_arguments
    (demo_cache, new_repository) = ((demo_cache, new_repository), [], Err system_exit).
Proof. vm_compute. reflexivity. Qed.

(** A stack that answers every request alike, with 401 without a token when
    [guarded]. *)
Definition demo_tool : pyval := PDict [("annotations", PDict [("readOnlyHint", PBool true)])].
Definition demo_stack (guarded : bool) (tools : nat) : HttpClient unit := λ '(HttpCall _ url headers _) w,
  (w, Ok {| hp_status := if guarded && String.eqb url "http://p/api/graph/search" && bool_decide (headers = []) then 401 else 200;
            hp_json := Ok (PDict [("access_token", PStr "t");
                                  ("result", PDict [("tools", PList (repeat demo_tool tools))])]) |}).
Definition demo_smoke (guarded : bool) (tools : nat) : result exn smoke_report :=
  outcome (@smoke unit (demo_stack guarded tools) "http://p" "http://w" []) tt.

Example smoke_verdicts :
  demo_smoke true 5 = Ok {| sr_checks := smoke_names; sr_tool_count := 5 |} ∧
  demo_smoke false 5 = Err runtime_error ∧ demo_smoke true 6 = Err runtime_error.
Proof. vm_compute. done. Qed.
