(* ===== verification/Operators.v ===== *)
(** * The operators' commands: [app/metadata/cli.py], [app/knowledge_graph/cli.py],
      [main] of [app/retrieval/benchmark.py] and [app/query_safety/fixed.py]

    What each command does once its arguments are parsed: the files it reads,
    the services it builds and calls, what it prints and how it exits.  The
    argument parsers are the library's. *)

From S2P Require Import Prelude PyStr Floats Errors Json Metadata Policy Numbers DataSources Executor.
From S2P Require Import StructuredLLM NL2SQL JsonText GraphModels GraphStore Parsing Embeddings.
From S2P Require Import KnowledgeRepository RetrievalService GraphService GraphImport Neo4jStore PyText.
From S2P Require Import Decimal Introspector Providers FloatText PostgresKnowledge Settings Rounding Evaluation.
From S2P Require Import EvaluationRunner RetrievalEvaluation Commands.
From Stdlib Require Import Ascii.

(** ** query_safety/fixed.py *)

Definition FIXED_TOP_CUSTOMERS_SQL : string := strip "
SELECT
    c.company_name AS customer,
    ROUND(SUM(od.unit_price * od.quantity * (1 - od.discount)), 2) AS revenue
FROM northwind.customers AS c
JOIN northwind.orders AS o ON o.customer_id = c.customer_id
JOIN northwind.order_details AS od ON od.order_id = o.order_id
GROUP BY c.customer_id, c.company_name
ORDER BY revenue DESC, customer
LIMIT 5
".

(** ** What a command does *)

Inductive operator_call :=
| ReadText (path : string)
| PrintText (text : string)
| CatalogCall (c : db_call)
| OpenDriver (uri user : string)
| SetupCall (c : neo4j_call)
| ImportCall (c : graph_call)
| CloseDriver.

Class Files (W : Type) := read_text : string → op W exn string.

Definition json_loads (text : string) : result exn pyval :=
  match loads text with Some v => Ok v | None => Err ValueError end.

(** ** metadata/cli.py *)

Definition line_end : string := String (byte 10) EmptyString.
Definition rendered (s : SchemaSnapshot) : string := dumps_indent 0 (dump_snapshot s) +:+ line_end.

Section MetadataCommand.
Context `{Digests} {W : Type} `{Psycopg W} `{Files W}.
Notation M := (eff W operator_call exn).

(** [check] is the argument of [--check]; the result is the exit status. *)
Definition metadata_main (settings : BusinessDatabaseSettings) (check : option string) : M Z :=
  config ← lift_result (from_settings settings);
  snapshot ← relabel CatalogCall (introspect config);
  match check with
  | Some path =>
      text ← invoke (ReadText path) (read_text path);
      expected ← lift_result (json_loads text);
      if negb (py_eq expected (dump_snapshot snapshot)) then raise system_exit else mret 0%Z
  | None => _ ← log_call (PrintText (rendered snapshot)); mret 0%Z
  end.
End MetadataCommand.

(** *** A printed snapshot is read back *)

Lemma py_eq_list {A} (f : A → pyval) l m :
  (∀ x y, py_eq (f x) (f y) = true ↔ x = y) →
  py_eq (PList (map f l)) (PList (map f m)) = true ↔ l = m.
Proof.
  intros Hf. revert m. induction l as [|x l IH]; intros [|y m]; cbn [map]; try done.
  change (py_eq (PList (f x :: map f l)) (PList (f y :: map f m)))
    with (py_eq (f x) (f y) && py_eq (PList (map f l)) (PList (map f m))).
  rewrite andb_true_iff, Hf, IH. naive_solver.
Qed.

Lemma py_eq_dict d e :
  d.*1 = e.*1 → NoDup d.*1 →
  py_eq (PDict d) (PDict e) = true ↔ Forall2 (λ a b, py_eq a.2 b.2 = true) d e.
Proof.
  intros Hk Hnd. assert (length d = length e) as Hl
    by (rewrite <-(length_fmap fst d), Hk; apply length_fmap).
  cbn [py_eq]. rewrite Hl, Nat.eqb_refl. cbn [andb]. rewrite list_forallb_spec, Forall2_same_length_lookup.
  assert (∀ i k x, d !! i = Some (k, x) → ∃ y, e !! i = Some (k, y) ∧ dict_get k e = Some y) as Hget.
  { intros i k x Hi. assert (e.*1 !! i = Some k) as He by (rewrite <-Hk, list_lookup_fmap, Hi; done).
    rewrite list_lookup_fmap in He. destruct (e !! i) as [[k' y]|] eqn:Ei; [|done]. injection He as ->.
    exists y. split; [done|]. apply dict_get_elem; [by rewrite <-Hk|]. by eapply list_elem_of_lookup_2. }
  split.
  - intros Hall. split; [done|]. intros i [k x] [k' y] Hd He. cbn.
    specialize (Hall (k, x) (list_elem_of_lookup_2 _ _ _ Hd)). cbn in Hall.
    destruct (Hget i k x Hd) as (y' & He' & Hg). rewrite Hg in Hall. congruence.
  - intros [_ Hall] [k x] [i Hd]%list_elem_of_lookup_1. destruct (Hget i k x Hd) as (y & He & ->).
    exact (Hall i _ _ Hd He).
Qed.

Lemma py_eq_str s t : py_eq (PStr s) (PStr t) = true ↔ s = t.
Proof. apply String.eqb_eq. Qed.
Lemma py_eq_int z z' : py_eq (PInt z) (PInt z') = true ↔ z = z'.
Proof. apply Z.eqb_eq. Qed.
Lemma py_eq_bool b b' : py_eq (PBool b) (PBool b') = true ↔ b = b'.
Proof. by destruct b, b'. Qed.
Lemma py_eq_opt_str a b : py_eq (opt_str a) (opt_str b) = true ↔ a = b.
Proof. destruct a as [s|], b as [t|]; try done. cbn. rewrite String.eqb_eq. naive_solver. Qed.
Lemma py_eq_str_list l m : py_eq (str_list l) (str_list m) = true ↔ l = m.
Proof. apply py_eq_list, py_eq_str. Qed.

(** A record with these keys is dumped; equal dumps are of equal fields. *)
Ltac dump_eq :=
  rewrite py_eq_dict by (reflexivity || (cbn; apply (bool_decide_unpack _); vm_compute; exact I));
  repeat first [rewrite Forall2_cons | rewrite Forall2_nil]; cbn [snd];
  rewrite ?py_eq_str, ?py_eq_int, ?py_eq_bool, ?py_eq_opt_str, ?py_eq_str_list.

Lemma dump_column_eq a b : py_eq (dump_column a) (dump_column b) = true ↔ a = b.
Proof. unfold dump_column. dump_eq. destruct a, b; cbn. naive_solver. Qed.
Lemma dump_primary_key_eq a b : py_eq (dump_primary_key a) (dump_primary_key b) = true ↔ a = b.
Proof. unfold dump_primary_key. dump_eq. destruct a, b; cbn. naive_solver. Qed.
Lemma dump_foreign_key_eq a b : py_eq (dump_foreign_key a) (dump_foreign_key b) = true ↔ a = b.
Proof. unfold dump_foreign_key. dump_eq. destruct a, b; cbn. naive_solver. Qed.

Definition dump_opt_key (o : option PrimaryKeyMetadata) : pyval :=
  match o with Some k => dump_primary_key k | None => PNone end.
Lemma dump_opt_key_eq a b : py_eq (dump_opt_key a) (dump_opt_key b) = true ↔ a = b.
Proof.
  destruct a as [a|], b as [b|]; try done. cbn [dump_opt_key]. rewrite dump_primary_key_eq. naive_solver.
Qed.

Lemma dump_table_eq a b : py_eq (dump_table a) (dump_table b) = true ↔ a = b.
Proof.
  unfold dump_table. fold (dump_opt_key (primary_key a)). fold (dump_opt_key (primary_key b)). dump_eq.
  rewrite dump_opt_key_eq, (py_eq_list _ _ _ dump_column_eq), (py_eq_list _ _ _ dump_foreign_key_eq).
  destruct a, b; cbn. naive_solver.
Qed.
Lemma dump_snapshot_eq a b : py_eq (dump_snapshot a) (dump_snapshot b) = true ↔ a = b.
Proof.
  unfold dump_snapshot. dump_eq. rewrite (py_eq_list _ _ _ dump_table_eq). destruct a, b; cbn. naive_solver.
Qed.

(** A value that JSON keeps as it is. *)
Definition plain_json (v : pyval) : Prop := json_ok v = true ∧ json_view v = v.

Lemma plain_opt_str o : plain_json (opt_str o).
Proof. by destruct o. Qed.
Lemma plain_list {A} (f : A → pyval) l : (∀ x, plain_json (f x)) → plain_json (PList (map f l)).
Proof.
  intros Hf. split; cbn [json_ok json_view].
  - apply list_forallb_spec. intros ? (x & -> & _)%elem_of_map. apply Hf.
  - f_equal. rewrite map_map. apply map_ext. intros x. apply Hf.
Qed.
Lemma plain_str_list l : plain_json (str_list l).
Proof. by apply plain_list. Qed.
Lemma plain_dict d : all_distinct d.*1 = true → Forall (λ kv, plain_json kv.2) d → plain_json (PDict d).
Proof.
  intros Hk Hd. split.
  - rewrite json_ok_dict, Hk. apply list_forallb_spec. intros kv Hkv.
    rewrite Forall_forall in Hd. by apply Hd.
  - cbn [json_view]. f_equal. clear Hk. induction Hd as [|[k x] d [_ Hx] _ IH]; cbn in *; [done|]. by rewrite Hx, IH.
Qed.
Ltac plain_fields :=
  apply plain_dict; [reflexivity|];
  repeat constructor; cbn [snd]; auto using plain_opt_str, plain_str_list.

Lemma plain_primary_key o : plain_json (dump_opt_key o).
Proof. destruct o as [k|]; [|done]. plain_fields; try apply plain_str_list. Qed.
Lemma plain_table t : plain_json (dump_table t).
Proof.
  apply plain_dict; [reflexivity|].
  repeat (apply Forall_cons_2; cbn [snd]); [done|apply plain_opt_str|..|apply Forall_nil_2].
  - apply plain_list. intros c. apply plain_dict; [reflexivity|].
    repeat (apply Forall_cons_2; cbn [snd]); [done..|apply plain_opt_str|apply Forall_nil_2].
  - apply plain_primary_key.
  - apply plain_list. intros k. apply plain_dict; [reflexivity|].
    repeat (apply Forall_cons_2; cbn [snd]); [done|apply plain_str_list|done..|apply plain_str_list|apply Forall_nil_2].
Qed.
Lemma plain_snapshot s : plain_json (dump_snapshot s).
Proof.
  apply plain_dict; [reflexivity|].
  repeat (apply Forall_cons_2; cbn [snd]); [done..|by apply plain_list, plain_table|apply Forall_nil_2].
Qed.

Lemma loads_rendered s : json_loads (rendered s) = Ok (dump_snapshot s).
Proof.
  destruct (plain_snapshot s) as [Hok Hview]. unfold json_loads, rendered.
  pose proof (loads_layout _ _ EmptyString line_end (dumps_indent_layout _ 0 Hok) eq_refl eq_refl) as Hl.
  rewrite str_app_nil in Hl. by rewrite Hl, Hview.
Qed.

(** C32: what the command prints for a snapshot is read back by its check: a
    file that holds the printed text of some snapshot passes exactly when the
    catalog gives that snapshot again, and is reported as stale otherwise;
    without a file to check, the one thing printed is that text, after the
    calls of the introspection.  What the introspection raises is raised. *)
Theorem metadata_check_exact : ∀ (D : Digests) W (P : Psycopg W) (F : Files W) settings config w,
  from_settings settings = Ok config →
  match outcome (introspect config) w with
  | Err e => ∀ check, outcome (metadata_main settings check) w = Err e
  | Ok s =>
      outcome (metadata_main settings None) w = Ok 0%Z ∧
      trace (metadata_main settings None) w
        = map CatalogCall (trace (introspect config) w) ++ [PrintText (rendered s)] ∧
      ∀ path printed, (∀ w, (read_text path w).2 = Ok (rendered printed)) →
        (printed = s → outcome (metadata_main settings (Some path)) w = Ok 0%Z) ∧
        (printed ≠ s → outcome (metadata_main settings (Some path)) w = Err system_exit)
  end.
Proof.
  intros D W P F settings config w Hc. unfold metadata_main. rewrite Hc.
  unfold outcome, trace, relabel, mbind, eff_bind, lift_result, log_call, invoke.
  destruct (introspect config w) as [[w1 t] [s|e]]; cbn [fst snd]; [|done]. split; [done|]. split; [done|].
  intros path printed Hread. specialize (Hread w1). destruct (read_text path w1) as [w2 r]. cbn in Hread.
  rewrite Hread, loads_rendered. pose proof (dump_snapshot_eq printed s) as Heq.
  destruct (py_eq _ _); cbn [negb]; split; try done; intros Hp; exfalso; naive_solver.
Qed.

(** ** knowledge_graph/cli.py *)

Class ImportEnv (W : Type) := {
  import_neo4j :: Neo4j W;
  import_files :: Files W;
  open_driver : string → string → string → op W exn unit;
  close_driver : op W exn unit;
  import_clock : W → W * string
}.

Section ImportCommand.
Context `{PyUnicode} `{Uuid} {W : Type} `{ImportEnv W}.
(** [SchemaSnapshot.model_validate_json], and what the store needs. *)
Context (validate_snapshot : string → result exn SchemaSnapshot)
        (casefold : string → string) (float_text : float → string).
Notation M := (eff W operator_call exn).

(** [KnowledgeGraphService(store, None, None)]. *)
Definition import_env (database : string) : GraphEnv W := {|
  graph_store := neo4j_graph_store database casefold float_text;
  graph_llm A _ _ w := (w, Err (OtherException "AttributeError"));
  graph_retrieve _ _ _ w := (w, Err (OtherException "AttributeError"));
  utc_now := import_clock |}.

Definition imported (g : Subgraph) (r : ExtractRequest) : string :=
  "Imported " +:+ str_of_nat (length (nodes g)) +:+ " nodes and " +:+ str_of_nat (length (edges g))
    +:+ " edges; source=" +:+ xr_source_id r.

Definition import_main (settings : GraphSettings) (metadata tenant : string) : M unit :=
  text ← invoke (ReadText metadata) (read_text metadata);
  snapshot ← lift_result (validate_snapshot text);
  '(request, extraction) ← lift_result (metadata_extraction snapshot tenant);
  _ ← invoke (OpenDriver (gs_uri settings) (gs_user settings))
        (open_driver (gs_uri settings) (gs_user settings) (gs_password settings));
  finally
    (_ ← relabel SetupCall (setup (gs_database settings));
     graph ← relabel ImportCall (persist (H1 := import_env (gs_database settings)) tenant request extraction);
     log_call (PrintText (imported graph request)))
    (λ _, invoke CloseDriver close_driver).
End ImportCommand.

Section ImportRuns.
Context `{PyUnicode} `{Uuid} {W : Type} `{ImportEnv W}.
Context (validate_snapshot : string → result exn SchemaSnapshot)
        (casefold : string → string) (float_text : float → string).
Context (settings : GraphSettings) (metadata tenant : string).

(** What the command does between opening the driver and closing it, when it
    succeeds. *)
Definition import_done (body : list operator_call) : Prop :=
  ∃ text snapshot request now g,
    validate_snapshot text = Ok snapshot ∧
    metadata_extraction snapshot tenant = Ok (request, catalog_extraction snapshot) ∧
    faithful_graph tenant request now (catalog_extraction snapshot) g ∧
    map gn_name (nodes g) = catalog_names snapshot ∧
    body = map SetupCall (setup_calls (gs_database settings))
      ++ [ImportCall (CallReplace tenant (xr_source_id request) g); PrintText (imported g request)].

Definition import_story (t : list operator_call) (r : result exn unit) : Prop :=
  let opening := [ReadText metadata; OpenDriver (gs_uri settings) (gs_user settings)] in
  (t `prefix_of` opening ∧ is_ok r = false) ∨
  ∃ body, t = opening ++ body ++ [CloseDriver] ∧ CloseDriver ∉ body ∧ (is_ok r = true → import_done body).

Lemma import_trace {A} (a b z : A) k l l' :
  l = l' → [a] ++ [] ++ [] ++ [b] ++ (k ++ l) ++ [z] = [a; b] ++ (k ++ l') ++ [z].
Proof. by intros ->. Qed.

Lemma import_runs :
  sat (import_main validate_snapshot casefold float_text settings metadata tenant : eff W operator_call exn unit)
    import_story.
Proof.
  unfold import_main. apply sat_bind, sat_invoke. intros [text|e]; [|left; split; [by eexists [_]|done]].
  apply sat_bind, sat_lift. destruct (validate_snapshot text) as [s|e] eqn:Hv; [|left; split; [by eexists [_]|done]].
  apply sat_bind, sat_lift. destruct (metadata_extraction s tenant) as [[request x]|e] eqn:Hx;
    [|left; split; [by eexists [_]|done]].
  pose proof (metadata_extraction_Ok s tenant request x Hx) as (-> & _ & _).
  apply sat_bind, sat_invoke. intros [[]|e]; [|left; split; [by exists []|done]].
  apply sat_finally.
  apply sat_bind, sat_relabel. refine (sat_conseq _ _ _ (setup_run _) _). intros ts [[]|e] Hts.
  2:{ apply sat_invoke. intros r'. right. exists (map SetupCall ts). split_and!; [done| |by destruct r'].
      by intros (? & ? & _)%elem_of_map. }
  specialize (Hts eq_refl). subst ts.
  apply sat_bind, sat_relabel.
  refine (sat_conseq _ _ _ (persist_run _ _ _ _ tenant request (catalog_extraction s)) _). intros tp [g|e] Hp.
  - destruct Hp as (_ & -> & now & Hg). apply sat_log. apply sat_invoke. intros r'. right.
    exists (map SetupCall (setup_calls (gs_database settings))
      ++ [ImportCall (CallReplace tenant (xr_source_id request) g); PrintText (imported g request)]).
    split_and!; [by apply import_trace| |].
    + rewrite elem_of_app. intros [(? & ? & _)%elem_of_map|]; [done|set_solver].
    + intros _. exists text, s, request, now, g. split_and!; try done. by eapply catalog_graph_names.
  - apply sat_invoke. intros r'. right. exists (map SetupCall (setup_calls (gs_database settings)) ++ map ImportCall tp).
    split_and!; [by apply import_trace| |by destruct r'].
    rewrite elem_of_app. intros [(? & ? & _)%elem_of_map|(? & ? & _)%elem_of_map]; done.
Qed.
End ImportRuns.

(** A catalog import opens the graph driver only for a snapshot that
    validates and whose extraction is accepted; an opened driver is closed as
    the last call, and only there, whatever fails; and a run that succeeds has
    set the store up, stored one faithful graph with a node for the source,
    each table and each column, under the source of the request, and then
    printed its size. *)
Theorem import_closes_driver : ∀ (U : PyUnicode) (I : Uuid) W (E : ImportEnv W)
    validate_snapshot casefold float_text settings metadata tenant,
  sat (import_main validate_snapshot casefold float_text settings metadata tenant : eff W operator_call exn unit)
    (import_story validate_snapshot settings metadata tenant).
Proof. intros. apply import_runs. Qed.

(** ** retrieval/benchmark.py: main *)

Record benchmark_arguments := {
  ba_configured : bool; ba_document : option (string * string); ba_cases : result exn (list RAGGoldCase);
  ba_embedding_price : option float; ba_reranker_price : option float }.

(** [RetrievalSettings] with three arguments; the rest is read as always. *)
Definition offline_settings (s : RetrievalSettings) : RetrievalSettings := {|
  rs_embedding_provider := "hashing"; rs_embedding_dimensions := 64;
  rs_embedding_base_url := rs_embedding_base_url s; rs_embedding_api_key := rs_embedding_api_key s;
  rs_embedding_model := rs_embedding_model s; rs_vector_search_mode := rs_vector_search_mode s;
  rs_reranker_provider := "overlap"; rs_reranker_url := rs_reranker_url s;
  rs_reranker_api_key := rs_reranker_api_key s; rs_reranker_model := rs_reranker_model s;
  rs_provider_timeout_seconds := rs_provider_timeout_seconds s;
  rs_provider_max_attempts := rs_provider_max_attempts s;
  rs_chunk_max_characters := rs_chunk_max_characters s;
  rs_chunk_overlap_characters := rs_chunk_overlap_characters s; rs_result_limit := rs_result_limit s;
  rs_rrf_k := rs_rrf_k s; rs_cache_ttl_seconds := rs_cache_ttl_seconds s;
  rs_min_lexical_score := rs_min_lexical_score s; rs_min_vector_score := rs_min_vector_score s;
  rs_max_markdown_bytes := rs_max_markdown_bytes s; rs_max_pdf_bytes := rs_max_pdf_bytes s;
  rs_max_pdf_pages := rs_max_pdf_pages s |}.

Definition offline_profile : list (string * string) :=
  [("embedding", "hashing:64"); ("reranker", "overlap-test-baseline");
   ("repository", "in-memory; not PostgreSQL performance evidence")].

Section BenchmarkCommand.
Context `{PyUnicode} {W : Type} `{CommandEnv W} (float_text : float → string).
Notation M := (eff W command_call exn).

(** [model_dump] without the two keys, as texts, without the two URLs. *)
Definition settings_fields (s : RetrievalSettings) : list (string * string) :=
  [("embedding_provider", rs_embedding_provider s);
   ("embedding_dimensions", str_of_Z (rs_embedding_dimensions s));
   ("embedding_base_url", rs_embedding_base_url s); ("embedding_model", rs_embedding_model s);
   ("vector_search_mode", rs_vector_search_mode s); ("reranker_provider", rs_reranker_provider s);
   ("reranker_url", rs_reranker_url s); ("reranker_model", rs_reranker_model s);
   ("provider_timeout_seconds", float_text (rs_provider_timeout_seconds s));
   ("provider_max_attempts", str_of_Z (rs_provider_max_attempts s));
   ("chunk_max_characters", str_of_Z (rs_chunk_max_characters s));
   ("chunk_overlap_characters", str_of_Z (rs_chunk_overlap_characters s));
   ("result_limit", str_of_Z (rs_result_limit s)); ("rrf_k", str_of_Z (rs_rrf_k s));
   ("cache_ttl_seconds", str_of_Z (rs_cache_ttl_seconds s));
   ("min_lexical_score", float_text (rs_min_lexical_score s));
   ("min_vector_score", float_text (rs_min_vector_score s));
   ("max_markdown_bytes", str_of_Z (rs_max_markdown_bytes s));
   ("max_pdf_bytes", str_of_Z (rs_max_pdf_bytes s)); ("max_pdf_pages", str_of_Z (rs_max_pdf_pages s))].
Definition settings_profile (s : RetrievalSettings) : list (string * string) :=
  List.filter (λ kv, negb (contains "url" kv.1)) (settings_fields s).

Definition benchmark_service (platform : PlatformDatabaseSettings) (s : RetrievalSettings) (a : benchmark_arguments) :
    M (list (string * string)) :=
  if ba_configured a then
    _ ← lift_result (create_production_retrieval_service platform s);
    mret (settings_profile s)
  else
    match ba_document a with
    | None => raise system_exit
    | Some (name, payload) =>
        _ ← lift_result (create_metric_retrieval_service (offline_settings s));
        _ ← invoke (Ingest "Northwind" name payload) (command_ingest "Northwind" name payload);
        mret offline_profile
    end.

Definition benchmark_main (platform : PlatformDatabaseSettings) (s : RetrievalSettings) (a : benchmark_arguments) :
    M (list (string * string) * list bench_report) :=
  profile ← benchmark_service platform s a;
  cases ← lift_result (ba_cases a);
  reports ← relabel RagCall (benchmark cases MODES (ba_embedding_price a) (ba_reranker_price a));
  mret (profile, reports).

(** The profile shows no address and no key. *)
Lemma settings_profile_public s :
  ∀ k v, (k, v) ∈ settings_profile s → contains "url" k = false ∧ contains "api_key" k = false.
Proof.
  intros k v. unfold settings_profile. rewrite list_elem_of_In, filter_In. cbn [fst].
  intros [Hin Hurl%negb_true_iff]. split; [exact Hurl|]. cbn [settings_fields In] in Hin.
  repeat (destruct Hin as [[= <- _]|Hin]; [vm_compute; reflexivity|]). done.
Qed.

(** The benchmark of the command asks each case once in each of the four
    modes, after one document was ingested when it runs offline, where it
    needs one. *)
Lemma benchmark_command_runs platform s a :
  sat (benchmark_main platform s a) (λ t r,
    (t = [] ∧ is_ok r = false) ∨
    ∃ before questions, t = before ++ map RagCall questions ∧
      (if ba_configured a then before = []
       else ∃ name payload, ba_document a = Some (name, payload) ∧ before = [Ingest "Northwind" name payload]) ∧
      ∀ profile reports, r = Ok (profile, reports) → ∃ cases ts, ba_cases a = Ok cases ∧
        questions = List.concat ts ∧ Forall3 (bench_story cases) MODES ts reports).
Proof.
  unfold benchmark_main, benchmark_service. apply sat_bind. destruct (ba_configured a) eqn:Hc.
  - apply sat_bind, sat_lift. destruct (create_production_retrieval_service _ _); [|by left]. apply sat_ret.
    apply sat_bind, sat_lift. destruct (ba_cases a) as [cases|e]; [|by left].
    apply sat_bind, sat_relabel. refine (sat_conseq _ _ _ (for_modes_run _ _ _ (bench_mode_run cases _ _)) _).
    intros t [reports|e] Hr; [apply sat_ret|]; right; exists [], t; cbn [app]; rewrite ?app_nil_r; (split_and!; [done..|]);
      [|done]. intros profile reports' [= <- <-]. destruct (Hr _ eq_refl) as (ts & -> & Hall). eauto.
  - destruct (ba_document a) as [[name payload]|]; [|apply sat_raise; by left].
    apply sat_bind, sat_lift. destruct (create_metric_retrieval_service _); [|by left].
    apply sat_bind, sat_invoke. intros [[]|e].
    2:{ right. exists [Ingest "Northwind" name payload], []. split_and!; [done|eauto|done]. }
    apply sat_ret. apply sat_bind, sat_lift. destruct (ba_cases a) as [cases|e].
    2:{ right. exists [Ingest "Northwind" name payload], []. split_and!; [done|eauto|done]. }
    apply sat_bind, sat_relabel. refine (sat_conseq _ _ _ (for_modes_run _ _ _ (bench_mode_run cases _ _)) _).
    intros t [reports|e] Hr; [apply sat_ret|]; right; exists [Ingest "Northwind" name payload], t;
      cbn [app]; rewrite ?app_nil_r; (split_and!; [done|eauto|]); [|done].
    intros profile reports' [= <- <-]. destruct (Hr _ eq_refl) as (ts & -> & Hall). eauto.
Qed.
End BenchmarkCommand.

(** ** Concrete runs *)

(** The snapshot of the demo catalog, printed; a file that holds it and one
    that holds another dataset's. *)
Definition demo_business_config : DataSourceConfig :=
  match from_settings BusinessDatabaseSettings_default with Ok c => c | Err _ => demo_config end.
Definition printed_snapshot : SchemaSnapshot :=
  match outcome (introspect (H := demo_catalog_driver) demo_business_config) 0 with
  | Ok s => s | Err _ => demo_catalog "id" end.
Definition demo_files : Files nat := λ path w,
  (w, if String.eqb path "snapshot.json" then Ok (rendered printed_snapshot)
      else if String.eqb path "other.json" then Ok (rendered (demo_catalog "id"))
      else Err (OtherException "FileNotFoundError")).
Definition demo_metadata_main (check : option string) : eff nat operator_call exn Z :=
  metadata_main (H0 := demo_catalog_driver) (H1 := demo_files) BusinessDatabaseSettings_default check.

Lemma metadata_check_exact_witness :
  outcome (demo_metadata_main None) 0 = Ok 0%Z ∧
  outcome (demo_metadata_main (Some "snapshot.json")) 0 = Ok 0%Z ∧
  outcome (demo_metadata_main (Some "other.json")) 0 = Err system_exit.
Proof.
  pose proof (metadata_check_exact demo_digests nat demo_catalog_driver demo_files BusinessDatabaseSettings_default
    demo_business_config 0 eq_refl) as Hmain.
  assert (outcome (introspect (H := demo_catalog_driver) demo_business_config) 0 = Ok printed_snapshot) as Hs
    by (vm_compute; reflexivity).
  rewrite Hs in Hmain. destruct Hmain as (Hnone & _ & Hcheck). split_and!; [exact Hnone| |].
  - apply (Hcheck "snapshot.json" printed_snapshot); [by intros w|done].
  - apply (Hcheck "other.json" (demo_catalog "id")); [by intros w|]. vm_compute. discriminate.
Defined.

(** An import of the demo catalog: the driver is opened for it and closed at
    the end, also when the store cannot be set up. *)
Definition demo_neo4j (available : bool) : Neo4j unit := {|
  open_session _ w := (w, if available then Ok tt else Err Neo4jServiceUnavailable);
  close_session w := (w, Ok tt); run _ _ w := (w, Ok []);
  execute_write function := _ ← log_call CallBegin; finally function (λ ok, log_call (CallEnd ok));
  node_validate _ := Err ValidationError; edge_validate _ := Err ValidationError;
  subgraph_validate _ := Err ValidationError |}.
Definition demo_import_env (available : bool) : ImportEnv unit := {|
  import_neo4j := demo_neo4j available; import_files := λ _ w, (w, Ok EmptyString);
  open_driver _ _ _ w := (w, Ok tt); close_driver w := (w, Ok tt); import_clock w := (w, "now") |}.
Definition demo_import_run (available : bool) : eff unit operator_call exn unit :=
  import_main (H1 := demo_import_env available) (λ _, Ok (demo_catalog "customer_id")) (λ s, s) (λ _, "1.0")
    GraphSettings_default "metadata.json" "t1".

Example import_runs_examples :
  outcome (demo_import_run true) tt = Ok tt ∧
  last (removelast (trace (demo_import_run true) tt))
    = Some (PrintText ("Imported 6 nodes and 6 edges; source=" +:+ xr_source_id demo_request)) ∧
  last (trace (demo_import_run true) tt) = Some CloseDriver ∧
  outcome (demo_import_run false) tt = Err Neo4jServiceUnavailable ∧
  last (trace (demo_import_run false) tt) = Some CloseDriver.
Proof. vm_compute. done. Qed.

(** Offline without a document, the benchmark stops at once. *)
Example benchmark_needs_document :
  outcome (benchmark_main (H0 := baseline_env) (λ _, "") PlatformDatabaseSettings_default RetrievalSettings_default
    {| ba_configured := false; ba_document := None; ba_cases := Ok []; ba_embedding_price := None;
       ba_reranker_price := None |}) (demo_cache, new_repository) = Err system_exit.
Proof. reflexivity. Qed.
