(* ===== verification/Evidence.v ===== *)
(** * Portfolio evidence: [scripts/verify-portfolio-evidence.py] and the
      report that [evaluation/cli.py] writes

    The JSON text of an evaluation report, and the checks that the script
    makes of it, of the performance report and of the README.  pydantic's
    text of a float is a parameter. *)

From S2P Require Import Prelude PyStr Floats Errors Json Metadata Policy Numbers DataSources Executor.
From S2P Require Import StructuredLLM NL2SQL QuestionGuard JsonText Parsing Embeddings KnowledgeRepository.
From S2P Require Import RetrievalService PyText Decimal Settings Rounding Evaluation EvaluationRunner.
From S2P Require Import RetrievalEvaluation Commands Operators.

(** ** The report's text *)

(** A float as a JSON number, or as [null] when it has none. *)
Class JsonFloats := {
  json_float : float → pyval;
  json_float_plain : ∀ x, plain_json (json_float x)
}.

Definition dump_opt {A} (f : A → pyval) (o : option A) : pyval := match o with Some a => f a | None => PNone end.
Definition evaluation_mode_name (m : EvaluationMode) : string :=
  match m with ScriptedGoldReplay => "scripted_gold_replay" | ConfiguredModel => "configured_model" end.
Definition case_kind_name (k : CaseKind) : string :=
  match k with NL2SQLKind => "nl2sql" | DangerousKind => "dangerous" end.

Section Report.
Context `{JsonFloats}.

Definition dump_case (r : EvaluationCaseResult) : pyval :=
  PDict [("case_id", PStr (er_case_id r)); ("kind", PStr (case_kind_name (er_kind r)));
         ("passed", PBool (er_passed r)); ("execution_correct", dump_opt PBool (er_execution_correct r));
         ("safe_query_passed", dump_opt PBool (er_safe_query_passed r));
         ("blocked", dump_opt PBool (er_blocked r)); ("first_pass", dump_opt PBool (er_first_pass r));
         ("repair_count", dump_opt PInt (er_repair_count r)); ("latency_ms", PInt (er_latency_ms r));
         ("input_tokens", dump_opt PInt (er_input_tokens r));
         ("output_tokens", dump_opt PInt (er_output_tokens r));
         ("total_tokens", dump_opt PInt (er_total_tokens r));
         ("estimated_cost_usd", dump_opt json_float (er_estimated_cost_usd r));
         ("failure_category", opt_str (er_failure_category r)); ("failure_code", opt_str (er_failure_code r))].

Definition dump_counts (l : list (string * Z)) : pyval := PDict (map (λ kv, (kv.1, PInt kv.2)) l).

Definition dump_metrics (m : EvaluationMetrics) : pyval :=
  PDict [("nl2sql_cases", PInt (em_nl2sql_cases m)); ("dangerous_cases", PInt (em_dangerous_cases m));
         ("execution_accuracy", json_float (em_execution_accuracy m));
         ("safe_query_pass_rate", json_float (em_safe_query_pass_rate m));
         ("dangerous_query_block_rate", json_float (em_dangerous_query_block_rate m));
         ("end_to_end_success_rate", json_float (em_end_to_end_success_rate m));
         ("first_generation_success_rate", json_float (em_first_generation_success_rate m));
         ("repaired_success_rate", dump_opt json_float (em_repaired_success_rate m));
         ("mean_latency_ms", json_float (em_mean_latency_ms m)); ("p95_latency_ms", PInt (em_p95_latency_ms m));
         ("average_total_tokens", dump_opt json_float (em_average_total_tokens m));
         ("average_estimated_cost_usd", dump_opt json_float (em_average_estimated_cost_usd m));
         ("failures_by_category", dump_counts (em_failures_by_category m));
         ("failures_by_code", dump_counts (em_failures_by_code m))].

Definition dump_mode_report (r : RetrievalModeReport) : pyval :=
  PDict [("mode", PStr (mode_name (mr_mode r))); ("total_cases", PInt (mr_total_cases r));
         ("answerable_cases", PInt (mr_answerable_cases r)); ("refusal_cases", PInt (mr_refusal_cases r));
         ("recall_at_5", json_float (mr_recall_at_5 r)); ("mrr", json_float (mr_mrr r));
         ("citation_hit_rate", json_float (mr_citation_hit_rate r));
         ("refusal_accuracy", json_float (mr_refusal_accuracy r))].
Definition dump_rag (r : RAGEvaluationReport) : pyval :=
  PDict [("dataset_version", PStr (rr_dataset_version r)); ("cases", PInt (rr_cases r));
         ("reports", PList (map dump_mode_report (rr_reports r)))].

Definition dump_report (generated_at : string) (r : P10EvaluationReport) (rag : RAGEvaluationReport) : pyval :=
  PDict [("report_version", PStr "1.0"); ("generated_at", PStr generated_at);
         ("dataset_version", PStr (rp_dataset_version r));
         ("evaluation_mode", PStr (evaluation_mode_name (rp_mode r)));
         ("real_model_evaluation", PBool (rp_real_model_evaluation r)); ("provider", PStr (rp_provider r));
         ("model", PStr (rp_model r)); ("metrics", dump_metrics (rp_metrics r)); ("rag", dump_rag rag);
         ("cases", PList (map dump_case (rp_cases r))); ("limitations", str_list (rp_limitations r))].

(** [report.model_dump_json(indent=2)]. *)
Definition report_text (generated_at : string) (r : P10EvaluationReport) (rag : RAGEvaluationReport) : string :=
  dumps_indent 0 (dump_report generated_at r rag).
End Report.

(** ** The script *)

Definition REQUIRED_FILES : list string := [
  "README.md"; "docker-compose.full.yml"; "platform-api/Dockerfile"; "agent-service/Dockerfile"; "web/Dockerfile";
  "performance/k6/p11-platform-and-sse.js"; "docs/stage-11-observability-deployment.md";
  "docs/stage-12-portfolio-handoff.md"; "docs/demo-script.md"; "docs/resume-evidence.md";
  "docs/adr/0001-java-python-boundary.md"; "docs/adr/0002-no-arbitrary-code-execution.md";
  "docs/adr/0003-hybrid-metric-retrieval.md"; "evaluation/northwind/p10-offline-baseline.json";
  "evaluation/p11-local-performance.json"].
Definition required_headings : list string := [
  "## 30 秒介绍"; "## 架构与请求时序"; "## 安全边界"; "## 可复现评测"; "## 三个演示问题"; "## 已知限制";
  "## 灵感与独立实现声明"].

Definition assertion_error : exn := OtherException "AssertionError".
Definition asserted (b : bool) : result exn unit := ensure b assertion_error.

(** [v >= z] and [v > z] for a small integer [z]. *)
Definition py_at_least (v : pyval) (z : Z) : result exn bool :=
  match number_value v with
  | Some (inl x) => Ok (z <=? x)%Z
  | Some (inr x) => Ok (fleb (f_of_Z z) x)
  | None => Err TypeError
  end.
Definition py_above (v : pyval) (z : Z) : result exn bool :=
  match number_value v with
  | Some (inl x) => Ok (z <? x)%Z
  | Some (inr x) => Ok (fltb (f_of_Z z) x)
  | None => Err TypeError
  end.
Definition is_bool (b : bool) (v : pyval) : bool :=
  match v with PBool b' => Bool.eqb b b' | _ => false end.

Definition check_report (text : string) : result exn (pyval * pyval * pyval) :=
  report ← json_loads text;
  metrics ← get_key report "metrics";
  mode ← get_key report "evaluation_mode";
  _ ← asserted (py_eq mode (PStr "scripted_gold_replay"));
  real ← get_key report "real_model_evaluation";
  _ ← asserted (is_bool false real);
  nl2sql ← get_key metrics "nl2sql_cases"; enough ← py_at_least nl2sql 50; _ ← asserted enough;
  dangerous ← get_key metrics "dangerous_cases"; enough ← py_at_least dangerous 20; _ ← asserted enough;
  rag ← get_key report "rag"; rag_cases ← get_key rag "cases"; enough ← py_at_least rag_cases 20; _ ← asserted enough;
  Ok (nl2sql, dangerous, rag_cases).

Definition check_performance (text : string) : result exn unit :=
  performance ← json_loads text;
  scenario ← get_key performance "scenario";
  calls ← get_key scenario "external_model_calls"; _ ← asserted (py_eq calls (PInt 0));
  iterations ← get_key scenario "completed_iterations"; some ← py_above iterations 0; _ ← asserted some;
  thresholds ← get_key performance "thresholds"; passed ← get_key thresholds "passed"; asserted (is_bool true passed).

Definition check_headings (readme : string) : result exn unit :=
  ensure (forallb (λ heading, contains heading readme) required_headings) system_exit.

Definition verified `{PyText} (counts : pyval * pyval * pyval) : string :=
  let '(nl2sql, dangerous, rag) := counts in
  "P12 evidence verified: " +:+ py_str nl2sql +:+ " NL2SQL, " +:+ py_str dangerous +:+ " dangerous, "
    +:+ py_str rag +:+ " RAG cases".

Class Repository (W : Type) := {
  is_file : string → W → W * bool;
  repository_files :: Files W
}.

Section Script.
Context `{PyText} {W : Type} `{Repository W}.
Notation M := (eff W operator_call exn).

Fixpoint missing_files (paths : list string) : M (list string) :=
  match paths with
  | [] => mret []
  | path :: paths =>
      found ← silent (is_file path);
      rest ← missing_files paths;
      mret (if (found : bool) then rest else path :: rest)
  end.

Definition read_evidence (path : string) : M string := invoke (ReadText path) (read_text path).

Definition verify_main : M unit :=
  missing ← missing_files REQUIRED_FILES;
  _ ← lift_result (ensure (bool_decide (missing = [])) system_exit);
  report ← read_evidence "evaluation/northwind/p10-offline-baseline.json";
  counts ← lift_result (check_report report);
  performance ← read_evidence "evaluation/p11-local-performance.json";
  _ ← lift_result (check_performance performance);
  readme ← read_evidence "README.md";
  _ ← lift_result (check_headings readme);
  log_call (PrintText (verified counts)).
End Script.

(** ** What a report's text says *)

Section ReportLemmas.
Context `{JsonFloats}.

Lemma plain_opt {A} (f : A → pyval) o : (∀ a, plain_json (f a)) → plain_json (dump_opt f o).
Proof. intros Hf. destruct o; [apply Hf|done]. Qed.

Lemma plain_counts l : NoDup l.*1 → plain_json (dump_counts l).
Proof.
  intros Hnd. assert ((map (λ kv : string * Z, (kv.1, PInt kv.2)) l).*1 = l.*1) as Hk.
  { induction l as [|[k z] l IH]; cbn; [done|]. f_equal. apply IH. by apply NoDup_cons in Hnd as [_ ?]. }
  apply plain_dict; [apply all_distinct_spec; by rewrite Hk|].
  apply Forall_forall. by intros ? (kv & -> & _)%elem_of_map.
Qed.

Ltac plain_record :=
  apply plain_dict; [reflexivity|];
  repeat (apply Forall_cons_2; cbn [snd]); try apply Forall_nil_2;
  try first [done | apply json_float_plain | apply plain_opt_str | apply plain_str_list
            | apply plain_opt; first [done | apply json_float_plain]].

Lemma plain_case r : plain_json (dump_case r).
Proof. plain_record. Qed.
Lemma plain_metrics m :
  NoDup (em_failures_by_category m).*1 → NoDup (em_failures_by_code m).*1 → plain_json (dump_metrics m).
Proof. intros Hc Hd. plain_record; by apply plain_counts. Qed.
Lemma plain_rag r : plain_json (dump_rag r).
Proof. plain_record. apply plain_list. intros x. plain_record. Qed.
Lemma plain_report at_ r rag :
  NoDup (em_failures_by_category (rp_metrics r)).*1 → NoDup (em_failures_by_code (rp_metrics r)).*1 →
  plain_json (dump_report at_ r rag).
Proof.
  intros Hc Hd. plain_record; [by apply plain_metrics|apply plain_rag|apply plain_list, plain_case].
Qed.
End ReportLemmas.

Lemma loads_indent v : plain_json v → json_loads (dumps_indent 0 v) = Ok v.
Proof.
  intros [Hok Hview]. unfold json_loads.
  pose proof (loads_layout _ _ EmptyString EmptyString (dumps_indent_layout _ 0 Hok) eq_refl eq_refl) as Hl.
  rewrite str_app_nil, str_app_nil_r in Hl. by rewrite Hl, Hview.
Qed.

(** ** What the evaluation counts *)

(** Every result of [m] satisfies [P]. *)
Definition ends {W C A} (P : A → Prop) (m : eff W C exn A) : Prop := sat m (λ _ r, ∀ x, r = Ok x → P x).

Section Ends.
Context {W C : Type}.
Lemma ends_bind {A B} (m : eff W C exn A) (f : A → eff W C exn B) P : (∀ a, ends P (f a)) → ends P (m ≫= f).
Proof.
  intros Hf. apply sat_bind. intros w. destruct (outcome m w) as [a|e]; [|done].
  intros w'. exact (Hf a w').
Qed.
Lemma ends_lift {A} (r : result exn A) (P : A → Prop) :
  (∀ x, r = Ok x → P x) → ends P (lift_result r : eff W C exn A).
Proof. intros Hr. by apply sat_lift. Qed.
Lemma ends_ret {A} (a : A) (P : A → Prop) : P a → ends P (mret a : eff W C exn A).
Proof. intros Ha. apply sat_ret. by intros x [= <-]. Qed.
End Ends.

Section Counts.
Context `{PyUnicode} {W : Type} `{EvalEnv W}.

Lemma made_kind r x : EvaluationCaseResult_make r = Ok x → er_kind x = er_kind r.
Proof. unfold EvaluationCaseResult_make. destruct (EvaluationCaseResult_ok r); [by intros [= <-]|done]. Qed.

Lemma failed_kind id started category code :
  ends (λ x, er_kind x = NL2SQLKind) (_failed_case id started category code : eff W eval_call exn _).
Proof. apply ends_bind. intros latency. apply ends_lift. by intros x ->%made_kind. Qed.

Lemma nl2sql_kind ip op policy c :
  ends (λ x, er_kind x = NL2SQLKind) (_evaluate_nl2sql_case ip op policy c : eff W eval_call exn _).
Proof.
  do 2 (apply ends_bind; intros ?). destruct a0 as [expected|e]; [|apply failed_kind].
  apply ends_bind. intros [candidate|e]; [|destruct (_classify_failure e); apply failed_kind].
  do 2 (apply ends_bind; intros ?). apply ends_lift. by intros x ->%made_kind.
Qed.

Lemma dangerous_kind c :
  ends (λ x, er_kind x = DangerousKind) (_evaluate_dangerous_case c : eff W eval_call exn _).
Proof.
  apply ends_bind. intros started. destruct (QuestionGuard.inspect _) as [q|e].
  { apply ends_bind. intros latency. apply ends_lift. by intros x ->%made_kind. }
  destruct e; try (by apply sat_raise).
  apply ends_bind. intros latency. apply ends_lift. by intros x ->%made_kind.
Qed.

Lemma evaluate_all_kinds {A} k (evaluate : A → eff W eval_call exn EvaluationCaseResult) cases :
  (∀ c, ends (λ x, er_kind x = k) (evaluate c)) →
  ends (λ xs, length xs = length cases ∧ Forall (λ x, er_kind x = k) xs) (evaluate_all evaluate cases).
Proof.
  intros Hk. induction cases as [|c cases IH]; cbn [evaluate_all]; [by apply ends_ret|].
  apply sat_bind. refine (sat_conseq _ _ _ (Hk c) _). intros t [x|e] Hx; [|done].
  apply sat_bind. refine (sat_conseq _ _ _ IH _). intros t' [xs|e] Hxs; [|done].
  apply sat_ret. intros ys [= <-]. destruct (Hxs xs eq_refl) as [Hl Hall]. split; [cbn; by rewrite Hl|].
  constructor; auto.
Qed.

Lemma filter_kind k k' l :
  Forall (λ x, er_kind x = k) l →
  List.filter (λ c, bool_decide (er_kind c = k')) l = if decide (k = k') then l else [].
Proof.
  induction 1 as [|x l Hx Hl IH]; cbn; [by case_decide|]. rewrite IH, Hx.
  destruct (decide (k = k')) as [-> |Hne]; [by rewrite bool_decide_true|by rewrite bool_decide_false].
Qed.

Lemma build_metrics_counts answered blocked m :
  Forall (λ x, er_kind x = NL2SQLKind) answered → Forall (λ x, er_kind x = DangerousKind) blocked →
  build_metrics (answered ++ blocked) = Ok m →
  em_nl2sql_cases m = Z.of_nat (length answered) ∧ em_dangerous_cases m = Z.of_nat (length blocked) ∧
  NoDup (em_failures_by_category m).*1 ∧ NoDup (em_failures_by_code m).*1.
Proof.
  intros Ha Hb. unfold build_metrics. rewrite !List.filter_app.
  rewrite (filter_kind _ NL2SQLKind answered Ha), (filter_kind _ NL2SQLKind blocked Hb).
  rewrite (filter_kind _ DangerousKind answered Ha), (filter_kind _ DangerousKind blocked Hb). cbn [decide].
  rewrite !decide_True, !decide_False by done.
  rewrite app_nil_r. cbn [app]. cbv zeta.
  do 12 (match goal with |- mbind _ ?m = _ → _ => destruct m as [?|?]; [|done] end; cbn [mbind result_bind]).
  unfold EvaluationMetrics_make. destruct (EvaluationMetrics_ok _); [|done]. intros [= <-].
  cbn [em_nl2sql_cases em_dangerous_cases em_failures_by_category em_failures_by_code].
  split_and!; try done; apply sorted_counts_spec.
Qed.

(** The counts of a report, and which evaluation it says it was. *)
Definition report_counts (n d : nat) (mode : EvaluationMode) (r : P10EvaluationReport) : Prop :=
  em_nl2sql_cases (rp_metrics r) = Z.of_nat n ∧ em_dangerous_cases (rp_metrics r) = Z.of_nat d ∧
  NoDup (em_failures_by_category (rp_metrics r)).*1 ∧ NoDup (em_failures_by_code (rp_metrics r)).*1 ∧
  rp_mode r = mode ∧ rp_real_model_evaluation r = is_configured mode.

Lemma evaluate_p10_counts parse cases dangerous snapshot version mode configured provider model ip op :
  ends (report_counts (length cases) (length dangerous) mode)
    (evaluate_p10 parse cases dangerous snapshot version mode configured provider model ip op
     : eff W eval_call exn P10EvaluationReport).
Proof.
  unfold evaluate_p10. apply ends_bind. intros _. apply ends_bind. intros [[client p] m].
  do 2 (apply ends_bind; intros _). apply ends_bind. intros policy.
  apply sat_bind. refine (sat_conseq _ _ _ (evaluate_all_kinds _ _ cases (nl2sql_kind ip op policy)) _).
  intros t [answered|e] Ha; [|done]. destruct (Ha _ eq_refl) as [Hla Hka].
  apply sat_bind. refine (sat_conseq _ _ _ (evaluate_all_kinds _ _ dangerous dangerous_kind) _).
  intros t' [blocked|e] Hb; [|done]. destruct (Hb _ eq_refl) as [Hlb Hkb].
  apply sat_bind, sat_lift. destruct (build_metrics _) as [metrics|e] eqn:Hm; [|done].
  apply sat_ret. intros x [= <-]. destruct (build_metrics_counts _ _ _ Hka Hkb Hm) as (Hn & Hd & ? & ?).
  unfold report_counts. cbn. by rewrite Hn, Hd, Hla, Hlb.
Qed.
End Counts.

(** ** The script on a report *)

(** What [assert] makes of the three counts. *)
Definition enough_cases (n d rag : Z) : bool := ((50 <=? n) && (20 <=? d) && (20 <=? rag))%Z.

Lemma check_report_text `{JsonFloats} at_ r rag :
  NoDup (em_failures_by_category (rp_metrics r)).*1 → NoDup (em_failures_by_code (rp_metrics r)).*1 →
  let n := em_nl2sql_cases (rp_metrics r) in
  let d := em_dangerous_cases (rp_metrics r) in
  check_report (report_text at_ r rag) =
    if negb (is_configured (rp_mode r)) && negb (rp_real_model_evaluation r)
       && enough_cases n d (rr_cases rag)
    then Ok (PInt n, PInt d, PInt (rr_cases rag)) else Err assertion_error.
Proof.
  intros Hc Hd n d. unfold check_report, report_text. rewrite loads_indent by by apply plain_report.
  cbn [mbind result_bind]. set (v := dump_report at_ r rag). set (m := dump_metrics (rp_metrics r)).
  assert (get_key v "metrics" = Ok m ∧ get_key v "rag" = Ok (dump_rag rag) ∧
    get_key v "evaluation_mode" = Ok (PStr (evaluation_mode_name (rp_mode r))) ∧
    get_key v "real_model_evaluation" = Ok (PBool (rp_real_model_evaluation r))) as (-> & -> & -> & ->) by done.
  assert (get_key m "nl2sql_cases" = Ok (PInt n) ∧ get_key m "dangerous_cases" = Ok (PInt d)) as [Hn Hm] by done.
  cbn [mbind result_bind]. rewrite Hn, Hm. cbn [mbind result_bind]. unfold enough_cases, asserted.
  change (get_key (dump_rag rag) "cases") with (Ok (PInt (rr_cases rag)) : result exn pyval).
  destruct (rp_mode r); [|reflexivity]. destruct (rp_real_model_evaluation r); [reflexivity|].
  cbn. destruct (50 <=? n)%Z; [|reflexivity]. destruct (20 <=? d)%Z; [|reflexivity].
  by destruct (20 <=? rr_cases rag)%Z.
Qed.

Lemma p10_main_counts `{PyUnicode} {W : Type} `{CommandEnv W} parse business llm a :
  ends (λ x : P10EvaluationReport * RAGEvaluationReport, ∃ cases dangerous rag,
      pa_nl2sql a = Ok cases ∧ pa_dangerous a = Ok dangerous ∧ pa_rag a = Ok rag ∧ 50 ≤ length cases ∧
      20 ≤ length rag ∧ report_counts (length cases) (length dangerous) (pa_mode a) x.1 ∧
      rr_cases x.2 = Z.of_nat (length rag))
    (p10_main parse business llm a : eff W command_call exn _).
Proof.
  unfold p10_main. apply sat_bind, sat_lift. destruct (pa_nl2sql a) as [cases|e]; [|done].
  apply sat_bind, sat_lift. destruct (pa_dangerous a) as [dangerous|e]; [|done].
  apply sat_bind, sat_lift. destruct (Nat.leb_spec 50 (length cases)); cbn [ensure]; [|done].
  apply sat_bind, sat_lift. destruct (pa_rag a) as [rag|e]; [|done].
  apply sat_bind, sat_lift. destruct (Nat.leb_spec 20 (length rag)); cbn [ensure]; [|done].
  do 2 (apply ends_bind; intros _).
  apply sat_bind, sat_relabel. refine (sat_conseq _ _ _ (evaluate_modes_count rag _ _) _). intros t [x|e] Hx; [|done].
  do 3 (apply ends_bind; intros ?).
  apply sat_bind, sat_relabel. refine (sat_conseq _ _ _ (evaluate_p10_counts _ _ _ _ _ _ _ _ _ _ _) _).
  intros t' [r|e] Hr; [|done]. apply sat_ret. intros ? [= <-]. exists cases, dangerous, rag. split_and!; auto.
Qed.

(** C11: the report that the evaluation command writes is what the portfolio
    check asks for: whatever the cases answered, the report of a gold replay
    is accepted, with the sizes of the three data sets, exactly when the
    dangerous set has at least twenty cases (the command itself sees to the
    other two), and the report of a configured model never is. *)
Theorem replay_evidence_accepted : ∀ (U : PyUnicode) (F : JsonFloats) W (E : CommandEnv W) parse business llm a
    w report rag at_,
  outcome (p10_main parse business llm a) w = Ok (report, rag) →
  ∃ cases dangerous rag_cases,
    pa_nl2sql a = Ok cases ∧ pa_dangerous a = Ok dangerous ∧ pa_rag a = Ok rag_cases ∧
    check_report (report_text at_ report rag) =
      if negb (is_configured (pa_mode a)) && (20 <=? length dangerous)
      then Ok (PInt (Z.of_nat (length cases)), PInt (Z.of_nat (length dangerous)),
               PInt (Z.of_nat (length rag_cases)))
      else Err assertion_error.
Proof.
  intros U F W E parse business llm a w report rag at_ Hr.
  destruct (p10_main_counts parse business llm a w _ Hr)
    as (cases & dangerous & rags & Hc & Hd & Hg & H50 & H20 & (Hn & Hm & Hk1 & Hk2 & Hmode & Hreal) & Hrag).
  cbn [fst snd] in *. exists cases, dangerous, rags. split_and!; [done..|].
  rewrite check_report_text by done. rewrite Hn, Hm, Hmode, Hreal, Hrag. unfold enough_cases.
  rewrite (proj2 (Z.leb_le 50 (Z.of_nat (length cases)))), (proj2 (Z.leb_le 20 (Z.of_nat (length rags)))) by lia.
  assert ((20 <=? Z.of_nat (length dangerous))%Z = (20 <=? length dangerous)) as ->
    by (destruct (Nat.leb_spec 20 (length dangerous)); [apply Z.leb_le|apply Z.leb_gt]; lia).
  rewrite andb_true_r. by destruct (pa_mode a), (20 <=? length dangerous).
Qed.

(** ** The script on a checkout *)

(** A working tree that does not change while the script reads it. *)
Definition checkout (files : gmap string string) : Repository unit := {|
  is_file path w := (w, bool_decide (is_Some (files !! path)));
  repository_files path w :=
    (w, match files !! path with Some text => Ok text | None => Err (OtherException "FileNotFoundError") end) |}.

Lemma missing_files_checkout files paths :
  sat (missing_files (H0 := checkout files) paths) (λ t r, t = [] ∧
    r = Ok (List.filter (λ path, negb (bool_decide (is_Some (files !! path)))) paths)).
Proof.
  induction paths as [|path paths IH]; cbn [missing_files]; [by apply sat_ret|].
  intros w. unfold trace, outcome, mbind, eff_bind, silent. cbn [is_file checkout].
  specialize (IH w). unfold trace, outcome in IH. destruct (missing_files paths w) as [[w' t] r].
  cbn in IH |- *. destruct IH as [-> ->]. by destruct (bool_decide _).
Qed.

Lemma read_checkout files path text (Q : list operator_call → result exn string → Prop) :
  files !! path = Some text → Q [ReadText path] (Ok text) →
  sat (read_evidence (H0 := checkout files) path) Q.
Proof.
  intros Hf HQ. apply sat_invoke_op. intros w w' r. cbn. rewrite Hf. by intros [= _ <-].
Qed.

(** What the script makes of a tree, and what it asks of one. *)
Definition evidence_of (files : gmap string string) : result exn (pyval * pyval * pyval) :=
  _ ← ensure (forallb (λ path, bool_decide (is_Some (files !! path))) REQUIRED_FILES) system_exit;
  counts ← check_report (default "" (files !! "evaluation/northwind/p10-offline-baseline.json"));
  _ ← check_performance (default "" (files !! "evaluation/p11-local-performance.json"));
  _ ← check_headings (default "" (files !! "README.md"));
  Ok counts.

Lemma filter_none {A} (p : A → bool) l :
  bool_decide (List.filter (λ x, negb (p x)) l = []) = forallb p l.
Proof.
  induction l as [|x l IH]; cbn; [done|]. by destruct (p x).
Qed.

(** The script prints its one line exactly when the tree has the files and
    their contents pass, and otherwise ends with the first failure, having
    printed nothing. *)
Theorem script_verifies_checkout : ∀ (T : PyText) files,
  let m := verify_main (H0 := checkout files) in
  match evidence_of files with
  | Ok counts => outcome m tt = Ok tt ∧ last (trace m tt) = Some (PrintText (verified counts))
  | Err e => outcome m tt = Err e ∧ ∀ text, PrintText text ∉ trace m tt
  end.
Proof.
  intros T files m. enough (sat m (λ t r, match evidence_of files with
    | Ok counts => r = Ok tt ∧ last t = Some (PrintText (verified counts))
    | Err e => r = Err e ∧ ∀ text, PrintText text ∉ t end)) as Hm by apply (Hm tt).
  unfold evidence_of, m, verify_main. apply sat_bind.
  refine (sat_conseq _ _ _ (missing_files_checkout files _) _). intros t r [-> ->].
  apply sat_bind, sat_lift. rewrite filter_none.
  destruct (forallb _ REQUIRED_FILES) eqn:Hfiles; cbn [ensure mbind result_bind app]; [|split; [done|set_solver]].
  assert (∀ path, path ∈ REQUIRED_FILES → ∃ text, files !! path = Some text) as Hf.
  { rewrite list_forallb_spec in Hfiles. intros path Hp. by apply Hfiles, bool_decide_eq_true_1 in Hp. }
  destruct (Hf "evaluation/northwind/p10-offline-baseline.json") as [report Hr]; [by apply mem_spec|].
  destruct (Hf "evaluation/p11-local-performance.json") as [performance Hp]; [by apply mem_spec|].
  destruct (Hf "README.md") as [readme Hm]; [by apply mem_spec|]. rewrite Hr, Hp, Hm.
  cbn [default from_option id].
  apply sat_bind, (read_checkout files _ _ _ Hr). apply sat_bind, sat_lift.
  destruct (check_report report) as [counts|e]; cbn [mbind result_bind]; [|split; [done|set_solver]].
  apply sat_bind, (read_checkout files _ _ _ Hp). apply sat_bind, sat_lift.
  destruct (check_performance performance) as [[]|e]; cbn [mbind result_bind]; [|split; [done|set_solver]].
  apply sat_bind, (read_checkout files _ _ _ Hm). apply sat_bind, sat_lift.
  destruct (check_headings readme) as [[]|e]; cbn [mbind result_bind]; [|split; [done|set_solver]].
  by apply sat_log.
Qed.

(** ** A concrete replay *)

Definition demo_floats : JsonFloats.
Proof. refine {| json_float _ := PFloat "1.0" |}. by intros x. Defined.

Definition evidence_bench : RetrievalBench unit := {|
  bench_retrieve q m w := (w, Ok {| res_query := q; res_mode := m; res_corpus_revision := "r"; res_hits := [];
    res_citations := []; res_should_answer := false |});
  bench_usage w := (w, {| uc_input_tokens := None; uc_embedding_requests := 0; uc_reranker_requests := 0 |});
  bench_clock w := (w, fzero) |}.
Definition evidence_env : CommandEnv unit := {|
  command_bench := evidence_bench; command_eval := constant_env no_usage; command_ingest _ _ _ w := (w, Ok tt) |}.
Definition evidence_arguments (dangerous : nat) : p10_arguments := {|
  pa_nl2sql := Ok (repeat (replay_case "nw001" "SELECT 7 AS n FROM customers") 50);
  pa_dangerous := Ok (repeat {| dc_id := "dq001"; dc_question := "drop table customers";
    dc_expected_reason_code := "WRITE_REQUEST_NOT_ALLOWED"; dc_tags := ["write"] |} dangerous);
  pa_rag := Ok (repeat {| rg_id := "q1"; rg_question := "weather"; rg_relevant_sections := []; rg_answerable := false |} 20);
  pa_document_name := "m.md"; pa_document := "m"; pa_snapshot := Ok demo_snapshot; pa_mode := ScriptedGoldReplay;
  pa_allow_external_model := false; pa_input_price := None; pa_output_price := None |}.
Definition evidence_run (dangerous : nat) : result exn (P10EvaluationReport * RAGEvaluationReport) :=
  outcome (p10_main (H0 := evidence_env) (λ _, Ok ([], [])) BusinessDatabaseSettings_default LLMSettings_default
    (evidence_arguments dangerous)) tt.
Definition evidence_checked (dangerous : nat) : result exn (pyval * pyval * pyval) :=
  '(report, rag) ← evidence_run dangerous; check_report (report_text (H := demo_floats) "now" report rag).

(** Twenty dangerous cases are enough, nineteen are not. *)
Lemma replay_evidence_accepted_witness :
  evidence_checked 20 = Ok (PInt 50, PInt 20, PInt 20) ∧ evidence_checked 19 = Err assertion_error.
Proof.
  assert (∀ n, is_ok (evidence_run n) = true → evidence_checked n
    = if 20 <=? n then Ok (PInt 50, PInt (Z.of_nat n), PInt 20) else Err assertion_error) as Hn.
  { intros n Hok. unfold evidence_checked. destruct (evidence_run n) as [[report rag]|e] eqn:Hr; [|done].
    cbn [mbind result_bind].
    destruct (replay_evidence_accepted demo_unicode demo_floats unit evidence_env (λ _, Ok ([], []))
      BusinessDatabaseSettings_default LLMSettings_default (evidence_arguments n) tt report rag "now" Hr)
      as (cases & dangerous & rags & [= <-] & [= <-] & [= <-] & Hc).
    rewrite Hc. cbn [pa_mode evidence_arguments is_configured negb andb]. by rewrite !repeat_length. }
  split; [apply (Hn 20)|apply (Hn 19)]; vm_compute; reflexivity.
Defined.
